(** * exp: experiment lifecycle engine (main.go)

    A shallow embedding of the job submitter, the status poller with its
    two-tier status lookup, artifact discovery, the pattern filter, the
    transfer and the legacy-source synthesis of [main.go], followed by the
    properties the specification states about them.

    Go strings are byte sequences; they are modelled as [string] (a list of
    [ascii] bytes), and the functions of package [strings] work on the
    UTF-8 encoding as Go's do.  A Go function that returns [(value, error)]
    returns a pair whose second component is an [option Error], [None] for
    [nil].

    External commands, the experiment database, the clock and the local
    file system are the environment of the program.  They are gathered in a
    [World] of oracles; every effect the program performs (an ssh process,
    an rsync process, the creation of a directory, a pause, an SQL
    statement) is appended to an event log that is threaded through the
    code together with the table of experiments.  What the program prints
    is not modelled.  The polling loop of [monitorExperiment] has no bound;
    its body is [pollOnce] and the loop is [pollLoop], cut off after a
    given number of passes. *)

From Stdlib Require Import ZArith NArith List String Ascii Bool Lia.
From Stdlib Require Import Numbers.DecimalString.
Import ListNotations.
Local Open Scope string_scope.
Local Open Scope list_scope.

(* ===================================================================== *)
(** ** The parts of Go's [strings] package used by main.go *)
(* ===================================================================== *)

Module GoStrings.

Definition code (c : ascii) : N := N_of_ascii c.

Definition LF : string := String (ascii_of_N 10) EmptyString.
Definition TAB : string := String (ascii_of_N 9) EmptyString.

Fixpoint strRev (s : string) : string :=
  match s with
  | EmptyString => EmptyString
  | String c r => (strRev r ++ String c EmptyString)%string
  end.

Definition isEmpty (s : string) : bool :=
  match s with EmptyString => true | _ => false end.

(** [asciiSpace] of package strings: tab, line feed, vertical tab, form
    feed, carriage return and space. *)
Definition isAsciiSpace (c : ascii) : bool :=
  let n := code c in
  ((9 <=? n) && (n <=? 13) || (n =? 32))%N.

(** The three-byte UTF-8 encodings of the code points for which
    [unicode.IsSpace] holds: U+1680, U+2000..U+200A, U+2028, U+2029,
    U+202F, U+205F and U+3000. *)
Definition isSpace3 (c d e : N) : bool :=
  ((c =? 0xE1) && (d =? 0x9A) && (e =? 0x80)
   || (c =? 0xE2) && (d =? 0x80)
        && ((0x80 <=? e) && (e <=? 0x8A) || (e =? 0xA8) || (e =? 0xA9) || (e =? 0xAF))
   || (c =? 0xE2) && (d =? 0x81) && (e =? 0x9F)
   || (c =? 0xE3) && (d =? 0x80) && (e =? 0x80))%N.

(** The two-byte encodings of U+0085 and U+00A0. *)
Definition isSpace2 (c d : N) : bool :=
  ((c =? 0xC2) && ((d =? 0x85) || (d =? 0xA0)))%N.

(** Number of bytes of the white-space rune that starts [s]; 0 when [s]
    does not start with one.  A lead byte is never consumed by the decoding
    of an earlier rune, so a byte pattern below is a white-space rune
    wherever it occurs. *)
Definition spaceWidth (s : string) : nat :=
  match s with
  | EmptyString => 0
  | String c r =>
      if isAsciiSpace c then 1 else
      match r with
      | EmptyString => 0
      | String d r' =>
          if isSpace2 (code c) (code d) then 2 else
          match r' with
          | EmptyString => 0
          | String e _ => if isSpace3 (code c) (code d) (code e) then 3 else 0
          end
      end
  end.

(** The same on a reversed string: number of bytes of the white-space rune
    that ends the original string ([utf8.DecodeLastRuneInString]). *)
Definition spaceWidthRev (s : string) : nat :=
  match s with
  | EmptyString => 0
  | String e r =>
      if isAsciiSpace e then 1 else
      match r with
      | EmptyString => 0
      | String d r' =>
          if isSpace2 (code d) (code e) then 2 else
          match r' with
          | EmptyString => 0
          | String c _ => if isSpace3 (code c) (code d) (code e) then 3 else 0
          end
      end
  end.

(** Drop runes from the front of [s] while [width] recognises one; [skip]
    counts the bytes of the current rune still to be dropped. *)
Fixpoint dropRunes (width : string -> nat) (skip : nat) (s : string) : string :=
  match s with
  | EmptyString => EmptyString
  | String _ r =>
      match skip with
      | S k => dropRunes width k r
      | O =>
          match width s with
          | O => s
          | S k => dropRunes width k r
          end
      end
  end.

Definition TrimLeftSpace (s : string) : string := dropRunes spaceWidth 0 s.

Definition TrimRightSpace (s : string) : string :=
  strRev (dropRunes spaceWidthRev 0 (strRev s)).

(** [strings.TrimSpace]: leading, then trailing white space removed. *)
Definition TrimSpace (s : string) : string := TrimRightSpace (TrimLeftSpace s).

Definition isLowerAscii (c : ascii) : bool :=
  let n := code c in ((97 <=? n) && (n <=? 122))%N.

Definition upperAscii (c : ascii) : ascii := ascii_of_N (code c - 32).

(** [strings.ToUpper].  ASCII letters are mapped byte by byte.  Of the runes
    outside ASCII, [unicode.ToUpper] sends exactly two into ASCII: U+0131
    (bytes C4 B1) to 'I' and U+017F (bytes C5 BF) to 'S'; every other rune
    outside ASCII, and every invalid byte, becomes a rune outside ASCII.
    Those bytes are kept as they are here: the result is compared with
    ASCII constants only, and for that comparison the mapping below agrees
    with Go's. *)
Fixpoint ToUpper (s : string) : string :=
  match s with
  | EmptyString => EmptyString
  | String c r =>
      if isLowerAscii c then String (upperAscii c) (ToUpper r)
      else
        match r with
        | String d r' =>
            if ((code c =? 0xC4) && (code d =? 0xB1))%N then String "I"%char (ToUpper r')
            else if ((code c =? 0xC5) && (code d =? 0xBF))%N then String "S"%char (ToUpper r')
            else String c (ToUpper r)
        | EmptyString => String c EmptyString
        end
  end.

(** [strings.Split(s, sep)] for a one-byte separator: never empty, one more
    piece than there are separators. *)
Fixpoint Split (sep : ascii) (s : string) : list string :=
  match s with
  | EmptyString => [EmptyString]
  | String c r =>
      if Ascii.eqb c sep then EmptyString :: Split sep r
      else
        match Split sep r with
        | x :: xs => String c x :: xs
        | [] => [String c EmptyString]
        end
  end.

(** [strings.Join]. *)
Fixpoint Join (elems : list string) (sep : string) : string :=
  match elems with
  | [] => EmptyString
  | [x] => x
  | x :: rest => (x ++ sep ++ Join rest sep)%string
  end.

(** [strings.Index(s, sep)] for a one-byte separator; [None] stands for -1. *)
Fixpoint IndexByte (sep : ascii) (s : string) : option nat :=
  match s with
  | EmptyString => None
  | String c r =>
      if Ascii.eqb c sep then Some 0
      else option_map S (IndexByte sep r)
  end.

(** The slice [s[:n]]. *)
Fixpoint takeBytes (n : nat) (s : string) : string :=
  match n, s with
  | S k, String c r => String c (takeBytes k r)
  | _, _ => EmptyString
  end.

Fixpoint dropByte (c : ascii) (s : string) : string :=
  match s with
  | EmptyString => EmptyString
  | String d r => if Ascii.eqb d c then dropByte c r else s
  end.

(** [strings.Trim(s, cutset)] for a cutset of one ASCII byte: that byte is
    removed from BOTH ends ([trimLeftByte (trimRightByte s c) c]). *)
Definition TrimByte (c : ascii) (s : string) : string :=
  dropByte c (strRev (dropByte c (strRev s))).

(** [strings.TrimRight(s, cutset)] for a cutset of one ASCII byte. *)
Definition TrimRightByte (c : ascii) (s : string) : string :=
  strRev (dropByte c (strRev s)).

Definition HasPrefix (s p : string) : bool := String.prefix p s.

Fixpoint dropBytes (n : nat) (s : string) : string :=
  match n, s with
  | S k, String _ r => dropBytes k r
  | _, _ => s
  end.

(** [strings.TrimPrefix]. *)
Definition TrimPrefix (s p : string) : string :=
  if HasPrefix s p then dropBytes (String.length p) s else s.

Definition flush (cur : string) : list string :=
  if isEmpty cur then [] else [cur].

(** [strings.Fields]: the maximal runs of bytes between white-space runes;
    [cur] is the field being read, [skip] as in [dropRunes]. *)
Fixpoint fieldsFrom (skip : nat) (cur : string) (s : string) : list string :=
  match s with
  | EmptyString => flush cur
  | String c r =>
      match skip with
      | S k => fieldsFrom k cur r
      | O =>
          match spaceWidth s with
          | O => fieldsFrom 0 (cur ++ String c EmptyString)%string r
          | S k => flush cur ++ fieldsFrom k EmptyString r
          end
      end
  end.

Definition Fields (s : string) : list string := fieldsFrom 0 EmptyString s.

(** [strings.ReplaceAll(s, "'", new)]: every occurrence of one byte replaced. *)
Fixpoint ReplaceByte (old : ascii) (new : string) (s : string) : string :=
  match s with
  | EmptyString => EmptyString
  | String c r =>
      if Ascii.eqb c old then (new ++ ReplaceByte old new r)%string
      else String c (ReplaceByte old new r)
  end.

End GoStrings.
Import GoStrings.


(* ===================================================================== *)
(** ** [path/filepath] on a Unix host *)
(* ===================================================================== *)

Module Filepath.

(** One step of the lexical cleaning of [filepath.Clean]; [stack] holds the
    components kept so far, last one first. *)
Definition cleanStep (rooted : bool) (stack : list string) (comp : string)
  : list string :=
  if isEmpty comp || (comp =? ".")%string then stack
  else if (comp =? "..")%string then
    match stack with
    | top :: rest => if (top =? "..")%string then comp :: stack else rest
    | [] => if rooted then [] else [comp]
    end
  else comp :: stack.

Definition Clean (path : string) : string :=
  if isEmpty path then "."
  else
    let rooted := HasPrefix path "/" in
    let comps := rev (fold_left (cleanStep rooted) (Split "/" path) []) in
    let body := GoStrings.Join comps "/" in
    if rooted then ("/" ++ body)%string
    else if isEmpty body then "." else body.

(** [filepath.Join]: empty elements are ignored, the rest is joined with
    slashes and cleaned. *)
Fixpoint Join (elem : list string) : string :=
  match elem with
  | [] => EmptyString
  | e :: rest =>
      if isEmpty e then Join rest else Clean (GoStrings.Join elem "/")
  end.

Fixpoint takeUntil (c : ascii) (s : string) : string :=
  match s with
  | EmptyString => EmptyString
  | String d r => if Ascii.eqb d c then EmptyString else String d (takeUntil c r)
  end.

(** [filepath.Base]: the last element of the path, trailing slashes
    removed first; "." for the empty path, "/" for a path of slashes. *)
Definition Base (path : string) : string :=
  if isEmpty path then "."
  else
    let stripped := dropByte "/" (strRev path) in
    let last := strRev (takeUntil "/" stripped) in
    if isEmpty last then "/" else last.

Definition IsAbs (path : string) : bool := HasPrefix path "/".

End Filepath.

(* ===================================================================== *)
(** ** [time.Time] without its monotonic reading *)
(* ===================================================================== *)

Module GoTime.

(** [sec]: seconds since January 1, year 1 00:00:00 UTC (the int64 field
    [ext]); [nsec]: nanoseconds within the second. *)
Record Time : Type := mkTime { sec : Z; nsec : Z }.

(** [time.Duration]: an int64 count of nanoseconds. *)
Definition Duration : Type := Z.

Definition Second : Duration := 1000000000%Z.
Definition Minute : Duration := (60 * Second)%Z.

Definition maxInt64 : Z := (2 ^ 63 - 1)%Z.
Definition minInt64 : Z := (- 2 ^ 63)%Z.

(** Two's-complement int64 result of an integer computation. *)
Definition wrap64 (z : Z) : Z := ((z + 2 ^ 63) mod 2 ^ 64 - 2 ^ 63)%Z.

Definition unixToInternal : Z := 62135596800%Z.
Definition internalToUnix : Z := (- unixToInternal)%Z.

(** [time.Time{}] *)
Definition zeroTime : Time := mkTime 0%Z 0%Z.

Definition IsZero (t : Time) : bool := (sec t =? 0)%Z && (nsec t =? 0)%Z.

(** [t.UTC()] changes the location and drops the monotonic reading; the
    instant is the same. *)
Definition UTC (t : Time) : Time := t.

(** [addSec]: the sum saturates instead of wrapping. *)
Definition addSec (s d : Z) : Z :=
  let sum := wrap64 (s + d)%Z in
  if Bool.eqb (sum >? s)%Z (d >? 0)%Z then sum
  else if (d >? 0)%Z then maxInt64
  else (- maxInt64)%Z.

(** [t.Add(d)]; Go's [/] and [%] truncate towards zero. *)
Definition Add (t : Time) (d : Duration) : Time :=
  let dsec := Z.quot d 1000000000%Z in
  let ns := (nsec t + Z.rem d 1000000000%Z)%Z in
  if (ns >=? 1000000000)%Z then mkTime (addSec (sec t) (dsec + 1)) (ns - 1000000000)%Z
  else if (ns <? 0)%Z then mkTime (addSec (sec t) (dsec - 1)) (ns + 1000000000)%Z
  else mkTime (addSec (sec t) dsec) ns.

(** [t.Unix()]: seconds since January 1, 1970 UTC. *)
Definition Unix (t : Time) : Z := wrap64 (sec t + internalToUnix)%Z.

(** Instants that [time.Now] and [time.Parse(time.RFC3339, _)] produce:
    years 0 to 9999. *)
Definition inCalendar (t : Time) : Prop :=
  (-31622400 <= sec t < 315537897600)%Z /\ (0 <= nsec t < 1000000000)%Z.

End GoTime.
Import GoTime.

(** [fmt.Sprintf("%d", n)] *)
Definition formatInt (n : Z) : string := NilZero.string_of_int (Z.to_int n).

Definition DQ : string := String (ascii_of_N 34) EmptyString.

(** [shellQuote]: single quotes around [s], every single quote inside
    written as quote, double-quoted quote, quote. *)
Definition shellQuote (s : string) : string :=
  if isEmpty s then "''"
  else ("'" ++ ReplaceByte "'" ("'" ++ DQ ++ "'" ++ DQ ++ "'") s ++ "'")%string.

(* ===================================================================== *)
(** ** Data model *)
(* ===================================================================== *)

Record ArtifactSource : Type := mkSource {
  Path : string;
  Patterns : list string
}.

Record Experiment : Type := mkExperiment {
  ID : Z;
  Name : string;
  Remote : string;
  ScriptPath : string;
  Args : string;
  GitCommit : string;
  GitBranch : string;
  JobID : string;
  JobStatus : string;
  LogPath : string;
  CreatedAt : Time;
  CompletedAt : Time;
  ArtifactRemote : string;
  ArtifactDest : string;
  ArtifactSources : list ArtifactSource;
  ArtifactPattern : string;
  ArtifactSinceStart : bool;
  ArtifactLastSync : Time;
  ArtifactLastError : string;
  ConfigSnapshot : string
}.

(** [exp.JobStatus = status] *)
Definition setJobStatus (exp : Experiment) (status : string) : Experiment :=
  mkExperiment (ID exp) (Name exp) (Remote exp) (ScriptPath exp) (Args exp)
    (GitCommit exp) (GitBranch exp) (JobID exp) status (LogPath exp)
    (CreatedAt exp) (CompletedAt exp) (ArtifactRemote exp) (ArtifactDest exp)
    (ArtifactSources exp) (ArtifactPattern exp) (ArtifactSinceStart exp)
    (ArtifactLastSync exp) (ArtifactLastError exp) (ConfigSnapshot exp).

(** [exp.CompletedAt = completed] *)
Definition setCompletedAt (exp : Experiment) (completed : Time) : Experiment :=
  mkExperiment (ID exp) (Name exp) (Remote exp) (ScriptPath exp) (Args exp)
    (GitCommit exp) (GitBranch exp) (JobID exp) (JobStatus exp) (LogPath exp)
    (CreatedAt exp) completed (ArtifactRemote exp) (ArtifactDest exp)
    (ArtifactSources exp) (ArtifactPattern exp) (ArtifactSinceStart exp)
    (ArtifactLastSync exp) (ArtifactLastError exp) (ConfigSnapshot exp).

(** [exp.ArtifactLastSync = now] *)
Definition setArtifactLastSync (exp : Experiment) (now : Time) : Experiment :=
  mkExperiment (ID exp) (Name exp) (Remote exp) (ScriptPath exp) (Args exp)
    (GitCommit exp) (GitBranch exp) (JobID exp) (JobStatus exp) (LogPath exp)
    (CreatedAt exp) (CompletedAt exp) (ArtifactRemote exp) (ArtifactDest exp)
    (ArtifactSources exp) (ArtifactPattern exp) (ArtifactSinceStart exp)
    now (ArtifactLastError exp) (ConfigSnapshot exp).

Definition defaultPollInterval : Duration := (30 * Second)%Z.
Definition sinceStartGracePeriod : Duration := (2 * Minute)%Z.
Definition artifactSettleDelay : Duration := (10 * Second)%Z.

(** The [error] values main.go builds, one constructor per message. *)
Inductive Error : Type :=
| ErrSbatch (output : string)
| ErrParseSbatch (output : string)
| ErrSqueue (output : string)
| ErrSacct (output : string)
| ErrDbExec
| ErrEmptySourcePath
| ErrRemotePathRequired
| ErrRemotePathNotAbsolute
| ErrArtifactDest (cause : Error)
| ErrDestRequired
| ErrNoStartTime (id : Z)
| ErrRemoteFind (cmd stdout stderr : string)
| ErrCompilePattern (pat : string)
| ErrResolveDest (cause : Error)
| ErrEnsureDest
| ErrRsync
| ErrUserHomeDir
| ErrGetwd.

(* ===================================================================== *)
(** ** Environment and effects *)
(* ===================================================================== *)

(** What a finished child process hands back.  [out] is the stream the
    caller reads: the combined output under [CombinedOutput], standard
    output under [Run]; [errOut] is standard error when it is captured on
    its own; [exitErr] says that the process could not be run or exited
    with a non-zero status. *)
Record ExecResult : Type := mkExec {
  out : string;
  errOut : string;
  exitErr : bool
}.

(** A compiled [*regexp.Regexp], as far as main.go uses it. *)
Record Regexp : Type := mkRegexp { MatchString : string -> bool }.

(** The three UPDATE statements of [updateExperimentStatus] and
    [recordArtifactSync].  The text of an error message is not modelled:
    the column [artifact_last_error] holds the error itself, [None] for the
    empty string. *)
Inductive DbStmt : Type :=
| UpdateStatus (id : Z) (status : string)
| UpdateStatusCompleted (id : Z) (status : string) (completedAt : Time)
| UpdateArtifactSync (id : Z) (syncedAt : option Time) (errMsg : option Error).

Inductive Event : Type :=
| EvSsh (remote : string) (argv : list string)
| EvRsync (argv : list string) (stdin : string)
| EvMkdirAll (path : string)
| EvSleep (d : Duration)
| EvDbExec (stmt : DbStmt).

(** The environment of one run.  [ssh n] answers the [n]-th ssh process the
    run starts (counted from 0) and [dbExec n] tells whether its [n]-th
    statement succeeds, so that an environment can answer the same command
    differently as time passes; [clock n] is [time.Now()] once [n] events
    have happened. *)
Record World : Type := mkWorld {
  ssh : nat -> string -> list string -> ExecResult;
  rsync : list string -> string -> bool;
  mkdirAll : string -> bool;
  dbExec : nat -> DbStmt -> bool;
  clock : nat -> Time;
  userHomeDir : option string;
  getwd : option string;
  regexpCompile : string -> option Regexp
}.

(** A row of table [experiments], restricted to the columns the UPDATE
    statements write. *)
Record Row : Type := mkRow {
  row_id : Z;
  job_status : string;
  completed_at : option Time;
  artifact_last_sync : option Time;
  artifact_last_error : option Error
}.

Record State : Type := mkState {
  log : list Event;
  db : list Row
}.

Definition M (A : Type) : Type := State -> A * State.

Definition ret {A : Type} (a : A) : M A := fun st => (a, st).

Definition bind {A B : Type} (c : M A) (k : A -> M B) : M B :=
  fun st => let (a, st') := c st in k a st'.

Declare Scope go_scope.
Delimit Scope go_scope with go.
Notation "x <- c ;; k" := (bind c (fun x => k))
  (at level 61, c at next level, right associativity) : go_scope.
Notation "' p <- c ;; k" := (bind c (fun x => let p := x in k))
  (at level 61, p pattern, c at next level, right associativity) : go_scope.
Notation "c ;;; k" := (bind c (fun _ => k))
  (at level 61, right associativity) : go_scope.
Local Open Scope go_scope.

Definition isSsh (e : Event) : bool :=
  match e with EvSsh _ _ => true | _ => false end.

Definition isDbExec (e : Event) : bool :=
  match e with EvDbExec _ => true | _ => false end.

Definition sshCalls (l : list Event) : nat := List.length (filter isSsh l).
Definition dbCalls (l : list Event) : nat := List.length (filter isDbExec l).

Definition emit (e : Event) : M unit :=
  fun st => (tt, mkState (log st ++ [e]) (db st)).

(** [exec.Command("ssh", remote, argv...)] run to completion. *)
Definition runSsh (w : World) (remote : string) (argv : list string) : M ExecResult :=
  fun st => (ssh w (sshCalls (log st)) remote argv,
             mkState (log st ++ [EvSsh remote argv]) (db st)).

(** [time.Sleep(d)] *)
Definition sleep (d : Duration) : M unit := emit (EvSleep d).

(** [time.Now().UTC()] *)
Definition timeNow (w : World) : M Time :=
  fun st => (UTC (clock w (List.length (log st))), st).

Definition setStatus (status : string) (completedAt : option Time) (r : Row) : Row :=
  mkRow (row_id r) status
        (match completedAt with Some t => Some t | None => completed_at r end)
        (artifact_last_sync r) (artifact_last_error r).

Definition setSync (syncedAt : option Time) (errMsg : option Error) (r : Row) : Row :=
  mkRow (row_id r) (job_status r) (completed_at r) syncedAt errMsg.

Definition whereId (id : Z) (f : Row -> Row) (rows : list Row) : list Row :=
  map (fun r => if (row_id r =? id)%Z then f r else r) rows.

(** What a statement that succeeds does to the table. *)
Definition applyStmt (stmt : DbStmt) (rows : list Row) : list Row :=
  match stmt with
  | UpdateStatus id status => whereId id (setStatus status None) rows
  | UpdateStatusCompleted id status t => whereId id (setStatus status (Some t)) rows
  | UpdateArtifactSync id ts msg => whereId id (setSync ts msg) rows
  end.

(** [db.Exec(stmt)]: a statement that fails leaves the table as it was. *)
Definition execStmt (w : World) (stmt : DbStmt) : M (option Error) :=
  fun st =>
    let l := log st ++ [EvDbExec stmt] in
    if dbExec w (dbCalls (log st)) stmt
    then (None, mkState l (applyStmt stmt (db st)))
    else (Some ErrDbExec, mkState l (db st)).

(* ===================================================================== *)
(** ** Job submitter *)
(* ===================================================================== *)

Definition sbatchArgs (logTemplate scriptPath : string) (scriptArgs : list string)
  : list string :=
  ["sbatch"; ("--output=" ++ logTemplate)%string; scriptPath] ++ scriptArgs.

(** [submitSbatchSSH]: returns (jobID, sshOutput, err). *)
Definition submitSbatchSSH (w : World) (remote logTemplate scriptPath : string)
    (scriptArgs : list string) : M (string * string * option Error) :=
  r <- runSsh w remote (sbatchArgs logTemplate scriptPath scriptArgs) ;;
  let sshOutput := out r in
  if exitErr r then ret (EmptyString, sshOutput, Some (ErrSbatch sshOutput))
  else
    let parts := Fields sshOutput in
    if (List.length parts =? 0)%nat
    then ret (EmptyString, sshOutput, Some (ErrParseSbatch sshOutput))
    else ret (nth (List.length parts - 1) parts EmptyString, sshOutput, None).

(* ===================================================================== *)
(** ** Status poller *)
(* ===================================================================== *)

Definition activeStates : list string :=
  ["PENDING"; "CONFIGURING"; "RUNNING"; "COMPLETING"; "SUSPENDED";
   "RESV_DEL_HOLD"; "SPECIAL_EXIT"].

(** [isActiveStatus]: the [switch] compares the normalised status with the
    case constants in turn. *)
Definition isActiveStatus (status : string) : bool :=
  let s := ToUpper (TrimSpace status) in
  if (s =? "PENDING")%string then true
  else if (s =? "CONFIGURING")%string then true
  else if (s =? "RUNNING")%string then true
  else if (s =? "COMPLETING")%string then true
  else if (s =? "SUSPENDED")%string then true
  else if (s =? "RESV_DEL_HOLD")%string then true
  else if (s =? "SPECIAL_EXIT")%string then true
  else false.

Definition squeueArgs (jobID : string) : list string :=
  ["squeue"; "-h"; "-j"; jobID; "-o"; "%T"].

Definition sacctArgs (jobID : string) : list string :=
  ["sacct"; "-n"; "-X"; "-j"; jobID; "-o"; "State"].

Definition newline : ascii := ascii_of_N 10.

(** What [runSqueue] makes of the output of a squeue that exited with 0:
    the first line of the trimmed output, trimmed; empty when squeue
    printed nothing. *)
Definition squeueStatus (output : string) : string :=
  let text := TrimSpace output in
  if isEmpty text then EmptyString
  else
    let lines := Split newline text in
    TrimSpace (nth 0 lines EmptyString).

(** [runSqueue] *)
Definition runSqueue (w : World) (remote jobID : string) : M (string * option Error) :=
  r <- runSsh w remote (squeueArgs jobID) ;;
  if exitErr r then ret (EmptyString, Some (ErrSqueue (TrimSpace (out r))))
  else ret (squeueStatus (out r), None).

(** The state [runSacct] takes from a line: cut at the first space. *)
Definition cutAtSpace (line : string) : string :=
  match IndexByte " " line with
  | Some idx => takeBytes idx line
  | None => line
  end.

(** The body of the loop of [runSacct] for a line that is not blank: the
    state is cut at the first space, then [strings.Trim(state, "+")]. *)
Definition sacctState (line : string) : string :=
  TrimByte "+" (cutAtSpace line).

(** The loop of [runSacct]: the first line that is not blank decides. *)
Fixpoint sacctLines (lines : list string) : string :=
  match lines with
  | [] => EmptyString
  | line :: rest =>
      let line := TrimSpace line in
      if isEmpty line then sacctLines rest else sacctState line
  end.

(** What [runSacct] makes of the output of a sacct that exited with 0. *)
Definition sacctStatus (output : string) : string :=
  sacctLines (Split newline (TrimSpace output)).

(** [runSacct] *)
Definition runSacct (w : World) (remote jobID : string) : M (string * option Error) :=
  r <- runSsh w remote (sacctArgs jobID) ;;
  if exitErr r then ret (EmptyString, Some (ErrSacct (TrimSpace (out r))))
  else ret (sacctStatus (out r), None).

(** [queryJobStatus] *)
Definition queryJobStatus (w : World) (remote jobID : string) : M (string * option Error) :=
  if isEmpty jobID then ret ("UNKNOWN", None)
  else
    '(status, err) <- runSqueue w remote jobID ;;
    match err with
    | Some e => ret (EmptyString, Some e)
    | None =>
        if negb (isEmpty status) then ret (status, None)
        else
          '(status, err) <- runSacct w remote jobID ;;
          match err with
          | None =>
              if negb (isEmpty status) then ret (status, None)
              else ret ("UNKNOWN", None)
          | Some _ => ret ("UNKNOWN", None)
          end
    end.

(** [updateExperimentStatus] *)
Definition updateExperimentStatus (w : World) (id : Z) (status : string)
    (completedAt : option Time) : M (option Error) :=
  match completedAt with
  | Some t => execStmt w (UpdateStatusCompleted id status t)
  | None => execStmt w (UpdateStatus id status)
  end.

(** [recordArtifactSync] *)
Definition recordArtifactSync (w : World) (id : Z) (syncedAt : option Time)
    (errMsg : option Error) : M (option Error) :=
  execStmt w (UpdateArtifactSync id syncedAt errMsg).

(** How one pass through the body of the [for] loop of [monitorExperiment]
    ends: [continue] or falling off the end of the body, [break], or
    [return err]. *)
Inductive LoopCtl : Type :=
| Continue
| Break
| Return (err : Error).

(** One pass through the body of the polling loop of [monitorExperiment]. *)
Definition pollOnce (w : World) (interval : Duration) (exp : Experiment)
  : M (Experiment * LoopCtl) :=
  '(status, err) <- queryJobStatus w (Remote exp) (JobID exp) ;;
  match err with
  | Some _ =>
      sleep interval ;;;
      ret (exp, Continue)
  | None =>
      let exp := setJobStatus exp status in
      e <- updateExperimentStatus w (ID exp) status None ;;
      match e with
      | Some err => ret (exp, Return err)
      | None =>
          if negb (isActiveStatus status) then
            completed <- timeNow w ;;
            let exp := setCompletedAt exp completed in
            e <- updateExperimentStatus w (ID exp) status (Some completed) ;;
            match e with
            | Some err => ret (exp, Return err)
            | None => ret (exp, Break)
            end
          else
            sleep interval ;;;
            ret (exp, Continue)
      end
  end.

(** The polling loop, cut off after [fuel] passes: [None] when the loop is
    still running then, [Some None] after [break], [Some (Some err)] after
    [return err]. *)
Fixpoint pollLoop (w : World) (interval : Duration) (fuel : nat) (exp : Experiment)
  : M (Experiment * option (option Error)) :=
  match fuel with
  | O => ret (exp, None)
  | S k =>
      '(exp, ctl) <- pollOnce w interval exp ;;
      match ctl with
      | Continue => pollLoop w interval k exp
      | Break => ret (exp, Some None)
      | Return err => ret (exp, Some (Some err))
      end
  end.

(* ===================================================================== *)
(** ** Pattern lists and artifact sources *)
(* ===================================================================== *)

(** The loop shared by [ensurePatterns], [combinePatterns] and
    [splitPatterns]: every entry trimmed, the empty ones left out. *)
Fixpoint trimmedNonEmpty (pats : list string) : list string :=
  match pats with
  | [] => []
  | p :: rest =>
      let p := TrimSpace p in
      if negb (isEmpty p) then p :: trimmedNonEmpty rest
      else trimmedNonEmpty rest
  end.

(** [ensurePatterns] *)
Definition ensurePatterns (pats : list string) : list string :=
  if (List.length pats =? 0)%nat then [] else trimmedNonEmpty pats.

(** [combinePatterns] *)
Definition combinePatterns (patterns : list string) : string :=
  GoStrings.Join (trimmedNonEmpty patterns) LF.

(** [splitPatterns] *)
Definition splitPatterns (s : string) : list string :=
  let s := TrimSpace s in
  if isEmpty s then []
  else trimmedNonEmpty (Split newline s).

(** [copyArtifactSources]: a copy, element by element. *)
Definition copyArtifactSources (src : list ArtifactSource) : list ArtifactSource :=
  if (List.length src =? 0)%nat then []
  else map (fun s => mkSource (Path s) ([] ++ Patterns s)) src.

(** The method [EffectiveArtifactSources] of [Experiment]; the receiver is
    not nil. *)
Definition EffectiveArtifactSources (exp : Experiment) : list ArtifactSource :=
  if (0 <? List.length (ArtifactSources exp))%nat
  then copyArtifactSources (ArtifactSources exp)
  else if isEmpty (ArtifactRemote exp) then []
  else [mkSource (ArtifactRemote exp) (splitPatterns (ArtifactPattern exp))].

(* ===================================================================== *)
(** ** Pattern filter *)
(* ===================================================================== *)

(** [patternMatches]; an entry [None] is a nil pointer. *)
Definition patternMatches (res : list (option Regexp)) (remoteRoot rel : string)
  : bool :=
  if (List.length res =? 0)%nat then true
  else
    let full := if negb (isEmpty remoteRoot)
                then Filepath.Join [remoteRoot; rel] else rel in
    let base := Filepath.Base rel in
    existsb (fun re =>
               match re with
               | None => false
               | Some re =>
                   MatchString re rel || MatchString re base || MatchString re full
               end) res.

(* ===================================================================== *)
(** ** Artifact discovery and transfer *)
(* ===================================================================== *)

(** [filepath.Abs] *)
Definition Abs (w : World) (path : string) : string * option Error :=
  if Filepath.IsAbs path then (Filepath.Clean path, None)
  else
    match getwd w with
    | None => (EmptyString, Some ErrGetwd)
    | Some wd => (Filepath.Join [wd; path], None)
    end.

(** [expandLocalPath] *)
Definition expandLocalPath (w : World) (p : string) : string * option Error :=
  if isEmpty p then (EmptyString, None)
  else if HasPrefix p "~" then
    match userHomeDir w with
    | None => (EmptyString, Some ErrUserHomeDir)
    | Some home =>
        let rest := TrimPrefix p "~" in
        let rest := if HasPrefix rest "/" then dropBytes 1 rest else rest in
        Abs w (if isEmpty rest then home else Filepath.Join [home; rest])
    end
  else Abs w p.

(** The cutoff [listRemoteFiles] computes for a since timestamp, in seconds
    since the Unix epoch. *)
Definition cutoffEpoch (since : Time) : Z :=
  Unix (Add (UTC since) (- sinceStartGracePeriod)%Z).

(** The shell command [listRemoteFiles] builds in [cmdBuilder]. *)
Definition listCommand (root : string) (since : Time) : string :=
  ("echo Remote initial PWD: " ++ DQ ++ "$PWD" ++ DQ ++ " >&2 && cd "
   ++ shellQuote root
   ++ " && echo Remote PWD after cd: " ++ DQ ++ "$PWD" ++ DQ
   ++ " >&2 && find . -type f"
   ++ (if negb (IsZero since)
       then " -newermt " ++ shellQuote ("@" ++ formatInt (cutoffEpoch since))
       else "")
   ++ " -print")%string.

(** The loop of [listRemoteFiles] over the lines of the listing. *)
Fixpoint findLines (lines : list string) : list string :=
  match lines with
  | [] => []
  | line :: rest =>
      let line := TrimSpace line in
      if isEmpty line || (line =? ".")%string then findLines rest
      else TrimPrefix line "./" :: findLines rest
  end.

(** What [listRemoteFiles] returns once the remote command [cmd] has
    finished with [r]: (files, command, err). *)
Definition listingResult (cmd : string) (r : ExecResult)
  : list string * string * option Error :=
  if exitErr r then
    ([], cmd, Some (ErrRemoteFind cmd (TrimSpace (out r)) (TrimSpace (errOut r))))
  else
    let trimmed := TrimSpace (out r) in
    if isEmpty trimmed then ([], cmd, None)
    else (findLines (Split newline trimmed), cmd, None).

Definition listArgs (root : string) (since : Time) : list string :=
  ["bash"; "-lc"; listCommand root since].

(** [listRemoteFiles] *)
Definition listRemoteFiles (w : World) (remote root : string) (since : Time)
  : M (list string * string * option Error) :=
  r <- runSsh w remote (listArgs root since) ;;
  ret (listingResult (listCommand root since) r).

(** [rsyncFiles] *)
Definition rsyncFiles (w : World) (remote root : string) (files : list string)
    (dest : string) : M (option Error) :=
  if (List.length files =? 0)%nat then ret None
  else
    match Abs w dest with
    | (_, Some e) => ret (Some (ErrResolveDest e))
    | (absDest, None) =>
        emit (EvMkdirAll absDest) ;;;
        if negb (mkdirAll w absDest) then ret (Some ErrEnsureDest)
        else
          let sourceRoot := TrimRightByte "/" root in
          let sourceRoot := if isEmpty sourceRoot then "/" else sourceRoot in
          let src := (remote ++ ":" ++ sourceRoot ++ "/")%string in
          let args := ["-av"; "--files-from=-"; src; absDest] in
          let stdin := (GoStrings.Join files LF ++ LF)%string in
          emit (EvRsync args stdin) ;;;
          if negb (rsync w args stdin) then ret (Some ErrRsync)
          else ret None
    end.

(** How the two nested listing loops of [fetchArtifacts] leave the variables
    [files], [cmd] and [err]: a listing failed ([return err]), a listing
    found files ([goto FILES_FOUND]), or the loops ran to their end with
    [files] empty. *)
Inductive Scan : Type :=
| ScanFailed (err : Error)
| ScanFound (files : list string) (cmd : string)
| ScanEmpty (cmd : string).

(** The inner loop [for retry := 0; retry < 6; retry++]; [todo] is the
    number of passes left, [6 - retry]. *)
Fixpoint retryLoop (w : World) (remote remotePath : string) (ts : Time)
    (todo retry : nat) (cmd : string) : M Scan :=
  match todo with
  | O => ret (ScanEmpty cmd)
  | S k =>
      (if (0 <? retry)%nat then sleep (3 * Second)%Z else ret tt) ;;;
      '(files, cmd, err) <- listRemoteFiles w remote remotePath ts ;;
      match err with
      | Some e => ret (ScanFailed e)
      | None =>
          if (0 <? List.length files)%nat then ret (ScanFound files cmd)
          else retryLoop w remote remotePath ts k (S retry) cmd
      end
  end.

(** The outer loop [for _, attempt := range attempts]. *)
Fixpoint attemptsLoop (w : World) (remote remotePath : string)
    (attempts : list (string * Time)) (cmd : string) : M Scan :=
  match attempts with
  | [] => ret (ScanEmpty cmd)
  | attempt :: rest =>
      s <- retryLoop w remote remotePath (snd attempt) 6 0 cmd ;;
      match s with
      | ScanEmpty cmd => attemptsLoop w remote remotePath rest cmd
      | _ => ret s
      end
  end.

(** The slice [attempts] of [fetchArtifacts]. *)
Definition listingAttempts (sinceStart : bool) (since : Time) : list (string * Time) :=
  if sinceStart
  then [("since-start window", since)] ++ [("without time filter", zeroTime)]
  else [("without time filter", zeroTime)].

(** The loop of [fetchArtifacts] that compiles the patterns. *)
Fixpoint compilePatterns (w : World) (patterns : list string) (compiled : list Regexp)
  : list Regexp * option Error :=
  match patterns with
  | [] => (compiled, None)
  | pat :: rest =>
      let pat := TrimSpace pat in
      if isEmpty pat then compilePatterns w rest compiled
      else
        match regexpCompile w pat with
        | None => ([], Some (ErrCompilePattern pat))
        | Some re => compilePatterns w rest (compiled ++ [re])
        end
  end.

(** [fetchArtifacts] *)
Definition fetchArtifacts (w : World) (exp : Experiment) (remotePath destDir : string)
    (patterns : list string) (sinceStart dryRun : bool) : M (option Error) :=
  if isEmpty remotePath then ret (Some ErrRemotePathRequired)
  else if negb (HasPrefix remotePath "/") then ret (Some ErrRemotePathNotAbsolute)
  else
    match expandLocalPath w destDir with
    | (_, Some e) => ret (Some (ErrArtifactDest e))
    | (absDest, None) =>
        if isEmpty absDest then ret (Some ErrDestRequired)
        else if sinceStart && IsZero (CreatedAt exp)
        then ret (Some (ErrNoStartTime (ID exp)))
        else
          let since := if sinceStart then CreatedAt exp else zeroTime in
          s <- attemptsLoop w (Remote exp) remotePath
                 (listingAttempts sinceStart since) EmptyString ;;
          match s with
          | ScanFailed e => ret (Some e)
          | ScanEmpty _ => ret None
          | ScanFound files _ =>
              match compilePatterns w patterns [] with
              | (_, Some e) => ret (Some e)
              | (compiled, None) =>
                  let filtered :=
                    filter (patternMatches (map Some compiled) remotePath) files in
                  if (List.length filtered =? 0)%nat then ret None
                  else if dryRun then ret None
                  else rsyncFiles w (Remote exp) remotePath filtered absDest
              end
          end
    end.

(** [fetchArtifactSources] *)
Fixpoint sourcesLoop (w : World) (exp : Experiment) (sources : list ArtifactSource)
    (destDir : string) (sinceStart dryRun : bool) : M (option Error) :=
  match sources with
  | [] => ret None
  | src :: rest =>
      if isEmpty (Path src) then ret (Some ErrEmptySourcePath)
      else
        e <- fetchArtifacts w exp (Path src) destDir
               (ensurePatterns (Patterns src)) sinceStart dryRun ;;
        match e with
        | Some err => ret (Some err)
        | None => sourcesLoop w exp rest destDir sinceStart dryRun
        end
  end.

Definition fetchArtifactSources (w : World) (exp : Experiment)
    (sources : list ArtifactSource) (destDir : string) (sinceStart dryRun : bool)
  : M (option Error) :=
  if (List.length sources =? 0)%nat then ret None
  else sourcesLoop w exp sources destDir sinceStart dryRun.

(** The part of [monitorExperiment] after the polling loop. *)
Definition afterPolling (w : World) (exp : Experiment) : M (Experiment * option Error) :=
  let sources := EffectiveArtifactSources exp in
  if (0 <? List.length sources)%nat && negb (isEmpty (ArtifactDest exp)) then
    sleep artifactSettleDelay ;;;
    e <- fetchArtifactSources w exp sources (ArtifactDest exp)
           (ArtifactSinceStart exp) false ;;
    match e with
    | Some err =>
        e2 <- recordArtifactSync w (ID exp) None (Some err) ;;
        match e2 with
        | Some err2 => ret (exp, Some err2)
        | None => ret (exp, Some err)
        end
    | None =>
        now <- timeNow w ;;
        let exp := setArtifactLastSync exp now in
        e2 <- recordArtifactSync w (ID exp) (Some now) None ;;
        match e2 with
        | Some err2 => ret (exp, Some err2)
        | None => ret (exp, None)
        end
    end
  else ret (exp, None).

(** [monitorExperiment], its polling loop cut off after [fuel] passes
    ([None]: still polling). *)
Definition monitorExperiment (w : World) (interval : Duration) (fuel : nat)
    (exp : Experiment) : M (Experiment * option (option Error)) :=
  '(exp, r) <- pollLoop w interval fuel exp ;;
  match r with
  | Some None =>
      '(exp, e) <- afterPolling w exp ;;
      ret (exp, Some e)
  | _ => ret (exp, r)
  end.

(* ===================================================================== *)
(** ** Environments for the examples *)
(* ===================================================================== *)

Module Stub.

(** A fragment of the RE2 syntax, enough for the patterns of the examples:
    an optional [^], then literal bytes, [.] and escaped punctuation, then
    an optional [$].  A pattern outside the fragment is reported as not
    compiling; of those only ["("] is used below, which [regexp.Compile]
    rejects too (missing closing parenthesis). *)
Inductive Item : Type :=
| Lit (c : ascii)
| AnyByte.

Definition isMeta (c : ascii) : bool :=
  existsb (Ascii.eqb c)
    ["("; ")"; "["; "]"; "{"; "}"; "*"; "+"; "?"; "|"; "^"; "$"]%char.

Definition isWordByte (c : ascii) : bool :=
  let n := code c in
  ((48 <=? n) && (n <=? 57) || (65 <=? n) && (n <=? 90)
   || (97 <=? n) && (n <=? 122) || (128 <=? n))%N.

(** The items of a pattern body and whether it ends in [$]. *)
Fixpoint parseBody (s : string) : option (list Item * bool) :=
  match s with
  | EmptyString => Some ([], false)
  | String c r =>
      if Ascii.eqb c "$" && isEmpty r then Some ([], true)
      else if Ascii.eqb c "\" then
        match r with
        | String d r' =>
            if isWordByte d then None
            else match parseBody r' with
                 | Some (items, e) => Some (Lit d :: items, e)
                 | None => None
                 end
        | EmptyString => None
        end
      else if isMeta c then None
      else
        match parseBody r with
        | Some (items, e) =>
            Some ((if Ascii.eqb c "." then AnyByte else Lit c) :: items, e)
        | None => None
        end
  end.

Fixpoint matchHere (items : list Item) (atEnd : bool) (s : string) : bool :=
  match items with
  | [] => if atEnd then isEmpty s else true
  | i :: rest =>
      match s with
      | EmptyString => false
      | String c r =>
          match i with
          | Lit d => Ascii.eqb c d && matchHere rest atEnd r
          | AnyByte => negb (Ascii.eqb c newline) && matchHere rest atEnd r
          end
      end
  end.

Fixpoint matchFrom (items : list Item) (atEnd : bool) (s : string) : bool :=
  matchHere items atEnd s
  || match s with
     | EmptyString => false
     | String _ r => matchFrom items atEnd r
     end.

Definition compile (pat : string) : option Regexp :=
  match pat with
  | String "^" body =>
      match parseBody body with
      | Some (items, e) => Some (mkRegexp (matchHere items e))
      | None => None
      end
  | _ =>
      match parseBody pat with
      | Some (items, e) => Some (mkRegexp (matchFrom items e))
      | None => None
      end
  end.

Definition okExec (output : string) : ExecResult := mkExec output EmptyString false.
Definition failedExec (output : string) : ExecResult := mkExec output EmptyString true.

(** The [n]-th ssh process gets the [n]-th answer of the list, whatever its
    command; processes beyond the list print nothing and exit with 0. *)
Definition scriptedSsh (answers : list ExecResult)
  : nat -> string -> list string -> ExecResult :=
  fun n _ _ => nth n answers (okExec EmptyString).

(** Statement [n] succeeds unless [n] is listed in [failing]. *)
Definition scriptedDb (failing : list nat) : nat -> DbStmt -> bool :=
  fun n _ => negb (existsb (Nat.eqb n) failing).

(** 2025-01-01T00:00:00Z plus one second per event. *)
Definition tickingClock : nat -> Time :=
  fun n => mkTime (63871286400 + Z.of_nat n)%Z 0%Z.

Definition world (answers : list ExecResult) (failing : list nat) : World :=
  mkWorld (scriptedSsh answers) (fun _ _ => true) (fun _ => true)
          (scriptedDb failing) tickingClock
          (Some "/home/user") (Some "/home/user/work") compile.

(** Every ssh process exits with an error. *)
Definition unreachableWorld : World :=
  mkWorld (fun _ _ _ => failedExec "ssh: connect to host: timed out")
          (fun _ _ => true) (fun _ => true) (fun _ _ => true) tickingClock
          (Some "/home/user") (Some "/home/user/work") compile.

Definition row1 : Row := mkRow 1%Z "SUBMITTED" None None None.

Definition state0 : State := mkState [] [row1].

Definition run1 : Experiment :=
  mkExperiment 1%Z "run1" "user@host" "/a/b.sh" "" "" "" "2723147" "SUBMITTED"
    "/logs/run1-2723147.out" (mkTime 63871286400%Z 0%Z) zeroTime
    "" "" [] "" false zeroTime "" "".

(** [run1] with a legacy artifact path, a destination and one pattern. *)
Definition run1Fetch (pattern : string) (sinceStart : bool) : Experiment :=
  mkExperiment 1%Z "run1" "user@host" "/a/b.sh" "" "" "" "2723147" "COMPLETED"
    "/logs/run1-2723147.out" (mkTime 63871286400%Z 0%Z) zeroTime
    "/data/out" "/tmp/artifacts/1" [] pattern sinceStart zeroTime "" "".

End Stub.

(* ===================================================================== *)
(** ** Vocabulary of the statements *)
(* ===================================================================== *)

(** No byte of [s] is ASCII white space. *)
Definition noAsciiSpace (s : string) : Prop :=
  forall c, In c (list_ascii_of_string s) -> isAsciiSpace c = false.

(** The command of an unfiltered listing, without its final [-print]. *)
Definition findCommand (root : string) : string :=
  ("echo Remote initial PWD: " ++ DQ ++ "$PWD" ++ DQ ++ " >&2 && cd "
   ++ shellQuote root
   ++ " && echo Remote PWD after cd: " ++ DQ ++ "$PWD" ++ DQ
   ++ " >&2 && find . -type f")%string.

(** Expression [re] matches the relative path, its last segment, or the
    path joined onto the source root. *)
Definition matchesThreeWay (re : Regexp) (remoteRoot rel : string) : Prop :=
  MatchString re rel = true
  \/ MatchString re (Filepath.Base rel) = true
  \/ MatchString re (Filepath.Join [remoteRoot; rel]) = true.

(** A pattern string split on newlines, the blank entries dropped and the
    others kept as they are. *)
Definition linesDropBlank (s : string) : list string :=
  filter (fun l => negb (isEmpty (TrimSpace l))) (Split newline s).

(** A pattern string split on newlines, every entry trimmed of white space
    and the empty ones dropped. *)
Definition linesTrimmed (s : string) : list string :=
  filter (fun l => negb (isEmpty l)) (map TrimSpace (Split newline s)).

(** The byte [c], [n] times. *)
Fixpoint repeatByte (c : ascii) (n : nat) : string :=
  match n with
  | O => EmptyString
  | S k => String c (repeatByte c k)
  end.

(** The first byte of [s] is [c]. *)
Definition startsWith (c : ascii) (s : string) : bool :=
  match s with
  | String d _ => Ascii.eqb d c
  | EmptyString => false
  end.



(** The listing of [root] with time filter [ts], as an event. *)
Definition listingEvent (remote root : string) (ts : Time) : Event :=
  EvSsh remote (listArgs root ts).

(** The events of attempt number [retry] (from 0) of one strategy: the
    pause of 3 seconds, except before the first attempt, then the listing. *)
Definition retryEvents (remote root : string) (ts : Time) (retry : nat)
  : list Event :=
  (if (0 <? retry)%nat then [EvSleep (3 * Second)%Z] else [])
  ++ [listingEvent remote root ts].

(** The events of the attempts [first], ..., [first + count - 1] of one
    strategy. *)
Definition strategyEvents (remote root : string) (ts : Time) (first count : nat)
  : list Event :=
  flat_map (retryEvents remote root ts) (seq first count).

(** The events of six attempts for each strategy, in the order of the
    strategies. *)
Definition fullSchedule (remote root : string) (attempts : list (string * Time))
  : list Event :=
  flat_map (fun a => strategyEvents remote root (snd a) 0 6) attempts.

(** The time filter of strategy number [k]. *)
Definition strategyTime (attempts : list (string * Time)) (k : nat) : Time :=
  snd (nth k attempts (EmptyString, zeroTime)).

(** What attempt [r] of strategy [k] returns when it is reached: it is
    ssh process number [c0 + 6 * k + r], [c0] processes having been started
    before discovery. *)
Definition listingAnswer (w : World) (c0 : nat) (remote root : string)
    (attempts : list (string * Time)) (k r : nat)
  : list string * string * option Error :=
  listingResult (listCommand root (strategyTime attempts k))
    (ssh w (c0 + 6 * k + r) remote (listArgs root (strategyTime attempts k))).

(** What the listing of one strategy returns when it is ssh process number
    [j]. *)
Definition strategyAnswer (w : World) (remote root : string) (ts : Time) (j : nat)
  : list string * string * option Error :=
  listingResult (listCommand root ts) (ssh w j remote (listArgs root ts)).

(** A listing that succeeded and found no file. *)
Definition isEmptyAnswer (a : list string * string * option Error) : bool :=
  match a with
  | (files, _, None) => (List.length files =? 0)%nat
  | (_, _, Some _) => false
  end.

(** How discovery ends on an answer that is not empty. *)
Definition scanOf (a : list string * string * option Error) : Scan :=
  match a with
  | (_, _, Some e) => ScanFailed e
  | (files, cmd, None) => ScanFound files cmd
  end.

(** The events of [rsyncFiles]. *)
Definition isRsyncOrMkdir (e : Event) : bool :=
  match e with
  | EvRsync _ _ => true
  | EvMkdirAll _ => true
  | _ => false
  end.

(** The parameters of a fetch pass the checks [fetchArtifacts] makes before
    it lists anything: an absolute remote path, a destination that expands
    to the non-empty [absDest], and a recorded start time when the
    since-start filter is asked for. *)
Definition configOk (w : World) (exp : Experiment) (remotePath destDir : string)
    (sinceStart : bool) (absDest : string) : Prop :=
  HasPrefix remotePath "/" = true
  /\ expandLocalPath w destDir = (absDest, None)
  /\ absDest <> EmptyString
  /\ (sinceStart = true -> IsZero (CreatedAt exp) = false).

(** The six listings of one strategy, with the five pauses between them. *)
Definition sixAttempts (remote root : string) (ts : Time) : list Event :=
  let L := listingEvent remote root ts in
  let P := EvSleep (3 * Second)%Z in
  [L; P; L; P; L; P; L; P; L; P; L].

(** Number of transfer events (creation of the destination, rsync). *)
Definition transferCalls (l : list Event) : nat :=
  List.length (filter isRsyncOrMkdir l).

(** The pattern list holds an expression that does not compile. *)
Definition hasMalformed (w : World) (patterns : list string) : Prop :=
  exists p, In p patterns
            /\ TrimSpace p <> EmptyString
            /\ regexpCompile w (TrimSpace p) = None.

(** 1 for a discovery that ended on a listing, 0 for one that ran out. *)
Definition endedOnListing (s : Scan) : nat :=
  match s with
  | ScanEmpty _ => 0
  | _ => 1
  end.

(** [ws] is the UTF-8 encoding of one white-space rune. *)
Inductive SpaceRune : string -> Prop :=
| SpaceRune1 (c : ascii) :
    isAsciiSpace c = true -> SpaceRune (String c EmptyString)
| SpaceRune2 (c d : ascii) :
    isAsciiSpace c = false ->
    isSpace2 (code c) (code d) = true ->
    SpaceRune (String c (String d EmptyString))
| SpaceRune3 (c d e : ascii) :
    isAsciiSpace c = false ->
    isSpace2 (code c) (code d) = false ->
    isSpace3 (code c) (code d) (code e) = true ->
    SpaceRune (String c (String d (String e EmptyString))).

(** A run of white-space runes. *)
Inductive Spaces : string -> Prop :=
| Spaces_nil : Spaces EmptyString
| Spaces_cons (ws s : string) :
    SpaceRune ws -> Spaces s -> Spaces (ws ++ s)%string.

(** No byte of [s] is a line feed. *)
Fixpoint noNewline (s : string) : bool :=
  match s with
  | EmptyString => true
  | String c r => negb (Ascii.eqb c newline) && noNewline r
  end.

(** A byte that can start a rune: ASCII, or a lead byte from C2 on. *)
Definition isLead (n : N) : Prop := (n < 128 \/ 194 <= n)%N.

(** Boolean facts about bytes turned into arithmetic. *)
Ltac bool_to_prop H :=
  unfold isSpace2, isSpace3, isAsciiSpace in H;
  repeat first
    [ rewrite orb_true_iff in H
    | rewrite andb_true_iff in H
    | rewrite N.eqb_eq in H
    | rewrite N.leb_le in H ].

(** The command lines of the status lookup: squeue and sacct. *)
Definition isStatusQuery (argv : list string) : bool :=
  match argv with
  | cmd :: _ => (cmd =? "squeue")%string || (cmd =? "sacct")%string
  | [] => false
  end.

(** The statements that store a job status. *)
Definition isStatusStmt (stmt : DbStmt) : bool :=
  match stmt with
  | UpdateStatus _ _ => true
  | UpdateStatusCompleted _ _ _ => true
  | UpdateArtifactSync _ _ _ => false
  end.

(** The events of a status transition: a status lookup on the remote host,
    or a statement that stores a status. *)
Definition isStatusEvent (e : Event) : bool :=
  match e with
  | EvSsh _ argv => isStatusQuery argv
  | EvDbExec stmt => isStatusStmt stmt
  | _ => false
  end.

(** The columns of a row that hold the state of the job. *)
Definition statusColumns (r : Row) : Z * string * option Time :=
  (row_id r, job_status r, completed_at r).

(** From [st] to [st'] the log has only grown, and by no event of a status
    transition. *)
Definition statusQuiet (st st' : State) : Prop :=
  exists more,
    log st' = log st ++ more /\ existsb isStatusEvent more = false.

(* ===================================================================== *)
(** ** More of main.go: pattern lists, run and fetch commands, git lookup *)
(* ===================================================================== *)

(** [normalizePatternList] *)
Definition normalizePatternList (single : string) (items : list string)
  : list string :=
  let res := trimmedNonEmpty items in
  let s := TrimSpace single in
  if negb (isEmpty s) then res ++ [s] else res.

(** [flattenPatternsFromSources]: a source without patterns contributes one
    empty pattern. *)
Fixpoint flattenPatternsFromSources (src : list ArtifactSource) : list string :=
  match src with
  | [] => []
  | s :: rest =>
      if (List.length (Patterns s) =? 0)%nat
      then [EmptyString] ++ flattenPatternsFromSources rest
      else Patterns s ++ flattenPatternsFromSources rest
  end.

(** [firstNonEmpty] *)
Fixpoint firstNonEmpty (values : list string) : string :=
  match values with
  | [] => EmptyString
  | v :: rest => if negb (isEmpty v) then v else firstNonEmpty rest
  end.

(** The errors of the part of [cmdRun] that settles the artifact sources. *)
Inductive RunError : Type :=
| RunSourcesRequired
| RunSourceEmptyPath (index : nat)
| RunSourceNotAbsolute (path : string).

(** The loop of [cmdRun] over the sources: every path is checked and the
    patterns of every source go through [ensurePatterns]; [i] is the index
    of the first source of the list. *)
Fixpoint checkSources (i : nat) (sources : list ArtifactSource)
  : list ArtifactSource * option RunError :=
  match sources with
  | [] => ([], None)
  | s :: rest =>
      if isEmpty (Path s) then ([], Some (RunSourceEmptyPath (i + 1)))
      else if negb (HasPrefix (Path s) "/") then ([], Some (RunSourceNotAbsolute (Path s)))
      else
        match checkSources (S i) rest with
        | (_, Some e) => ([], Some e)
        | (rest', None) => (mkSource (Path s) (ensurePatterns (Patterns s)) :: rest', None)
        end
  end.

(** What [cmdRun] records about artifacts. *)
Record RunArtifacts : Type := mkRunArtifacts {
  runSources : list ArtifactSource;
  runPatternCombined : string;
  runPrimaryRemote : string
}.

(** The part of [cmdRun] between the upload of the script and the
    submission: from the configured sources, the legacy remote path, the
    expanded destination and the patterns to the sources of the run, the
    combined pattern string and the primary remote path. *)
Definition cmdRunSources (artifactSources : list ArtifactSource)
    (artifactRemote artifactDestAbs : string) (patterns : list string)
  : option RunArtifacts * option RunError :=
  let sources := copyArtifactSources artifactSources in
  let sources :=
    if (List.length sources =? 0)%nat && negb (isEmpty artifactRemote)
    then [mkSource artifactRemote (ensurePatterns patterns)]
    else sources in
  if negb (isEmpty artifactDestAbs) && (List.length sources =? 0)%nat
  then (None, Some RunSourcesRequired)
  else
    match checkSources 0 sources with
    | (_, Some e) => (None, Some e)
    | (sources, None) =>
        let combined := combinePatterns (flattenPatternsFromSources sources) in
        let combined := if isEmpty combined then combinePatterns patterns else combined in
        let primaryRemote :=
          match sources with
          | s :: _ => Path s
          | [] => artifactRemote
          end in
        (Some (mkRunArtifacts sources combined primaryRemote), None)
    end.

(** The experiment as [loadExperimentByID] returns it when the snapshot
    holds no sources: the legacy columns only. *)
Definition reloaded (exp : Experiment) (r : RunArtifacts) : Experiment :=
  mkExperiment (ID exp) (Name exp) (Remote exp) (ScriptPath exp) (Args exp)
    (GitCommit exp) (GitBranch exp) (JobID exp) (JobStatus exp) (LogPath exp)
    (CreatedAt exp) (CompletedAt exp) (runPrimaryRemote r) (ArtifactDest exp)
    [] (runPatternCombined r) (ArtifactSinceStart exp)
    (ArtifactLastSync exp) (ArtifactLastError exp) (ConfigSnapshot exp).





(** The errors of [cmdFetch] once the flags are parsed and the experiment
    is loaded. *)
Inductive FetchError : Type :=
| FetchEmptyRemoteHost
| FetchRemotePathNotAbsolute
| FetchDestRequired
| FetchNoSources
| FetchFailed (err : Error)
| FetchFailedNotRecorded (err err2 : Error)
| FetchRecordFailed (err : Error).

(** The sources [cmdFetch] works on: the one of [--remote-path] when it is
    given, the effective sources of the experiment otherwise. *)
Definition fetchSources (exp : Experiment) (remotePath : string)
  : list ArtifactSource :=
  if negb (isEmpty remotePath)
  then [mkSource remotePath (splitPatterns (ArtifactPattern exp))]
  else EffectiveArtifactSources exp.

(** The loop of [cmdFetch] that gives the patterns of [--pattern] to every
    source. *)
Definition overridePatternsOf (overridePatterns : list string)
    (sources : list ArtifactSource) : list ArtifactSource :=
  if (0 <? List.length overridePatterns)%nat
  then map (fun s => mkSource (Path s) overridePatterns) sources
  else sources.

(** [cmdFetch] after the flags are parsed and the experiment is loaded;
    [sinceStartFlag] is [None] when [--since-start] is not given. *)
Definition cmdFetch (w : World) (exp : Experiment) (remotePath destDir : string)
    (overridePatterns : list string) (sinceStartFlag : option bool) (dryRun : bool)
  : M (option FetchError) :=
  if isEmpty (Remote exp) then ret (Some FetchEmptyRemoteHost)
  else if negb (isEmpty remotePath) && negb (HasPrefix remotePath "/")
  then ret (Some FetchRemotePathNotAbsolute)
  else
    let destDir := if isEmpty destDir then ArtifactDest exp else destDir in
    if isEmpty destDir then ret (Some FetchDestRequired)
    else
      let sinceStart :=
        match sinceStartFlag with
        | Some v => v
        | None => ArtifactSinceStart exp
        end in
      let sources := fetchSources exp remotePath in
      if (List.length sources =? 0)%nat then ret (Some FetchNoSources)
      else
        let sources := overridePatternsOf overridePatterns sources in
        e <- fetchArtifactSources w exp sources destDir sinceStart dryRun ;;
        match e with
        | Some err =>
            e2 <- recordArtifactSync w (ID exp) None (Some err) ;;
            match e2 with
            | Some err2 => ret (Some (FetchFailedNotRecorded err err2))
            | None => ret (Some (FetchFailed err))
            end
        | None =>
            if dryRun then ret None
            else
              now <- timeNow w ;;
              e2 <- recordArtifactSync w (ID exp) (Some now) None ;;
              match e2 with
              | Some err2 => ret (Some (FetchRecordFailed err2))
              | None => ret None
              end
        end.

(* ===================================================================== *)
(** ** The line level of the configuration reader *)
(* ===================================================================== *)

Definition tab : ascii := ascii_of_N 9.
Definition carriageReturn : ascii := ascii_of_N 13.
Definition doubleQuote : ascii := ascii_of_N 34.

Definition isSpaceOrTab (c : ascii) : bool :=
  Ascii.eqb c " " || Ascii.eqb c tab.

Fixpoint dropWhileByte (p : ascii -> bool) (s : string) : string :=
  match s with
  | EmptyString => EmptyString
  | String c r => if p c then dropWhileByte p r else s
  end.

(** [strings.TrimRight(s, cutset)] for a cutset of ASCII bytes, given as a
    predicate. *)
Definition TrimRightSet (p : ascii -> bool) (s : string) : string :=
  strRev (dropWhileByte p (strRev s)).

(** The loop of [stripInlineComment]: the index of the first [#] that is
    outside single and double quotes; [i] is the index of the first byte of
    [line]. *)
Fixpoint commentIndex (inSingle inDouble : bool) (i : nat) (line : string)
  : option nat :=
  match line with
  | EmptyString => None
  | String c r =>
      if Ascii.eqb c "'" then
        commentIndex (if negb inDouble then negb inSingle else inSingle) inDouble (S i) r
      else if Ascii.eqb c doubleQuote then
        commentIndex inSingle (if negb inSingle then negb inDouble else inDouble) (S i) r
      else if Ascii.eqb c "#" then
        if negb inSingle && negb inDouble then Some i
        else commentIndex inSingle inDouble (S i) r
      else commentIndex inSingle inDouble (S i) r
  end.

(** [stripInlineComment] *)
Definition stripInlineComment (line : string) : string :=
  match commentIndex false false 0 line with
  | Some i => TrimRightSet isSpaceOrTab (takeBytes i line)
  | None => line
  end.

(** The loop of [countLeadingSpaces]; [None] is the error for a tab. *)
Fixpoint countLeadingFrom (count : nat) (line : string) : option nat :=
  match line with
  | EmptyString => Some count
  | String c r =>
      if Ascii.eqb c " " then countLeadingFrom (S count) r
      else if Ascii.eqb c tab then None
      else Some count
  end.

(** [countLeadingSpaces] *)
Definition countLeadingSpaces (line : string) : option nat :=
  countLeadingFrom 0 line.

(** What [preprocessYAMLLine] returns: [ok = false] without an error, the
    error of [countLeadingSpaces], or the trimmed line and its indent. *)
Inductive YamlLine : Type :=
| LineSkipped
| LineTabError
| LineContent (trimmed : string) (indent : nat).

(** [preprocessYAMLLine] *)
Definition preprocessYAMLLine (line : string) : YamlLine :=
  let line := TrimRightSet (fun c => Ascii.eqb c carriageReturn) line in
  let line := stripInlineComment line in
  let trimmed := TrimSpace line in
  if isEmpty trimmed || (trimmed =? "---")%string || (trimmed =? "...")%string
  then LineSkipped
  else
    match countLeadingSpaces line with
    | None => LineTabError
    | Some indent => LineContent trimmed indent
    end.

(* ===================================================================== *)
(** ** Vocabulary of the further statements *)
(* ===================================================================== *)

(** Where the shell is in a word: outside quotes, between single quotes,
    between double quotes. *)
Inductive Quoting : Type :=
| Unquoted
| SingleQuoted
| DoubleQuoted.

(** The string a word denotes for a POSIX shell when the word is made of
    quoted parts only: between single quotes every byte stands for itself;
    between double quotes every byte but [$], the backquote and the
    backslash stands for itself.  [None] for a word with a byte outside
    quotes, an open quote, or one of the three special bytes between double
    quotes. *)
Fixpoint shellWord (q : Quoting) (word : string) : option string :=
  match word with
  | EmptyString =>
      match q with
      | Unquoted => Some EmptyString
      | _ => None
      end
  | String c r =>
      match q with
      | Unquoted =>
          if Ascii.eqb c "'" then shellWord SingleQuoted r
          else if Ascii.eqb c doubleQuote then shellWord DoubleQuoted r
          else None
      | SingleQuoted =>
          if Ascii.eqb c "'" then shellWord Unquoted r
          else option_map (String c) (shellWord SingleQuoted r)
      | DoubleQuoted =>
          if Ascii.eqb c doubleQuote then shellWord Unquoted r
          else if Ascii.eqb c "$" || Ascii.eqb c "`" || Ascii.eqb c "\"
          then None
          else option_map (String c) (shellWord DoubleQuoted r)
      end
  end.

(** Every pattern of the list is trimmed already, and not empty. *)
Definition allTrimmed (pats : list string) : Prop :=
  Forall (fun p => TrimSpace p = p /\ p <> EmptyString) pats.

(** No pattern of the list, once trimmed, holds a line feed. *)
Definition oneLinePatterns (pats : list string) : Prop :=
  Forall (fun p => noNewline (TrimSpace p) = true) pats.

(** The path is not empty and absolute. *)
Definition absolutePath (p : string) : Prop :=
  p <> EmptyString /\ HasPrefix p "/" = true.

(** No byte of [s] is [c]. *)
Fixpoint lacksByte (c : ascii) (s : string) : bool :=
  match s with
  | EmptyString => true
  | String d r => negb (Ascii.eqb d c) && lacksByte c r
  end.

(** A path component that [filepath.Clean] keeps. *)
Definition plainComponent (comp : string) : Prop :=
  comp <> EmptyString /\ comp <> "."%string /\ comp <> ".."%string
  /\ lacksByte "/" comp = true.

(** The stacks of [cleanStep]: plain components on top of [..] components,
    and no [..] at all under a root. *)
Definition cleanStack (rooted : bool) (stack : list string) : Prop :=
  exists plains dots,
    stack = plains ++ dots
    /\ Forall plainComponent plains
    /\ Forall (fun d => d = ".."%string) dots
    /\ (rooted = true -> dots = []).

(** The rows of the other experiments. *)
Definition otherRows (id : Z) (rows : list Row) : list Row :=
  filter (fun r => negb (row_id r =? id)%Z) rows.

(** The experiment a statement is about. *)
Definition stmtId (stmt : DbStmt) : Z :=
  match stmt with
  | UpdateStatus id _ => id
  | UpdateStatusCompleted id _ _ => id
  | UpdateArtifactSync id _ _ => id
  end.

(** [exp] with the three fields [monitorExperiment] assigns. *)
Definition withProgress (exp : Experiment) (status : string)
    (completed lastSync : Time) : Experiment :=
  mkExperiment (ID exp) (Name exp) (Remote exp) (ScriptPath exp) (Args exp)
    (GitCommit exp) (GitBranch exp) (JobID exp) status (LogPath exp)
    (CreatedAt exp) completed (ArtifactRemote exp) (ArtifactDest exp)
    (ArtifactSources exp) (ArtifactPattern exp) (ArtifactSinceStart exp)
    lastSync (ArtifactLastError exp) (ConfigSnapshot exp).

(** [exp'] is [exp] up to its status, completion time and time of the last
    sync. *)
Definition sameJob (exp exp' : Experiment) : Prop :=
  exp' = withProgress exp (JobStatus exp') (CompletedAt exp') (ArtifactLastSync exp').

(** The statements among the events. *)
Definition stmtsOf (l : list Event) : list DbStmt :=
  flat_map (fun e => match e with EvDbExec s => [s] | _ => [] end) l.

(** Whether [monitorExperiment] fetches artifacts once the job is done. *)
Definition fetchConfigured (exp : Experiment) : bool :=
  (0 <? List.length (EffectiveArtifactSources exp))%nat
  && negb (isEmpty (ArtifactDest exp)).

(** The arguments of [cmdFetch] pass its own checks. *)
Definition fetchRequestOk (exp : Experiment) (remotePath dest : string) : Prop :=
  Remote exp <> EmptyString
  /\ (remotePath = EmptyString \/ HasPrefix remotePath "/" = true)
  /\ dest <> EmptyString
  /\ fetchSources exp remotePath <> [].

(* ===================================================================== *)
(** ** The settings of [cmdRun]: flags, profiles, run file *)
(* ===================================================================== *)

Module Profile.

(** [RunProfile] *)
Record RunProfile : Type := mkRunProfile {
  Remote : string;
  LogDir : string;
  Script : string;
  BuildScript : string;
  ArtifactSources : list ArtifactSource;
  ArtifactPatterns : list string;
  ArtifactRemote : string;
  ArtifactDest : string;
  ArtifactPattern : string;
  ArtifactSinceStart : option bool;
  PollInterval : string
}.

End Profile.

Module RunFile.

(** [RunConfigFile] *)
Record RunConfigFile : Type := mkRunConfigFile {
  Profile : string;
  Name : string;
  Remote : string;
  LogDir : string;
  Script : string;
  BuildScript : string;
  ScriptLocal : string;
  ArtifactRemote : string;
  ArtifactDest : string;
  ArtifactSources : list ArtifactSource;
  ArtifactPatterns : list string;
  ArtifactPattern : string;
  ArtifactSinceStart : option bool;
  PollInterval : string;
  Args : list string
}.

End RunFile.

(** [Config]; the map [Profiles] is read only, and given by its lookup. *)
Record Config : Type := mkConfig {
  Defaults : Profile.RunProfile;
  Profiles : string -> option Profile.RunProfile;
  path : string
}.

Module Run.

(** The local variables of [cmdRun] that the flags, the profiles and the
    run file set. *)
Record Settings : Type := mkSettings {
  remote : string;
  name : string;
  logDir : string;
  script : string;
  buildScript : string;
  scriptLocal : string;
  artifactRemote : string;
  artifactDest : string;
  configPatterns : list string;
  artifactSources : list ArtifactSource;
  artifactSinceStart : bool;
  pollInterval : Duration;
  profileName : string
}.

End Run.

(** The errors of [cmdRun] while it settles its settings. *)
Inductive SettingsError : Type :=
| ProfileWithoutConfig (profile : string)
| ProfileNotFound (profile configPath : string)
| InvalidProfilePollInterval (value source : string)
| InvalidRunFilePollInterval (value source : string)
| RequiredMissing
| ArtifactRemoteNotAbsolute
| ArtifactPairIncomplete.

(** [if current == "" { current = fallback }] *)
Definition ifEmpty (current fallback : string) : string :=
  if isEmpty current then fallback else current.

(** The two assignments of the closures that depend on list lengths. *)
Definition patternsIfNone (current : list string) (single : string)
    (items : list string) : list string :=
  if (List.length current =? 0)%nat then
    let patterns := normalizePatternList single items in
    if (0 <? List.length patterns)%nat then patterns else current
  else current.

Definition sourcesIfNone (current given : list ArtifactSource)
  : list ArtifactSource :=
  if (List.length current =? 0)%nat && (0 <? List.length given)%nat
  then copyArtifactSources given
  else current.

(** [if !flag.set && value != nil { current = *value }] *)
Definition unlessSet {A : Type} (flagSet : bool) (current : A) (value : option A) : A :=
  match value with
  | Some v => if negb flagSet then v else current
  | None => current
  end.

(** The closure [applyProfile] of [cmdRun]: the variables after the call
    and the error returned.  [parseDuration] is [time.ParseDuration];
    [sinceStartSet] and [pollIntervalSet] tell whether the flags
    [--artifact-since-start] and [--poll-interval] were given. *)
Definition applyProfile (parseDuration : string -> option Duration)
    (sinceStartSet pollIntervalSet : bool) (source : string)
    (prof : option Profile.RunProfile) (s : Run.Settings)
  : Run.Settings * option SettingsError :=
  match prof with
  | None => (s, None)
  | Some prof =>
      let assigned pollInterval :=
        Run.mkSettings
          (ifEmpty (Run.remote s) (Profile.Remote prof))
          (Run.name s)
          (ifEmpty (Run.logDir s) (Profile.LogDir prof))
          (ifEmpty (Run.script s) (Profile.Script prof))
          (ifEmpty (Run.buildScript s) (Profile.BuildScript prof))
          (Run.scriptLocal s)
          (ifEmpty (Run.artifactRemote s) (Profile.ArtifactRemote prof))
          (ifEmpty (Run.artifactDest s) (Profile.ArtifactDest prof))
          (patternsIfNone (Run.configPatterns s) (Profile.ArtifactPattern prof)
             (Profile.ArtifactPatterns prof))
          (sourcesIfNone (Run.artifactSources s) (Profile.ArtifactSources prof))
          (unlessSet sinceStartSet (Run.artifactSinceStart s)
             (Profile.ArtifactSinceStart prof))
          pollInterval
          (Run.profileName s) in
      if negb pollIntervalSet && negb (isEmpty (Profile.PollInterval prof)) then
        match parseDuration (Profile.PollInterval prof) with
        | None => (assigned (Run.pollInterval s),
                   Some (InvalidProfilePollInterval (Profile.PollInterval prof) source))
        | Some d => (assigned d, None)
        end
      else (assigned (Run.pollInterval s), None)
  end.

(** The closure [applyRunFile] of [cmdRun]. *)
Definition applyRunFile (parseDuration : string -> option Duration)
    (sinceStartSet pollIntervalSet : bool) (source : string)
    (cfg : option RunFile.RunConfigFile) (s : Run.Settings)
  : Run.Settings * option SettingsError :=
  match cfg with
  | None => (s, None)
  | Some cfg =>
      let assigned pollInterval name :=
        Run.mkSettings
          (ifEmpty (Run.remote s) (RunFile.Remote cfg))
          name
          (ifEmpty (Run.logDir s) (RunFile.LogDir cfg))
          (ifEmpty (Run.script s) (RunFile.Script cfg))
          (ifEmpty (Run.buildScript s) (RunFile.BuildScript cfg))
          (ifEmpty (Run.scriptLocal s) (RunFile.ScriptLocal cfg))
          (ifEmpty (Run.artifactRemote s) (RunFile.ArtifactRemote cfg))
          (ifEmpty (Run.artifactDest s) (RunFile.ArtifactDest cfg))
          (patternsIfNone (Run.configPatterns s) (RunFile.ArtifactPattern cfg)
             (RunFile.ArtifactPatterns cfg))
          (sourcesIfNone (Run.artifactSources s) (RunFile.ArtifactSources cfg))
          (unlessSet sinceStartSet (Run.artifactSinceStart s)
             (RunFile.ArtifactSinceStart cfg))
          pollInterval
          (Run.profileName s) in
      if negb pollIntervalSet && negb (isEmpty (RunFile.PollInterval cfg)) then
        match parseDuration (RunFile.PollInterval cfg) with
        | None => (assigned (Run.pollInterval s) (Run.name s),
                   Some (InvalidRunFilePollInterval (RunFile.PollInterval cfg) source))
        | Some d => (assigned d (ifEmpty (Run.name s) (RunFile.Name cfg)), None)
        end
      else (assigned (Run.pollInterval s) (ifEmpty (Run.name s) (RunFile.Name cfg)),
            None)
  end.

(** The first lines after the run file is loaded: the profile and the name
    of the run file are used when the flags give none. *)
Definition adoptRunFile (runFile : option RunFile.RunConfigFile) (s : Run.Settings)
  : Run.Settings :=
  match runFile with
  | None => s
  | Some rf =>
      Run.mkSettings (Run.remote s)
        (if isEmpty (Run.name s) && negb (isEmpty (RunFile.Name rf))
         then RunFile.Name rf else Run.name s)
        (Run.logDir s) (Run.script s) (Run.buildScript s) (Run.scriptLocal s)
        (Run.artifactRemote s) (Run.artifactDest s) (Run.configPatterns s)
        (Run.artifactSources s) (Run.artifactSinceStart s) (Run.pollInterval s)
        (if isEmpty (Run.profileName s) && negb (isEmpty (RunFile.Profile rf))
         then RunFile.Profile rf else Run.profileName s)
  end.

(** [remote = os.Getenv("EXP_REMOTE")] when [remote] is empty. *)
Definition remoteFromEnv (envRemote : string) (s : Run.Settings) : Run.Settings :=
  Run.mkSettings (ifEmpty (Run.remote s) envRemote)
    (Run.name s) (Run.logDir s) (Run.script s) (Run.buildScript s)
    (Run.scriptLocal s) (Run.artifactRemote s) (Run.artifactDest s)
    (Run.configPatterns s) (Run.artifactSources s) (Run.artifactSinceStart s)
    (Run.pollInterval s) (Run.profileName s).

(** The checks of [cmdRun] on the settled variables, and the choice of
    [patterns]. *)
Definition checkSettings (flagPatterns : list string) (s : Run.Settings)
  : option (Run.Settings * list string) * option SettingsError :=
  if isEmpty (Run.remote s) || isEmpty (Run.name s) || isEmpty (Run.logDir s)
     || isEmpty (Run.script s)
  then (None, Some RequiredMissing)
  else if negb (isEmpty (Run.artifactRemote s))
          && negb (HasPrefix (Run.artifactRemote s) "/")
  then (None, Some ArtifactRemoteNotAbsolute)
  else if (List.length (Run.artifactSources s) =? 0)%nat
          && negb (Bool.eqb (isEmpty (Run.artifactRemote s))
                            (isEmpty (Run.artifactDest s)))
  then (None, Some ArtifactPairIncomplete)
  else
    let patterns :=
      if (0 <? List.length flagPatterns)%nat then flagPatterns
      else Run.configPatterns s in
    (Some (s, patterns), None).

(** [cmdRun] from the loaded run file and configuration to the settled
    variables: [s] holds the values of the flags, [runFile] is the file of
    [--config-file] when the flag is given, [cfg] what [loadConfig]
    returned, [envRemote] the value of [EXP_REMOTE]. *)
Definition cmdRunSettings (parseDuration : string -> option Duration)
    (envRemote : string) (sinceStartSet pollIntervalSet : bool)
    (flagPatterns : list string) (configPath : string)
    (runFile : option RunFile.RunConfigFile) (cfg : option Config)
    (s : Run.Settings)
  : option (Run.Settings * list string) * option SettingsError :=
  let apply := applyProfile parseDuration sinceStartSet pollIntervalSet in
  let s := adoptRunFile runFile s in
  let profiled :=
    match cfg with
    | None =>
        if negb (isEmpty (Run.profileName s))
        then (s, Some (ProfileWithoutConfig (Run.profileName s)))
        else (s, None)
    | Some cfg =>
        match apply "defaults" (Some (Defaults cfg)) s with
        | (s, Some e) => (s, Some e)
        | (s, None) =>
            if negb (isEmpty (Run.profileName s)) then
              match Profiles cfg (Run.profileName s) with
              | None => (s, Some (ProfileNotFound (Run.profileName s) (path cfg)))
              | Some prof => apply (Run.profileName s) (Some prof) s
              end
            else (s, None)
        end
    end in
  match profiled with
  | (_, Some e) => (None, Some e)
  | (s, None) =>
      match applyRunFile parseDuration sinceStartSet pollIntervalSet configPath
              runFile s with
      | (_, Some e) => (None, Some e)
      | (s, None) => checkSettings flagPatterns (remoteFromEnv envRemote s)
      end
  end.

(** The field [get] of a layer that may be missing. *)
Definition ofLayer {L : Type} (get : L -> string) (layer : option L) : string :=
  match layer with
  | Some l => get l
  | None => EmptyString
  end.

(** The last value that is defined, [default] when there is none. *)
Definition lastDefined {A : Type} (default : A) (values : list (option A)) : A :=
  fold_left (fun acc v => match v with Some x => x | None => acc end) values default.

(** The profile [cmdRun] looks up: the one of [--profile], else the one the
    run file names. *)
Definition profileAsked (runFile : option RunFile.RunConfigFile) (s : Run.Settings)
  : string :=
  firstNonEmpty [Run.profileName s; ofLayer RunFile.Profile runFile].

(** The three layers under the flags. *)
Definition defaultsLayer (cfg : option Config) : option Profile.RunProfile :=
  option_map Defaults cfg.

Definition profileLayer (cfg : option Config) (profile : string)
  : option Profile.RunProfile :=
  match cfg with
  | Some c => if isEmpty profile then None else Profiles c profile
  | None => None
  end.

(** The poll interval a layer defines. *)
Definition intervalOf (parseDuration : string -> option Duration) (text : string)
  : option Duration :=
  if isEmpty text then None else parseDuration text.

Definition listOfLayer {L A : Type} (get : L -> list A) (layer : option L) : list A :=
  match layer with
  | Some l => get l
  | None => []
  end.

Definition optionOfLayer {L A : Type} (get : L -> option A) (layer : option L)
  : option A :=
  match layer with
  | Some l => get l
  | None => None
  end.

(** The first list that is not empty. *)
Fixpoint firstNonNil {A : Type} (lists : list (list A)) : list A :=
  match lists with
  | [] => []
  | l :: rest => match l with [] => firstNonNil rest | _ => l end
  end.

(** The patterns a layer defines, as [normalizePatternList] reads them. *)
Definition profilePatterns (layer : option Profile.RunProfile) : list string :=
  normalizePatternList (ofLayer Profile.ArtifactPattern layer)
    (listOfLayer Profile.ArtifactPatterns layer).

Definition runFilePatterns (layer : option RunFile.RunConfigFile) : list string :=
  normalizePatternList (ofLayer RunFile.ArtifactPattern layer)
    (listOfLayer RunFile.ArtifactPatterns layer).

(** Example layers: defaults and the profile [gpu] of a configuration, a
    run file that asks for [gpu], and flags that give nothing. *)
Module StubRun.

Definition parseDuration (text : string) : option Duration :=
  if (text =? "45s")%string then Some (45 * Second)%Z
  else if (text =? "2m")%string then Some (2 * Minute)%Z
  else None.

Definition defaults : Profile.RunProfile :=
  Profile.mkRunProfile "d@host" "" "" "" [] ["\.json$"] "" "" "" (Some false) "45s".

Definition gpu : Profile.RunProfile :=
  Profile.mkRunProfile "p@host" "/logs/gpu" "" "" [] ["\.csv$"] "/data/gpu"
    "~/results" "" None "".

Definition config : Config :=
  mkConfig defaults
    (fun profile => if (profile =? "gpu")%string then Some gpu else None)
    "/home/user/.exp/config.yaml".

Definition runFile : RunFile.RunConfigFile :=
  RunFile.mkRunConfigFile "gpu" "run1" "f@host" "/logs/file" "/jobs/run.sbatch"
    "" "" "" "" [] [] "" (Some true) "2m" ["--k"; "100"].

Definition flags : Run.Settings :=
  Run.mkSettings "" "" "" "" "" "" "" "" [] [] true defaultPollInterval "".

End StubRun.

(** Every byte of [s] satisfies [p]. *)
Fixpoint allBytes (p : ascii -> bool) (s : string) : bool :=
  match s with
  | EmptyString => true
  | String c r => p c && allBytes p r
  end.

(** The first byte of [s] satisfies [p]. *)
Definition firstByteIs (p : ascii -> bool) (s : string) : bool :=
  match s with
  | String c _ => p c
  | EmptyString => false
  end.

(** The flags [inSingle] and [inDouble] of [stripInlineComment] after the
    bytes of [s]. *)
Fixpoint quoteScan (inSingle inDouble : bool) (s : string) : bool * bool :=
  match s with
  | EmptyString => (inSingle, inDouble)
  | String c r =>
      if Ascii.eqb c "'" then
        quoteScan (if negb inDouble then negb inSingle else inSingle) inDouble r
      else if Ascii.eqb c doubleQuote then
        quoteScan inSingle (if negb inSingle then negb inDouble else inDouble) r
      else quoteScan inSingle inDouble r
  end.

(* ===================================================================== *)
(** ** Loading the configuration *)
(* ===================================================================== *)

(** What [os.ReadFile] returns: the data, an error for which
    [errors.Is(err, os.ErrNotExist)] holds, or another error. *)
Inductive ReadResult : Type :=
| ReadData (data : string)
| ReadNotExist
| ReadFailed.

Inductive ConfigError : Type :=
| ConfigHomeDir
| ConfigMkdirAll (dir : string)
| ConfigReadFile (path : string)
| ConfigParse (path : string).

(** [configDir] *)
Definition configDir (w : World) : string * option ConfigError :=
  match userHomeDir w with
  | None => (EmptyString, Some ConfigHomeDir)
  | Some home =>
      let dir := Filepath.Join [home; ".exp"] in
      if negb (mkdirAll w dir) then (EmptyString, Some (ConfigMkdirAll dir))
      else (dir, None)
  end.

(** [defaultConfigPaths] *)
Definition defaultConfigPaths (w : World) : list string * option ConfigError :=
  match configDir w with
  | (_, Some e) => ([], Some e)
  | (dir, None) =>
      ([Filepath.Join [dir; "config.yaml"];
        Filepath.Join [dir; "config.yml"];
        Filepath.Join [dir; "config.json"]], None)
  end.

(** The loop of [filepath.Ext] over the reversed path; [acc] holds the
    bytes passed. *)
Fixpoint extFrom (acc : string) (reversed : string) : string :=
  match reversed with
  | EmptyString => EmptyString
  | String c r =>
      if Ascii.eqb c "/" then EmptyString
      else if Ascii.eqb c "." then String c acc
      else extFrom (String c acc) r
  end.

(** [filepath.Ext] *)
Definition Ext (path : string) : string := extFrom EmptyString (strRev path).

(** A configuration without defaults and profiles, as [loadConfig] builds
    it before it reads the data. *)
Definition emptyProfile : Profile.RunProfile :=
  Profile.mkRunProfile "" "" "" "" [] [] "" "" "" None "".

Definition emptyConfig (configPath : string) : Config :=
  mkConfig emptyProfile (fun _ => None) configPath.

(** The loop of [loadConfig] over the candidate paths: the result and the
    paths read, in order.  [readFile] is [os.ReadFile]; [unmarshal data ext
    cfg] is [unmarshalConfigData], which returns the configuration as it
    has left it and whether it succeeded. *)
Fixpoint loadConfigFrom (readFile : string -> ReadResult)
    (unmarshal : string -> string -> Config -> Config * bool)
    (paths : list string)
  : option Config * option ConfigError * list string :=
  match paths with
  | [] => (None, None, [])
  | configPath :: rest =>
      match readFile configPath with
      | ReadNotExist =>
          let '(cfg, err, reads) := loadConfigFrom readFile unmarshal rest in
          (cfg, err, configPath :: reads)
      | ReadFailed => (None, Some (ConfigReadFile configPath), [configPath])
      | ReadData data =>
          let cfg := emptyConfig configPath in
          if (String.length (TrimSpace data) =? 0)%nat
          then (Some cfg, None, [configPath])
          else
            match unmarshal data (Ext configPath) cfg with
            | (_, false) => (None, Some (ConfigParse configPath), [configPath])
            | (cfg, true) => (Some cfg, None, [configPath])
            end
      end
  end.

(** [loadConfig] *)
Definition loadConfig (w : World) (readFile : string -> ReadResult)
    (unmarshal : string -> string -> Config -> Config * bool)
  : option Config * option ConfigError * list string :=
  match defaultConfigPaths w with
  | (_, Some e) => (None, Some e, [])
  | (paths, None) => loadConfigFrom readFile unmarshal paths
  end.

(** What [loadConfig] makes of the candidate [configPath] once it is
    read. *)
Definition configOutcome (readFile : string -> ReadResult)
    (unmarshal : string -> string -> Config -> Config * bool)
    (configPath : string) : option Config * option ConfigError :=
  match readFile configPath with
  | ReadNotExist => (None, None)
  | ReadFailed => (None, Some (ConfigReadFile configPath))
  | ReadData data =>
      if isEmpty (TrimSpace data) then (Some (emptyConfig configPath), None)
      else if snd (unmarshal data (Ext configPath) (emptyConfig configPath))
      then (Some (fst (unmarshal data (Ext configPath) (emptyConfig configPath))), None)
      else (None, Some (ConfigParse configPath))
  end.

(* ===================================================================== *)
(** ** The git metadata of a run *)
(* ===================================================================== *)






(* ===================================================================== *)
(** ** The destination of a run *)
(* ===================================================================== *)

Inductive DestError : Type :=
| DestExpand (err : Error)
| DestMkdirAll (dir : string).

(** The lines of [cmdRun] that set [artifactDestAbs]. *)
Definition cmdRunDest (w : World) (artifactDest : string)
  : string * option DestError :=
  if negb (isEmpty artifactDest) then
    match expandLocalPath w artifactDest with
    | (_, Some e) => (EmptyString, Some (DestExpand e))
    | (artifactDestAbs, None) =>
        if negb (mkdirAll w artifactDestAbs)
        then (artifactDestAbs, Some (DestMkdirAll artifactDestAbs))
        else (artifactDestAbs, None)
    end
  else (EmptyString, None).

(* ===================================================================== *)
(** * Properties *)
(* ===================================================================== *)

(** ** The library functions on small inputs *)

Example TrimSpace_running : TrimSpace ("  running" ++ LF) = "running".
Proof. reflexivity. Qed.

Example TrimSpace_inner : TrimSpace (TAB ++ "a b" ++ TAB ++ LF ++ " ") = "a b".
Proof. reflexivity. Qed.

(** U+00A0 (bytes C2 A0) and U+3000 (bytes E3 80 80) are white space. *)
Example TrimSpace_unicode :
  TrimSpace (String (ascii_of_N 0xC2) (String (ascii_of_N 0xA0) "ok")
             ++ String (ascii_of_N 0xE3) (String (ascii_of_N 0x80)
                  (String (ascii_of_N 0x80) ""))) = "ok".
Proof. reflexivity. Qed.

Example ToUpper_mixed : ToUpper "Resv_del_hold" = "RESV_DEL_HOLD".
Proof. reflexivity. Qed.

Example Fields_sbatch :
  Fields ("Submitted batch job 2723147" ++ LF)
  = ["Submitted"; "batch"; "job"; "2723147"].
Proof. reflexivity. Qed.

Example Fields_blank : Fields (" " ++ TAB ++ LF) = [].
Proof. reflexivity. Qed.

Example Split_slashes : Split "/" "a//b/" = ["a"; ""; "b"; ""].
Proof. reflexivity. Qed.

Example TrimByte_plus : TrimByte "+" "+CANCELLED++" = "CANCELLED".
Proof. reflexivity. Qed.

Example sacctState_by : sacctState "CANCELLED by 1234" = "CANCELLED".
Proof. reflexivity. Qed.

Example Clean_dots : Filepath.Clean "/data/out/./sub//../c.json" = "/data/out/c.json".
Proof. reflexivity. Qed.

Example Join_root : Filepath.Join ["/data/out"; "sub/c.json"] = "/data/out/sub/c.json".
Proof. reflexivity. Qed.

Example Base_nested : Filepath.Base "sub/c.json" = "c.json".
Proof. reflexivity. Qed.

Example Base_slashes : Filepath.Base "///" = "/".
Proof. reflexivity. Qed.

Example shellQuote_plain : shellQuote "/data/out" = "'/data/out'".
Proof. reflexivity. Qed.

Example findLines_listing :
  findLines (Split newline ("./a.json" ++ LF ++ "." ++ LF ++ "./sub/c.json"))
  = ["a.json"; "sub/c.json"].
Proof. reflexivity. Qed.

Example splitPatterns_two :
  splitPatterns ("\.json$" ++ LF ++ LF ++ " \.csv$ " ++ LF) = ["\.json$"; "\.csv$"].
Proof. reflexivity. Qed.

(** ** Status classification *)

Lemma isActiveStatus_In (S : string) :
  isActiveStatus S = true <-> In (ToUpper (TrimSpace S)) activeStates.
Proof.
  unfold isActiveStatus, activeStates.
  set (s := ToUpper (TrimSpace S)). simpl.
  repeat match goal with
         | |- context [String.eqb s ?c] =>
             destruct (String.eqb_spec s c) as [-> | ?]
         end;
    split; intro H; try reflexivity; try discriminate; auto 10;
    repeat (destruct H as [H | H]; [congruence |]); contradiction.
Qed.

(** C1.  A status is classified as active exactly when, trimmed of white
    space and put in upper case, it is one of PENDING, CONFIGURING, RUNNING,
    COMPLETING, SUSPENDED, RESV_DEL_HOLD and SPECIAL_EXIT; every other
    status is terminal, among them the empty string, garbage and UNKNOWN. *)
Theorem isActiveStatus_iff_active_set :
  forall S : string,
    (isActiveStatus S = true <-> In (ToUpper (TrimSpace S)) activeStates)
    /\ (isActiveStatus S = false <-> ~ In (ToUpper (TrimSpace S)) activeStates)
    /\ isActiveStatus "" = false
    /\ isActiveStatus "UNKNOWN" = false
    /\ isActiveStatus "RUNNING?" = false
    /\ isActiveStatus "COMPLETED" = false.
Proof.
  intro S.
  pose proof (isActiveStatus_In S) as H.
  split; [exact H |].
  split; [| repeat split; reflexivity].
  destruct (isActiveStatus S); split; intro H1.
  - discriminate.
  - exfalso. apply H1, H. reflexivity.
  - intro H2. apply H in H2. discriminate.
  - reflexivity.
Qed.

(** A status in lower case, surrounded by white space, is active. *)
Lemma isActiveStatus_iff_active_set_witness :
  isActiveStatus ("  resv_del_hold " ++ LF) = true.
Proof.
  apply (proj1 (isActiveStatus_iff_active_set ("  resv_del_hold " ++ LF))).
  vm_compute. auto 10.
Defined.

(** ** Strings *)

Lemma string_app_assoc (a b c : string) :
  ((a ++ b) ++ c = a ++ (b ++ c))%string.
Proof.
  induction a as [| x a IH]; simpl; [reflexivity | now rewrite IH].
Qed.

Lemma string_app_nil_r (a : string) : (a ++ "")%string = a.
Proof.
  induction a as [| x a IH]; simpl; [reflexivity | now rewrite IH].
Qed.

Lemma strRev_app (a b : string) :
  strRev (a ++ b) = (strRev b ++ strRev a)%string.
Proof.
  induction a as [| x a IH]; simpl.
  - now rewrite string_app_nil_r.
  - rewrite IH. now rewrite string_app_assoc.
Qed.

Lemma strRev_involutive (a : string) : strRev (strRev a) = a.
Proof.
  induction a as [| x a IH]; simpl; [reflexivity |].
  rewrite strRev_app, IH. reflexivity.
Qed.





Lemma isEmpty_true (s : string) : isEmpty s = true <-> s = EmptyString.
Proof. destruct s; split; intro H; try reflexivity; discriminate. Qed.

Lemma isEmpty_false (s : string) : isEmpty s = false <-> s <> EmptyString.
Proof. destruct s; split; intro H; try reflexivity; try discriminate; congruence. Qed.

(** ** Two-tier status lookup *)

(** C10.  For every remote host, the status query with an empty job
    identifier answers UNKNOWN without an error and without running a
    command: the event log, and with it the number of ssh processes
    started, is what it was. *)
Theorem queryJobStatus_empty_job_id :
  forall (w : World) (remote : string) (st : State),
    fst (queryJobStatus w remote "" st) = ("UNKNOWN", None)
    /\ snd (queryJobStatus w remote "" st) = st
    /\ log (snd (queryJobStatus w remote "" st)) = log st
    /\ sshCalls (log (snd (queryJobStatus w remote "" st))) = sshCalls (log st).
Proof.
  intros w remote st. repeat split.
Qed.

(** ** Job submitter *)

Lemma noAsciiSpace_snoc (cur : string) (c : ascii) :
  noAsciiSpace cur -> isAsciiSpace c = false ->
  noAsciiSpace (cur ++ String c EmptyString).
Proof.
  induction cur as [| d cur IH]; intros Hcur Hc x Hx; simpl in Hx.
  - destruct Hx as [<- | []]. exact Hc.
  - destruct Hx as [<- | Hx].
    + apply Hcur. left. reflexivity.
    + apply IH; auto. intros y Hy. apply Hcur. right. exact Hy.
Qed.

Lemma spaceWidth_0_head (c : ascii) (r : string) :
  spaceWidth (String c r) = 0 -> isAsciiSpace c = false.
Proof.
  simpl. destruct (isAsciiSpace c); [discriminate | reflexivity].
Qed.

(** Every field is a non-empty run of bytes none of which is white space. *)
Lemma fieldsFrom_tokens (s : string) :
  forall (skip : nat) (cur : string),
    noAsciiSpace cur ->
    Forall (fun f => f <> EmptyString /\ noAsciiSpace f) (fieldsFrom skip cur s).
Proof.
  assert (Hflush : forall cur, noAsciiSpace cur ->
            Forall (fun f => f <> EmptyString /\ noAsciiSpace f) (flush cur)).
  { intros cur Hcur. unfold flush. destruct cur; simpl; constructor.
    - split; [discriminate | exact Hcur].
    - constructor. }
  induction s as [| c r IH]; intros skip cur Hcur.
  - simpl. apply Hflush, Hcur.
  - cbn [fieldsFrom]. destruct skip as [| k].
    + destruct (spaceWidth (String c r)) as [| k] eqn:Hw.
      * apply IH. apply noAsciiSpace_snoc; [exact Hcur |].
        eapply spaceWidth_0_head; eauto.
      * apply Forall_app. split; [apply Hflush, Hcur |].
        apply IH. intros x [].
    + apply IH, Hcur.
Qed.

Lemma Fields_tokens (s : string) :
  Forall (fun f => f <> EmptyString /\ noAsciiSpace f) (Fields s).
Proof. apply fieldsFrom_tokens. intros x []. Qed.

Lemma nth_last_snoc {A : Type} (front : list A) (x d : A) :
  nth (List.length (front ++ [x]) - 1) (front ++ [x]) d = x.
Proof.
  rewrite length_app. simpl.
  replace (List.length front + 1 - 1) with (List.length front) by lia.
  rewrite app_nth2 by lia. rewrite Nat.sub_diag. reflexivity.
Qed.

(** C8.  Job submission starts one process, [ssh remote sbatch
    --output=logTemplate scriptPath scriptArgs...], exactly once, whatever
    the outcome (there is no retry); a non-zero exit, or an output with no
    white-space delimited token, is an error; otherwise the job identifier
    is the last token of the whole output. *)
Theorem submitSbatchSSH_last_token :
  forall (w : World) (remote logTemplate scriptPath : string)
         (scriptArgs : list string) (st : State),
    let argv := "sbatch" :: ("--output=" ++ logTemplate)%string
                  :: scriptPath :: scriptArgs in
    let r := ssh w (sshCalls (log st)) remote argv in
    let res := submitSbatchSSH w remote logTemplate scriptPath scriptArgs st in
    let jobID := fst (fst (fst res)) in
    let sshOutput := snd (fst (fst res)) in
    let err := snd (fst res) in
    log (snd res) = log st ++ [EvSsh remote argv]
    /\ sbatchArgs logTemplate scriptPath scriptArgs = argv
    /\ db (snd res) = db st
    /\ sshCalls (log (snd res)) = S (sshCalls (log st))
    /\ sshOutput = out r
    /\ (exitErr r = true -> jobID = "" /\ err = Some (ErrSbatch (out r)))
    /\ (exitErr r = false -> Fields (out r) = [] ->
        jobID = "" /\ err = Some (ErrParseSbatch (out r)))
    /\ (exitErr r = false ->
        forall front tok, Fields (out r) = front ++ [tok] ->
          jobID = tok /\ err = None /\ tok <> "" /\ noAsciiSpace tok).
Proof.
  intros w remote logTemplate scriptPath scriptArgs st argv r res jobID sshOutput err.
  subst jobID sshOutput err res.
  unfold submitSbatchSSH, bind, runSsh.
  change (sbatchArgs logTemplate scriptPath scriptArgs) with argv. fold r.
  assert (Hcalls : sshCalls (log st ++ [EvSsh remote argv]) = S (sshCalls (log st))).
  { unfold sshCalls. rewrite filter_app, length_app. simpl. lia. }
  destruct (exitErr r) eqn:Hexit.
  - simpl. split; [reflexivity |]. split; [reflexivity |]. split; [reflexivity |].
    split; [exact Hcalls |].
    split; [reflexivity |]. split; [auto |]. split; intros; discriminate.
  - destruct (Fields (out r)) as [| f fs] eqn:HF.
    + simpl. split; [reflexivity |]. split; [reflexivity |]. split; [reflexivity |].
      split; [exact Hcalls |].
      split; [reflexivity |]. split; [intros; discriminate |].
      split; [auto |].
      intros _ front tok H. destruct front; discriminate.
    + change (List.length (f :: fs) =? 0)%nat with false. cbv iota.
      cbn [ret fst snd log db].
      split; [reflexivity |]. split; [reflexivity |]. split; [reflexivity |].
      split; [exact Hcalls |].
      split; [reflexivity |]. split; [intros; discriminate |].
      split; [intros; discriminate |].
      intros _ front tok H.
      pose proof (Fields_tokens (out r)) as HT. rewrite HF, H in HT.
      apply Forall_app in HT. destruct HT as [_ HT].
      inversion HT as [| ? ? [Hne Hns] _]; subst.
      rewrite H. rewrite nth_last_snoc. auto.
Qed.

(** The usual answer of sbatch gives the job identifier 2723147; the one
    process started is ssh with the sbatch command line. *)
Lemma submitSbatchSSH_last_token_witness :
  let res := submitSbatchSSH
               (Stub.world [Stub.okExec ("Submitted batch job 2723147" ++ LF)] [])
               "user@host" "/logs/run1-%j.out" "/a/b.sh" ["--epochs"; "3"]
               Stub.state0 in
  fst (fst (fst res)) = "2723147"
  /\ log (snd res) =
     log Stub.state0 ++
     [EvSsh "user@host"
        ["sbatch"; "--output=/logs/run1-%j.out"; "/a/b.sh"; "--epochs"; "3"]].
Proof.
  cbv zeta.
  pose proof (submitSbatchSSH_last_token
                (Stub.world [Stub.okExec ("Submitted batch job 2723147" ++ LF)] [])
                "user@host" "/logs/run1-%j.out" "/a/b.sh" ["--epochs"; "3"]
                Stub.state0) as H.
  cbv zeta in H. destruct H as (Hlog & _ & _ & _ & _ & _ & _ & H).
  split; [| exact Hlog].
  exact (proj1 (H eq_refl ["Submitted"; "batch"; "job"] "2723147" eq_refl)).
Defined.

(** ** Since-start cutoff *)

Lemma wrap64_small (z : Z) :
  (- 2 ^ 63 <= z < 2 ^ 63)%Z -> wrap64 z = z.
Proof.
  intro H. unfold wrap64. rewrite Z.mod_small by lia. lia.
Qed.

Lemma Unix_inCalendar (T : Time) :
  inCalendar T -> Unix T = (sec T - unixToInternal)%Z.
Proof.
  intros [Hs _]. unfold Unix, internalToUnix, unixToInternal.
  rewrite wrap64_small by lia. lia.
Qed.

Lemma Add_grace_inCalendar (T : Time) :
  inCalendar T ->
  Add (UTC T) (- sinceStartGracePeriod)%Z = mkTime (sec T - 120)%Z (nsec T).
Proof.
  intros [Hs Hn]. unfold Add, UTC.
  change (Z.quot (- sinceStartGracePeriod) 1000000000) with (-120)%Z.
  change (Z.rem (- sinceStartGracePeriod) 1000000000) with 0%Z.
  rewrite Z.add_0_r.
  destruct (Z.geb_spec (nsec T) 1000000000) as [? | _]; [lia |].
  destruct (Z.ltb_spec (nsec T) 0) as [? | _]; [lia |].
  f_equal. unfold addSec.
  rewrite wrap64_small by lia.
  assert (Hgt : (sec T + -120 >? sec T)%Z = false)
    by (rewrite Z.gtb_ltb; apply Z.ltb_ge; lia).
  rewrite Hgt. reflexivity.
Qed.

Lemma cutoffEpoch_inCalendar (T : Time) :
  inCalendar T -> cutoffEpoch T = (Unix T - 120)%Z.
Proof.
  intro H. unfold cutoffEpoch. rewrite Add_grace_inCalendar by exact H.
  destruct H as [Hs Hn]. unfold Unix, internalToUnix, unixToInternal. simpl sec.
  rewrite !wrap64_small by lia. lia.
Qed.

Lemma listCommand_since (root : string) (T : Time) :
  IsZero T = false ->
  listCommand root T =
  (findCommand root ++ " -newermt " ++ shellQuote ("@" ++ formatInt (cutoffEpoch T))
     ++ " -print")%string.
Proof.
  intro H. unfold listCommand, findCommand. rewrite H. cbn [negb].
  repeat rewrite string_app_assoc. reflexivity.
Qed.

(** C7.  For every since timestamp T that is requested (a calendar instant
    other than the zero time), the cutoff in the listing command is T minus
    2 minutes in seconds since the Unix epoch: it is [Unix T - 120], the
    grace period is 2 minutes of 60 seconds, and the command that is sent
    to the remote host carries [-newermt '@<cutoff>']. *)
Theorem listRemoteFiles_cutoff_grace :
  forall (w : World) (remote root : string) (T : Time) (st : State),
    inCalendar T ->
    IsZero T = false ->
    cutoffEpoch T = (Unix T - 2 * 60)%Z
    /\ sinceStartGracePeriod = (2 * 60 * Second)%Z
    /\ Unix (Add (UTC T) (- sinceStartGracePeriod)%Z) = (Unix T - 2 * 60)%Z
    /\ listCommand root T =
       (findCommand root ++ " -newermt "
          ++ shellQuote ("@" ++ formatInt (Unix T - 2 * 60)) ++ " -print")%string
    /\ log (snd (listRemoteFiles w remote root T st)) =
       log st ++ [EvSsh remote
                    ["bash"; "-lc";
                     (findCommand root ++ " -newermt "
                        ++ shellQuote ("@" ++ formatInt (Unix T - 2 * 60))
                        ++ " -print")%string]].
Proof.
  intros w remote root T st Hcal Hnz.
  pose proof (cutoffEpoch_inCalendar T Hcal) as Hc.
  pose proof (listCommand_since root T Hnz) as Hl.
  rewrite Hc in Hl. change (2 * 60)%Z with 120%Z.
  split; [exact Hc |]. split; [reflexivity |]. split; [exact Hc |].
  split; [exact Hl |].
  unfold listRemoteFiles, bind, runSsh, listArgs. rewrite Hl. reflexivity.
Qed.

(** A run created on 2025-01-01T00:00:00Z (1735689600) is listed with the
    cutoff 1735689480. *)
Lemma listRemoteFiles_cutoff_grace_witness :
  cutoffEpoch (CreatedAt Stub.run1) = 1735689480%Z
  /\ Unix (CreatedAt Stub.run1) = 1735689600%Z.
Proof.
  assert (Hcal : inCalendar (CreatedAt Stub.run1)) by (split; simpl; lia).
  destruct (listRemoteFiles_cutoff_grace
              (Stub.world [] []) "user@host" "/data/out" (CreatedAt Stub.run1)
              Stub.state0 Hcal eq_refl) as (H & _).
  split; [rewrite H |]; reflexivity.
Defined.

(** Without a since timestamp the command has no time filter. *)
Lemma listCommand_zero (root : string) :
  listCommand root zeroTime = (findCommand root ++ " -print")%string.
Proof.
  unfold listCommand, findCommand. cbn [IsZero zeroTime sec nsec Z.eqb andb negb].
  repeat rewrite string_app_assoc. reflexivity.
Qed.

(** ** Pattern filter *)

Lemma IsAbs_not_empty (p : string) :
  Filepath.IsAbs p = true -> isEmpty p = false.
Proof. destruct p; [discriminate | reflexivity]. Qed.

Lemma patternMatches_nonempty (res : list (option Regexp)) (remoteRoot rel : string) :
  res <> [] ->
  isEmpty remoteRoot = false ->
  (patternMatches res remoteRoot rel = true <->
   exists re, In (Some re) res /\ matchesThreeWay re remoteRoot rel).
Proof.
  intros Hres Hroot. unfold patternMatches, matchesThreeWay.
  destruct res as [| r0 res0]; [contradiction |].
  change (List.length (r0 :: res0) =? 0)%nat with false. cbv iota.
  rewrite Hroot. cbn [negb].
  rewrite existsb_exists. split.
  - intros [[re |] [Hin H]]; [| discriminate].
    exists re. split; [exact Hin |].
    apply orb_true_iff in H. destruct H as [H | H]; [| tauto].
    apply orb_true_iff in H. tauto.
  - intros [re [Hin H]]. exists (Some re). split; [exact Hin |].
    destruct H as [H | [H | H]]; rewrite H;
      repeat rewrite orb_true_r; reflexivity.
Qed.

(** C5.  With an empty expression list every path matches.  Otherwise a
    path matches exactly when some expression matches the relative path,
    its final segment alone, or the relative path joined onto the absolute
    source root; so an expression that matches the final segment is enough,
    whatever it does on the other two. *)
Theorem patternMatches_three_way :
  forall (res : list (option Regexp)) (remoteRoot rel : string),
    Filepath.IsAbs remoteRoot = true ->
    (res = [] -> patternMatches res remoteRoot rel = true)
    /\ (res <> [] ->
        (patternMatches res remoteRoot rel = true <->
         exists re, In (Some re) res /\ matchesThreeWay re remoteRoot rel))
    /\ (forall re, In (Some re) res ->
                   MatchString re (Filepath.Base rel) = true ->
                   patternMatches res remoteRoot rel = true).
Proof.
  intros res remoteRoot rel Habs.
  apply IsAbs_not_empty in Habs.
  split; [intros ->; reflexivity |].
  split; [intro Hne; apply patternMatches_nonempty; assumption |].
  intros re Hin Hbase.
  apply patternMatches_nonempty; [| exact Habs |].
  - intros ->. contradiction.
  - exists re. split; [exact Hin |]. right. left. exact Hbase.
Qed.

(** The expression [^c\.json$] matches neither [sub/c.json] nor
    [/data/out/sub/c.json], only the final segment [c.json]; the path
    matches. *)
Lemma patternMatches_three_way_witness :
  match Stub.compile "^c\.json$" with
  | Some re =>
      patternMatches [Some re] "/data/out" "sub/c.json" = true
      /\ MatchString re "sub/c.json" = false
      /\ MatchString re (Filepath.Join ["/data/out"; "sub/c.json"]) = false
      /\ patternMatches [] "/data/out" "sub/c.json" = true
  | None => False
  end.
Proof.
  destruct (Stub.compile "^c\.json$") as [re |] eqn:Hc; [| discriminate].
  assert (Hbase : MatchString re (Filepath.Base "sub/c.json") = true)
    by (injection Hc as <-; reflexivity).
  destruct (patternMatches_three_way [Some re] "/data/out" "sub/c.json" eq_refl)
    as (_ & _ & H).
  split; [apply (H re); [left; reflexivity | exact Hbase] |].
  split; [injection Hc as <-; reflexivity |].
  split; [injection Hc as <-; reflexivity |].
  exact (proj1 (patternMatches_three_way [] "/data/out" "sub/c.json" eq_refl) eq_refl).
Defined.

(** ** Effective artifact sources *)

Lemma trimmedNonEmpty_filter_map (l : list string) :
  trimmedNonEmpty l = filter (fun l => negb (isEmpty l)) (map TrimSpace l).
Proof.
  induction l as [| p l IH]; simpl; [reflexivity |].
  destruct (isEmpty (TrimSpace p)); simpl; now rewrite IH.
Qed.

Lemma copyArtifactSources_id (src : list ArtifactSource) :
  copyArtifactSources src = src.
Proof.
  unfold copyArtifactSources. destruct src as [| s src]; [reflexivity |].
  change (List.length (s :: src) =? 0)%nat with false. cbv iota.
  rewrite <- (map_id (s :: src)) at 2. apply map_ext.
  intros [p ps]. reflexivity.
Qed.

(** C9, as stated, fails: for the legacy pattern string whose second line
    is indented, the synthesized source holds the patterns [\.json$] and
    [\.csv$], the second one without its indentation, not the lines of the
    string as they are. *)
Lemma EffectiveArtifactSources_untrimmed_counterexample :
  let exp := Stub.run1Fetch ("\.json$" ++ LF ++ "  \.csv$") false in
  ArtifactSources exp = []
  /\ ArtifactRemote exp = "/data/out"
  /\ EffectiveArtifactSources exp = [mkSource "/data/out" ["\.json$"; "\.csv$"]]
  /\ linesDropBlank (ArtifactPattern exp) = ["\.json$"; "  \.csv$"]
  /\ EffectiveArtifactSources exp <>
     [mkSource (ArtifactRemote exp) (linesDropBlank (ArtifactPattern exp))].
Proof.
  cbv zeta. repeat split. vm_compute. discriminate.
Qed.

(** ** White space: [TrimSpace] and [Split] *)

Lemma isSpace2_lead (c d : N) : isLead d -> isSpace2 c d = false.
Proof.
  intro Hd. destruct (isSpace2 c d) eqn:H; [| reflexivity].
  exfalso. bool_to_prop H. unfold isLead in Hd. lia.
Qed.

Lemma isSpace3_lead_2 (c d e : N) : isLead d -> isSpace3 c d e = false.
Proof.
  intro Hd. destruct (isSpace3 c d e) eqn:H; [| reflexivity].
  exfalso. bool_to_prop H. unfold isLead in Hd. lia.
Qed.

Lemma isSpace3_lead_3 (c d e : N) : isLead e -> isSpace3 c d e = false.
Proof.
  intro He. destruct (isSpace3 c d e) eqn:H; [| reflexivity].
  exfalso. bool_to_prop H. unfold isLead in He. lia.
Qed.

Lemma SpaceRune_lead (c : ascii) (r : string) :
  SpaceRune (String c r) -> isLead (code c).
Proof.
  intro H. inversion H as [c0 H1 | c0 d H1 H2 | c0 d e H1 H2 H3]; subst;
    unfold isLead.
  - bool_to_prop H1. lia.
  - bool_to_prop H2. lia.
  - bool_to_prop H3. lia.
Qed.

Lemma SpaceRune_not_empty (ws : string) : SpaceRune ws -> ws <> EmptyString.
Proof. intro H. inversion H; discriminate. Qed.

(** A white-space rune is recognised at the front of any string. *)
Lemma spaceWidth_rune_app (ws x : string) :
  SpaceRune ws -> spaceWidth (ws ++ x) = String.length ws.
Proof.
  intro H. inversion H as [c H1 | c d H1 H2 | c d e H1 H2 H3]; subst; cbn.
  - now rewrite H1.
  - now rewrite H1, H2.
  - now rewrite H1, H2, H3.
Qed.

Lemma spaceWidthRev_rune_app (ws x : string) :
  SpaceRune ws -> spaceWidthRev (strRev ws ++ x) = String.length ws.
Proof.
  intro H. inversion H as [c H1 | c d H1 H2 | c d e H1 H2 H3]; subst; cbn.
  - now rewrite H1.
  - destruct (isAsciiSpace d) eqn:Hd.
    + exfalso. bool_to_prop H2. bool_to_prop Hd. lia.
    + now rewrite H2.
  - destruct (isAsciiSpace e) eqn:He.
    + exfalso. bool_to_prop H3. bool_to_prop He. lia.
    + destruct (isSpace2 (code d) (code e)) eqn:Hde.
      * exfalso. bool_to_prop H3. bool_to_prop Hde. lia.
      * now rewrite H3.
Qed.

(** What is recognised at the front of a string is a white-space rune. *)
Lemma spaceWidth_rune (s : string) (k : nat) :
  spaceWidth s = S k ->
  exists ws rest, s = (ws ++ rest)%string /\ SpaceRune ws.
Proof.
  destruct s as [| c r]; [discriminate |]. cbn.
  destruct (isAsciiSpace c) eqn:Hc.
  { intros _. exists (String c ""), r. split; [reflexivity | now constructor]. }
  destruct r as [| d r]; [discriminate |].
  destruct (isSpace2 (code c) (code d)) eqn:H2.
  { intros _. exists (String c (String d "")), r.
    split; [reflexivity | now constructor]. }
  destruct r as [| e r]; [discriminate |].
  destruct (isSpace3 (code c) (code d) (code e)) eqn:H3; [| discriminate].
  intros _. exists (String c (String d (String e ""))), r.
  split; [reflexivity | now constructor].
Qed.

Lemma spaceWidthRev_rune (s : string) (k : nat) :
  spaceWidthRev s = S k ->
  exists ws rest, s = (strRev ws ++ rest)%string /\ SpaceRune ws.
Proof.
  destruct s as [| e r]; [discriminate |]. cbn.
  destruct (isAsciiSpace e) eqn:He.
  { intros _. exists (String e ""), r. split; [reflexivity | now constructor]. }
  destruct r as [| d r]; [discriminate |].
  destruct (isSpace2 (code d) (code e)) eqn:H2.
  { intros _. exists (String d (String e "")), r. split; [reflexivity |].
    constructor; [| exact H2].
    destruct (isAsciiSpace d) eqn:Hd; [| reflexivity].
    exfalso. bool_to_prop H2. bool_to_prop Hd. lia. }
  destruct r as [| c r]; [discriminate |].
  destruct (isSpace3 (code c) (code d) (code e)) eqn:H3; [| discriminate].
  intros _. exists (String c (String d (String e ""))), r.
  split; [reflexivity |].
  constructor; [| | exact H3].
  - destruct (isAsciiSpace c) eqn:Hc; [| reflexivity].
    exfalso. bool_to_prop H3. bool_to_prop Hc. lia.
  - destruct (isSpace2 (code c) (code d)) eqn:Hcd; [| reflexivity].
    exfalso. bool_to_prop H3. bool_to_prop Hcd. lia.
Qed.

Lemma dropRunes_skip (width : string -> nat) (pre rest : string) :
  dropRunes width (String.length pre) (pre ++ rest) = dropRunes width 0 rest.
Proof.
  induction pre as [| c pre IH]; [reflexivity | exact IH].
Qed.

Lemma dropRunes_rune (width : string -> nat) (ws rest : string) :
  ws <> EmptyString ->
  width (ws ++ rest)%string = String.length ws ->
  dropRunes width 0 (ws ++ rest) = dropRunes width 0 rest.
Proof.
  intros Hne Hw. destruct ws as [| c ws]; [contradiction |].
  cbn [append dropRunes]. cbn [append] in Hw. rewrite Hw. cbn [String.length].
  apply dropRunes_skip.
Qed.

Lemma dropRunes_stop (width : string -> nat) (s : string) :
  width s = 0 -> s <> EmptyString -> dropRunes width 0 s = s.
Proof.
  intros Hw Hne. destruct s; [contradiction |]. cbn. now rewrite Hw.
Qed.

Lemma TrimLeftSpace_rune (ws x : string) :
  SpaceRune ws -> TrimLeftSpace (ws ++ x) = TrimLeftSpace x.
Proof.
  intro H. apply dropRunes_rune.
  - now apply SpaceRune_not_empty.
  - now apply spaceWidth_rune_app.
Qed.

Lemma TrimRightSpace_rune (x ws : string) :
  SpaceRune ws -> TrimRightSpace (x ++ ws) = TrimRightSpace x.
Proof.
  intro H. unfold TrimRightSpace. rewrite strRev_app. f_equal.
  apply dropRunes_rune.
  - intro He. apply (SpaceRune_not_empty ws H).
    rewrite <- (strRev_involutive ws), He. reflexivity.
  - rewrite spaceWidthRev_rune_app by exact H.
    clear. rewrite <- (strRev_involutive ws) at 1.
    generalize (strRev ws). intro s.
    induction s as [| c s IH]; [reflexivity |]. cbn.
    assert (Hl : forall a b, String.length (a ++ b) = String.length a + String.length b).
    { induction a; intros; cbn; [reflexivity | now rewrite IHa]. }
    rewrite Hl. cbn. rewrite <- IH. lia.
Qed.

Lemma string_length_app (a b : string) :
  String.length (a ++ b) = String.length a + String.length b.
Proof. induction a as [| c a IH]; cbn; [reflexivity | now rewrite IH]. Qed.

Lemma strRev_length (s : string) : String.length (strRev s) = String.length s.
Proof.
  induction s as [| c s IH]; [reflexivity |].
  cbn. rewrite string_length_app, IH. cbn. lia.
Qed.

Lemma Spaces_app (a b : string) : Spaces a -> Spaces b -> Spaces (a ++ b).
Proof.
  intros Ha Hb. induction Ha as [| ws s Hws Hs IH]; [exact Hb |].
  rewrite string_app_assoc. now constructor.
Qed.

Lemma Spaces_rune (ws : string) : SpaceRune ws -> Spaces ws.
Proof.
  intro H. rewrite <- (string_app_nil_r ws). constructor; [exact H | constructor].
Qed.

(** [TrimLeftSpace] takes a run of white-space runes from the front and
    stops where no white-space rune starts. *)
Lemma TrimLeftSpace_decomp (s : string) :
  exists pre, s = (pre ++ TrimLeftSpace s)%string
              /\ Spaces pre
              /\ spaceWidth (TrimLeftSpace s) = 0.
Proof.
  remember (String.length s) as n eqn:Hn.
  revert s Hn. induction n as [n IH] using lt_wf_ind. intros s Hn.
  destruct (spaceWidth s) as [| k] eqn:Hw.
  - exists EmptyString. destruct s as [| c r].
    + repeat split; constructor.
    + unfold TrimLeftSpace. rewrite dropRunes_stop by (auto; discriminate).
      repeat split; [constructor | exact Hw].
  - destruct (spaceWidth_rune s k Hw) as (ws & rest & -> & Hws).
    rewrite TrimLeftSpace_rune by exact Hws.
    destruct (IH (String.length rest)) with (s := rest) as (pre & Hpre & Hsp & Hz).
    + subst n. rewrite string_length_app.
      pose proof (SpaceRune_not_empty ws Hws). destruct ws; [contradiction |].
      cbn. lia.
    + reflexivity.
    + exists (ws ++ pre)%string. split; [| split; [| exact Hz]].
      * rewrite string_app_assoc. now rewrite <- Hpre.
      * now constructor.
Qed.

(** [TrimRightSpace] takes a run of white-space runes from the end. *)
Lemma TrimRightSpace_decomp (s : string) :
  exists suf, s = (TrimRightSpace s ++ suf)%string /\ Spaces suf.
Proof.
  remember (String.length s) as n eqn:Hn.
  revert s Hn. induction n as [n IH] using lt_wf_ind. intros s Hn.
  destruct (spaceWidthRev (strRev s)) as [| k] eqn:Hw.
  - exists EmptyString. split; [| constructor].
    rewrite string_app_nil_r. unfold TrimRightSpace.
    destruct (strRev s) as [| c r] eqn:Hr.
    + rewrite <- (strRev_involutive s), Hr. reflexivity.
    + rewrite dropRunes_stop by (auto; discriminate).
      rewrite <- Hr. now rewrite strRev_involutive.
  - destruct (spaceWidthRev_rune _ k Hw) as (ws & rest & Hs & Hws).
    assert (Hs' : s = (strRev rest ++ ws)%string).
    { rewrite <- (strRev_involutive s), Hs, strRev_app, strRev_involutive.
      reflexivity. }
    rewrite Hs'. rewrite TrimRightSpace_rune by exact Hws.
    destruct (IH (String.length (strRev rest))) with (s := strRev rest)
      as (suf & Hsuf & Hsp).
    + subst n. rewrite Hs', string_length_app.
      pose proof (SpaceRune_not_empty ws Hws). destruct ws; [contradiction |].
      cbn. lia.
    + reflexivity.
    + exists (suf ++ ws)%string. split.
      * rewrite <- string_app_assoc. now rewrite <- Hsuf.
      * apply Spaces_app; [exact Hsp | now apply Spaces_rune].
Qed.

(** A run of white space in front of a string where no white-space rune
    starts is what [TrimLeftSpace] removes. *)
Lemma TrimLeftSpace_char (pre r : string) :
  Spaces pre -> spaceWidth r = 0 -> TrimLeftSpace (pre ++ r) = r.
Proof.
  intros Hpre Hr. induction Hpre as [| ws s Hws Hs IH].
  - cbn. destruct r; [reflexivity |].
    unfold TrimLeftSpace. apply dropRunes_stop; [exact Hr | discriminate].
  - rewrite string_app_assoc, TrimLeftSpace_rune by exact Hws. exact IH.
Qed.

(** No white-space rune straddles the border between a string and a
    white-space rune that follows it. *)
Lemma spaceWidth_before_rune (x ws y : string) :
  x <> EmptyString -> SpaceRune ws ->
  spaceWidth (x ++ ws ++ y) = spaceWidth x.
Proof.
  intros Hx Hws. destruct x as [| c r]; [contradiction |].
  destruct ws as [| w0 ws']; [inversion Hws |].
  pose proof (SpaceRune_lead w0 ws' Hws) as Hlead.
  cbn [append spaceWidth].
  destruct (isAsciiSpace c); [reflexivity |].
  destruct r as [| d r]; cbn [append].
  - rewrite isSpace2_lead by exact Hlead.
    destruct (ws' ++ y)%string; [reflexivity |].
    now rewrite isSpace3_lead_2.
  - destruct (isSpace2 (code c) (code d)); [reflexivity |].
    destruct r as [| e r]; cbn [append]; [| reflexivity].
    now rewrite isSpace3_lead_3.
Qed.

(** A white-space rune at the end of a string does not change what
    [TrimSpace] returns. *)
Lemma TrimSpace_app_rune (x ws : string) :
  SpaceRune ws -> TrimSpace (x ++ ws) = TrimSpace x.
Proof.
  intro Hws. unfold TrimSpace.
  destruct (TrimLeftSpace_decomp x) as (pre & Hx & Hpre & Hz).
  destruct (TrimLeftSpace x) as [| c r] eqn:Hr.
  - rewrite string_app_nil_r in Hx. subst pre.
    replace (TrimLeftSpace (x ++ ws)) with EmptyString; [reflexivity |].
    symmetry. rewrite <- (string_app_nil_r (x ++ ws)).
    apply TrimLeftSpace_char; [| reflexivity].
    apply Spaces_app; [exact Hpre | now apply Spaces_rune].
  - replace (TrimLeftSpace (x ++ ws)) with (String c r ++ ws)%string.
    + now apply TrimRightSpace_rune.
    + symmetry. rewrite Hx at 1. rewrite string_app_assoc.
      apply TrimLeftSpace_char; [exact Hpre |].
      rewrite <- (string_app_nil_r ws).
      rewrite spaceWidth_before_rune; [exact Hz | discriminate | exact Hws].
Qed.

Lemma TrimSpace_rune_app (ws x : string) :
  SpaceRune ws -> TrimSpace (ws ++ x) = TrimSpace x.
Proof.
  intro Hws. unfold TrimSpace. now rewrite TrimLeftSpace_rune.
Qed.

Lemma SpaceRune_newline (ws : string) :
  SpaceRune ws -> ws = LF \/ noNewline ws = true.
Proof.
  assert (Hns : forall c, isAsciiSpace c = false -> Ascii.eqb c newline = false).
  { intros c Hc. destruct (Ascii.eqb_spec c newline) as [-> |]; [| reflexivity].
    discriminate. }
  intro H. inversion H as [c H1 | c d H1 H2 | c d e H1 H2 H3]; subst.
  - destruct (Ascii.eqb_spec c newline) as [-> | Hc].
    + left. reflexivity.
    + right. cbn [noNewline]. apply Ascii.eqb_neq in Hc. now rewrite Hc.
  - right. cbn [noNewline]. rewrite (Hns c H1). cbn [negb andb].
    destruct (Ascii.eqb_spec d newline) as [-> |]; [| reflexivity].
    exfalso. change (code newline) with 10%N in H2. bool_to_prop H2. lia.
  - right. cbn [noNewline]. rewrite (Hns c H1). cbn [negb andb].
    destruct (Ascii.eqb_spec d newline) as [-> |].
    { exfalso. change (code newline) with 10%N in H3. bool_to_prop H3. lia. }
    cbn [negb andb].
    destruct (Ascii.eqb_spec e newline) as [-> |]; [| reflexivity].
    exfalso. change (code newline) with 10%N in H3. bool_to_prop H3. lia.
Qed.

Lemma Split_not_nil (x : string) : exists h t, Split newline x = h :: t.
Proof.
  induction x as [| c x (h & t & IH)]; cbn [Split].
  - eauto.
  - destruct (Ascii.eqb c newline); [eauto |]. rewrite IH. eauto.
Qed.

Lemma Split_prepend (ws : string) :
  noNewline ws = true ->
  forall x h t,
    Split newline x = h :: t ->
    Split newline (ws ++ x) = (ws ++ h)%string :: t.
Proof.
  induction ws as [| c ws IH]; intros Hn x h t Hx; [exact Hx |].
  cbn [noNewline] in Hn. apply andb_true_iff in Hn. destruct Hn as [Hc Hn].
  apply negb_true_iff in Hc. cbn [append Split]. rewrite Hc.
  now rewrite (IH Hn x h t Hx).
Qed.

Lemma Split_app_LF (u : string) :
  Split newline (u ++ LF) = Split newline u ++ [EmptyString].
Proof.
  induction u as [| c u IH]; [reflexivity |].
  cbn [append Split]. destruct (Ascii.eqb c newline).
  - now rewrite IH.
  - rewrite IH. destruct (Split_not_nil u) as (h & t & ->). reflexivity.
Qed.

Lemma Split_append (ws : string) :
  noNewline ws = true ->
  forall u, exists init last,
    Split newline u = init ++ [last]
    /\ Split newline (u ++ ws) = init ++ [(last ++ ws)%string].
Proof.
  intros Hn u. induction u as [| c u (init & last & Hu & Huw)].
  - exists [], EmptyString. split; [reflexivity |]. cbn [append app].
    rewrite <- (string_app_nil_r ws) at 1.
    rewrite (Split_prepend ws Hn EmptyString EmptyString []) by reflexivity.
    now rewrite string_app_nil_r.
  - cbn [append Split]. destruct (Ascii.eqb c newline).
    + exists (EmptyString :: init), last. rewrite Hu, Huw. split; reflexivity.
    + rewrite Hu, Huw. destruct init as [| i init]; cbn [app].
      * exists [], (String c last). split; reflexivity.
      * exists (String c i :: init), last. split; reflexivity.
Qed.

Lemma trimmedNonEmpty_app (a b : list string) :
  trimmedNonEmpty (a ++ b) = trimmedNonEmpty a ++ trimmedNonEmpty b.
Proof.
  induction a as [| p a IH]; [reflexivity |].
  cbn. destruct (isEmpty (TrimSpace p)); cbn; now rewrite IH.
Qed.

Lemma trimmedNonEmpty_rune_front (ws x : string) :
  SpaceRune ws ->
  trimmedNonEmpty (Split newline (ws ++ x)) = trimmedNonEmpty (Split newline x).
Proof.
  intro Hws. destruct (SpaceRune_newline ws Hws) as [-> | Hn].
  - reflexivity.
  - destruct (Split_not_nil x) as (h & t & Hx).
    rewrite (Split_prepend ws Hn x h t Hx), Hx.
    cbn [trimmedNonEmpty]. now rewrite TrimSpace_rune_app.
Qed.

Lemma trimmedNonEmpty_rune_back (u ws : string) :
  SpaceRune ws ->
  trimmedNonEmpty (Split newline (u ++ ws)) = trimmedNonEmpty (Split newline u).
Proof.
  intro Hws. destruct (SpaceRune_newline ws Hws) as [-> | Hn].
  - rewrite Split_app_LF, trimmedNonEmpty_app. cbn. now rewrite app_nil_r.
  - destruct (Split_append ws Hn u) as (init & last & -> & ->).
    rewrite !trimmedNonEmpty_app. cbn [trimmedNonEmpty].
    now rewrite TrimSpace_app_rune.
Qed.

Lemma trimmedNonEmpty_spaces_front (pre x : string) :
  Spaces pre ->
  trimmedNonEmpty (Split newline (pre ++ x)) = trimmedNonEmpty (Split newline x).
Proof.
  intro Hpre. induction Hpre as [| ws s Hws Hs IH]; [reflexivity |].
  rewrite string_app_assoc, trimmedNonEmpty_rune_front by exact Hws. exact IH.
Qed.

Lemma trimmedNonEmpty_spaces_back (suf : string) :
  Spaces suf ->
  forall u,
    trimmedNonEmpty (Split newline (u ++ suf)) = trimmedNonEmpty (Split newline u).
Proof.
  intro Hsuf. induction Hsuf as [| ws s Hws Hs IH]; intro u.
  - now rewrite string_app_nil_r.
  - rewrite <- string_app_assoc, IH. now apply trimmedNonEmpty_rune_back.
Qed.

(** Trimming the whole string first changes nothing for the lines that are
    kept: the lines are trimmed one by one anyway. *)
Lemma trimmedNonEmpty_Split_TrimSpace (s : string) :
  trimmedNonEmpty (Split newline (TrimSpace s)) = trimmedNonEmpty (Split newline s).
Proof.
  destruct (TrimLeftSpace_decomp s) as (pre & Hs & Hpre & _).
  destruct (TrimRightSpace_decomp (TrimLeftSpace s)) as (suf & Hl & Hsuf).
  pose proof (trimmedNonEmpty_spaces_front pre (TrimLeftSpace s) Hpre) as H1.
  rewrite <- Hs in H1.
  pose proof (trimmedNonEmpty_spaces_back suf Hsuf
                (TrimRightSpace (TrimLeftSpace s))) as H2.
  rewrite <- Hl in H2.
  unfold TrimSpace. congruence.
Qed.

(** [splitPatterns]: the lines of the string, each trimmed of white space,
    the empty ones dropped. *)
Lemma splitPatterns_linesTrimmed (s : string) :
  splitPatterns s = linesTrimmed s.
Proof.
  unfold splitPatterns, linesTrimmed. rewrite <- trimmedNonEmpty_filter_map.
  rewrite <- (trimmedNonEmpty_Split_TrimSpace s).
  destruct (TrimSpace s); reflexivity.
Qed.

(** C9, amended.  For every experiment record without explicitly
    configured artifact sources: with a legacy remote path, the effective
    sources are the one source whose path is that path and whose patterns
    are the lines of the legacy pattern string, each trimmed of white space
    and the empty ones dropped; without a legacy remote path there is no
    effective source.  A non-empty list of configured sources is returned
    as it is. *)
Theorem EffectiveArtifactSources_legacy :
  forall exp : Experiment,
    (ArtifactSources exp = [] -> ArtifactRemote exp <> "" ->
       EffectiveArtifactSources exp =
         [mkSource (ArtifactRemote exp) (linesTrimmed (ArtifactPattern exp))])
    /\ (ArtifactSources exp = [] -> ArtifactRemote exp = "" ->
        EffectiveArtifactSources exp = [])
    /\ (ArtifactSources exp <> [] ->
        EffectiveArtifactSources exp = ArtifactSources exp).
Proof.
  intro exp. unfold EffectiveArtifactSources. repeat split.
  - intros Hsrc Hrem. rewrite Hsrc. cbn [List.length Nat.ltb Nat.leb].
    apply isEmpty_false in Hrem. rewrite Hrem.
    now rewrite splitPatterns_linesTrimmed.
  - intros Hsrc Hrem. rewrite Hsrc, Hrem. reflexivity.
  - intro Hsrc. destruct (ArtifactSources exp) as [| s src] eqn:E;
      [contradiction |].
    change (0 <? List.length (s :: src))%nat with true. cbv iota.
    apply copyArtifactSources_id.
Qed.

(** The record of the counterexample: its two patterns come out trimmed. *)
Lemma EffectiveArtifactSources_legacy_witness :
  EffectiveArtifactSources (Stub.run1Fetch ("\.json$" ++ LF ++ "  \.csv$") false)
  = [mkSource "/data/out" ["\.json$"; "\.csv$"]].
Proof.
  destruct (EffectiveArtifactSources_legacy
              (Stub.run1Fetch ("\.json$" ++ LF ++ "  \.csv$") false)) as (H & _).
  rewrite H; [reflexivity | reflexivity | discriminate].
Defined.

(** ** The status of the queue view *)


Lemma spaceWidth_before_spaces (x suf : string) :
  x <> EmptyString -> Spaces suf -> spaceWidth (x ++ suf) = spaceWidth x.
Proof.
  intros Hx Hsuf. destruct Hsuf as [| ws s Hws Hs].
  - now rewrite string_app_nil_r.
  - now apply spaceWidth_before_rune.
Qed.

(** What [TrimSpace] returns does not start with white space. *)
Lemma spaceWidth_TrimSpace (s : string) : spaceWidth (TrimSpace s) = 0.
Proof.
  destruct (TrimLeftSpace_decomp s) as (pre & _ & _ & Hz).
  destruct (TrimRightSpace_decomp (TrimLeftSpace s)) as (suf & Hl & Hsuf).
  fold (TrimSpace s) in Hl.
  destruct (TrimSpace s) as [| c r] eqn:Ht; [reflexivity |].
  rewrite Hl in Hz. rewrite spaceWidth_before_spaces in Hz;
    [exact Hz | discriminate | exact Hsuf].
Qed.




(** ** Two-tier status lookup: the four outcomes *)

Lemma sshCalls_snoc_ssh (l : list Event) (remote : string) (argv : list string) :
  sshCalls (l ++ [EvSsh remote argv]) = S (sshCalls l).
Proof. unfold sshCalls. rewrite filter_app, length_app. simpl. lia. Qed.

Lemma queryJobStatus_unfold (w : World) (remote jobID : string) (st : State) :
  jobID <> "" ->
  let n := sshCalls (log st) in
  let q := ssh w n remote (squeueArgs jobID) in
  let a := ssh w (S n) remote (sacctArgs jobID) in
  let squeue := EvSsh remote (squeueArgs jobID) in
  let sacct := EvSsh remote (sacctArgs jobID) in
  queryJobStatus w remote jobID st =
    if exitErr q then (("", Some (ErrSqueue (TrimSpace (out q)))),
                       mkState (log st ++ [squeue]) (db st))
    else if negb (isEmpty (squeueStatus (out q)))
    then ((squeueStatus (out q), None), mkState (log st ++ [squeue]) (db st))
    else if exitErr a
    then (("UNKNOWN", None), mkState ((log st ++ [squeue]) ++ [sacct]) (db st))
    else if negb (isEmpty (sacctStatus (out a)))
    then ((sacctStatus (out a), None),
          mkState ((log st ++ [squeue]) ++ [sacct]) (db st))
    else (("UNKNOWN", None), mkState ((log st ++ [squeue]) ++ [sacct]) (db st)).
Proof.
  intros Hjob n q a squeue sacct.
  apply isEmpty_false in Hjob.
  unfold queryJobStatus. rewrite Hjob.
  unfold bind, runSqueue, runSsh, bind. fold n. fold q. fold squeue.
  destruct (exitErr q); [reflexivity |].
  cbn [ret]. destruct (isEmpty (squeueStatus (out q))); [| reflexivity].
  cbn [negb]. unfold runSacct, bind, runSsh. cbn [log db].
  unfold squeue. rewrite sshCalls_snoc_ssh. fold n. fold a. fold sacct.
  fold squeue.
  destruct (exitErr a); [reflexivity |].
  cbn [ret]. destruct (isEmpty (sacctStatus (out a))); reflexivity.
Qed.

Lemma queryJobStatus_db (w : World) (remote jobID : string) (st : State) :
  db (snd (queryJobStatus w remote jobID st)) = db st.
Proof.
  destruct jobID as [| c j] eqn:Hj; [reflexivity |].
  rewrite queryJobStatus_unfold by discriminate. cbv zeta.
  repeat match goal with
         | |- context [if ?b then _ else _] => destruct b
         end; reflexivity.
Qed.




(** ** Status polling loop *)

Lemma dbCalls_snoc_db (l : list Event) (stmt : DbStmt) :
  dbCalls (l ++ [EvDbExec stmt]) = S (dbCalls l).
Proof. unfold dbCalls. rewrite filter_app, length_app. simpl. lia. Qed.

Lemma sshCalls_snoc_sleep (l : list Event) (d : Duration) :
  sshCalls (l ++ [EvSleep d]) = sshCalls l.
Proof. unfold sshCalls. rewrite filter_app, length_app. simpl. lia. Qed.

Lemma whereId_In (id : Z) (f : Row -> Row) (rows : list Row) (r : Row) :
  (forall x, row_id (f x) = row_id x) ->
  In r (whereId id f rows) -> row_id r = id ->
  exists x, In x rows /\ r = f x.
Proof.
  intros Hf Hin Hid. unfold whereId in Hin. apply in_map_iff in Hin.
  destruct Hin as (x & Hx & Hin). exists x. split; [exact Hin |].
  destruct (Z.eqb_spec (row_id x) id) as [_ | Hne]; [now symmetry |].
  subst r. contradiction.
Qed.

(** One pass of the polling loop, by cases. *)
Lemma pollOnce_unfold (w : World) (interval : Duration) (exp : Experiment)
    (st : State) :
  let qr := queryJobStatus w (Remote exp) (JobID exp) st in
  let status := fst (fst qr) in
  let st1 := snd qr in
  let stmt1 := UpdateStatus (ID exp) status in
  let now := UTC (clock w (List.length (log st1 ++ [EvDbExec stmt1]))) in
  let stmt2 := UpdateStatusCompleted (ID exp) status now in
  pollOnce w interval exp st =
    match snd (fst qr) with
    | Some _ => ((exp, Continue), mkState (log st1 ++ [EvSleep interval]) (db st))
    | None =>
        if dbExec w (dbCalls (log st1)) stmt1 then
          if negb (isActiveStatus status) then
            if dbExec w (S (dbCalls (log st1))) stmt2 then
              ((setCompletedAt (setJobStatus exp status) now, Break),
               mkState (log st1 ++ [EvDbExec stmt1; EvDbExec stmt2])
                       (applyStmt stmt2 (applyStmt stmt1 (db st))))
            else
              ((setCompletedAt (setJobStatus exp status) now, Return ErrDbExec),
               mkState (log st1 ++ [EvDbExec stmt1; EvDbExec stmt2])
                       (applyStmt stmt1 (db st)))
          else
            ((setJobStatus exp status, Continue),
             mkState (log st1 ++ [EvDbExec stmt1; EvSleep interval])
                     (applyStmt stmt1 (db st)))
        else
          ((setJobStatus exp status, Return ErrDbExec),
           mkState (log st1 ++ [EvDbExec stmt1]) (db st))
    end.
Proof.
  cbv zeta. unfold pollOnce, bind.
  pose proof (queryJobStatus_db w (Remote exp) (JobID exp) st) as Hdb.
  destruct (queryJobStatus w (Remote exp) (JobID exp) st) as [[status err] st1].
  cbn [fst snd] in *.
  destruct err as [e |].
  - unfold sleep, emit, ret. now rewrite Hdb.
  - unfold updateExperimentStatus, execStmt. cbn [ID setJobStatus].
    destruct (dbExec w (dbCalls (log st1)) (UpdateStatus (ID exp) status));
      [| unfold ret; now rewrite Hdb].
    destruct (isActiveStatus status); cbn [negb].
    + unfold sleep, emit, bind, ret. cbn [log db].
      rewrite <- app_assoc, Hdb. reflexivity.
    + unfold timeNow, bind. cbn [log db ID setCompletedAt].
      rewrite dbCalls_snoc_db.
      destruct (dbExec w (S (dbCalls (log st1))) _);
        unfold ret; rewrite <- app_assoc, Hdb; reflexivity.
Qed.

(** C2, as stated, fails when the store refuses a statement: the query
    answers COMPLETED, a terminal status, yet after the pass the stored
    status is still SUBMITTED and no completion time is stored; the only
    statement issued is the one for the status, and the pass ends the run
    with the error of the store. *)
Lemma pollOnce_store_failure_counterexample :
  let w := Stub.world [Stub.okExec ("COMPLETED" ++ LF)] [0] in
  let res := pollOnce w defaultPollInterval Stub.run1 Stub.state0 in
  fst (queryJobStatus w (Remote Stub.run1) (JobID Stub.run1) Stub.state0)
    = ("COMPLETED", None)
  /\ isActiveStatus "COMPLETED" = false
  /\ snd (fst res) = Return ErrDbExec
  /\ db (snd res) = [mkRow 1 "SUBMITTED" None None None]
  /\ log (snd res) =
     [EvSsh "user@host" (squeueArgs "2723147");
      EvDbExec (UpdateStatus 1 "COMPLETED")].
Proof.
  cbv zeta. repeat split.
Qed.

Lemma pollLoop_stops (w : World) (interval : Duration) (exp : Experiment)
    (st : State) (fuel : nat) :
  snd (fst (pollOnce w interval exp st)) <> Continue ->
  pollLoop w interval (S fuel) exp st =
    ((fst (fst (pollOnce w interval exp st)),
      Some (match snd (fst (pollOnce w interval exp st)) with
            | Return e => Some e
            | _ => None
            end)),
     snd (pollOnce w interval exp st)).
Proof.
  intro H. cbn [pollLoop]. unfold bind.
  destruct (pollOnce w interval exp st) as [[exp' ctl] st'].
  cbn [fst snd] in *. destruct ctl; [contradiction | reflexivity | reflexivity].
Qed.

(** As long as the queue command fails, the loop goes on: after [n] failed
    queries it is still polling, the table is untouched, and the log holds
    [n] queries, each followed by the pause. *)
Lemma pollLoop_retries (w : World) (interval : Duration) (exp : Experiment)
    (n : nat) :
  JobID exp <> "" ->
  forall st : State,
    (forall i, i < n ->
       exitErr (ssh w (sshCalls (log st) + i) (Remote exp)
                  (squeueArgs (JobID exp))) = true) ->
    pollLoop w interval n exp st =
      ((exp, None),
       mkState (log st ++ List.concat (repeat [EvSsh (Remote exp) (squeueArgs (JobID exp));
                                          EvSleep interval] n))
               (db st)).
Proof.
  intro Hjob. induction n as [| n IH]; intros st Hfail.
  - simpl. rewrite app_nil_r. destruct st; reflexivity.
  - cbn [pollLoop]. unfold bind.
    rewrite pollOnce_unfold. cbv zeta.
    rewrite (queryJobStatus_unfold w (Remote exp) (JobID exp) st Hjob). cbv zeta.
    pose proof (Hfail 0 (Nat.lt_0_succ n)) as H0. rewrite Nat.add_0_r in H0.
    rewrite H0. cbn [fst snd log db].
    rewrite IH.
    + cbn [log db repeat List.concat]. f_equal. f_equal.
      rewrite <- !app_assoc. reflexivity.
    + intros i Hi. cbn [log].
      rewrite sshCalls_snoc_sleep, sshCalls_snoc_ssh.
      replace (S (sshCalls (log st)) + i) with (sshCalls (log st) + S i) by lia.
      apply Hfail. lia.
Qed.


(** ** Artifact discovery: the retry policy *)

Lemma sshCalls_app (l1 l2 : list Event) :
  sshCalls (l1 ++ l2) = sshCalls l1 + sshCalls l2.
Proof. unfold sshCalls. now rewrite filter_app, length_app. Qed.

Lemma sshCalls_retryEvents (remote root : string) (ts : Time) (retry : nat) :
  sshCalls (retryEvents remote root ts retry) = 1.
Proof. unfold retryEvents. destruct (0 <? retry)%nat; reflexivity. Qed.

Lemma sshCalls_strategyEvents (remote root : string) (ts : Time) (count : nat) :
  forall first, sshCalls (strategyEvents remote root ts first count) = count.
Proof.
  unfold strategyEvents.
  induction count as [| n IH]; intro first; [reflexivity |].
  cbn [seq flat_map]. rewrite sshCalls_app, sshCalls_retryEvents, IH. reflexivity.
Qed.

Lemma strategyEvents_S (remote root : string) (ts : Time) (first count : nat) :
  strategyEvents remote root ts first (S count) =
  retryEvents remote root ts first ++ strategyEvents remote root ts (S first) count.
Proof. reflexivity. Qed.

(** One pass of the inner loop. *)
Lemma retryLoop_step (w : World) (remote root : string) (ts : Time)
    (k retry : nat) (cmd : string) (st : State) :
  let a := listingResult (listCommand root ts)
             (ssh w (sshCalls (log st)) remote (listArgs root ts)) in
  let st' := mkState (log st ++ retryEvents remote root ts retry) (db st) in
  retryLoop w remote root ts (S k) retry cmd st =
    if isEmptyAnswer a
    then retryLoop w remote root ts k (S retry) (snd (fst a)) st'
    else (scanOf a, st').
Proof.
  cbv zeta. cbn [retryLoop]. unfold bind, listRemoteFiles, bind, runSsh, ret.
  unfold retryEvents, listingEvent.
  destruct (0 <? retry)%nat.
  - unfold sleep, emit. cbn [log db]. rewrite sshCalls_snoc_sleep.
    rewrite <- app_assoc. cbn [app].
    destruct (listingResult _ _) as [[files cmd'] [e |]]; cbn [isEmptyAnswer scanOf fst snd];
      [reflexivity |].
    destruct files; reflexivity.
  - cbn [app].
    destruct (listingResult _ _) as [[files cmd'] [e |]]; cbn [isEmptyAnswer scanOf fst snd];
      [destruct st; reflexivity |].
    destruct files; destruct st; reflexivity.
Qed.

(** Attempts that all come back empty use up the passes. *)
Lemma retryLoop_empty (w : World) (remote root : string) (ts : Time) (todo : nat) :
  forall (retry : nat) (cmd : string) (st : State),
    (forall i, i < todo -> isEmptyAnswer (strategyAnswer w remote root ts (sshCalls (log st) + i)) = true) ->
    exists cmd',
      retryLoop w remote root ts todo retry cmd st =
        (ScanEmpty cmd',
         mkState (log st ++ strategyEvents remote root ts retry todo) (db st)).
Proof.
  induction todo as [| k IH]; intros retry cmd st Hall.
  - exists cmd. cbn. rewrite app_nil_r. destruct st; reflexivity.
  - rewrite retryLoop_step. cbv zeta.
    pose proof (Hall 0 (Nat.lt_0_succ k)) as H0. rewrite Nat.add_0_r in H0.
    unfold strategyAnswer in H0. rewrite H0.
    edestruct IH as [cmd' Hk]; [| exists cmd'; rewrite Hk].
    + intros i Hi. cbn [log]. rewrite sshCalls_app, sshCalls_retryEvents.
      replace (sshCalls (log st) + 1 + i) with (sshCalls (log st) + S i) by lia.
      apply Hall. lia.
    + cbn [log db]. rewrite strategyEvents_S, <- app_assoc. reflexivity.
Qed.

(** The first attempt that does not come back empty ends the loop. *)
Lemma retryLoop_hit (w : World) (remote root : string) (ts : Time) (todo : nat) :
  forall (retry : nat) (cmd : string) (st : State) (i : nat),
    i < todo ->
    (forall i', i' < i -> isEmptyAnswer (strategyAnswer w remote root ts (sshCalls (log st) + i')) = true) ->
    isEmptyAnswer (strategyAnswer w remote root ts (sshCalls (log st) + i)) = false ->
    retryLoop w remote root ts todo retry cmd st =
      (scanOf (strategyAnswer w remote root ts (sshCalls (log st) + i)),
       mkState (log st ++ strategyEvents remote root ts retry (S i)) (db st)).
Proof.
  induction todo as [| k IH]; intros retry cmd st i Hi Hbefore Hhit; [lia |].
  rewrite retryLoop_step. cbv zeta.
  destruct i as [| i].
  - rewrite Nat.add_0_r in Hhit |- *. unfold strategyAnswer in Hhit. rewrite Hhit.
    unfold strategyEvents. cbn [seq flat_map]. rewrite app_nil_r. reflexivity.
  - pose proof (Hbefore 0 (Nat.lt_0_succ i)) as H0. rewrite Nat.add_0_r in H0.
    unfold strategyAnswer in H0. rewrite H0.
    rewrite (IH (S retry) _ _ i).
    + cbn [log db]. rewrite sshCalls_app, sshCalls_retryEvents.
      replace (sshCalls (log st) + 1 + i) with (sshCalls (log st) + S i) by lia.
      rewrite (strategyEvents_S remote root ts retry (S i)), <- app_assoc.
      reflexivity.
    + lia.
    + intros i' Hi'. cbn [log]. rewrite sshCalls_app, sshCalls_retryEvents.
      replace (sshCalls (log st) + 1 + i') with (sshCalls (log st) + S i') by lia.
      apply Hbefore. lia.
    + cbn [log]. rewrite sshCalls_app, sshCalls_retryEvents.
      replace (sshCalls (log st) + 1 + i) with (sshCalls (log st) + S i) by lia.
      exact Hhit.
Qed.

(** Never more listings than passes. *)
Lemma retryLoop_bound (w : World) (remote root : string) (ts : Time) (todo : nat) :
  forall (retry : nat) (cmd : string) (st : State),
    sshCalls (log (snd (retryLoop w remote root ts todo retry cmd st)))
    <= sshCalls (log st) + todo.
Proof.
  induction todo as [| k IH]; intros retry cmd st.
  - cbn. lia.
  - rewrite retryLoop_step. cbv zeta.
    destruct (isEmptyAnswer _).
    + etransitivity; [apply IH |]. cbn [log].
      rewrite sshCalls_app, sshCalls_retryEvents. lia.
    + cbn [snd log]. rewrite sshCalls_app, sshCalls_retryEvents. lia.
Qed.

Lemma scanOf_not_empty (a : list string * string * option Error) (cmd : string) :
  scanOf a <> ScanEmpty cmd.
Proof. destruct a as [[files c] [e |]]; discriminate. Qed.

Lemma listingAnswer_tail (w : World) (c0 : nat) (remote root : string)
    (a : string * Time) (rest : list (string * Time)) (k r : nat) :
  listingAnswer w c0 remote root (a :: rest) (S k) r =
  listingAnswer w (c0 + 6) remote root rest k r.
Proof.
  unfold listingAnswer, strategyTime. cbn [nth].
  replace (c0 + 6 * S k + r) with (c0 + 6 + 6 * k + r) by lia. reflexivity.
Qed.

Lemma listingAnswer_head (w : World) (c0 : nat) (remote root : string)
    (a : string * Time) (rest : list (string * Time)) (r : nat) :
  listingAnswer w c0 remote root (a :: rest) 0 r =
  listingResult (listCommand root (snd a))
    (ssh w (c0 + r) remote (listArgs root (snd a))).
Proof.
  unfold listingAnswer, strategyTime. cbn [nth].
  replace (c0 + 6 * 0 + r) with (c0 + r) by lia. reflexivity.
Qed.

(** When every attempt of every strategy comes back empty, discovery runs
    the whole schedule. *)
Lemma attemptsLoop_empty (w : World) (remote root : string)
    (attempts : list (string * Time)) :
  forall (cmd : string) (st : State),
    (forall k r, k < List.length attempts -> r < 6 ->
       isEmptyAnswer
         (listingAnswer w (sshCalls (log st)) remote root attempts k r) = true) ->
    exists cmd',
      attemptsLoop w remote root attempts cmd st =
        (ScanEmpty cmd',
         mkState (log st ++ fullSchedule remote root attempts) (db st)).
Proof.
  induction attempts as [| a rest IH]; intros cmd st Hall.
  - exists cmd. cbn. rewrite app_nil_r. destruct st; reflexivity.
  - cbn [attemptsLoop]. unfold bind.
    destruct (retryLoop_empty w remote root (snd a) 6 0 cmd st) as [cmd1 H1].
    { intros i Hi. unfold strategyAnswer.
      rewrite <- listingAnswer_head with (rest := rest).
      apply Hall; [cbn; lia | exact Hi]. }
    rewrite H1.
    destruct (IH cmd1 (mkState (log st ++ strategyEvents remote root (snd a) 0 6)
                               (db st))) as [cmd' H2].
    { intros k r Hk Hr. cbn [log].
      rewrite sshCalls_app, sshCalls_strategyEvents.
      rewrite <- listingAnswer_tail with (a := a).
      apply Hall; [cbn; lia | exact Hr]. }
    exists cmd'. rewrite H2. cbn [log db fullSchedule flat_map].
    rewrite <- app_assoc. reflexivity.
Qed.

(** The first attempt, in the order of the strategies, that does not come
    back empty ends discovery. *)
Lemma attemptsLoop_hit (w : World) (remote root : string)
    (attempts : list (string * Time)) :
  forall (cmd : string) (st : State) (k r : nat),
    k < List.length attempts -> r < 6 ->
    (forall k' r', r' < 6 -> k' < k \/ (k' = k /\ r' < r) ->
       isEmptyAnswer
         (listingAnswer w (sshCalls (log st)) remote root attempts k' r') = true) ->
    isEmptyAnswer
      (listingAnswer w (sshCalls (log st)) remote root attempts k r) = false ->
    attemptsLoop w remote root attempts cmd st =
      (scanOf (listingAnswer w (sshCalls (log st)) remote root attempts k r),
       mkState (log st ++ fullSchedule remote root (firstn k attempts)
                  ++ strategyEvents remote root (strategyTime attempts k) 0 (S r))
               (db st)).
Proof.
  induction attempts as [| a rest IH]; intros cmd st k r Hk Hr Hbefore Hhit;
    [cbn in Hk; lia |].
  cbn [attemptsLoop]. unfold bind.
  destruct k as [| k].
  - rewrite listingAnswer_head in Hhit |- *.
    rewrite (retryLoop_hit w remote root (snd a) 6 0 cmd st r Hr).
    + destruct (scanOf _) eqn:Hs; try reflexivity.
      exfalso. eapply scanOf_not_empty; eauto.
    + intros i' Hi'. unfold strategyAnswer.
      rewrite <- listingAnswer_head with (rest := rest).
      apply Hbefore; [lia | right; split; [reflexivity | exact Hi']].
    + exact Hhit.
  - destruct (retryLoop_empty w remote root (snd a) 6 0 cmd st) as [cmd1 H1].
    { intros i Hi. unfold strategyAnswer.
      rewrite <- listingAnswer_head with (rest := rest).
      apply Hbefore; [exact Hi | left; lia]. }
    rewrite H1.
    rewrite (IH cmd1 _ k r).
    + cbn [log db]. rewrite sshCalls_app, sshCalls_strategyEvents.
      rewrite <- listingAnswer_tail with (a := a).
      cbn [firstn fullSchedule flat_map]. unfold strategyTime. cbn [nth].
      rewrite <- !app_assoc. reflexivity.
    + cbn in Hk. lia.
    + exact Hr.
    + intros k' r' Hr' Hlt. cbn [log].
      rewrite sshCalls_app, sshCalls_strategyEvents.
      rewrite <- listingAnswer_tail with (a := a).
      apply Hbefore; [exact Hr' | lia].
    + cbn [log]. rewrite sshCalls_app, sshCalls_strategyEvents.
      rewrite <- listingAnswer_tail with (a := a). exact Hhit.
Qed.

Lemma attemptsLoop_bound (w : World) (remote root : string)
    (attempts : list (string * Time)) :
  forall (cmd : string) (st : State),
    sshCalls (log (snd (attemptsLoop w remote root attempts cmd st)))
    <= sshCalls (log st) + 6 * List.length attempts.
Proof.
  induction attempts as [| a rest IH]; intros cmd st.
  - cbn. lia.
  - cbn [attemptsLoop]. unfold bind.
    pose proof (retryLoop_bound w remote root (snd a) 6 0 cmd st) as H1.
    destruct (retryLoop w remote root (snd a) 6 0 cmd st) as [s st1].
    cbn [snd] in H1.
    destruct s as [e | files c | c]; [unfold ret .. |];
      cbn [snd List.length]; try lia.
    etransitivity; [apply IH |]. lia.
Qed.

Lemma sshCalls_fullSchedule (remote root : string) (attempts : list (string * Time)) :
  sshCalls (fullSchedule remote root attempts) = 6 * List.length attempts.
Proof.
  induction attempts as [| a rest IH]; [reflexivity |].
  cbn [fullSchedule flat_map]. rewrite sshCalls_app, sshCalls_strategyEvents.
  fold (fullSchedule remote root rest). rewrite IH. cbn [List.length]. lia.
Qed.

Lemma HasPrefix_slash_not_empty (p : string) :
  HasPrefix p "/" = true -> isEmpty p = false.
Proof. destruct p; [discriminate | reflexivity]. Qed.

(** [fetchArtifacts] once its checks have passed: discovery, then the
    patterns, then the transfer. *)
Lemma fetchArtifacts_unfold (w : World) (exp : Experiment)
    (remotePath destDir : string) (patterns : list string)
    (sinceStart dryRun : bool) (absDest : string) (st : State) :
  configOk w exp remotePath destDir sinceStart absDest ->
  fetchArtifacts w exp remotePath destDir patterns sinceStart dryRun st =
    let since := if sinceStart then CreatedAt exp else zeroTime in
    let scan := attemptsLoop w (Remote exp) remotePath
                  (listingAttempts sinceStart since) EmptyString st in
    match fst scan with
    | ScanFailed e => (Some e, snd scan)
    | ScanEmpty _ => (None, snd scan)
    | ScanFound files _ =>
        match compilePatterns w patterns [] with
        | (_, Some e) => (Some e, snd scan)
        | (compiled, None) =>
            let filtered :=
              filter (patternMatches (map Some compiled) remotePath) files in
            if (List.length filtered =? 0)%nat then (None, snd scan)
            else if dryRun then (None, snd scan)
            else rsyncFiles w (Remote exp) remotePath filtered absDest (snd scan)
        end
    end.
Proof.
  intros (Habs & Hdest & Hne & Hstart). cbv zeta. unfold fetchArtifacts.
  rewrite (HasPrefix_slash_not_empty _ Habs), Habs, Hdest. cbn [negb].
  apply isEmpty_false in Hne. rewrite Hne.
  assert (Hz : sinceStart && IsZero (CreatedAt exp) = false).
  { destruct sinceStart; [| reflexivity]. cbn. now apply Hstart. }
  rewrite Hz. unfold bind.
  destruct (attemptsLoop _ _ _ _ _ _) as [s st1]. cbn [fst snd].
  destruct s as [e | files c | c]; try reflexivity.
  destruct (compilePatterns w patterns []) as [compiled [e |]]; [reflexivity |].
  destruct (List.length _ =? 0)%nat; [reflexivity |].
  destruct dryRun; reflexivity.
Qed.

Lemma rsyncFiles_sshCalls (w : World) (remote root : string) (files : list string)
    (dest : string) (st : State) :
  sshCalls (log (snd (rsyncFiles w remote root files dest st))) = sshCalls (log st).
Proof.
  unfold rsyncFiles.
  destruct (List.length files =? 0)%nat; [reflexivity |].
  destruct (Abs w dest) as [absDest [e |]]; [reflexivity |].
  unfold bind, emit. cbn [log db].
  destruct (negb (mkdirAll w absDest)).
  - cbn [ret snd log]. rewrite sshCalls_app. cbn. lia.
  - cbn [log db]. destruct (negb (rsync w _ _));
      cbn [ret snd log]; rewrite !sshCalls_app; cbn; lia.
Qed.

(** C3.  Discovery tries the strategy with the time filter first, when the
    since-start filter is requested, and the one without it after; each
    strategy makes at most six listings with a pause of 3 seconds between
    them; the first listing, in that order, that finds a file ends
    discovery, nothing being listed after it; and when every listing of
    every strategy finds nothing, discovery ends with no file and the fetch
    returns without an error. *)
Theorem discovery_retry_policy :
  forall (w : World) (exp : Experiment) (remotePath destDir : string)
         (patterns : list string) (sinceStart dryRun : bool) (absDest : string)
         (st : State),
    configOk w exp remotePath destDir sinceStart absDest ->
    let since := if sinceStart then CreatedAt exp else zeroTime in
    let attempts := listingAttempts sinceStart since in
    let c0 := sshCalls (log st) in
    let answer := listingAnswer w c0 (Remote exp) remotePath attempts in
    let scan := attemptsLoop w (Remote exp) remotePath attempts EmptyString st in
    let fetch :=
      fetchArtifacts w exp remotePath destDir patterns sinceStart dryRun st in
    map snd attempts = (if sinceStart then [CreatedAt exp; zeroTime] else [zeroTime])
    /\ (sinceStart = true ->
        listCommand remotePath (CreatedAt exp) =
          (findCommand remotePath ++ " -newermt "
             ++ shellQuote ("@" ++ formatInt (cutoffEpoch (CreatedAt exp)))
             ++ " -print")%string)
    /\ listCommand remotePath zeroTime = (findCommand remotePath ++ " -print")%string
    /\ (forall ts, strategyEvents (Remote exp) remotePath ts 0 6 =
                   sixAttempts (Remote exp) remotePath ts)
    /\ sshCalls (log (snd scan)) <= c0 + 6 * List.length attempts
    /\ sshCalls (log (snd fetch)) = sshCalls (log (snd scan))
    /\ (forall k r,
          k < List.length attempts -> r < 6 ->
          (forall k' r', r' < 6 -> k' < k \/ (k' = k /\ r' < r) ->
                         isEmptyAnswer (answer k' r') = true) ->
          isEmptyAnswer (answer k r) = false ->
          fst scan = scanOf (answer k r)
          /\ log (snd scan) =
             log st ++ fullSchedule (Remote exp) remotePath (firstn k attempts)
               ++ strategyEvents (Remote exp) remotePath (strategyTime attempts k)
                    0 (S r)
          /\ sshCalls (log (snd scan)) = c0 + 6 * k + S r
          /\ sshCalls (log (snd fetch)) = c0 + 6 * k + S r)
    /\ ((forall k r, k < List.length attempts -> r < 6 ->
                     isEmptyAnswer (answer k r) = true) ->
        (exists cmd, fst scan = ScanEmpty cmd)
        /\ log (snd scan) = log st ++ fullSchedule (Remote exp) remotePath attempts
        /\ sshCalls (log (snd scan)) = c0 + 6 * List.length attempts
        /\ fetch = (None, snd scan)).
Proof.
  intros w exp remotePath destDir patterns sinceStart dryRun absDest st Hcfg
         since attempts c0 answer scan fetch.
  assert (Hfetch : fetch = _)
    by exact (fetchArtifacts_unfold w exp remotePath destDir patterns sinceStart
                dryRun absDest st Hcfg).
  cbv zeta in Hfetch. fold since attempts scan in Hfetch.
  assert (Hcalls : sshCalls (log (snd fetch)) = sshCalls (log (snd scan))).
  { rewrite Hfetch. destruct (fst scan) as [e | files c | c]; try reflexivity.
    destruct (compilePatterns w patterns []) as [compiled [e |]]; [reflexivity |].
    destruct (List.length _ =? 0)%nat; [reflexivity |].
    destruct dryRun; [reflexivity |]. apply rsyncFiles_sshCalls. }
  split; [subst attempts since; destruct sinceStart; reflexivity |].
  split.
  { intro Hs. apply listCommand_since. destruct Hcfg as (_ & _ & _ & Hz). auto. }
  split; [apply listCommand_zero |].
  split; [intro ts; reflexivity |].
  split; [apply attemptsLoop_bound |].
  split; [exact Hcalls |].
  split.
  { intros k r Hk Hr Hbefore Hhit.
    pose proof (attemptsLoop_hit w (Remote exp) remotePath attempts EmptyString st
                  k r Hk Hr Hbefore Hhit) as H.
    fold scan c0 in H. fold (answer k r) in H.
    assert (Hlog : sshCalls (log (snd scan)) = c0 + 6 * k + S r).
    { rewrite H. cbn [snd log]. rewrite !sshCalls_app, sshCalls_fullSchedule,
        sshCalls_strategyEvents, length_firstn. fold c0.
      rewrite Nat.min_l by lia. lia. }
    rewrite H at 1 2. cbn [fst snd log].
    split; [reflexivity |]. split; [reflexivity |].
    split; [exact Hlog |]. rewrite Hcalls. exact Hlog. }
  intro Hall.
  destruct (attemptsLoop_empty w (Remote exp) remotePath attempts EmptyString st Hall)
    as [cmd H].
  fold scan in H.
  split; [exists cmd; now rewrite H |].
  split; [now rewrite H |].
  split.
  { rewrite H. cbn [snd log]. rewrite sshCalls_app, sshCalls_fullSchedule.
    reflexivity. }
  rewrite Hfetch, H. reflexivity.
Qed.

(** A listing that is empty five times and finds [a.json] the sixth time:
    six listings are made, no seventh.  A listing that is always empty,
    with the since-start filter on: twelve listings, six for each strategy,
    and the fetch returns without an error. *)
Lemma discovery_retry_policy_witness :
  let w6 := Stub.world (repeat (Stub.okExec "") 5
                          ++ [Stub.okExec ("./a.json" ++ LF)]) [] in
  let fetch6 := fetchArtifacts w6 (Stub.run1Fetch "" false) "/data/out"
                  "/tmp/artifacts/1" [] false false Stub.state0 in
  let fetch0 := fetchArtifacts (Stub.world [] []) (Stub.run1Fetch "" true)
                  "/data/out" "/tmp/artifacts/1" [] true false Stub.state0 in
  sshCalls (log (snd fetch6)) = 6
  /\ fst fetch0 = None
  /\ sshCalls (log (snd fetch0)) = 12.
Proof.
  cbv zeta. split.
  - assert (Hcfg : configOk
                     (Stub.world (repeat (Stub.okExec "") 5
                                    ++ [Stub.okExec ("./a.json" ++ LF)]) [])
                     (Stub.run1Fetch "" false) "/data/out" "/tmp/artifacts/1"
                     false "/tmp/artifacts/1").
    { split; [reflexivity |]. split; [reflexivity |].
      split; [discriminate | discriminate]. }
    pose proof (discovery_retry_policy _ _ _ _ [] false false _ Stub.state0 Hcfg) as H.
    cbv zeta in H. destruct H as (_ & _ & _ & _ & _ & _ & H & _).
    destruct (H 0 5) as (_ & _ & _ & H5).
    + cbn. lia.
    + lia.
    + intros k' r' Hr' [Hk | [-> Hlt]]; [lia |].
      do 5 (destruct r' as [| r']; [reflexivity |]). lia.
    + reflexivity.
    + exact H5.
  - assert (Hcfg : configOk (Stub.world [] []) (Stub.run1Fetch "" true)
                     "/data/out" "/tmp/artifacts/1" true "/tmp/artifacts/1").
    { split; [reflexivity |]. split; [reflexivity |].
      split; [discriminate | reflexivity]. }
    pose proof (discovery_retry_policy _ _ _ _ [] true false _ Stub.state0 Hcfg) as H.
    cbv zeta in H. destruct H as (_ & _ & _ & _ & _ & _ & _ & H).
    destruct H as (_ & _ & Hn & Hf).
    + intros k r _ _. unfold listingAnswer, listingResult. cbn [Stub.world ssh].
      unfold Stub.scriptedSsh.
      replace (nth _ [] (Stub.okExec "")) with (Stub.okExec "")
        by (destruct (_ + _); reflexivity).
      reflexivity.
    + rewrite Hf. split; [reflexivity | exact Hn].
Defined.

(** The events of a discovery that finds nothing, without the since-start
    filter: six listings and the five pauses between them. *)
Example discovery_always_empty_log :
  log (snd (fetchArtifacts (Stub.world [] []) (Stub.run1Fetch "" false)
              "/data/out" "/tmp/artifacts/1" [] false false Stub.state0))
  = sixAttempts "user@host" "/data/out" zeroTime.
Proof. reflexivity. Qed.

(** The scenario of the specification: source [/data/out], pattern
    [\.json$], files [a.json], [b.txt] and [sub/c.json]; the manifest that
    rsync reads is [a.json] and [sub/c.json]. *)
Example fetch_json_manifest :
  let listing := ("./a.json" ++ LF ++ "./b.txt" ++ LF ++ "./sub/c.json" ++ LF)%string in
  let res := fetchArtifacts (Stub.world [Stub.okExec listing] [])
               (Stub.run1Fetch "\.json$" false) "/data/out" "/tmp/artifacts/1"
               ["\.json$"] false false Stub.state0 in
  fst res = None
  /\ log (snd res) =
     [listingEvent "user@host" "/data/out" zeroTime;
      EvMkdirAll "/tmp/artifacts/1";
      EvRsync ["-av"; "--files-from=-"; "user@host:/data/out/"; "/tmp/artifacts/1"]
              ("a.json" ++ LF ++ "sub/c.json" ++ LF)].
Proof. cbv zeta. split; reflexivity. Qed.

(** The same with [--dry-run]: nothing is transferred. *)
Example fetch_json_dry_run :
  let listing := ("./a.json" ++ LF ++ "./b.txt" ++ LF ++ "./sub/c.json" ++ LF)%string in
  let res := fetchArtifacts (Stub.world [Stub.okExec listing] [])
               (Stub.run1Fetch "\.json$" false) "/data/out" "/tmp/artifacts/1"
               ["\.json$"] false true Stub.state0 in
  fst res = None
  /\ log (snd res) = [listingEvent "user@host" "/data/out" zeroTime].
Proof. cbv zeta. split; reflexivity. Qed.

(** ** Malformed filter expressions *)

Lemma transferCalls_app (l1 l2 : list Event) :
  transferCalls (l1 ++ l2) = transferCalls l1 + transferCalls l2.
Proof. unfold transferCalls. now rewrite filter_app, length_app. Qed.

Lemma transferCalls_retryEvents (remote root : string) (ts : Time) (retry : nat) :
  transferCalls (retryEvents remote root ts retry) = 0.
Proof. unfold retryEvents. destruct (0 <? retry)%nat; reflexivity. Qed.

(** Discovery transfers nothing, and a discovery that ends on a listing has
    run at least that listing. *)
Lemma retryLoop_events (w : World) (remote root : string) (ts : Time) (todo : nat) :
  forall (retry : nat) (cmd : string) (st : State),
    let res := retryLoop w remote root ts todo retry cmd st in
    transferCalls (log (snd res)) = transferCalls (log st)
    /\ sshCalls (log st) + endedOnListing (fst res) <= sshCalls (log (snd res)).
Proof.
  induction todo as [| k IH]; intros retry cmd st; cbv zeta.
  - cbn. split; [reflexivity | lia].
  - rewrite retryLoop_step. cbv zeta.
    destruct (isEmptyAnswer _).
    + destruct (IH (S retry)
                  (snd (fst (listingResult (listCommand root ts)
                               (ssh w (sshCalls (log st)) remote (listArgs root ts)))))
                  (mkState (log st ++ retryEvents remote root ts retry) (db st)))
        as [Ht Hs].
      cbn [log] in Ht, Hs.
      rewrite transferCalls_app, transferCalls_retryEvents in Ht.
      rewrite sshCalls_app, sshCalls_retryEvents in Hs.
      split; [rewrite Ht; lia | lia].
    + cbn [fst snd log].
      rewrite transferCalls_app, transferCalls_retryEvents.
      rewrite sshCalls_app, sshCalls_retryEvents.
      split; [lia |].
      destruct (scanOf _); cbn; lia.
Qed.

Lemma attemptsLoop_events (w : World) (remote root : string)
    (attempts : list (string * Time)) :
  forall (cmd : string) (st : State),
    let res := attemptsLoop w remote root attempts cmd st in
    transferCalls (log (snd res)) = transferCalls (log st)
    /\ sshCalls (log st) + endedOnListing (fst res) <= sshCalls (log (snd res)).
Proof.
  induction attempts as [| a rest IH]; intros cmd st; cbv zeta.
  - cbn. split; [reflexivity | lia].
  - cbn [attemptsLoop]. unfold bind.
    pose proof (retryLoop_events w remote root (snd a) 6 0 cmd st) as H1.
    cbv zeta in H1.
    destruct (retryLoop w remote root (snd a) 6 0 cmd st) as [s st1].
    cbn [fst snd] in H1. destruct H1 as [Ht1 Hs1].
    destruct s as [e | files c | c]; [unfold ret; cbn [fst snd]; split; assumption .. |].
    destruct (IH c st1) as [Ht2 Hs2]. cbn [endedOnListing] in Hs1.
    split; [rewrite Ht2; exact Ht1 | lia].
Qed.

(** The loop that compiles the patterns stops at the first expression that
    does not compile. *)
Lemma compilePatterns_malformed (w : World) (patterns : list string) :
  hasMalformed w patterns ->
  forall compiled,
    exists pat,
      compilePatterns w patterns compiled = ([], Some (ErrCompilePattern pat))
      /\ regexpCompile w pat = None
      /\ exists p, In p patterns /\ TrimSpace p = pat.
Proof.
  intros (p & Hin & Hne & Hbad).
  induction patterns as [| q rest IH]; intro compiled; [contradiction |].
  cbn [compilePatterns].
  destruct (isEmpty (TrimSpace q)) eqn:Hq.
  - destruct Hin as [-> | Hin].
    + apply isEmpty_false in Hne. congruence.
    + destruct (IH Hin compiled) as (pat & H1 & H2 & p' & H3 & H4).
      exists pat. repeat split; auto. exists p'. split; [right |]; assumption.
  - destruct (regexpCompile w (TrimSpace q)) as [re |] eqn:Hre.
    + destruct Hin as [-> | Hin]; [congruence |].
      destruct (IH Hin (compiled ++ [re])) as (pat & H1 & H2 & p' & H3 & H4).
      exists pat. repeat split; auto. exists p'. split; [right |]; assumption.
    + exists (TrimSpace q). repeat split; auto.
      exists q. split; [left |]; reflexivity.
Qed.

(** C6, as stated, fails: with the expression [(], which does not compile,
    the fetch reports the error only after it has listed the remote
    directory, and when the listing finds nothing it lists six times and
    reports no error at all. *)
Lemma fetchArtifacts_malformed_pattern_counterexample :
  let found := fetchArtifacts (Stub.world [Stub.okExec ("./a.json" ++ LF)] [])
                 (Stub.run1Fetch "(" false) "/data/out" "/tmp/artifacts/1"
                 ["("] false false Stub.state0 in
  let nothing := fetchArtifacts (Stub.world [] [])
                   (Stub.run1Fetch "(" false) "/data/out" "/tmp/artifacts/1"
                   ["("] false false Stub.state0 in
  regexpCompile (Stub.world [] []) "(" = None
  /\ fst found = Some (ErrCompilePattern "(")
  /\ log (snd found) = [listingEvent "user@host" "/data/out" zeroTime]
  /\ fst nothing = None
  /\ sshCalls (log (snd nothing)) = 6.
Proof.
  cbv zeta. repeat split.
Qed.

(** C6, amended.  For every artifact source with a filter expression that
    does not compile, once the checks on the paths have passed: the remote
    directory is listed first; when the listing finds a file the fetch
    fails with the compile error of such an expression, at least one
    listing having been run by then; when the listing fails the fetch
    fails with the error of the listing, and when it finds nothing the
    fetch returns without an error; in every case the fetch ends in the
    state discovery left, and nothing is transferred. *)
Theorem fetchArtifacts_malformed_pattern :
  forall (w : World) (exp : Experiment) (remotePath destDir : string)
         (patterns : list string) (sinceStart dryRun : bool) (absDest : string)
         (st : State),
    configOk w exp remotePath destDir sinceStart absDest ->
    hasMalformed w patterns ->
    let since := if sinceStart then CreatedAt exp else zeroTime in
    let scan := attemptsLoop w (Remote exp) remotePath
                  (listingAttempts sinceStart since) EmptyString st in
    let fetch :=
      fetchArtifacts w exp remotePath destDir patterns sinceStart dryRun st in
    snd fetch = snd scan
    /\ transferCalls (log (snd fetch)) = transferCalls (log st)
    /\ (forall files cmd,
          fst scan = ScanFound files cmd ->
          sshCalls (log st) < sshCalls (log (snd fetch))
          /\ exists pat,
               fst fetch = Some (ErrCompilePattern pat)
               /\ regexpCompile w pat = None
               /\ exists p, In p patterns /\ TrimSpace p = pat)
    /\ (forall e, fst scan = ScanFailed e -> fst fetch = Some e)
    /\ (forall cmd, fst scan = ScanEmpty cmd -> fst fetch = None).
Proof.
  intros w exp remotePath destDir patterns sinceStart dryRun absDest st Hcfg Hbad
         since scan fetch.
  assert (Hfetch : fetch = _)
    by exact (fetchArtifacts_unfold w exp remotePath destDir patterns sinceStart
                dryRun absDest st Hcfg).
  cbv zeta in Hfetch. fold since scan in Hfetch.
  destruct (compilePatterns_malformed w patterns Hbad [])
    as (pat & Hpat & Hnone & Hin).
  rewrite Hpat in Hfetch.
  destruct (attemptsLoop_events w (Remote exp) remotePath
              (listingAttempts sinceStart since) EmptyString st) as [Ht Hs].
  fold scan in Ht, Hs.
  assert (Hsnd : snd fetch = snd scan).
  { rewrite Hfetch. destruct (fst scan); reflexivity. }
  split; [exact Hsnd |].
  split; [rewrite Hsnd; exact Ht |].
  split.
  { intros files cmd Hscan. rewrite Hscan in Hfetch, Hs. cbn in Hs.
    split; [rewrite Hsnd; lia |].
    exists pat. split; [rewrite Hfetch; reflexivity |]. split; assumption. }
  split.
  - intros e Hscan. rewrite Hfetch, Hscan. reflexivity.
  - intros cmd Hscan. rewrite Hfetch, Hscan. reflexivity.
Qed.

(** With the expression [(] and a listing that finds [a.json], the fetch
    fails with the compile error after one listing. *)
Lemma fetchArtifacts_malformed_pattern_witness :
  exists pat,
    fst (fetchArtifacts (Stub.world [Stub.okExec ("./a.json" ++ LF)] [])
           (Stub.run1Fetch "(" false) "/data/out" "/tmp/artifacts/1"
           ["("] false false Stub.state0) = Some (ErrCompilePattern pat)
    /\ regexpCompile (Stub.world [Stub.okExec ("./a.json" ++ LF)] []) pat = None.
Proof.
  assert (Hcfg : configOk (Stub.world [Stub.okExec ("./a.json" ++ LF)] [])
                   (Stub.run1Fetch "(" false) "/data/out" "/tmp/artifacts/1"
                   false "/tmp/artifacts/1").
  { split; [reflexivity |]. split; [reflexivity |].
    split; [discriminate | discriminate]. }
  assert (Hbad : hasMalformed (Stub.world [Stub.okExec ("./a.json" ++ LF)] []) ["("]).
  { exists "(". split; [left; reflexivity |]. split; [discriminate | reflexivity]. }
  pose proof (fetchArtifacts_malformed_pattern _ _ _ _ _ false false _ Stub.state0
                Hcfg Hbad) as H.
  cbv zeta in H. destruct H as (_ & _ & H & _).
  destruct (H ["a.json"] (listCommand "/data/out" zeroTime) eq_refl)
    as (_ & pat & H1 & H2 & _).
  exists pat. split; assumption.
Defined.

(* ===================================================================== *)
(** * Further properties *)
(* ===================================================================== *)

(** ** Pattern lists *)

Lemma TrimLeftSpace_fixed (x : string) :
  spaceWidth x = 0 -> TrimLeftSpace x = x.
Proof.
  intro H. destruct x as [| c r]; [reflexivity |].
  apply dropRunes_stop; [exact H | discriminate].
Qed.

(** What [TrimRightSpace] returns does not end in white space. *)
Lemma TrimRightSpace_stop (s : string) :
  spaceWidthRev (strRev (TrimRightSpace s)) = 0.
Proof.
  remember (String.length s) as n eqn:Hn.
  revert s Hn. induction n as [n IH] using lt_wf_ind. intros s Hn.
  destruct (spaceWidthRev (strRev s)) as [| k] eqn:Hw.
  - unfold TrimRightSpace. destruct (strRev s) as [| c r] eqn:Hr.
    + reflexivity.
    + rewrite dropRunes_stop by (auto; discriminate).
      now rewrite strRev_involutive.
  - destruct (spaceWidthRev_rune _ k Hw) as (ws & rest & Hs & Hws).
    assert (Hs' : s = (strRev rest ++ ws)%string).
    { rewrite <- (strRev_involutive s), Hs, strRev_app, strRev_involutive.
      reflexivity. }
    rewrite Hs'. rewrite TrimRightSpace_rune by exact Hws.
    apply (IH (String.length (strRev rest))); [| reflexivity].
    subst n. rewrite Hs', string_length_app.
    pose proof (SpaceRune_not_empty ws Hws). destruct ws; [contradiction |].
    cbn. lia.
Qed.

Lemma TrimRightSpace_fixed (x : string) :
  spaceWidthRev (strRev x) = 0 -> TrimRightSpace x = x.
Proof.
  intro H. unfold TrimRightSpace. destruct (strRev x) as [| c r] eqn:Hr.
  - rewrite <- (strRev_involutive x), Hr. reflexivity.
  - rewrite dropRunes_stop by (auto; discriminate).
    rewrite <- Hr. apply strRev_involutive.
Qed.

(** Trimming twice is trimming once. *)
Lemma TrimSpace_idem (s : string) : TrimSpace (TrimSpace s) = TrimSpace s.
Proof.
  pose proof (spaceWidth_TrimSpace s) as Hl.
  pose proof (TrimRightSpace_stop (TrimLeftSpace s)) as Hr.
  fold (TrimSpace s) in Hr.
  unfold TrimSpace at 1. rewrite TrimLeftSpace_fixed by exact Hl.
  now apply TrimRightSpace_fixed.
Qed.

Lemma trimmedNonEmpty_allTrimmed (pats : list string) :
  allTrimmed (trimmedNonEmpty pats).
Proof.
  unfold allTrimmed. induction pats as [| p pats IH]; cbn; [constructor |].
  destruct (isEmpty (TrimSpace p)) eqn:He; cbn; [exact IH |].
  constructor; [| exact IH].
  split; [apply TrimSpace_idem | now apply isEmpty_false].
Qed.

Lemma trimmedNonEmpty_fixed (pats : list string) :
  allTrimmed pats -> trimmedNonEmpty pats = pats.
Proof.
  unfold allTrimmed. induction 1 as [| p pats [Ht Hne] _ IH]; [reflexivity |].
  cbn. rewrite Ht. apply isEmpty_false in Hne. rewrite Hne. cbn.
  now rewrite IH.
Qed.

Lemma ensurePatterns_trimmedNonEmpty (pats : list string) :
  ensurePatterns pats = trimmedNonEmpty pats.
Proof. destruct pats; reflexivity. Qed.

(** X1.  [ensurePatterns] cleans a pattern list once and for all: every
    pattern it returns is trimmed of white space and not empty, cleaning
    the result again changes nothing, and [normalizePatternList] is the
    same cleaning applied to the list followed by the single pattern. *)
Theorem ensurePatterns_clean :
  forall (pats : list string) (single : string),
    allTrimmed (ensurePatterns pats)
    /\ ensurePatterns (ensurePatterns pats) = ensurePatterns pats
    /\ normalizePatternList single pats = ensurePatterns (pats ++ [single])
    /\ (allTrimmed pats -> ensurePatterns pats = pats).
Proof.
  intros pats single. rewrite !ensurePatterns_trimmedNonEmpty.
  split; [apply trimmedNonEmpty_allTrimmed |].
  split; [apply trimmedNonEmpty_fixed, trimmedNonEmpty_allTrimmed |].
  split; [| apply trimmedNonEmpty_fixed].
  unfold normalizePatternList. rewrite trimmedNonEmpty_app. cbn.
  destruct (isEmpty (TrimSpace single)); cbn; [now rewrite app_nil_r | reflexivity].
Qed.

(** A list that is clean already, such as [\.json$] and [^run], is left as
    it is. *)
Lemma ensurePatterns_clean_witness :
  ensurePatterns ["\.json$"; "^run"] = ["\.json$"; "^run"].
Proof.
  apply (ensurePatterns_clean ["\.json$"; "^run"] "").
  repeat constructor; discriminate.
Defined.

Lemma Split_one_line (x : string) :
  noNewline x = true -> Split newline x = [x].
Proof.
  intro H. rewrite <- (string_app_nil_r x) at 1.
  rewrite (Split_prepend x H EmptyString EmptyString []) by reflexivity.
  now rewrite string_app_nil_r.
Qed.

Lemma Split_line_more (x rest : string) :
  noNewline x = true ->
  Split newline (x ++ LF ++ rest) = x :: Split newline rest.
Proof.
  intro H.
  rewrite (Split_prepend x H (LF ++ rest) EmptyString (Split newline rest))
    by reflexivity.
  now rewrite string_app_nil_r.
Qed.

(** Joining lines and splitting them again gives the lines back. *)
Lemma Split_Join (l : list string) :
  l <> [] ->
  Forall (fun x => noNewline x = true) l ->
  Split newline (GoStrings.Join l LF) = l.
Proof.
  intros Hne H. induction H as [| x l Hx Hl IH]; [contradiction |].
  destruct l as [| y l].
  - cbn. now apply Split_one_line.
  - change (GoStrings.Join (x :: y :: l) LF)
      with (x ++ LF ++ GoStrings.Join (y :: l) LF)%string.
    rewrite Split_line_more by exact Hx.
    rewrite IH by discriminate. reflexivity.
Qed.

Lemma trimmedNonEmpty_one_line (pats : list string) :
  oneLinePatterns pats ->
  Forall (fun x => noNewline x = true) (trimmedNonEmpty pats).
Proof.
  unfold oneLinePatterns. induction 1 as [| p pats Hp _ IH]; cbn; [constructor |].
  destruct (isEmpty (TrimSpace p)); cbn; [exact IH |].
  constructor; assumption.
Qed.

Lemma splitPatterns_Join (l : list string) :
  allTrimmed l ->
  Forall (fun x => noNewline x = true) l ->
  splitPatterns (GoStrings.Join l LF) = l.
Proof.
  intros Ht Hn. rewrite splitPatterns_linesTrimmed. unfold linesTrimmed.
  rewrite <- trimmedNonEmpty_filter_map.
  destruct l as [| x l]; [reflexivity |].
  rewrite Split_Join by (auto; discriminate).
  now apply trimmedNonEmpty_fixed.
Qed.

Lemma splitPatterns_combine_eq (pats : list string) :
  oneLinePatterns pats ->
  splitPatterns (combinePatterns pats) = trimmedNonEmpty pats.
Proof.
  intro H. unfold combinePatterns. apply splitPatterns_Join.
  - apply trimmedNonEmpty_allTrimmed.
  - now apply trimmedNonEmpty_one_line.
Qed.

(** X2.  The stored form of a pattern list can be read back: when no
    pattern holds a line feed, [splitPatterns] of [combinePatterns] is the
    list with every pattern trimmed and the empty ones dropped; and the
    stored form is a fixed point: combining what was split gives the same
    string again. *)
Theorem splitPatterns_combinePatterns :
  forall pats : list string,
    oneLinePatterns pats ->
    splitPatterns (combinePatterns pats) = ensurePatterns pats
    /\ combinePatterns (splitPatterns (combinePatterns pats)) = combinePatterns pats.
Proof.
  intros pats H. rewrite ensurePatterns_trimmedNonEmpty.
  pose proof (splitPatterns_combine_eq pats H) as Hs.
  split; [exact Hs |].
  rewrite Hs. unfold combinePatterns.
  now rewrite trimmedNonEmpty_fixed by apply trimmedNonEmpty_allTrimmed.
Qed.

(** Two patterns, one of them padded, and a blank one between them. *)
Lemma splitPatterns_combinePatterns_witness :
  splitPatterns (combinePatterns ["\.json$"; "  "; " ^run "]) = ["\.json$"; "^run"].
Proof.
  apply (splitPatterns_combinePatterns ["\.json$"; "  "; " ^run "]).
  repeat constructor.
Defined.

(** The condition on line feeds is needed: a pattern with a line feed in it
    comes back as two patterns. *)
Example splitPatterns_combinePatterns_line_feed :
  splitPatterns (combinePatterns [("a" ++ LF ++ "b")%string]) = ["a"; "b"].
Proof. reflexivity. Qed.

(** ** The artifact sources of a run *)

Lemma checkSources_ok (sources : list ArtifactSource) :
  forall i checked,
    checkSources i sources = (checked, None) ->
    Forall (fun s => absolutePath (Path s) /\ allTrimmed (Patterns s)) checked
    /\ map Path checked = map Path sources
    /\ map Patterns checked = map (fun s => ensurePatterns (Patterns s)) sources.
Proof.
  induction sources as [| s rest IH]; intros i checked H; cbn in H.
  - injection H as <-. repeat split; constructor.
  - destruct (isEmpty (Path s)) eqn:He; [discriminate |].
    destruct (HasPrefix (Path s) "/") eqn:Hp; [| discriminate]. cbn in H.
    destruct (checkSources (S i) rest) as [rest' [e |]] eqn:Hr; [discriminate |].
    injection H as <-.
    destruct (IH (S i) rest' Hr) as (H1 & H2 & H3).
    split; [| split; cbn; congruence].
    constructor; [| exact H1]. cbn. split.
    + split; [now apply isEmpty_false | exact Hp].
    + rewrite ensurePatterns_trimmedNonEmpty. apply trimmedNonEmpty_allTrimmed.
Qed.

Lemma cmdRunSources_ok (artifactSources : list ArtifactSource)
    (artifactRemote artifactDestAbs : string) (patterns : list string)
    (r : RunArtifacts) :
  cmdRunSources artifactSources artifactRemote artifactDestAbs patterns
    = (Some r, None) ->
  let given :=
    if (List.length artifactSources =? 0)%nat && negb (isEmpty artifactRemote)
    then [mkSource artifactRemote (ensurePatterns patterns)]
    else artifactSources in
  checkSources 0 given = (runSources r, None)
  /\ (artifactDestAbs <> EmptyString -> given <> [])
  /\ runPatternCombined r =
     (if isEmpty (combinePatterns (flattenPatternsFromSources (runSources r)))
      then combinePatterns patterns
      else combinePatterns (flattenPatternsFromSources (runSources r)))
  /\ runPrimaryRemote r =
     match runSources r with
     | s :: _ => Path s
     | [] => artifactRemote
     end.
Proof.
  unfold cmdRunSources. rewrite copyArtifactSources_id. cbv zeta.
  set (given := if (List.length artifactSources =? 0)%nat
                           && negb (isEmpty artifactRemote)
                then [mkSource artifactRemote (ensurePatterns patterns)]
                else artifactSources).
  destruct (negb (isEmpty artifactDestAbs) && (List.length given =? 0)%nat) eqn:Hd;
    [discriminate |].
  destruct (checkSources 0 given) as [checked [e |]] eqn:Hc; [discriminate |].
  intro H. injection H as <-. cbn [runSources runPatternCombined runPrimaryRemote].
  split; [reflexivity |]. split; [| split; reflexivity].
  intros Hne ->. apply isEmpty_false in Hne. rewrite Hne in Hd. discriminate.
Qed.

Lemma sources_eq (a b : list ArtifactSource) :
  map Path a = map Path b -> map Patterns a = map Patterns b -> a = b.
Proof.
  revert b. induction a as [| x a IH]; intros [| y b] Hp Hs; try discriminate;
    [reflexivity |].
  cbn in Hp, Hs. injection Hp as Hp1 Hp2. injection Hs as Hs1 Hs2.
  destruct x, y. cbn in Hp1, Hs1. subst. f_equal. now apply IH.
Qed.

(** X3.  A run that gets past the checks of [cmdRun] on its artifact
    sources has only sources with a non-empty absolute path and clean
    patterns; it has at least one source when a destination is set; its
    primary remote path is the path of its first source; and the sources
    are the configured ones, in order, each with its own path and its own
    patterns, trimmed and without the empty ones, or, without configured
    sources, the one of the legacy remote path with the patterns of the
    command line. *)
Theorem cmdRunSources_invariant :
  forall (artifactSources : list ArtifactSource)
         (artifactRemote artifactDestAbs : string) (patterns : list string)
         (r : RunArtifacts),
    cmdRunSources artifactSources artifactRemote artifactDestAbs patterns
      = (Some r, None) ->
    Forall (fun s => absolutePath (Path s) /\ allTrimmed (Patterns s)) (runSources r)
    /\ (artifactDestAbs <> "" -> runSources r <> [])
    /\ (forall s rest, runSources r = s :: rest -> runPrimaryRemote r = Path s)
    /\ (artifactSources <> [] ->
        runSources r =
          map (fun s => mkSource (Path s) (ensurePatterns (Patterns s)))
              artifactSources
        /\ map Path (runSources r) = map Path artifactSources
        /\ map Patterns (runSources r) =
           map (fun s => trimmedNonEmpty (Patterns s)) artifactSources
        /\ List.length (runSources r) = List.length artifactSources)
    /\ (artifactSources = [] -> artifactRemote <> "" ->
        runSources r = [mkSource artifactRemote (ensurePatterns patterns)])
    /\ (artifactSources = [] -> artifactRemote = "" -> runSources r = []).
Proof.
  intros artifactSources artifactRemote artifactDestAbs patterns r H.
  destruct (cmdRunSources_ok _ _ _ _ _ H) as (Hc & Hd & _ & Hp).
  destruct (checkSources_ok _ _ _ Hc) as (H1 & H2 & H3).
  split; [exact H1 |].
  split.
  { intros Hne Hr. apply (Hd Hne). rewrite Hr in H2. cbn in H2.
    symmetry in H2. now apply map_eq_nil in H2. }
  split; [intros s rest Hr; rewrite Hp, Hr; reflexivity |].
  split.
  { intro Hne.
    assert (Hg : (if (List.length artifactSources =? 0)%nat
                       && negb (isEmpty artifactRemote)
                  then [mkSource artifactRemote (ensurePatterns patterns)]
                  else artifactSources) = artifactSources)
      by (destruct artifactSources; [contradiction | reflexivity]).
    rewrite Hg in H2, H3.
    assert (Hall : runSources r =
                   map (fun s => mkSource (Path s) (ensurePatterns (Patterns s)))
                       artifactSources).
    { apply sources_eq; rewrite map_map; cbn [Path Patterns]; assumption. }
    split; [exact Hall |]. split; [exact H2 |]. split.
    - rewrite H3. apply map_ext. intro s. apply ensurePatterns_trimmedNonEmpty.
    - rewrite Hall. apply length_map. }
  split.
  - intros -> Hrem. apply isEmpty_false in Hrem. cbn in H2, H3. rewrite Hrem in H2, H3.
    cbn in H2, H3. destruct (runSources r) as [| s [| s' rest]]; try discriminate.
    destruct s as [p ps]. cbn in H2, H3. injection H2 as ->. injection H3 as ->.
    f_equal. f_equal. rewrite !ensurePatterns_trimmedNonEmpty.
    apply trimmedNonEmpty_fixed, trimmedNonEmpty_allTrimmed.
  - intros -> ->. cbn in H2. now apply map_eq_nil in H2.
Qed.

(** Two configured sources, the first with a pattern to trim and an empty
    one: the run has the two sources, with their own patterns cleaned. *)
Lemma cmdRunSources_invariant_witness :
  exists r,
    cmdRunSources [mkSource "/data/a" [" \.json$ "; " "];
                   mkSource "/data/b" ["\.csv$"]]
      "" "/tmp/artifacts" ["\.txt$"] = (Some r, None)
    /\ runSources r = [mkSource "/data/a" ["\.json$"];
                       mkSource "/data/b" ["\.csv$"]].
Proof.
  eexists. split; [reflexivity |].
  destruct (cmdRunSources_invariant
              [mkSource "/data/a" [" \.json$ "; " "];
               mkSource "/data/b" ["\.csv$"]]
              "" "/tmp/artifacts" ["\.txt$"] _ eq_refl) as (_ & _ & _ & H & _).
  destruct H as [H _]; [discriminate |].
  etransitivity; [exact H | vm_compute; reflexivity].
Defined.

Lemma trimmedNonEmpty_flatten (sources : list ArtifactSource) :
  Forall (fun s => allTrimmed (Patterns s)) sources ->
  trimmedNonEmpty (flattenPatternsFromSources sources)
  = List.concat (map Patterns sources).
Proof.
  induction 1 as [| s rest Hs _ IH]; [reflexivity |].
  cbn [flattenPatternsFromSources map List.concat].
  destruct (Patterns s) as [| p ps] eqn:Hp.
  - cbn. exact IH.
  - change (List.length (p :: ps) =? 0)%nat with false. cbv iota.
    rewrite trimmedNonEmpty_app, IH.
    now rewrite (trimmedNonEmpty_fixed (p :: ps)) by exact Hs.
Qed.

Lemma combinePatterns_empty (pats : list string) :
  combinePatterns pats = EmptyString <-> trimmedNonEmpty pats = [].
Proof.
  unfold combinePatterns. pose proof (trimmedNonEmpty_allTrimmed pats) as H.
  destruct (trimmedNonEmpty pats) as [| x l]; [tauto |].
  split; [| discriminate]. intro He. exfalso.
  inversion H as [| ? ? [_ Hx] _]; subst.
  destruct l; cbn in He; [contradiction |].
  destruct x; [contradiction | discriminate].
Qed.

Lemma oneLine_trimmed (l : list string) :
  oneLinePatterns l -> oneLinePatterns (trimmedNonEmpty l).
Proof.
  unfold oneLinePatterns. induction 1 as [| p l Hp _ IH]; cbn; [constructor |].
  destruct (isEmpty (TrimSpace p)); cbn; [exact IH |].
  constructor; [now rewrite TrimSpace_idem | exact IH].
Qed.

Lemma oneLine_ensure_sources (given : list ArtifactSource) :
  oneLinePatterns (List.concat (map Patterns given)) ->
  oneLinePatterns (List.concat (map (fun s => ensurePatterns (Patterns s)) given)).
Proof.
  unfold oneLinePatterns. induction given as [| s rest IH]; cbn; [auto |].
  intro H. apply Forall_app in H. destruct H as [H1 H2].
  apply Forall_app. split; [| now apply IH].
  rewrite ensurePatterns_trimmedNonEmpty. now apply oneLine_trimmed.
Qed.

Lemma allTrimmed_concat (sources : list ArtifactSource) :
  Forall (fun s => allTrimmed (Patterns s)) sources ->
  allTrimmed (List.concat (map Patterns sources)).
Proof.
  unfold allTrimmed. induction 1 as [| s rest Hs _ IH]; cbn; [constructor |].
  apply Forall_app. split; assumption.
Qed.

Lemma allTrimmed_one_line (l : list string) :
  allTrimmed l -> oneLinePatterns l -> Forall (fun x => noNewline x = true) l.
Proof.
  unfold allTrimmed, oneLinePatterns. intros Ht Ho.
  induction Ht as [| p l [Hp _] _ IH]; [constructor |].
  inversion Ho as [| ? ? Hn Ho']; subst.
  constructor; [now rewrite Hp in Hn | now apply IH].
Qed.

(** X4.  What a later fetch sees of the sources of a run, when they are
    read back from the legacy columns: one source, at the path of the first
    source, with the patterns of all sources together, or the patterns of
    the command line when no source has a pattern.  A run with the one
    source of the legacy remote path is read back as it was. *)
Theorem EffectiveArtifactSources_reloaded :
  forall (exp : Experiment) (artifactSources : list ArtifactSource)
         (artifactRemote artifactDestAbs : string) (patterns : list string)
         (r : RunArtifacts),
    cmdRunSources artifactSources artifactRemote artifactDestAbs patterns
      = (Some r, None) ->
    oneLinePatterns patterns ->
    oneLinePatterns (List.concat (map Patterns artifactSources)) ->
    (forall s rest,
        runSources r = s :: rest ->
        EffectiveArtifactSources (reloaded exp r) =
          [mkSource (Path s)
             (match List.concat (map Patterns (runSources r)) with
              | [] => ensurePatterns patterns
              | all => all
              end)])
    /\ (runSources r = [] -> EffectiveArtifactSources (reloaded exp r) = [])
    /\ (artifactSources = [] ->
        EffectiveArtifactSources (reloaded exp r) = runSources r).
Proof.
  intros exp artifactSources artifactRemote artifactDestAbs patterns r H Hp Hs.
  destruct (cmdRunSources_ok _ _ _ _ _ H) as (Hc & _ & Hcomb & Hprim).
  destruct (checkSources_ok _ _ _ Hc) as (H1 & H2 & H3).
  assert (Hclean : Forall (fun s => allTrimmed (Patterns s)) (runSources r)).
  { eapply Forall_impl; [| exact H1]. cbn. tauto. }
  pose proof (trimmedNonEmpty_flatten _ Hclean) as Hflat.
  pose proof (allTrimmed_concat _ Hclean) as Hall.
  assert (Hone : oneLinePatterns (List.concat (map Patterns (runSources r)))).
  { rewrite H3. apply oneLine_ensure_sources.
    destruct artifactSources as [| a rest]; [| exact Hs].
    cbn [List.length Nat.eqb andb]. destruct (negb (isEmpty artifactRemote));
      cbn [map List.concat Patterns]; [| constructor].
    rewrite app_nil_r, ensurePatterns_trimmedNonEmpty. now apply oneLine_trimmed. }
  assert (Hsplit : splitPatterns (runPatternCombined r) =
                   match List.concat (map Patterns (runSources r)) with
                   | [] => ensurePatterns patterns
                   | all => all
                   end).
  { rewrite Hcomb.
    destruct (List.concat (map Patterns (runSources r))) as [| x all] eqn:Hcat.
    - assert (He : combinePatterns (flattenPatternsFromSources (runSources r)) = "")
        by (apply combinePatterns_empty; rewrite Hflat; reflexivity).
      rewrite He. cbn [isEmpty].
      rewrite ensurePatterns_trimmedNonEmpty. now apply splitPatterns_combine_eq.
    - destruct (isEmpty (combinePatterns (flattenPatternsFromSources (runSources r))))
        eqn:He.
      + apply isEmpty_true, combinePatterns_empty in He. rewrite Hflat in He.
        discriminate.
      + unfold combinePatterns. rewrite Hflat.
        apply splitPatterns_Join; [exact Hall |].
        now apply allTrimmed_one_line. }
  assert (Hnonempty : forall s rest,
             runSources r = s :: rest ->
             EffectiveArtifactSources (reloaded exp r) =
               [mkSource (Path s) (splitPatterns (runPatternCombined r))]).
  { intros s rest Hr. unfold EffectiveArtifactSources, reloaded.
    cbn [ArtifactSources ArtifactRemote ArtifactPattern List.length Nat.ltb Nat.leb].
    rewrite Hprim, Hr. rewrite Hr in H1.
    inversion H1 as [| ? ? [[Hne _] _] _]; subst.
    apply isEmpty_false in Hne. now rewrite Hne. }
  assert (Hempty : runSources r = [] ->
                   EffectiveArtifactSources (reloaded exp r) = []).
  { intro Hr. rewrite Hr in H2. unfold EffectiveArtifactSources, reloaded.
    cbn [ArtifactSources ArtifactRemote ArtifactPattern List.length Nat.ltb Nat.leb].
    rewrite Hprim, Hr.
    destruct artifactSources as [| a rest]; [| discriminate].
    cbn in H2. destruct (isEmpty artifactRemote) eqn:He; [reflexivity | discriminate]. }
  split.
  { intros s rest Hr. rewrite (Hnonempty s rest Hr), Hsplit. reflexivity. }
  split; [exact Hempty |].
  intros ->.
  destruct (runSources r) as [| s rest] eqn:Hr; [now apply Hempty |].
  rewrite (Hnonempty s rest eq_refl), Hsplit.
  cbn [List.length Nat.eqb andb] in H2, H3.
  destruct (negb (isEmpty artifactRemote)); cbn in H2, H3; [| discriminate].
  destruct rest as [| s' rest]; [| discriminate].
  destruct s as [p ps]. cbn in H2, H3 |- *. injection H2 as ->. injection H3 as ->.
  rewrite app_nil_r. f_equal. f_equal.
  rewrite !ensurePatterns_trimmedNonEmpty.
  rewrite (trimmedNonEmpty_fixed (trimmedNonEmpty patterns))
    by apply trimmedNonEmpty_allTrimmed.
  destruct (trimmedNonEmpty patterns); reflexivity.
Qed.

(** Two configured sources, [/data/a] with [\.json$] and [/data/b] with
    [\.csv$]: read back, there is the one source [/data/a] with both
    patterns. *)
Lemma EffectiveArtifactSources_reloaded_witness :
  exists r,
    cmdRunSources [mkSource "/data/a" ["\.json$"]; mkSource "/data/b" ["\.csv$"]]
      "" "/tmp/artifacts" [] = (Some r, None)
    /\ EffectiveArtifactSources (reloaded Stub.run1 r)
       = [mkSource "/data/a" ["\.json$"; "\.csv$"]].
Proof.
  eexists. split; [reflexivity |].
  refine (proj1 (EffectiveArtifactSources_reloaded Stub.run1
            [mkSource "/data/a" ["\.json$"]; mkSource "/data/b" ["\.csv$"]]
            "" "/tmp/artifacts" [] _ eq_refl _ _) _ _ eq_refl).
  - constructor.
  - repeat constructor.
Defined.

(** ** Shell quoting *)

Lemma shellWord_single (s : string) :
  shellWord SingleQuoted
    (ReplaceByte "'" ("'" ++ DQ ++ "'" ++ DQ ++ "'") s ++ "'") = Some s.
Proof.
  set (repl := ("'" ++ DQ ++ "'" ++ DQ ++ "'")%string).
  induction s as [| c s IH]; [reflexivity |].
  cbn [ReplaceByte]. destruct (Ascii.eqb_spec c "'") as [-> | Hc].
  - rewrite string_app_assoc.
    remember (ReplaceByte "'" repl s ++ "'")%string as tail eqn:Ht.
    unfold repl. cbn. now rewrite IH.
  - remember (ReplaceByte "'" repl s ++ "'")%string as tail eqn:Ht.
    cbn [append shellWord]. rewrite <- Ht.
    apply Ascii.eqb_neq in Hc. rewrite Hc. now rewrite IH.
Qed.

Lemma shellWord_shellQuote (s : string) :
  shellWord Unquoted (shellQuote s) = Some s.
Proof.
  unfold shellQuote. destruct s as [| c s]; [reflexivity |].
  cbn [isEmpty].
  remember (ReplaceByte "'" ("'" ++ DQ ++ "'" ++ DQ ++ "'") (String c s) ++ "'")%string
    as tail eqn:Ht.
  cbn. subst tail. apply shellWord_single.
Qed.

(** X5.  [shellQuote] protects every byte: the word it returns is made of
    quoted parts only and, read by the quoting rules of the shell, denotes
    the string it was given, whatever that string holds (quotes, spaces,
    [$], line feeds); so two different strings are never quoted to the
    same word, and the word is never empty. *)
Theorem shellQuote_round_trip :
  forall s t : string,
    shellWord Unquoted (shellQuote s) = Some s
    /\ (shellQuote s = shellQuote t -> s = t)
    /\ shellQuote s <> "".
Proof.
  intros s t. split; [apply shellWord_shellQuote |]. split.
  - intro H. pose proof (shellWord_shellQuote s) as Hs.
    rewrite H, shellWord_shellQuote in Hs. now injection Hs.
  - unfold shellQuote. destruct s; discriminate.
Qed.

(** A directory name with a quote and a command substitution in it. *)
Lemma shellQuote_round_trip_witness :
  shellWord Unquoted (shellQuote "/data/o'ut $(rm -rf ~)") = Some "/data/o'ut $(rm -rf ~)"
  /\ shellQuote "" = "''".
Proof.
  split; [apply (shellQuote_round_trip "/data/o'ut $(rm -rf ~)" "") | reflexivity].
Defined.

(** ** Fetching: checks, listing, manifest, transfer *)

Lemma retryLoop_db (w : World) (remote root : string) (ts : Time) (todo : nat) :
  forall (retry : nat) (cmd : string) (st : State),
    db (snd (retryLoop w remote root ts todo retry cmd st)) = db st.
Proof.
  induction todo as [| k IH]; intros retry cmd st; [reflexivity |].
  rewrite retryLoop_step. cbv zeta.
  destruct (isEmptyAnswer _); [now rewrite IH | reflexivity].
Qed.

Lemma attemptsLoop_db (w : World) (remote root : string)
    (attempts : list (string * Time)) :
  forall (cmd : string) (st : State),
    db (snd (attemptsLoop w remote root attempts cmd st)) = db st.
Proof.
  induction attempts as [| a rest IH]; intros cmd st; [reflexivity |].
  cbn [attemptsLoop]. unfold bind.
  pose proof (retryLoop_db w remote root (snd a) 6 0 cmd st) as H1.
  destruct (retryLoop w remote root (snd a) 6 0 cmd st) as [s st1].
  cbn [snd] in H1.
  destruct s as [e | files c | c]; [exact H1 | exact H1 |].
  now rewrite IH.
Qed.

(** The effects of [rsyncFiles], by cases. *)
Lemma rsyncFiles_unfold (w : World) (remote root : string) (files : list string)
    (dest : string) (st : State) :
  let sourceRoot := TrimRightByte "/" root in
  let sourceRoot := if isEmpty sourceRoot then "/" else sourceRoot in
  let args := ["-av"; "--files-from=-"; (remote ++ ":" ++ sourceRoot ++ "/")%string;
               fst (Abs w dest)] in
  let stdin := (GoStrings.Join files LF ++ LF)%string in
  rsyncFiles w remote root files dest st =
    match files with
    | [] => (None, st)
    | _ :: _ =>
        match snd (Abs w dest) with
        | Some e => (Some (ErrResolveDest e), st)
        | None =>
            if mkdirAll w (fst (Abs w dest)) then
              if rsync w args stdin
              then (None, mkState (log st ++ [EvMkdirAll (fst (Abs w dest));
                                              EvRsync args stdin]) (db st))
              else (Some ErrRsync,
                    mkState (log st ++ [EvMkdirAll (fst (Abs w dest));
                                        EvRsync args stdin]) (db st))
            else (Some ErrEnsureDest,
                  mkState (log st ++ [EvMkdirAll (fst (Abs w dest))]) (db st))
        end
    end.
Proof.
  cbv zeta. unfold rsyncFiles. destruct files as [| f files]; [reflexivity |].
  change (List.length (f :: files) =? 0)%nat with false. cbv iota.
  destruct (Abs w dest) as [d [e |]]; [reflexivity |]. cbn [fst snd].
  unfold bind, emit. cbn [log db].
  destruct (mkdirAll w d); cbn [negb]; [| reflexivity].
  destruct (rsync w _ _); cbn [negb]; unfold ret; cbn [log db];
    rewrite <- app_assoc; reflexivity.
Qed.

Lemma rsyncFiles_db (w : World) (remote root : string) (files : list string)
    (dest : string) (st : State) :
  db (snd (rsyncFiles w remote root files dest st)) = db st.
Proof.
  rewrite rsyncFiles_unfold. cbv zeta.
  destruct files; [reflexivity |].
  destruct (snd (Abs w dest)); [reflexivity |].
  destruct (mkdirAll w _); [| reflexivity].
  destruct (rsync w _ _); reflexivity.
Qed.

(** Either a check of [fetchArtifacts] fails, and nothing has happened, or
    the checks pass. *)
Lemma fetchArtifacts_checks (w : World) (exp : Experiment)
    (remotePath destDir : string) (patterns : list string)
    (sinceStart dryRun : bool) (st : State) :
  (snd (fetchArtifacts w exp remotePath destDir patterns sinceStart dryRun st) = st
   /\ fst (fetchArtifacts w exp remotePath destDir patterns sinceStart dryRun st)
      <> None)
  \/ configOk w exp remotePath destDir sinceStart (fst (expandLocalPath w destDir)).
Proof.
  unfold fetchArtifacts, configOk.
  destruct (isEmpty remotePath) eqn:H1; [left; split; [reflexivity | discriminate] |].
  destruct (HasPrefix remotePath "/") eqn:H2; cbn [negb];
    [| left; split; [reflexivity | discriminate]].
  destruct (expandLocalPath w destDir) as [absDest [e |]] eqn:H3;
    [left; split; [reflexivity | discriminate] |].
  destruct (isEmpty absDest) eqn:H4; [left; split; [reflexivity | discriminate] |].
  destruct (sinceStart && IsZero (CreatedAt exp)) eqn:H5;
    [left; split; [reflexivity | discriminate] |].
  right. cbn [fst]. split; [reflexivity |]. split; [reflexivity |].
  split; [now apply isEmpty_false |].
  intros ->. exact H5.
Qed.

(** X6.  The checks of [fetchArtifacts] come before every effect: with an
    empty or relative remote path, a destination that is empty or cannot be
    expanded, or the since-start filter on an experiment without a start
    time, the fetch returns an error and has run no command, touched no
    directory and written nothing. *)
Theorem fetchArtifacts_checks_first :
  forall (w : World) (exp : Experiment) (remotePath destDir : string)
         (patterns : list string) (sinceStart dryRun : bool) (st : State),
    (remotePath = ""
     \/ HasPrefix remotePath "/" = false
     \/ snd (expandLocalPath w destDir) <> None
     \/ fst (expandLocalPath w destDir) = ""
     \/ (sinceStart = true /\ IsZero (CreatedAt exp) = true)) ->
    snd (fetchArtifacts w exp remotePath destDir patterns sinceStart dryRun st) = st
    /\ fst (fetchArtifacts w exp remotePath destDir patterns sinceStart dryRun st)
       <> None
    /\ (remotePath = "" ->
        fst (fetchArtifacts w exp remotePath destDir patterns sinceStart dryRun st)
        = Some ErrRemotePathRequired)
    /\ (remotePath <> "" -> HasPrefix remotePath "/" = false ->
        fst (fetchArtifacts w exp remotePath destDir patterns sinceStart dryRun st)
        = Some ErrRemotePathNotAbsolute).
Proof.
  intros w exp remotePath destDir patterns sinceStart dryRun st Hbad.
  assert (Hmain : snd (fetchArtifacts w exp remotePath destDir patterns sinceStart
                         dryRun st) = st
                  /\ fst (fetchArtifacts w exp remotePath destDir patterns sinceStart
                            dryRun st) <> None).
  { destruct (fetchArtifacts_checks w exp remotePath destDir patterns sinceStart
                dryRun st) as [H | (Habs & Hdest & Hne & Hstart)]; [exact H |].
    exfalso. destruct Hbad as [-> | [H | [H | [H | [H1 H2]]]]].
    - discriminate.
    - congruence.
    - rewrite Hdest in H. now apply H.
    - contradiction.
    - rewrite (Hstart H1) in H2. discriminate. }
  destruct Hmain as [H1 H2]. split; [exact H1 |]. split; [exact H2 |]. split.
  - intros ->. reflexivity.
  - intros Hne Hrel. unfold fetchArtifacts.
    apply isEmpty_false in Hne. rewrite Hne, Hrel. reflexivity.
Qed.

(** A relative remote path. *)
Lemma fetchArtifacts_checks_first_witness :
  fetchArtifacts (Stub.world [] []) (Stub.run1Fetch "" false) "data/out"
    "/tmp/artifacts/1" [] false false Stub.state0
  = (Some ErrRemotePathNotAbsolute, Stub.state0).
Proof.
  destruct (fetchArtifacts_checks_first (Stub.world [] []) (Stub.run1Fetch "" false)
              "data/out" "/tmp/artifacts/1" [] false false Stub.state0)
    as (H1 & _ & _ & H2); [right; left; reflexivity |].
  rewrite (surjective_pairing (fetchArtifacts _ _ _ _ _ _ _ _)).
  rewrite H1, H2; [reflexivity | discriminate | reflexivity].
Defined.

(** X7.  Whatever its parameters and whatever the remote host answers,
    [fetchArtifacts] leaves the table of experiments alone and starts at
    most twelve listings; with [dryRun] it transfers nothing; and it
    transfers nothing either unless a listing has found a file. *)
Theorem fetchArtifacts_bounds :
  forall (w : World) (exp : Experiment) (remotePath destDir : string)
         (patterns : list string) (sinceStart dryRun : bool) (st : State),
    let fetch :=
      fetchArtifacts w exp remotePath destDir patterns sinceStart dryRun st in
    db (snd fetch) = db st
    /\ dbCalls (log (snd fetch)) = dbCalls (log st)
    /\ sshCalls (log st) <= sshCalls (log (snd fetch)) <= sshCalls (log st) + 12
    /\ (dryRun = true -> transferCalls (log (snd fetch)) = transferCalls (log st))
    /\ (transferCalls (log (snd fetch)) <> transferCalls (log st) ->
        sshCalls (log st) < sshCalls (log (snd fetch))).
Proof.
  intros w exp remotePath destDir patterns sinceStart dryRun st fetch.
  destruct (fetchArtifacts_checks w exp remotePath destDir patterns sinceStart
              dryRun st) as [[H _] | Hcfg].
  { fold fetch in H. rewrite H. repeat split; lia. }
  assert (Hfetch : fetch = _)
    by exact (fetchArtifacts_unfold w exp remotePath destDir patterns sinceStart
                dryRun _ st Hcfg).
  cbv zeta in Hfetch.
  set (attempts := listingAttempts sinceStart
                     (if sinceStart then CreatedAt exp else zeroTime)) in *.
  set (scan := attemptsLoop w (Remote exp) remotePath attempts "" st) in *.
  pose proof (attemptsLoop_db w (Remote exp) remotePath attempts "" st) as Hdb.
  pose proof (attemptsLoop_bound w (Remote exp) remotePath attempts "" st) as Hub.
  destruct (attemptsLoop_events w (Remote exp) remotePath attempts "" st) as [Ht Hs].
  fold scan in Hdb, Hub, Ht, Hs.
  assert (Hlen : List.length attempts <= 2)
    by (subst attempts; destruct sinceStart; cbn; lia).
  assert (Hscan_dbc : dbCalls (log (snd scan)) = dbCalls (log st)).
  { subst scan. clear. revert st. generalize "" as cmd.
    induction attempts as [| a rest IH]; intros cmd st; [reflexivity |].
    cbn [attemptsLoop]. unfold bind.
    assert (Hr : forall todo retry c s,
               dbCalls (log (snd (retryLoop w (Remote exp) remotePath (snd a)
                                    todo retry c s))) = dbCalls (log s)).
    { induction todo as [| k IHk]; intros retry c s; [reflexivity |].
      rewrite retryLoop_step. cbv zeta.
      assert (He : dbCalls (log s ++ retryEvents (Remote exp) remotePath (snd a) retry)
                   = dbCalls (log s)).
      { unfold dbCalls, retryEvents. rewrite filter_app, length_app.
        destruct (0 <? retry)%nat; cbn; lia. }
      destruct (isEmptyAnswer _); [rewrite IHk; exact He | exact He]. }
    specialize (Hr 6 0 cmd st).
    destruct (retryLoop w (Remote exp) remotePath (snd a) 6 0 cmd st) as [s st1].
    cbn [snd] in Hr.
    destruct s as [e | files c | c]; [exact Hr | exact Hr |].
    now rewrite IH. }
  assert (Hcase :
    fetch = (fst fetch, snd scan)
    \/ exists files cmd filtered,
         fst scan = ScanFound files cmd /\ dryRun = false
         /\ fetch = rsyncFiles w (Remote exp) remotePath filtered
                      (fst (expandLocalPath w destDir)) (snd scan)).
  { rewrite Hfetch. destruct (fst scan) as [e | files c | c]; try (left; reflexivity).
    destruct (compilePatterns w patterns []) as [compiled [e |]]; [left; reflexivity |].
    destruct (List.length _ =? 0)%nat; [left; reflexivity |].
    destruct dryRun; [left; reflexivity |].
    right. eexists _, _, _. repeat split. }
  destruct Hcase as [Hc | (files & cmd & filtered & Hfound & Hdry & Hc)].
  - rewrite Hc. cbn [snd]. rewrite Hdb, Hscan_dbc, Ht.
    repeat split; lia.
  - rewrite Hfound in Hs. cbn [endedOnListing] in Hs.
    rewrite Hc, rsyncFiles_db, rsyncFiles_sshCalls, Hdb.
    split; [reflexivity |]. split.
    { rewrite rsyncFiles_unfold. cbv zeta. destruct filtered; [exact Hscan_dbc |].
      destruct (snd (Abs w _)); [exact Hscan_dbc |].
      destruct (mkdirAll w _); [destruct (rsync w _ _) |]; cbn [snd log];
        unfold dbCalls in *; rewrite filter_app, length_app; cbn; lia. }
    split; [lia |]. split; [congruence | intros _; lia].
Qed.

(** The dry run of the scenario: one listing, nothing transferred. *)
Lemma fetchArtifacts_bounds_witness :
  transferCalls
    (log (snd (fetchArtifacts
                 (Stub.world [Stub.okExec ("./a.json" ++ LF)] [])
                 (Stub.run1Fetch "" false) "/data/out" "/tmp/artifacts/1"
                 [] false true Stub.state0))) = 0.
Proof.
  apply (fetchArtifacts_bounds (Stub.world [Stub.okExec ("./a.json" ++ LF)] [])
           (Stub.run1Fetch "" false) "/data/out" "/tmp/artifacts/1"
           [] false true Stub.state0).
  reflexivity.
Defined.

(** ** The listing and the manifest *)

Lemma noNewline_app (a b : string) :
  noNewline (a ++ b) = noNewline a && noNewline b.
Proof.
  induction a as [| c a IH]; [reflexivity |].
  cbn [append noNewline]. rewrite IH. now rewrite andb_assoc.
Qed.

Lemma Split_noNewline (s : string) :
  Forall (fun x => noNewline x = true) (Split newline s).
Proof.
  induction s as [| c s IH]; cbn [Split].
  - repeat constructor.
  - destruct (Ascii.eqb c newline) eqn:Hc.
    + constructor; [reflexivity | exact IH].
    + destruct (Split newline s) as [| x xs].
      * repeat constructor. cbn [noNewline]. now rewrite Hc.
      * inversion IH; subst. constructor; [| assumption].
        cbn [noNewline]. rewrite Hc. assumption.
Qed.

(** [TrimSpace] returns a part of its argument. *)
Lemma TrimSpace_part (s : string) :
  exists pre suf, s = (pre ++ TrimSpace s ++ suf)%string.
Proof.
  destruct (TrimLeftSpace_decomp s) as (pre & Hs & _ & _).
  destruct (TrimRightSpace_decomp (TrimLeftSpace s)) as (suf & Hl & _).
  exists pre, suf. unfold TrimSpace. now rewrite <- Hl.
Qed.

Lemma noNewline_TrimSpace (s : string) :
  noNewline s = true -> noNewline (TrimSpace s) = true.
Proof.
  intro H. destruct (TrimSpace_part s) as (pre & suf & Hs).
  rewrite Hs, !noNewline_app in H.
  apply andb_true_iff in H. destruct H as [_ H].
  apply andb_true_iff in H. tauto.
Qed.

Lemma noNewline_dropBytes (n : nat) (s : string) :
  noNewline s = true -> noNewline (dropBytes n s) = true.
Proof.
  revert s. induction n as [| n IH]; intros s H; [destruct s; exact H |].
  destruct s as [| c s]; [exact H |]. cbn [dropBytes].
  cbn [noNewline] in H. apply andb_true_iff in H. now apply IH.
Qed.

Lemma findLines_noNewline (lines : list string) :
  Forall (fun x => noNewline x = true) lines ->
  Forall (fun x => noNewline x = true) (findLines lines).
Proof.
  induction 1 as [| l lines Hl _ IH]; cbn [findLines]; [constructor |].
  destruct (isEmpty (TrimSpace l) || (TrimSpace l =? ".")%string); [exact IH |].
  constructor; [| exact IH].
  unfold TrimPrefix. destruct (HasPrefix (TrimSpace l) "./").
  - now apply noNewline_dropBytes, noNewline_TrimSpace.
  - now apply noNewline_TrimSpace.
Qed.

Lemma listingResult_noNewline (cmd : string) (r : ExecResult) :
  Forall (fun x => noNewline x = true) (fst (fst (listingResult cmd r))).
Proof.
  unfold listingResult. destruct (exitErr r); [constructor |].
  destruct (isEmpty (TrimSpace (out r))); [constructor |].
  apply findLines_noNewline, Split_noNewline.
Qed.

Lemma Split_manifest (l : list string) :
  l <> [] ->
  Forall (fun x => noNewline x = true) l ->
  Split newline (GoStrings.Join l LF ++ LF) = l ++ [EmptyString].
Proof.
  intros Hne H. rewrite Split_app_LF. now rewrite Split_Join.
Qed.

Lemma Forall_filter {A : Type} (P : A -> Prop) (f : A -> bool) (l : list A) :
  Forall P l -> Forall P (filter f l).
Proof.
  induction 1 as [| x l Hx _ IH]; cbn; [constructor |].
  destruct (f x); [constructor |]; assumption.
Qed.

(** X8.  The manifest [rsyncFiles] writes for files that come from
    [listRemoteFiles] reads back, line by line, as exactly those files: no
    path of a listing holds a line feed, so for every selection of listed
    files the manifest splits into the selected paths, in order, followed
    by the empty string after the last line feed.  A listing whose command
    failed has no files. *)
Theorem listing_manifest_round_trip :
  forall (cmd : string) (r : ExecResult) (keep : string -> bool),
    let files := fst (fst (listingResult cmd r)) in
    let sent := filter keep files in
    Forall (fun f => noNewline f = true) files
    /\ (sent <> [] ->
        Split newline (GoStrings.Join sent LF ++ LF) = sent ++ [""])
    /\ (exitErr r = true -> files = []).
Proof.
  intros cmd r keep files sent.
  pose proof (listingResult_noNewline cmd r) as H. fold files in H.
  split; [exact H |]. split.
  - intro Hne. apply Split_manifest; [exact Hne |]. now apply Forall_filter.
  - intro He. subst files. unfold listingResult. now rewrite He.
Qed.

(** The listing of the scenario, with the files that end in [n]. *)
Lemma listing_manifest_round_trip_witness :
  let r := Stub.okExec ("./a.json" ++ LF ++ "./b.txt" ++ LF ++ "./sub/c.json" ++ LF) in
  let sent := filter (fun f => String.prefix "n" (strRev f))
                (fst (fst (listingResult "find" r))) in
  Split newline (GoStrings.Join sent LF ++ LF) = ["a.json"; "sub/c.json"; ""].
Proof.
  cbv zeta.
  destruct (listing_manifest_round_trip "find"
              (Stub.okExec ("./a.json" ++ LF ++ "./b.txt" ++ LF ++ "./sub/c.json" ++ LF))
              (fun f => String.prefix "n" (strRev f))) as (_ & H & _).
  rewrite H; [reflexivity | discriminate].
Defined.

(** ** Local paths *)

Lemma Split_lacksByte (sep : ascii) (s : string) :
  Forall (fun x => lacksByte sep x = true) (Split sep s).
Proof.
  induction s as [| c s IH]; cbn [Split].
  - repeat constructor.
  - destruct (Ascii.eqb c sep) eqn:Hc.
    + constructor; [reflexivity | exact IH].
    + destruct (Split sep s) as [| x xs].
      * repeat constructor. cbn [lacksByte]. now rewrite Hc.
      * inversion IH; subst. constructor; [| assumption].
        cbn [lacksByte]. rewrite Hc. assumption.
Qed.

Lemma Split_lacks_one (sep : ascii) (x : string) :
  lacksByte sep x = true -> Split sep x = [x].
Proof.
  induction x as [| c x IH]; intro H; [reflexivity |].
  cbn [lacksByte] in H. apply andb_true_iff in H. destruct H as [Hc H].
  apply negb_true_iff in Hc. cbn [Split]. rewrite Hc, (IH H). reflexivity.
Qed.

Lemma Split_lacks_more (sep : ascii) (x rest : string) :
  lacksByte sep x = true ->
  Split sep (x ++ String sep rest) = x :: Split sep rest.
Proof.
  induction x as [| c x IH]; intro H.
  - cbn [append Split]. now rewrite Ascii.eqb_refl.
  - cbn [lacksByte] in H. apply andb_true_iff in H. destruct H as [Hc H].
    apply negb_true_iff in Hc. cbn [append Split]. rewrite Hc, (IH H). reflexivity.
Qed.

Lemma Split_Join_sep (sep : ascii) (l : list string) :
  l <> [] ->
  Forall (fun x => lacksByte sep x = true) l ->
  Split sep (GoStrings.Join l (String sep EmptyString)) = l.
Proof.
  intros Hne H. induction H as [| x l Hx Hl IH]; [contradiction |].
  destruct l as [| y l].
  - cbn. now apply Split_lacks_one.
  - change (GoStrings.Join (x :: y :: l) (String sep EmptyString))
      with (x ++ String sep (GoStrings.Join (y :: l) (String sep EmptyString)))%string.
    rewrite Split_lacks_more by exact Hx.
    rewrite IH by discriminate. reflexivity.
Qed.

Lemma cleanStep_plain (rooted : bool) (stack : list string) (comp : string) :
  plainComponent comp -> Filepath.cleanStep rooted stack comp = comp :: stack.
Proof.
  intros (H1 & H2 & H3 & _). unfold Filepath.cleanStep.
  apply isEmpty_false in H1. apply String.eqb_neq in H2, H3.
  now rewrite H1, H2, H3.
Qed.

Lemma cleanStep_cleanStack (rooted : bool) (stack : list string) (comp : string) :
  lacksByte "/" comp = true ->
  cleanStack rooted stack ->
  cleanStack rooted (Filepath.cleanStep rooted stack comp).
Proof.
  intros Hl (plains & dots & -> & Hp & Hd & Hr).
  unfold Filepath.cleanStep.
  destruct (isEmpty comp) eqn:He; cbn [orb]; [now exists plains, dots |].
  destruct (String.eqb_spec comp ".") as [| Hdot]; [now exists plains, dots |].
  destruct (String.eqb_spec comp "..") as [-> | Hdd].
  - destruct plains as [| p plains].
    + cbn [app]. destruct dots as [| d dots].
      * destruct rooted.
        -- now exists [], [].
        -- exists [], [".."%string]. repeat split; try constructor; auto; discriminate.
      * inversion Hd; subst. cbn.
        exists [], (".." :: ".." :: dots)%string.
        split; [reflexivity |]. split; [constructor |].
        split; [now constructor |].
        intro Ht. specialize (Hr Ht). discriminate.
    + cbn [app]. inversion Hp as [| ? ? Hpp Hps]; subst.
      destruct Hpp as (_ & _ & Hpdd & _).
      apply String.eqb_neq in Hpdd. rewrite Hpdd.
      now exists plains, dots.
  - exists (comp :: plains), dots.
    split; [reflexivity |]. split; [| now split].
    constructor; [| exact Hp].
    apply isEmpty_false in He. now repeat split.
Qed.

Lemma fold_cleanStep_cleanStack (rooted : bool) (comps : list string) :
  Forall (fun x => lacksByte "/" x = true) comps ->
  forall stack,
    cleanStack rooted stack ->
    cleanStack rooted (fold_left (Filepath.cleanStep rooted) comps stack).
Proof.
  induction 1 as [| c comps Hc _ IH]; intros stack Hs; [exact Hs |].
  cbn [fold_left]. apply IH. now apply cleanStep_cleanStack.
Qed.

Lemma fold_cleanStep_plains (rooted : bool) (plains : list string) :
  Forall plainComponent plains ->
  forall stack,
    fold_left (Filepath.cleanStep rooted) plains stack = rev plains ++ stack.
Proof.
  induction 1 as [| c plains Hc _ IH]; intro stack; [reflexivity |].
  cbn [fold_left rev]. rewrite cleanStep_plain by exact Hc.
  rewrite IH, <- app_assoc. reflexivity.
Qed.

Lemma fold_cleanStep_dots (dots : list string) :
  Forall (fun d => d = ".."%string) dots ->
  forall stack,
    Forall (fun d => d = ".."%string) stack ->
    fold_left (Filepath.cleanStep false) dots stack = rev dots ++ stack.
Proof.
  induction 1 as [| d dots Hd _ IH]; intros stack Hs; [reflexivity |].
  subst d. cbn [fold_left rev].
  assert (Hstep : Filepath.cleanStep false stack ".." = ".."%string :: stack).
  { destruct Hs as [| t stack Ht Hs]; [reflexivity |]. subst t. reflexivity. }
  rewrite Hstep, IH by now constructor.
  rewrite <- app_assoc. reflexivity.
Qed.

(** Cleaning the components of a clean stack again rebuilds the stack. *)
Lemma fold_cleanStep_again (rooted : bool) (stack : list string) :
  cleanStack rooted stack ->
  fold_left (Filepath.cleanStep rooted) (rev stack) [] = stack.
Proof.
  intros (plains & dots & -> & Hp & Hd & Hr).
  rewrite rev_app_distr, fold_left_app.
  assert (Hdots : fold_left (Filepath.cleanStep rooted) (rev dots) [] = dots).
  { destruct rooted.
    - rewrite (Hr eq_refl). reflexivity.
    - rewrite fold_cleanStep_dots; [| now apply Forall_rev | constructor].
      now rewrite rev_involutive, app_nil_r. }
  rewrite Hdots, fold_cleanStep_plains by now apply Forall_rev.
  now rewrite rev_involutive.
Qed.

Lemma cleanStack_lacksByte (rooted : bool) (stack : list string) :
  cleanStack rooted stack ->
  Forall (fun x => x <> EmptyString /\ lacksByte "/" x = true) stack.
Proof.
  intros (plains & dots & -> & Hp & Hd & _). apply Forall_app. split.
  - eapply Forall_impl; [| exact Hp]. intros x (H1 & _ & _ & H4). now split.
  - eapply Forall_impl; [| exact Hd]. intros x ->. split; [discriminate | reflexivity].
Qed.

Lemma Join_not_rooted (comps : list string) :
  Forall (fun x => x <> EmptyString /\ lacksByte "/" x = true) comps ->
  HasPrefix (GoStrings.Join comps "/") "/" = false
  /\ (GoStrings.Join comps "/" = EmptyString -> comps = []).
Proof.
  intro H. destruct H as [| x comps [Hx Hl] _]; [split; reflexivity |].
  destruct x as [| c x]; [contradiction |].
  cbn [lacksByte] in Hl. apply andb_true_iff in Hl. destruct Hl as [Hc _].
  apply negb_true_iff in Hc.
  assert (Hj : exists r, GoStrings.Join (String c x :: comps) "/" = String c r).
  { destruct comps; cbn; eauto. }
  destruct Hj as [r ->]. split; [| discriminate].
  unfold HasPrefix. cbn [String.prefix].
  destruct (ascii_dec "/" c) as [<- |]; [discriminate Hc | reflexivity].
Qed.

(** [filepath.Clean] returns a path that it leaves alone. *)
Lemma Clean_idem (path : string) :
  Filepath.Clean (Filepath.Clean path) = Filepath.Clean path.
Proof.
  unfold Filepath.Clean at 2 3.
  destruct (isEmpty path) eqn:He; [reflexivity |]. cbv zeta.
  set (rooted := HasPrefix path "/").
  set (stack := fold_left (Filepath.cleanStep rooted) (Split "/" path) []).
  assert (Hs : cleanStack rooted stack).
  { apply fold_cleanStep_cleanStack; [apply Split_lacksByte |].
    exists [], []. repeat split; constructor. }
  pose proof (cleanStack_lacksByte _ _ Hs) as Hl.
  apply Forall_rev in Hl.
  pose proof (fold_cleanStep_again _ _ Hs) as Hagain.
  assert (Hsplit : rev stack <> [] ->
                   Split "/" (GoStrings.Join (rev stack) "/") = rev stack).
  { intro Hne. apply Split_Join_sep; [exact Hne |].
    eapply Forall_impl; [| exact Hl]. now intros x [_ H]. }
  destruct (Join_not_rooted _ Hl) as [Hrel Hnil].
  set (body := GoStrings.Join (rev stack) "/") in *.
  destruct rooted eqn:Hr.
  - unfold Filepath.Clean. cbn [append isEmpty]. cbv zeta.
    assert (Hroot : HasPrefix (String "/" body) "/" = true)
      by (unfold HasPrefix; now destruct body).
    rewrite Hroot.
    cbn [Split]. rewrite Ascii.eqb_refl. cbn [fold_left].
    change (Filepath.cleanStep true [] "") with (@nil string).
    destruct (rev stack) as [| c cs] eqn:Hrev.
    + subst body. cbn. reflexivity.
    + rewrite Hsplit by discriminate. rewrite Hagain, Hrev. reflexivity.
  - destruct (isEmpty body) eqn:Hb; [reflexivity |].
    unfold Filepath.Clean. rewrite Hb, Hrel. cbv zeta.
    assert (Hne : rev stack <> []).
    { intro H0. subst body. rewrite H0 in Hb. discriminate. }
    rewrite (Hsplit Hne), Hagain. fold body. now rewrite Hb.
Qed.

Lemma HasPrefix_app (a b p : string) :
  HasPrefix a p = true -> HasPrefix (a ++ b) p = true.
Proof.
  unfold HasPrefix. revert a. induction p as [| c p IH]; intros a H.
  - now destruct (a ++ b)%string.
  - destruct a as [| d a]; [discriminate |]. cbn [append String.prefix] in *.
    destruct (ascii_dec c d); [now apply IH | discriminate].
Qed.

Lemma Clean_rooted (path : string) :
  HasPrefix path "/" = true -> Filepath.IsAbs (Filepath.Clean path) = true.
Proof.
  intro H. unfold Filepath.Clean.
  destruct path as [| c path]; [discriminate |]. cbn [isEmpty]. cbv zeta.
  rewrite H. unfold Filepath.IsAbs, HasPrefix. cbn [append String.prefix].
  destruct (ascii_dec "/" "/") as [_ | n]; [| now contradiction n].
  now destruct (GoStrings.Join _ _).
Qed.

(** What [filepath.Abs] returns under an absolute working directory. *)
Lemma Abs_result (w : World) (path d : string) :
  (forall wd, getwd w = Some wd -> Filepath.IsAbs wd = true) ->
  Abs w path = (d, None) ->
  Filepath.IsAbs d = true /\ Filepath.Clean d = d.
Proof.
  intros Hwd H. unfold Abs in H.
  destruct (Filepath.IsAbs path) eqn:Ha.
  - injection H as <-. split; [now apply Clean_rooted | apply Clean_idem].
  - destruct (getwd w) as [wd |] eqn:Hg; [| discriminate].
    specialize (Hwd wd eq_refl).
    assert (Hj : d = Filepath.Clean (wd ++ "/" ++ path)%string).
    { destruct wd; [discriminate |]. now injection H as <-. }
    rewrite Hj. split; [| apply Clean_idem].
    apply Clean_rooted. now apply HasPrefix_app.
Qed.

Lemma Abs_fixed (w : World) (d : string) :
  Filepath.IsAbs d = true -> Filepath.Clean d = d -> Abs w d = (d, None).
Proof. intros Ha Hc. unfold Abs. now rewrite Ha, Hc. Qed.


(** X9.  Under an absolute working directory (what [os.Getwd] returns), a
    path that [expandLocalPath] returns for a non-empty argument is
    absolute and clean, so that [filepath.Abs] and [expandLocalPath] itself
    return it unchanged: the directory [rsyncFiles] creates and fills is
    the very path [fetchArtifacts] computed.  The empty path expands to the
    empty path. *)
Theorem expandLocalPath_absolute :
  forall (w : World) (p d : string),
    (forall wd, getwd w = Some wd -> Filepath.IsAbs wd = true) ->
    expandLocalPath w p = (d, None) ->
    (p = "" -> d = "")
    /\ (p <> "" ->
        Filepath.IsAbs d = true
        /\ Filepath.Clean d = d
        /\ Abs w d = (d, None)
        /\ expandLocalPath w d = (d, None)).
Proof.
  intros w p d Hwd H. split.
  - intros ->. cbn in H. congruence.
  - intro Hne. apply isEmpty_false in Hne.
    assert (Hd : Filepath.IsAbs d = true /\ Filepath.Clean d = d).
    { unfold expandLocalPath in H. rewrite Hne in H.
      destruct (HasPrefix p "~").
      - destruct (userHomeDir w) as [home |]; [| discriminate].
        cbv zeta in H. eapply Abs_result; eassumption.
      - eapply Abs_result; eassumption. }
    destruct Hd as [Ha Hc]. split; [exact Ha |]. split; [exact Hc |].
    split; [now apply Abs_fixed |].
    unfold expandLocalPath. unfold Filepath.IsAbs in Ha.
    destruct d as [| c d]; [discriminate |]. cbn [isEmpty].
    assert (Ht : HasPrefix (String c d) "~" = false).
    { unfold HasPrefix in *. cbn [String.prefix] in *.
      destruct (ascii_dec "/" c) as [<- |]; [| discriminate].
      reflexivity. }
    rewrite Ht. now apply Abs_fixed.
Qed.

(** [~/artifacts/../out/] under the home directory [/home/u]. *)
Lemma expandLocalPath_absolute_witness :
  expandLocalPath (Stub.world [] []) "/home/user/out"
  = ("/home/user/out", None).
Proof.
  destruct (expandLocalPath_absolute (Stub.world [] []) "~/artifacts/../out/"
              "/home/user/out") as [_ H].
  - intros wd Hw. vm_compute in Hw. injection Hw as <-. reflexivity.
  - vm_compute. reflexivity.
  - apply H. discriminate.
Defined.

Lemma lacksByte_strRev (c : ascii) (s : string) :
  lacksByte c (strRev s) = lacksByte c s.
Proof.
  induction s as [| d s IH]; [reflexivity |].
  cbn [strRev lacksByte].
  assert (Happ : forall a b, lacksByte c (a ++ b) = lacksByte c a && lacksByte c b).
  { intros a b. induction a as [| e a IHa]; [reflexivity |].
    cbn [append lacksByte]. now rewrite IHa, andb_assoc. }
  rewrite Happ, IH. cbn [lacksByte]. rewrite andb_true_r. apply andb_comm.
Qed.

(** ** What a fetch transfers *)



Lemma compilePatterns_none (w : World) :
  compilePatterns w [] [] = ([], None).
Proof. reflexivity. Qed.




(** ** Several sources *)

Lemma fetchArtifacts_db (w : World) (exp : Experiment) (remotePath destDir : string)
    (patterns : list string) (sinceStart dryRun : bool) (st : State) :
  db (snd (fetchArtifacts w exp remotePath destDir patterns sinceStart dryRun st))
  = db st.
Proof.
  destruct (fetchArtifacts_checks w exp remotePath destDir patterns sinceStart
              dryRun st) as [[H _] | Hcfg]; [now rewrite H |].
  rewrite (fetchArtifacts_unfold w exp remotePath destDir patterns sinceStart
             dryRun _ st Hcfg). cbv zeta.
  pose proof (attemptsLoop_db w (Remote exp) remotePath
                (listingAttempts sinceStart
                   (if sinceStart then CreatedAt exp else zeroTime)) "" st) as Hdb.
  destruct (fst (attemptsLoop _ _ _ _ _ _)) as [e | files c | c]; try exact Hdb.
  destruct (compilePatterns w patterns []) as [compiled [e |]]; [exact Hdb |].
  destruct (List.length _ =? 0)%nat; [exact Hdb |].
  destruct dryRun; [exact Hdb |].
  now rewrite rsyncFiles_db.
Qed.

Lemma sourcesLoop_app (w : World) (exp : Experiment)
    (before after : list ArtifactSource) (destDir : string)
    (sinceStart dryRun : bool) :
  forall st : State,
    sourcesLoop w exp (before ++ after) destDir sinceStart dryRun st =
      match fst (sourcesLoop w exp before destDir sinceStart dryRun st) with
      | Some e => sourcesLoop w exp before destDir sinceStart dryRun st
      | None => sourcesLoop w exp after destDir sinceStart dryRun
                  (snd (sourcesLoop w exp before destDir sinceStart dryRun st))
      end.
Proof.
  induction before as [| src before IH]; intro st; [reflexivity |].
  cbn [app sourcesLoop].
  destruct (isEmpty (Path src)); [reflexivity |].
  unfold bind.
  destruct (fetchArtifacts w exp (Path src) destDir (ensurePatterns (Patterns src))
              sinceStart dryRun st) as [[e |] st1]; [reflexivity |].
  apply IH.
Qed.

Lemma sourcesLoop_eq (w : World) (exp : Experiment) (sources : list ArtifactSource)
    (destDir : string) (sinceStart dryRun : bool) (st : State) :
  fetchArtifactSources w exp sources destDir sinceStart dryRun st
  = sourcesLoop w exp sources destDir sinceStart dryRun st.
Proof. destruct sources; reflexivity. Qed.

Lemma sourcesLoop_db (w : World) (exp : Experiment) (sources : list ArtifactSource)
    (destDir : string) (sinceStart dryRun : bool) :
  forall st : State,
    db (snd (sourcesLoop w exp sources destDir sinceStart dryRun st)) = db st.
Proof.
  induction sources as [| src sources IH]; intro st; [reflexivity |].
  cbn [sourcesLoop]. destruct (isEmpty (Path src)); [reflexivity |].
  unfold bind.
  pose proof (fetchArtifacts_db w exp (Path src) destDir
                (ensurePatterns (Patterns src)) sinceStart dryRun st) as H.
  destruct (fetchArtifacts _ _ _ _ _ _ _ _) as [[e |] st1]; cbn [snd] in H;
    [exact H |].
  now rewrite IH.
Qed.

Lemma sourcesLoop_empty_path (w : World) (exp : Experiment)
    (sources : list ArtifactSource) (destDir : string) (sinceStart dryRun : bool) :
  Exists (fun src => Path src = EmptyString) sources ->
  forall st : State,
    fst (sourcesLoop w exp sources destDir sinceStart dryRun st) <> None.
Proof.
  induction 1 as [src sources H | src sources _ IH]; intro st; cbn [sourcesLoop].
  - rewrite H. discriminate.
  - destruct (isEmpty (Path src)); [discriminate |]. unfold bind.
    destruct (fetchArtifacts _ _ _ _ _ _ _ _) as [[e |] st1]; [discriminate |].
    apply IH.
Qed.

(** X11.  [fetchArtifactSources] handles the sources one after the other
    and stops at the first one that fails: fetching [before ++ after] is
    fetching [before] and, only if that left no error, fetching [after] in
    the state reached.  A single source is fetched from its path with its
    patterns cleaned by [ensurePatterns]; a source without a path is an
    error, and with such a source anywhere in the list the call fails.  The
    table of experiments is never written. *)
Theorem fetchArtifactSources_sequence :
  forall (w : World) (exp : Experiment) (before after : list ArtifactSource)
         (src : ArtifactSource) (destDir : string) (sinceStart dryRun : bool)
         (st : State),
    let fetch sources := fetchArtifactSources w exp sources destDir sinceStart dryRun in
    fetch (before ++ after) st
    = match fst (fetch before st) with
      | Some e => fetch before st
      | None => fetch after (snd (fetch before st))
      end
    /\ (Path src <> "" ->
        fetch [src] st
        = fetchArtifacts w exp (Path src) destDir (ensurePatterns (Patterns src))
            sinceStart dryRun st)
    /\ (Path src = "" ->
        fetch [src] st = (Some ErrEmptySourcePath, st)
        /\ fst (fetch (before ++ src :: after) st) <> None)
    /\ db (snd (fetch (before ++ after) st)) = db st.
Proof.
  intros w exp before after src destDir sinceStart dryRun st fetch. subst fetch.
  cbv beta. rewrite !sourcesLoop_eq.
  split; [apply sourcesLoop_app |]. split.
  - intro Hne. cbn [sourcesLoop].
    apply isEmpty_false in Hne. rewrite Hne. unfold bind.
    destruct (fetchArtifacts _ _ _ _ _ _ _ _) as [[e |] st1]; reflexivity.
  - split; [| apply sourcesLoop_db].
    intro He. split.
    + cbn [sourcesLoop]. now rewrite He.
    + apply sourcesLoop_empty_path. apply Exists_app. right. now constructor.
Qed.

(** Two sources of which the first has a relative path: the second one is
    not looked at. *)
Lemma fetchArtifactSources_sequence_witness :
  fetchArtifactSources (Stub.world [] []) (Stub.run1Fetch "" false)
    [mkSource "data/out" []; mkSource "/data/logs" []]
    "/tmp/artifacts/1" false false Stub.state0
  = (Some ErrRemotePathNotAbsolute, Stub.state0).
Proof.
  destruct (fetchArtifactSources_sequence (Stub.world [] []) (Stub.run1Fetch "" false)
              [mkSource "data/out" []] [mkSource "/data/logs" []]
              (mkSource "data/out" [])
              "/tmp/artifacts/1" false false Stub.state0) as (H1 & H2 & _).
  cbv zeta in H1, H2. etransitivity; [exact H1 |].
  rewrite H2 by discriminate. reflexivity.
Defined.

(** ** Monitoring from start to end *)

Lemma sameJob_refl (exp : Experiment) : sameJob exp exp.
Proof. now destruct exp. Qed.

Lemma sameJob_trans (a b c : Experiment) : sameJob a b -> sameJob b c -> sameJob a c.
Proof. unfold sameJob. intros -> ->. reflexivity. Qed.

Lemma sameJob_config (exp exp' : Experiment) :
  sameJob exp exp' ->
  ID exp' = ID exp /\ Remote exp' = Remote exp /\ JobID exp' = JobID exp
  /\ CreatedAt exp' = CreatedAt exp
  /\ ArtifactDest exp' = ArtifactDest exp
  /\ ArtifactSinceStart exp' = ArtifactSinceStart exp
  /\ EffectiveArtifactSources exp' = EffectiveArtifactSources exp.
Proof. unfold sameJob. intros ->. repeat split. Qed.

Lemma whereId_otherRows (id : Z) (f : Row -> Row) (rows : list Row) :
  (forall x, row_id (f x) = row_id x) ->
  otherRows id (whereId id f rows) = otherRows id rows
  /\ map row_id (whereId id f rows) = map row_id rows.
Proof.
  intro Hf. unfold otherRows, whereId.
  induction rows as [| r rows [IH1 IH2]]; [split; reflexivity |].
  cbn [map filter]. destruct (row_id r =? id)%Z eqn:He.
  - rewrite Hf, He. cbn [negb]. rewrite IH1, IH2. split; reflexivity.
  - rewrite He. cbn [negb]. rewrite IH1, IH2. split; reflexivity.
Qed.

Lemma applyStmt_otherRows (stmt : DbStmt) (rows : list Row) :
  otherRows (stmtId stmt) (applyStmt stmt rows) = otherRows (stmtId stmt) rows
  /\ map row_id (applyStmt stmt rows) = map row_id rows.
Proof. destruct stmt; cbn [applyStmt stmtId]; now apply whereId_otherRows. Qed.

Lemma stmtsOf_app (l1 l2 : list Event) : stmtsOf (l1 ++ l2) = stmtsOf l1 ++ stmtsOf l2.
Proof. unfold stmtsOf. apply flat_map_app. Qed.

Lemma transferCalls_others (l more : list Event) :
  filter isRsyncOrMkdir more = [] -> transferCalls (l ++ more) = transferCalls l.
Proof.
  intro H. unfold transferCalls. rewrite filter_app, length_app, H. cbn. lia.
Qed.

(** The query adds ssh processes to the log and nothing else. *)
Lemma queryJobStatus_log (w : World) (remote jobID : string) (st : State) :
  let res := queryJobStatus w remote jobID st in
  transferCalls (log (snd res)) = transferCalls (log st)
  /\ stmtsOf (log (snd res)) = stmtsOf (log st).
Proof.
  cbv zeta. destruct jobID as [| c j] eqn:Hj; [split; reflexivity |].
  rewrite queryJobStatus_unfold by discriminate. cbv zeta.
  repeat match goal with
         | |- context [if ?b then _ else _] => destruct b
         end; cbn [snd log];
    rewrite ?transferCalls_app, ?stmtsOf_app; cbn; rewrite ?app_nil_r;
    split; try reflexivity; lia.
Qed.

(** What every pass of the polling loop keeps. *)
Lemma pollOnce_keeps (w : World) (interval : Duration) (exp : Experiment)
    (st : State) :
  let res := pollOnce w interval exp st in
  let exp' := fst (fst res) in
  sameJob exp exp'
  /\ otherRows (ID exp) (db (snd res)) = otherRows (ID exp) (db st)
  /\ map row_id (db (snd res)) = map row_id (db st)
  /\ transferCalls (log (snd res)) = transferCalls (log st)
  /\ (exists stmts, stmtsOf (log (snd res)) = stmtsOf (log st) ++ stmts
                    /\ Forall (fun s => stmtId s = ID exp) stmts)
  /\ (snd (fst res) = Break ->
      isActiveStatus (JobStatus exp') = false
      /\ forall r, In r (db (snd res)) -> row_id r = ID exp ->
                   job_status r = JobStatus exp'
                   /\ completed_at r = Some (CompletedAt exp')).
Proof.
  cbv zeta. rewrite pollOnce_unfold. cbv zeta.
  destruct (queryJobStatus_log w (Remote exp) (JobID exp) st) as [Ht Hs].
  cbv zeta in Ht, Hs.
  set (qr := queryJobStatus w (Remote exp) (JobID exp) st) in *.
  set (status := fst (fst qr)).
  set (stmt1 := UpdateStatus (ID exp) status).
  set (now := UTC (clock w _)).
  set (stmt2 := UpdateStatusCompleted (ID exp) status now).
  pose proof (applyStmt_otherRows stmt1 (db st)) as [Ho1 Hi1].
  pose proof (applyStmt_otherRows stmt2 (applyStmt stmt1 (db st))) as [Ho2 Hi2].
  cbn [stmtId stmt1 stmt2] in Ho1, Ho2.
  destruct (snd (fst qr)) as [e |].
  { cbn [fst snd log db]. split; [apply sameJob_refl |].
    rewrite transferCalls_others, stmtsOf_app by reflexivity.
    split; [reflexivity |]. split; [reflexivity |]. split; [exact Ht |].
    split; [| intro Hb; discriminate Hb].
    exists []. cbn. split; [now rewrite Hs | constructor]. }
  destruct (dbExec w (dbCalls (log (snd qr))) stmt1).
  2:{ cbn [fst snd log db]. split; [now destruct exp |].
      rewrite transferCalls_others, stmtsOf_app by reflexivity.
      split; [reflexivity |]. split; [reflexivity |]. split; [exact Ht |].
      split; [| intro Hb; discriminate Hb].
      exists [stmt1]. rewrite Hs. split; [reflexivity | now repeat constructor]. }
  destruct (isActiveStatus status) eqn:Hact; cbn [negb].
  { cbn [fst snd log db]. split; [now destruct exp |].
    rewrite transferCalls_others, stmtsOf_app by reflexivity.
    split; [exact Ho1 |]. split; [exact Hi1 |]. split; [exact Ht |].
    split; [| intro Hb; discriminate Hb].
    exists [stmt1]. rewrite Hs. split; [reflexivity | now repeat constructor]. }
  destruct (dbExec w (S (dbCalls (log (snd qr)))) stmt2).
  - cbn [fst snd log db]. split; [now destruct exp |].
    rewrite transferCalls_others, stmtsOf_app by reflexivity.
    split; [now rewrite Ho2 |]. split; [now rewrite Hi2 |].
    split; [exact Ht |]. split.
    { exists [stmt1; stmt2]. rewrite Hs. split; [reflexivity | now repeat constructor]. }
    intros _. split; [exact Hact |].
    intros r Hin Hid. unfold stmt2 in Hin. cbn [applyStmt] in Hin.
    apply whereId_In in Hin; [| reflexivity | exact Hid].
    destruct Hin as (x & _ & ->). split; reflexivity.
  - cbn [fst snd log db]. split; [now destruct exp |].
    rewrite transferCalls_others, stmtsOf_app by reflexivity.
    split; [exact Ho1 |]. split; [exact Hi1 |]. split; [exact Ht |].
    split; [| intro Hb; discriminate Hb].
    exists [stmt1; stmt2]. rewrite Hs. split; [reflexivity | now repeat constructor].
Qed.

(** What the polling loop keeps, however many passes it makes. *)
Lemma pollLoop_keeps (w : World) (interval : Duration) (fuel : nat) :
  forall (exp : Experiment) (st : State),
    let res := pollLoop w interval fuel exp st in
    let exp' := fst (fst res) in
    sameJob exp exp'
    /\ otherRows (ID exp) (db (snd res)) = otherRows (ID exp) (db st)
    /\ map row_id (db (snd res)) = map row_id (db st)
    /\ transferCalls (log (snd res)) = transferCalls (log st)
    /\ (exists stmts, stmtsOf (log (snd res)) = stmtsOf (log st) ++ stmts
                      /\ Forall (fun s => stmtId s = ID exp) stmts)
    /\ (snd (fst res) = Some None ->
        isActiveStatus (JobStatus exp') = false
        /\ forall r, In r (db (snd res)) -> row_id r = ID exp ->
                     job_status r = JobStatus exp'
                     /\ completed_at r = Some (CompletedAt exp')).
Proof.
  induction fuel as [| k IH]; intros exp st; cbv zeta.
  - cbn [pollLoop ret fst snd]. split; [apply sameJob_refl |].
    split; [reflexivity |]. split; [reflexivity |]. split; [reflexivity |].
    split; [| intro H; discriminate H].
    exists []. rewrite app_nil_r. split; [reflexivity | constructor].
  - cbn [pollLoop]. unfold bind.
    pose proof (pollOnce_keeps w interval exp st) as H1. cbv zeta in H1.
    destruct (pollOnce w interval exp st) as [[exp1 ctl] st1].
    cbn [fst snd] in H1.
    destruct H1 as (Hj1 & Ho1 & Hi1 & Ht1 & (s1 & Hs1 & Hf1) & Hb1).
    destruct ctl as [| | err]; cbn [ret fst snd].
    + specialize (IH exp1 st1). cbv zeta in IH.
      destruct (sameJob_config _ _ Hj1) as (Hid & _).
      rewrite Hid in IH.
      destruct IH as (Hj2 & Ho2 & Hi2 & Ht2 & (s2 & Hs2 & Hf2) & Hb2).
      split; [eapply sameJob_trans; eassumption |].
      split; [now rewrite Ho2 |]. split; [now rewrite Hi2 |].
      split; [now rewrite Ht2 |]. split; [| exact Hb2].
      exists (s1 ++ s2). rewrite Hs2, Hs1, app_assoc.
      split; [reflexivity | now apply Forall_app].
    + split; [exact Hj1 |]. split; [exact Ho1 |]. split; [exact Hi1 |].
      split; [exact Ht1 |]. split; [now exists s1 |].
      intros _. now apply Hb1.
    + split; [exact Hj1 |]. split; [exact Ho1 |]. split; [exact Hi1 |].
      split; [exact Ht1 |]. split; [now exists s1 |].
      intro H; discriminate H.
Qed.

(** The part after the loop, by cases. *)
Lemma afterPolling_unfold (w : World) (exp : Experiment) (st : State) :
  let st1 := mkState (log st ++ [EvSleep artifactSettleDelay]) (db st) in
  let fetch := fetchArtifactSources w exp (EffectiveArtifactSources exp)
                 (ArtifactDest exp) (ArtifactSinceStart exp) false st1 in
  let now := UTC (clock w (List.length (log (snd fetch)))) in
  let stmt := match fst fetch with
              | Some err => UpdateArtifactSync (ID exp) None (Some err)
              | None => UpdateArtifactSync (ID exp) (Some now) None
              end in
  let exp' := match fst fetch with
              | Some _ => exp
              | None => setArtifactLastSync exp now
              end in
  afterPolling w exp st =
    if fetchConfigured exp then
      if dbExec w (dbCalls (log (snd fetch))) stmt
      then ((exp', fst fetch),
            mkState (log (snd fetch) ++ [EvDbExec stmt]) (applyStmt stmt (db st)))
      else ((exp', Some ErrDbExec),
            mkState (log (snd fetch) ++ [EvDbExec stmt]) (db st))
    else ((exp, None), st).
Proof.
  cbv zeta. unfold afterPolling, fetchConfigured.
  destruct ((0 <? _)%nat && _); [| reflexivity].
  unfold bind, sleep, emit.
  set (st1 := mkState (log st ++ [EvSleep artifactSettleDelay]) (db st)).
  pose proof (sourcesLoop_db w exp (EffectiveArtifactSources exp) (ArtifactDest exp)
                (ArtifactSinceStart exp) false st1) as Hdb.
  rewrite <- sourcesLoop_eq in Hdb.
  destruct (fetchArtifactSources _ _ _ _ _ _ _) as [[err |] st2];
    cbn [fst snd db st1] in *.
  - unfold recordArtifactSync, execStmt.
    destruct (dbExec w _ _); unfold ret; now rewrite Hdb.
  - unfold timeNow, recordArtifactSync, execStmt. cbn [ID setArtifactLastSync].
    destruct (dbExec w _ _); unfold ret; now rewrite Hdb.
Qed.

(** Fetching executes no statement. *)
Lemma retryLoop_stmts (w : World) (remote root : string) (ts : Time) (todo : nat) :
  forall (retry : nat) (cmd : string) (st : State),
    stmtsOf (log (snd (retryLoop w remote root ts todo retry cmd st)))
    = stmtsOf (log st).
Proof.
  induction todo as [| k IH]; intros retry cmd st; [reflexivity |].
  rewrite retryLoop_step. cbv zeta.
  assert (He : stmtsOf (log st ++ retryEvents remote root ts retry) = stmtsOf (log st)).
  { rewrite stmtsOf_app. unfold retryEvents.
    destruct (0 <? retry)%nat; cbn; now rewrite app_nil_r. }
  destruct (isEmptyAnswer _); [rewrite IH; exact He | exact He].
Qed.

Lemma attemptsLoop_stmts (w : World) (remote root : string)
    (attempts : list (string * Time)) :
  forall (cmd : string) (st : State),
    stmtsOf (log (snd (attemptsLoop w remote root attempts cmd st)))
    = stmtsOf (log st).
Proof.
  induction attempts as [| a rest IH]; intros cmd st; [reflexivity |].
  cbn [attemptsLoop]. unfold bind.
  pose proof (retryLoop_stmts w remote root (snd a) 6 0 cmd st) as H1.
  destruct (retryLoop w remote root (snd a) 6 0 cmd st) as [s st1].
  cbn [snd] in H1.
  destruct s as [e | files c | c]; [exact H1 | exact H1 |].
  now rewrite IH.
Qed.

Lemma rsyncFiles_stmts (w : World) (remote root : string) (files : list string)
    (dest : string) (st : State) :
  stmtsOf (log (snd (rsyncFiles w remote root files dest st))) = stmtsOf (log st).
Proof.
  rewrite rsyncFiles_unfold. cbv zeta.
  destruct files; [reflexivity |].
  destruct (snd (Abs w dest)); [reflexivity |].
  destruct (mkdirAll w _); [destruct (rsync w _ _) |]; cbn [snd log];
    rewrite stmtsOf_app; cbn; now rewrite app_nil_r.
Qed.

Lemma fetchArtifacts_stmts (w : World) (exp : Experiment)
    (remotePath destDir : string) (patterns : list string)
    (sinceStart dryRun : bool) (st : State) :
  stmtsOf (log (snd (fetchArtifacts w exp remotePath destDir patterns sinceStart
                       dryRun st)))
  = stmtsOf (log st).
Proof.
  destruct (fetchArtifacts_checks w exp remotePath destDir patterns sinceStart
              dryRun st) as [[H _] | Hcfg]; [now rewrite H |].
  rewrite (fetchArtifacts_unfold w exp remotePath destDir patterns sinceStart
             dryRun _ st Hcfg). cbv zeta.
  pose proof (attemptsLoop_stmts w (Remote exp) remotePath
                (listingAttempts sinceStart
                   (if sinceStart then CreatedAt exp else zeroTime)) "" st) as Hs.
  destruct (fst (attemptsLoop _ _ _ _ _ _)) as [e | files c | c]; try exact Hs.
  destruct (compilePatterns w patterns []) as [compiled [e |]]; [exact Hs |].
  destruct (List.length _ =? 0)%nat; [exact Hs |].
  destruct dryRun; [exact Hs |].
  now rewrite rsyncFiles_stmts.
Qed.

Lemma sourcesLoop_stmts (w : World) (exp : Experiment) (sources : list ArtifactSource)
    (destDir : string) (sinceStart dryRun : bool) :
  forall st : State,
    stmtsOf (log (snd (sourcesLoop w exp sources destDir sinceStart dryRun st)))
    = stmtsOf (log st).
Proof.
  induction sources as [| src sources IH]; intro st; [reflexivity |].
  cbn [sourcesLoop]. destruct (isEmpty (Path src)); [reflexivity |].
  unfold bind.
  pose proof (fetchArtifacts_stmts w exp (Path src) destDir
                (ensurePatterns (Patterns src)) sinceStart dryRun st) as H.
  destruct (fetchArtifacts _ _ _ _ _ _ _ _) as [[e |] st1]; cbn [snd] in H;
    [exact H |].
  now rewrite IH.
Qed.

(** What the part after the loop keeps. *)
Lemma afterPolling_keeps (w : World) (exp : Experiment) (st : State) :
  let res := afterPolling w exp st in
  let exp' := fst (fst res) in
  sameJob exp exp'
  /\ JobStatus exp' = JobStatus exp
  /\ CompletedAt exp' = CompletedAt exp
  /\ otherRows (ID exp) (db (snd res)) = otherRows (ID exp) (db st)
  /\ map row_id (db (snd res)) = map row_id (db st)
  /\ (exists stmts, stmtsOf (log (snd res)) = stmtsOf (log st) ++ stmts
                    /\ Forall (fun s => stmtId s = ID exp) stmts)
  /\ (forall r, In r (db (snd res)) -> row_id r = ID exp ->
        (exists x, In x (db st) /\ row_id x = ID exp
                   /\ job_status r = job_status x
                   /\ completed_at r = completed_at x)
        /\ (fetchConfigured exp = true -> snd (fst res) = None ->
            artifact_last_sync r = Some (ArtifactLastSync exp')
            /\ artifact_last_error r = None)).
Proof.
  cbv zeta. rewrite afterPolling_unfold. cbv zeta.
  destruct (fetchConfigured exp).
  2:{ cbn [fst snd]. split; [apply sameJob_refl |].
      do 4 (split; [reflexivity |]). split.
      - exists []. rewrite app_nil_r. split; [reflexivity | constructor].
      - intros r Hin Hid. split; [| intro H; discriminate H].
        exists r. now repeat split. }
  set (st1 := mkState (log st ++ [EvSleep artifactSettleDelay]) (db st)).
  set (fetch := fetchArtifactSources w exp _ _ _ _ st1).
  assert (Hs : stmtsOf (log (snd fetch)) = stmtsOf (log st)).
  { subst fetch. rewrite sourcesLoop_eq, sourcesLoop_stmts. subst st1.
    cbn [log]. rewrite stmtsOf_app. cbn. now rewrite app_nil_r. }
  set (now := UTC (clock w _)).
  set (stmt := match fst fetch with
               | Some err => UpdateArtifactSync (ID exp) None (Some err)
               | None => UpdateArtifactSync (ID exp) (Some now) None
               end).
  set (exp' := match fst fetch with
               | Some _ => exp
               | None => setArtifactLastSync exp now
               end).
  assert (Hid : stmtId stmt = ID exp) by (subst stmt; now destruct (fst fetch)).
  assert (Hj : sameJob exp exp'
               /\ JobStatus exp' = JobStatus exp /\ CompletedAt exp' = CompletedAt exp).
  { subst exp'. destruct (fst fetch); [split; [apply sameJob_refl | now split] |].
    split; [now destruct exp | now split]. }
  destruct Hj as (Hj & Hjs & Hjc).
  pose proof (applyStmt_otherRows stmt (db st)) as [Ho Hi]. rewrite Hid in Ho.
  assert (Hstmts : exists stmts,
             stmtsOf (log (snd fetch) ++ [EvDbExec stmt]) = stmtsOf (log st) ++ stmts
             /\ Forall (fun s => stmtId s = ID exp) stmts).
  { exists [stmt]. rewrite stmtsOf_app, Hs. split; [reflexivity | now repeat constructor]. }
  destruct (dbExec w _ stmt); cbn [fst snd log db].
  - split; [exact Hj |]. split; [exact Hjs |]. split; [exact Hjc |].
    split; [exact Ho |]. split; [exact Hi |]. split; [exact Hstmts |].
    intros r Hin Hrid.
    assert (Hx : exists x, In x (db st) /\ r = setSync
                   (match fst fetch with Some _ => None | None => Some now end)
                   (fst fetch) x).
    { subst stmt. destruct (fst fetch); cbn [applyStmt] in Hin;
        (apply whereId_In in Hin; [| reflexivity | exact Hrid]);
        destruct Hin as (x & Hx & ->); exists x; now split. }
    destruct Hx as (x & Hx & ->). split.
    + exists x. cbn in Hrid. now repeat split.
    + intros _ Hnone. subst exp'. rewrite Hnone. split; reflexivity.
  - split; [exact Hj |]. split; [exact Hjs |]. split; [exact Hjc |].
    split; [reflexivity |]. split; [reflexivity |]. split; [exact Hstmts |].
    intros r Hin Hrid. split; [| intros _ H; discriminate H].
    exists r. now repeat split.
Qed.

(** X12.  A run of [monitorExperiment] that ends without an error has seen
    a status that is not active, and leaves the store and the experiment in
    agreement: every row of the experiment holds the status and the
    completion time of the returned experiment and, when artifacts are
    configured, the time of the sync of the returned experiment and no sync
    error.  The returned experiment differs from the given one in these
    three fields at most. *)
Theorem monitorExperiment_success :
  forall (w : World) (interval : Duration) (fuel : nat) (exp : Experiment)
         (st : State),
    let res := monitorExperiment w interval fuel exp st in
    let exp' := fst (fst res) in
    snd (fst res) = Some None ->
    sameJob exp exp'
    /\ isActiveStatus (JobStatus exp') = false
    /\ (forall r, In r (db (snd res)) -> row_id r = ID exp ->
          job_status r = JobStatus exp'
          /\ completed_at r = Some (CompletedAt exp')
          /\ (fetchConfigured exp = true ->
              artifact_last_sync r = Some (ArtifactLastSync exp')
              /\ artifact_last_error r = None)).
Proof.
  intros w interval fuel exp st. cbv zeta. unfold monitorExperiment, bind.
  pose proof (pollLoop_keeps w interval fuel exp st) as H1. cbv zeta in H1.
  destruct (pollLoop w interval fuel exp st) as [[exp1 r] st1].
  cbn [fst snd] in H1. destruct H1 as (Hj1 & _ & _ & _ & _ & Hb1).
  destruct r as [[err |] |]; cbn [ret fst snd]; try (intro H; discriminate H).
  destruct (Hb1 eq_refl) as [Hterm Hrows].
  pose proof (afterPolling_keeps w exp1 st1) as H2. cbv zeta in H2.
  destruct (afterPolling w exp1 st1) as [[exp2 e] st2].
  unfold ret. cbn [fst snd] in *. intro He. injection He as ->.
  destruct H2 as (Hj2 & Hjs & Hjc & _ & _ & _ & Hr2).
  destruct (sameJob_config _ _ Hj1) as (Hid & _ & _ & _ & Hdest & _ & Heff).
  split; [eapply sameJob_trans; eassumption |].
  split; [now rewrite Hjs |].
  intros r Hin Hrid. rewrite Hid in Hr2.
  destruct (Hr2 r Hin Hrid) as [(x & Hx & Hxid & Hxs & Hxc) Hsync].
  destruct (Hrows x Hx Hxid) as [Hs Hc].
  split; [now rewrite Hxs, Hjs |]. split; [now rewrite Hxc, Hjc |].
  intro Hcfg. apply Hsync; [| reflexivity].
  unfold fetchConfigured in *. now rewrite Heff, Hdest.
Qed.

(** The job is COMPLETED at the first poll and the listing finds one file:
    the row of the experiment ends with the status, both times and no
    error. *)
Lemma monitorExperiment_success_witness :
  let w := Stub.world [Stub.okExec ("COMPLETED" ++ LF);
                       Stub.okExec ("./a.json" ++ LF)] [] in
  let res := monitorExperiment w defaultPollInterval 3 (Stub.run1Fetch "" false)
               Stub.state0 in
  Forall (fun r => row_id r = 1%Z ->
                   job_status r = "COMPLETED" /\ artifact_last_error r = None)
         (db (snd res)).
Proof.
  cbv zeta. apply Forall_forall. intros r Hin Hid.
  destruct (monitorExperiment_success
              (Stub.world [Stub.okExec ("COMPLETED" ++ LF);
                           Stub.okExec ("./a.json" ++ LF)] [])
              defaultPollInterval 3 (Stub.run1Fetch "" false) Stub.state0)
    as (_ & _ & H); [vm_compute; reflexivity |].
  destruct (H r Hin Hid) as (Hs & _ & Hsync).
  split; [rewrite Hs; vm_compute; reflexivity |].
  now apply Hsync.
Defined.

(** X13.  Monitoring one experiment leaves the others alone, whatever the
    remote host and the store answer and however long the loop runs: no
    row is added or removed, the rows of the other experiments are
    unchanged, and every statement executed is about the monitored
    experiment.  Nothing is transferred unless the polling loop has ended
    on a status that is not active and stored it. *)
Theorem monitorExperiment_isolation :
  forall (w : World) (interval : Duration) (fuel : nat) (exp : Experiment)
         (st : State),
    let res := monitorExperiment w interval fuel exp st in
    let poll := pollLoop w interval fuel exp st in
    otherRows (ID exp) (db (snd res)) = otherRows (ID exp) (db st)
    /\ map row_id (db (snd res)) = map row_id (db st)
    /\ (exists stmts, stmtsOf (log (snd res)) = stmtsOf (log st) ++ stmts
                      /\ Forall (fun s => stmtId s = ID exp) stmts)
    /\ (snd (fst poll) <> Some None ->
        res = poll /\ transferCalls (log (snd res)) = transferCalls (log st))
    /\ (transferCalls (log (snd res)) <> transferCalls (log st) ->
        isActiveStatus (JobStatus (fst (fst res))) = false
        /\ fetchConfigured exp = true).
Proof.
  intros w interval fuel exp st. cbv zeta. unfold monitorExperiment, bind.
  pose proof (pollLoop_keeps w interval fuel exp st) as H1. cbv zeta in H1.
  destruct (pollLoop w interval fuel exp st) as [[exp1 r] st1].
  cbn [fst snd] in H1.
  destruct H1 as (Hj1 & Ho1 & Hi1 & Ht1 & (s1 & Hs1 & Hf1) & Hb1).
  destruct r as [[err |] |]; cbn [ret fst snd].
  - split; [exact Ho1 |]. split; [exact Hi1 |]. split; [now exists s1 |].
    split; [intros _; now split |]. intro H; contradiction.
  - destruct (Hb1 eq_refl) as [Hterm _].
    pose proof (afterPolling_keeps w exp1 st1) as H2. cbv zeta in H2.
    pose proof (afterPolling_unfold w exp1 st1) as Hu. cbv zeta in Hu.
    destruct (afterPolling w exp1 st1) as [[exp2 e] st2].
    unfold ret. cbn [fst snd] in *.
    destruct H2 as (Hj2 & Hjs & _ & Ho2 & Hi2 & (s2 & Hs2 & Hf2) & _).
    destruct (sameJob_config _ _ Hj1) as (Hid & _ & _ & _ & Hdest & _ & Heff).
    rewrite Hid in *.
    split; [now rewrite Ho2 |]. split; [now rewrite Hi2 |]. split.
    { exists (s1 ++ s2). rewrite Hs2, Hs1, app_assoc.
      split; [reflexivity | now apply Forall_app]. }
    split; [intro H; now contradiction H |].
    intro Hmoved. split; [now rewrite Hjs |].
    assert (Hcfg : fetchConfigured exp1 = fetchConfigured exp)
      by (unfold fetchConfigured; now rewrite Heff, Hdest).
    rewrite <- Hcfg. destruct (fetchConfigured exp1); [reflexivity |].
    injection Hu as _ _ <-. now contradiction Hmoved.
  - split; [exact Ho1 |]. split; [exact Hi1 |]. split; [now exists s1 |].
    split; [intros _; now split |]. intro H; contradiction.
Qed.

(** A store with a second experiment, and a job that stays RUNNING: the row
    of the other experiment is as before and nothing has been transferred. *)
Lemma monitorExperiment_isolation_witness :
  let w := Stub.world [Stub.okExec ("RUNNING" ++ LF)] [] in
  let other := mkRow 2 "RUNNING" None None None in
  let res := monitorExperiment w defaultPollInterval 1 (Stub.run1Fetch "" false)
               (mkState [] [Stub.row1; other]) in
  otherRows 1 (db (snd res)) = [other]
  /\ transferCalls (log (snd res)) = 0.
Proof.
  cbv zeta.
  destruct (monitorExperiment_isolation
              (Stub.world [Stub.okExec ("RUNNING" ++ LF)] [])
              defaultPollInterval 1 (Stub.run1Fetch "" false)
              (mkState [] [Stub.row1; mkRow 2 "RUNNING" None None None]))
    as (H1 & _ & _ & H2 & _).
  split; [exact H1 |].
  destruct H2 as [_ H2]; [vm_compute; discriminate | exact H2].
Defined.

(** X14.  After the loop, [monitorExperiment] fetches only when the
    experiment has artifact sources and a destination; it then waits for
    the settle delay, fetches, and records the outcome with one statement,
    the last event of the run.  A fetch that failed makes the run fail, on
    the experiment as it was; once the store has accepted the record, the
    error returned is the one of the fetch and every row of the experiment
    holds that error and no time of a sync.  The run succeeds exactly when
    the fetch succeeded and the store accepted the record. *)
Theorem afterPolling_records :
  forall (w : World) (exp : Experiment) (st : State),
    let res := afterPolling w exp st in
    let st1 := mkState (log st ++ [EvSleep artifactSettleDelay]) (db st) in
    let fetch := fetchArtifactSources w exp (EffectiveArtifactSources exp)
                   (ArtifactDest exp) (ArtifactSinceStart exp) false st1 in
    (fetchConfigured exp = false -> res = ((exp, None), st))
    /\ (fetchConfigured exp = true ->
        exists syncedAt,
          let stmt := UpdateArtifactSync (ID exp) syncedAt (fst fetch) in
          let stored := dbExec w (dbCalls (log (snd fetch))) stmt in
          log (snd res) = log (snd fetch) ++ [EvDbExec stmt]
          /\ (syncedAt = None <-> fst fetch <> None)
          /\ (snd (fst res) = None <-> fst fetch = None /\ stored = true)
          /\ (fst fetch = None ->
              syncedAt = Some (ArtifactLastSync (fst (fst res))))
          /\ (forall err, fst fetch = Some err ->
                fst (fst res) = exp
                /\ (stored = true ->
                    snd (fst res) = Some err
                    /\ forall r, In r (db (snd res)) -> row_id r = ID exp ->
                                 artifact_last_error r = Some err
                                 /\ artifact_last_sync r = None))).
Proof.
  intros w exp st. cbv zeta. rewrite afterPolling_unfold. cbv zeta.
  set (st1 := mkState (log st ++ [EvSleep artifactSettleDelay]) (db st)).
  set (fetch := fetchArtifactSources w exp _ _ _ _ st1).
  set (now := UTC (clock w _)).
  split; [intros ->; reflexivity |]. intros ->.
  destruct (fst fetch) as [err |].
  - exists None.
    destruct (dbExec w _ _); cbn [fst snd log db].
    + split; [reflexivity |]. split; [split; [discriminate | reflexivity] |].
      split; [split; [discriminate | intros [H _]; discriminate H] |].
      split; [discriminate |].
      intros err' He. injection He as <-. split; [reflexivity |].
      intros _. split; [reflexivity |].
      intros r Hin Hid. cbn [applyStmt] in Hin.
      apply whereId_In in Hin; [| reflexivity | exact Hid].
      destruct Hin as (x & _ & ->). split; reflexivity.
    + split; [reflexivity |]. split; [split; [discriminate | reflexivity] |].
      split; [split; [discriminate | intros [H _]; discriminate H] |].
      split; [discriminate |].
      intros err' He. split; [reflexivity | discriminate].
  - exists (Some now).
    destruct (dbExec w _ _); cbn [fst snd log db].
    + split; [reflexivity |].
      split; [split; [discriminate | intro H; now contradiction H] |].
      split; [split; [now split | reflexivity] |].
      split; [reflexivity | discriminate].
    + split; [reflexivity |].
      split; [split; [discriminate | intro H; now contradiction H] |].
      split; [split; [discriminate | intros [_ H]; discriminate H] |].
      split; [reflexivity | discriminate].
Qed.

(** The remote host cannot be reached: the fetch fails on its first
    listing, and the row ends with that error and without a time. *)
Lemma afterPolling_records_witness :
  let res := afterPolling Stub.unreachableWorld (Stub.run1Fetch "" false)
               Stub.state0 in
  snd (fst res) <> None
  /\ forall r, In r (db (snd res)) -> row_id r = 1%Z -> artifact_last_sync r = None.
Proof.
  cbv zeta.
  destruct (afterPolling_records Stub.unreachableWorld (Stub.run1Fetch "" false)
              Stub.state0) as [_ H].
  destruct H as (syncedAt & _ & _ & Hnone & _ & Herr); [reflexivity |].
  split.
  - intro H. apply Hnone in H. destruct H as [H _]. vm_compute in H. discriminate.
  - intros r Hin Hid.
    edestruct Herr as [_ H]; [vm_compute; reflexivity |].
    destruct H as [_ H]; [vm_compute; reflexivity |].
    now apply (H r Hin Hid).
Defined.

(** ** After the polling loop *)

Lemma statusQuiet_refl (st : State) : statusQuiet st st.
Proof. exists []. now rewrite app_nil_r. Qed.

Lemma statusQuiet_trans (a b c : State) :
  statusQuiet a b -> statusQuiet b c -> statusQuiet a c.
Proof.
  intros (m1 & H1 & Q1) (m2 & H2 & Q2). exists (m1 ++ m2).
  rewrite H2, H1, app_assoc, existsb_app, Q1, Q2. now split.
Qed.

Lemma statusQuiet_app (st : State) (more : list Event) (rows : list Row) :
  existsb isStatusEvent more = false ->
  statusQuiet st (mkState (log st ++ more) rows).
Proof. intro H. exists more. now split. Qed.

(** Listing and transfer are no status transitions. *)
Lemma retryLoop_quiet (w : World) (remote root : string) (ts : Time) (todo : nat) :
  forall (retry : nat) (cmd : string) (st : State),
    statusQuiet st (snd (retryLoop w remote root ts todo retry cmd st)).
Proof.
  induction todo as [| k IH]; intros retry cmd st; [apply statusQuiet_refl |].
  rewrite retryLoop_step. cbv zeta.
  assert (He : statusQuiet st
                 (mkState (log st ++ retryEvents remote root ts retry) (db st))).
  { apply statusQuiet_app. unfold retryEvents. now destruct (0 <? retry)%nat. }
  destruct (isEmptyAnswer _); [| exact He].
  eapply statusQuiet_trans; [exact He | apply IH].
Qed.

Lemma attemptsLoop_quiet (w : World) (remote root : string)
    (attempts : list (string * Time)) :
  forall (cmd : string) (st : State),
    statusQuiet st (snd (attemptsLoop w remote root attempts cmd st)).
Proof.
  induction attempts as [| a rest IH]; intros cmd st; [apply statusQuiet_refl |].
  cbn [attemptsLoop]. unfold bind.
  pose proof (retryLoop_quiet w remote root (snd a) 6 0 cmd st) as H1.
  destruct (retryLoop w remote root (snd a) 6 0 cmd st) as [s st1].
  cbn [snd] in H1.
  destruct s as [e | files c | c]; [exact H1 | exact H1 |].
  eapply statusQuiet_trans; [exact H1 | apply IH].
Qed.

Lemma rsyncFiles_quiet (w : World) (remote root : string) (files : list string)
    (dest : string) (st : State) :
  statusQuiet st (snd (rsyncFiles w remote root files dest st)).
Proof.
  rewrite rsyncFiles_unfold. cbv zeta.
  destruct files; [apply statusQuiet_refl |].
  destruct (snd (Abs w dest)); [apply statusQuiet_refl |].
  destruct (mkdirAll w _); [destruct (rsync w _ _) |]; cbn [snd];
    now apply statusQuiet_app.
Qed.

Lemma fetchArtifacts_quiet (w : World) (exp : Experiment)
    (remotePath destDir : string) (patterns : list string)
    (sinceStart dryRun : bool) (st : State) :
  statusQuiet st
    (snd (fetchArtifacts w exp remotePath destDir patterns sinceStart dryRun st)).
Proof.
  destruct (fetchArtifacts_checks w exp remotePath destDir patterns sinceStart
              dryRun st) as [[H _] | Hcfg]; [rewrite H; apply statusQuiet_refl |].
  rewrite (fetchArtifacts_unfold w exp remotePath destDir patterns sinceStart
             dryRun _ st Hcfg). cbv zeta.
  pose proof (attemptsLoop_quiet w (Remote exp) remotePath
                (listingAttempts sinceStart
                   (if sinceStart then CreatedAt exp else zeroTime)) "" st) as Hs.
  destruct (fst (attemptsLoop _ _ _ _ _ _)) as [e | files c | c]; try exact Hs.
  destruct (compilePatterns w patterns []) as [compiled [e |]]; [exact Hs |].
  destruct (List.length _ =? 0)%nat; [exact Hs |].
  destruct dryRun; [exact Hs |].
  eapply statusQuiet_trans; [exact Hs | apply rsyncFiles_quiet].
Qed.

Lemma sourcesLoop_quiet (w : World) (exp : Experiment) (sources : list ArtifactSource)
    (destDir : string) (sinceStart dryRun : bool) :
  forall st : State,
    statusQuiet st (snd (sourcesLoop w exp sources destDir sinceStart dryRun st)).
Proof.
  induction sources as [| src sources IH]; intro st; [apply statusQuiet_refl |].
  cbn [sourcesLoop]. destruct (isEmpty (Path src)); [apply statusQuiet_refl |].
  unfold bind.
  pose proof (fetchArtifacts_quiet w exp (Path src) destDir
                (ensurePatterns (Patterns src)) sinceStart dryRun st) as H.
  destruct (fetchArtifacts _ _ _ _ _ _ _ _) as [[e |] st1]; cbn [snd] in H;
    [exact H |].
  eapply statusQuiet_trans; [exact H | apply IH].
Qed.

Lemma applyStmt_sync_columns (id : Z) (ts : option Time) (msg : option Error)
    (rows : list Row) :
  map statusColumns (applyStmt (UpdateArtifactSync id ts msg) rows)
  = map statusColumns rows.
Proof.
  cbn [applyStmt]. unfold whereId. rewrite map_map. apply map_ext.
  intro r. now destruct (row_id r =? id)%Z.
Qed.

(** The part of [monitorExperiment] after the loop looks up no status and
    stores none: the columns of the job state are as the loop left them. *)
Lemma afterPolling_quiet (w : World) (exp : Experiment) (st : State) :
  statusQuiet st (snd (afterPolling w exp st))
  /\ map statusColumns (db (snd (afterPolling w exp st)))
     = map statusColumns (db st).
Proof.
  rewrite afterPolling_unfold. cbv zeta.
  destruct (fetchConfigured exp); [| split; [apply statusQuiet_refl | reflexivity]].
  set (st1 := mkState (log st ++ [EvSleep artifactSettleDelay]) (db st)).
  set (fetch := fetchArtifactSources w exp _ _ _ _ st1).
  assert (Hq : statusQuiet st (snd fetch)).
  { apply (statusQuiet_trans st st1); [now apply statusQuiet_app |].
    subst fetch. rewrite sourcesLoop_eq. apply sourcesLoop_quiet. }
  set (now := UTC (clock w _)).
  assert (Hstmt : forall rows,
             statusQuiet st
               (mkState (log (snd fetch) ++
                         [EvDbExec (match fst fetch with
                                    | Some err => UpdateArtifactSync (ID exp) None (Some err)
                                    | None => UpdateArtifactSync (ID exp) (Some now) None
                                    end)]) rows)).
  { intro rows. apply (statusQuiet_trans st (snd fetch)); [exact Hq |].
    apply statusQuiet_app. now destruct (fst fetch). }
  destruct (dbExec w _ _); cbn [snd db]; (split; [apply Hstmt |]);
    [| reflexivity].
  destruct (fst fetch); apply applyStmt_sync_columns.
Qed.

(** C2, amended.  In every pass of the polling loop: a failed query leaves
    the stored status as it is and the loop goes on after the pause, for as
    many passes as the query fails; after a successful query the statement
    that stores the new status is executed first, and when the store
    refuses it the run ends with that error; when it is stored and the
    status is active the loop goes on after the pause; when it is stored
    and the status is terminal, the statement that stores the status with
    the completion time is executed next and the loop ends, with [break]
    or with the error of the store.  A pass after which the loop goes on
    is followed by the rest of the run; after a pass that ends the loop no
    further status transition is attempted in that run of
    [monitorExperiment]: what the run still does looks up no status and
    executes no statement that stores one, so that the status and the
    completion time of every row, and of the experiment, stay as that pass
    left them; after an error of the store the run does nothing more. *)
Theorem pollOnce_transitions :
  forall (w : World) (interval : Duration) (exp : Experiment) (st : State),
    let qr := queryJobStatus w (Remote exp) (JobID exp) st in
    let status := fst (fst qr) in
    let st1 := snd qr in
    let res := pollOnce w interval exp st in
    let exp' := fst (fst res) in
    let ctl := snd (fst res) in
    let stmt1 := UpdateStatus (ID exp) status in
    let now := UTC (clock w (List.length (log st1 ++ [EvDbExec stmt1]))) in
    let stmt2 := UpdateStatusCompleted (ID exp) status now in
    (snd (fst qr) <> None ->
       exp' = exp /\ ctl = Continue /\ db (snd res) = db st
       /\ log (snd res) = log st1 ++ [EvSleep interval])
    /\ (forall n st0, JobID exp <> "" ->
          (forall i, i < n ->
             exitErr (ssh w (sshCalls (log st0) + i) (Remote exp)
                        (squeueArgs (JobID exp))) = true) ->
          fst (pollLoop w interval n exp st0) = (exp, None)
          /\ db (snd (pollLoop w interval n exp st0)) = db st0
          /\ log (snd (pollLoop w interval n exp st0)) =
             log st0 ++ List.concat
                          (repeat [EvSsh (Remote exp) (squeueArgs (JobID exp));
                                   EvSleep interval] n))
    /\ (snd (fst qr) = None ->
        exists rest, log (snd res) = log st1 ++ EvDbExec stmt1 :: rest)
    /\ (snd (fst qr) = None ->
        dbExec w (dbCalls (log st1)) stmt1 = false ->
        ctl = Return ErrDbExec /\ db (snd res) = db st
        /\ log (snd res) = log st1 ++ [EvDbExec stmt1])
    /\ (snd (fst qr) = None ->
        dbExec w (dbCalls (log st1)) stmt1 = true ->
        isActiveStatus status = true ->
        ctl = Continue /\ exp' = setJobStatus exp status
        /\ db (snd res) = applyStmt stmt1 (db st)
        /\ log (snd res) = log st1 ++ [EvDbExec stmt1; EvSleep interval])
    /\ (snd (fst qr) = None ->
        dbExec w (dbCalls (log st1)) stmt1 = true ->
        isActiveStatus status = false ->
        log (snd res) = log st1 ++ [EvDbExec stmt1; EvDbExec stmt2]
        /\ exp' = setCompletedAt (setJobStatus exp status) now
        /\ ctl <> Continue
        /\ (dbExec w (S (dbCalls (log st1))) stmt2 = true ->
            ctl = Break
            /\ db (snd res) = applyStmt stmt2 (applyStmt stmt1 (db st)))
        /\ (dbExec w (S (dbCalls (log st1))) stmt2 = false ->
            ctl = Return ErrDbExec
            /\ db (snd res) = applyStmt stmt1 (db st)))
    /\ (forall fuel, ctl <> Continue ->
          snd (pollLoop w interval (S fuel) exp st) = snd res
          /\ snd (fst (pollLoop w interval (S fuel) exp st)) =
             Some (match ctl with Return e => Some e | _ => None end))
    /\ (forall rows r, In r (applyStmt stmt1 rows) -> row_id r = ID exp ->
                       job_status r = status)
    /\ (forall rows r, In r (applyStmt stmt2 (applyStmt stmt1 rows)) ->
                       row_id r = ID exp ->
                       job_status r = status /\ completed_at r = Some now)
    /\ (forall fuel, ctl <> Continue ->
          (exists more,
             log (snd (monitorExperiment w interval (S fuel) exp st))
             = log (snd res) ++ more
             /\ existsb isStatusEvent more = false)
          /\ map statusColumns (db (snd (monitorExperiment w interval (S fuel) exp st)))
             = map statusColumns (db (snd res))
          /\ JobStatus (fst (fst (monitorExperiment w interval (S fuel) exp st)))
             = JobStatus exp'
          /\ CompletedAt (fst (fst (monitorExperiment w interval (S fuel) exp st)))
             = CompletedAt exp'
          /\ snd (fst (monitorExperiment w interval (S fuel) exp st)) <> None
          /\ (forall e, ctl = Return e ->
                monitorExperiment w interval (S fuel) exp st
                = ((exp', Some (Some e)), snd res)))
    /\ (forall fuel, ctl = Continue ->
          monitorExperiment w interval (S fuel) exp st
          = monitorExperiment w interval fuel exp' (snd res))
    /\ (forall remote jobID id s t,
          isStatusEvent (EvSsh remote (squeueArgs jobID)) = true
          /\ isStatusEvent (EvSsh remote (sacctArgs jobID)) = true
          /\ isStatusEvent (EvDbExec (UpdateStatus id s)) = true
          /\ isStatusEvent (EvDbExec (UpdateStatusCompleted id s t)) = true).
Proof.
  intros w interval exp st qr status st1 res exp' ctl stmt1 now stmt2.
  assert (Hres : res = _) by exact (pollOnce_unfold w interval exp st).
  cbv zeta in Hres. fold qr status st1 stmt1 now stmt2 in Hres.
  subst exp' ctl.
  split.
  { intro Hq. rewrite Hres. destruct (snd (fst qr)); [| contradiction].
    repeat split. }
  split.
  { intros n st0 Hjob Hfail.
    rewrite (pollLoop_retries w interval exp n Hjob st0 Hfail).
    repeat split. }
  split.
  { intro Hq. rewrite Hres, Hq.
    destruct (dbExec w (dbCalls (log st1)) stmt1);
      [destruct (negb (isActiveStatus status));
       [destruct (dbExec w (S (dbCalls (log st1))) stmt2) |] |];
      cbn [snd log]; eexists; reflexivity. }
  split.
  { intros Hq H1. rewrite Hres, Hq, H1. repeat split. }
  split.
  { intros Hq H1 Ha. rewrite Hres, Hq, H1, Ha. repeat split. }
  split.
  { intros Hq H1 Ha. rewrite Hres, Hq, H1, Ha. cbn [negb].
    destruct (dbExec w (S (dbCalls (log st1))) stmt2); cbn [fst snd log db];
      (split; [reflexivity |]); (split; [reflexivity |]);
      (split; [discriminate |]); split; intro H; try discriminate;
      split; reflexivity. }
  split.
  { intros fuel Hctl. subst res.
    rewrite (pollLoop_stops w interval exp st fuel Hctl). split; reflexivity. }
  split.
  { intros rows r Hin Hid. unfold stmt1 in Hin. cbn [applyStmt] in Hin.
    apply whereId_In in Hin; [| reflexivity | exact Hid].
    destruct Hin as (x & _ & ->). reflexivity. }
  split.
  { intros rows r Hin Hid. unfold stmt2 in Hin. cbn [applyStmt] in Hin.
    apply whereId_In in Hin; [| reflexivity | exact Hid].
    destruct Hin as (x & _ & ->). split; reflexivity. }
  split; [| split; [| intros; repeat split]].
  2:{ intros fuel Hctl. unfold monitorExperiment, bind. cbn [pollLoop].
      unfold bind. fold res. clear Hres.
      destruct res as [[e1 c1] s1]. cbn [fst snd] in *. now subst c1. }
  intros fuel Hctl. unfold monitorExperiment, bind.
  rewrite (pollLoop_stops w interval exp st fuel Hctl).
  fold res. destruct (snd (fst res)) as [| | err] eqn:Hc; [contradiction | |].
  - cbn [fst snd].
    destruct (afterPolling_quiet w (fst (fst res)) (snd res)) as [Hq Hcols].
    pose proof (afterPolling_keeps w (fst (fst res)) (snd res)) as Hk.
    cbv zeta in Hk. destruct Hk as (_ & Hjs & Hjc & _).
    destruct (afterPolling w (fst (fst res)) (snd res)) as [[exp2 e] st2].
    unfold ret. cbn [fst snd] in *.
    split; [exact Hq |]. split; [exact Hcols |]. split; [exact Hjs |].
    split; [exact Hjc |]. split; [discriminate |].
    intros e0 He0. discriminate He0.
  - unfold ret. cbn [fst snd].
    split; [exists []; now rewrite app_nil_r |].
    split; [reflexivity |]. split; [reflexivity |]. split; [reflexivity |].
    split; [discriminate |].
    intros e0 He0. injection He0 as <-. reflexivity.
Qed.


(** A job that is RUNNING at the first poll and COMPLETED at the second:
    the second pass stores the status with the completion time and ends the
    loop; a host that cannot be reached is polled again and again; and for
    a job with artifacts configured that is COMPLETED at the first poll,
    the fetch that follows leaves the columns of the job state as the pass
    left them. *)
Lemma pollOnce_transitions_witness :
  let w := Stub.world [Stub.okExec ("RUNNING" ++ LF);
                       Stub.okExec ("COMPLETED" ++ LF)] [] in
  let st1 := snd (pollOnce w defaultPollInterval Stub.run1 Stub.state0) in
  let exp1 := fst (fst (pollOnce w defaultPollInterval Stub.run1 Stub.state0)) in
  let w2 := Stub.world [Stub.okExec ("COMPLETED" ++ LF);
                        Stub.okExec ("./metrics.json" ++ LF)] [] in
  snd (fst (pollOnce w defaultPollInterval Stub.run1 Stub.state0)) = Continue
  /\ snd (fst (pollOnce w defaultPollInterval exp1 st1)) = Break
  /\ fst (pollLoop Stub.unreachableWorld defaultPollInterval 1000 Stub.run1
            Stub.state0) = (Stub.run1, None)
  /\ map statusColumns
       (db (snd (monitorExperiment w2 defaultPollInterval 1
                   (Stub.run1Fetch "" false) Stub.state0)))
     = map statusColumns
         (db (snd (pollOnce w2 defaultPollInterval (Stub.run1Fetch "" false)
                     Stub.state0))).
Proof.
  cbv zeta.
  pose proof (pollOnce_transitions
                (Stub.world [Stub.okExec ("RUNNING" ++ LF);
                             Stub.okExec ("COMPLETED" ++ LF)] [])
                defaultPollInterval Stub.run1 Stub.state0) as H.
  cbv zeta in H. destruct H as (_ & _ & _ & _ & H & _).
  split; [exact (proj1 (H eq_refl eq_refl eq_refl)) |].
  pose proof (pollOnce_transitions
                (Stub.world [Stub.okExec ("RUNNING" ++ LF);
                             Stub.okExec ("COMPLETED" ++ LF)] [])
                defaultPollInterval
                (fst (fst (pollOnce (Stub.world [Stub.okExec ("RUNNING" ++ LF);
                                                 Stub.okExec ("COMPLETED" ++ LF)] [])
                             defaultPollInterval Stub.run1 Stub.state0)))
                (snd (pollOnce (Stub.world [Stub.okExec ("RUNNING" ++ LF);
                                            Stub.okExec ("COMPLETED" ++ LF)] [])
                        defaultPollInterval Stub.run1 Stub.state0))) as H2.
  cbv zeta in H2. destruct H2 as (_ & _ & _ & _ & _ & H2 & _).
  split; [exact (proj1 (proj1 (proj2 (proj2 (proj2 (H2 eq_refl eq_refl eq_refl)))) eq_refl)) |].
  pose proof (pollOnce_transitions Stub.unreachableWorld defaultPollInterval
                Stub.run1 Stub.state0) as H3.
  cbv zeta in H3. destruct H3 as (_ & H3 & _).
  split; [apply (H3 1000 Stub.state0); [discriminate | reflexivity] |].
  pose proof (pollOnce_transitions
                (Stub.world [Stub.okExec ("COMPLETED" ++ LF);
                             Stub.okExec ("./metrics.json" ++ LF)] [])
                defaultPollInterval (Stub.run1Fetch "" false) Stub.state0) as H4.
  cbv zeta in H4. destruct H4 as (_ & _ & _ & _ & _ & _ & _ & _ & _ & H4 & _).
  destruct (H4 0) as (_ & Hcols & _); [vm_compute; discriminate | exact Hcols].
Defined.

(** The scenario of the specification: [run1], without artifact
    configuration, is RUNNING at the first poll, has left the queue at the
    second and is COMPLETED for sacct; the run ends without an error and
    without a fetch, the status and the completion time are stored. *)
Example monitor_run1_scenario :
  let w := Stub.world [Stub.okExec ("RUNNING" ++ LF); Stub.okExec "";
                       Stub.okExec ("   COMPLETED " ++ LF)] [] in
  let res := monitorExperiment w defaultPollInterval 5 Stub.run1 Stub.state0 in
  let done := mkTime 63871286406 0 in
  snd (fst res) = Some None
  /\ JobStatus (fst (fst res)) = "COMPLETED"
  /\ db (snd res) = [mkRow 1 "COMPLETED" (Some done) None None]
  /\ log (snd res) =
     [EvSsh "user@host" (squeueArgs "2723147");
      EvDbExec (UpdateStatus 1 "RUNNING");
      EvSleep defaultPollInterval;
      EvSsh "user@host" (squeueArgs "2723147");
      EvSsh "user@host" (sacctArgs "2723147");
      EvDbExec (UpdateStatus 1 "COMPLETED");
      EvDbExec (UpdateStatusCompleted 1 "COMPLETED" done)].
Proof. cbv zeta. repeat split. Qed.

(** ** The fetch command *)

Lemma fetchArtifacts_dry_run (w : World) (exp : Experiment)
    (remotePath destDir : string) (patterns : list string) (sinceStart : bool)
    (st : State) :
  transferCalls (log (snd (fetchArtifacts w exp remotePath destDir patterns
                             sinceStart true st)))
  = transferCalls (log st).
Proof.
  destruct (fetchArtifacts_checks w exp remotePath destDir patterns sinceStart
              true st) as [[H _] | Hcfg]; [now rewrite H |].
  rewrite (fetchArtifacts_unfold w exp remotePath destDir patterns sinceStart
             true _ st Hcfg). cbv zeta.
  destruct (attemptsLoop_events w (Remote exp) remotePath
              (listingAttempts sinceStart
                 (if sinceStart then CreatedAt exp else zeroTime)) "" st) as [Ht _].
  destruct (fst (attemptsLoop _ _ _ _ _ _)) as [e | files c | c]; try exact Ht.
  destruct (compilePatterns w patterns []) as [compiled [e |]]; [exact Ht |].
  destruct (List.length _ =? 0)%nat; exact Ht.
Qed.

Lemma sourcesLoop_dry_run (w : World) (exp : Experiment) (sources : list ArtifactSource)
    (destDir : string) (sinceStart : bool) :
  forall st : State,
    transferCalls (log (snd (sourcesLoop w exp sources destDir sinceStart true st)))
    = transferCalls (log st).
Proof.
  induction sources as [| src sources IH]; intro st; [reflexivity |].
  cbn [sourcesLoop]. destruct (isEmpty (Path src)); [reflexivity |].
  unfold bind.
  pose proof (fetchArtifacts_dry_run w exp (Path src) destDir
                (ensurePatterns (Patterns src)) sinceStart st) as H.
  destruct (fetchArtifacts _ _ _ _ _ _ _ _) as [[e |] st1]; cbn [snd] in H;
    [exact H |].
  now rewrite IH.
Qed.

(** [cmdFetch] once its checks have passed. *)
Lemma cmdFetch_unfold (w : World) (exp : Experiment) (remotePath destDir : string)
    (overridePatterns : list string) (sinceStartFlag : option bool) (dryRun : bool)
    (st : State) :
  let dest := if isEmpty destDir then ArtifactDest exp else destDir in
  let sinceStart := match sinceStartFlag with
                    | Some v => v
                    | None => ArtifactSinceStart exp
                    end in
  let sources := overridePatternsOf overridePatterns (fetchSources exp remotePath) in
  let fetch := fetchArtifactSources w exp sources dest sinceStart dryRun st in
  let now := UTC (clock w (List.length (log (snd fetch)))) in
  let stmt := match fst fetch with
              | Some err => UpdateArtifactSync (ID exp) None (Some err)
              | None => UpdateArtifactSync (ID exp) (Some now) None
              end in
  let after := mkState (log (snd fetch) ++ [EvDbExec stmt]) in
  fetchRequestOk exp remotePath dest ->
  cmdFetch w exp remotePath destDir overridePatterns sinceStartFlag dryRun st =
    match fst fetch with
    | Some err =>
        if dbExec w (dbCalls (log (snd fetch))) stmt
        then (Some (FetchFailed err), after (applyStmt stmt (db st)))
        else (Some (FetchFailedNotRecorded err ErrDbExec), after (db st))
    | None =>
        if dryRun then (None, snd fetch)
        else if dbExec w (dbCalls (log (snd fetch))) stmt
        then (None, after (applyStmt stmt (db st)))
        else (Some (FetchRecordFailed ErrDbExec), after (db st))
    end.
Proof.
  cbv zeta. intros (Hr & Hp & Hd & Hs). unfold cmdFetch.
  apply isEmpty_false in Hr, Hd. rewrite Hr.
  assert (Hp' : negb (isEmpty remotePath) && negb (HasPrefix remotePath "/") = false).
  { destruct Hp as [-> | ->]; [reflexivity | apply andb_false_r]. }
  rewrite Hp'. cbv zeta. rewrite Hd.
  assert (Hlen : (List.length (fetchSources exp remotePath) =? 0)%nat = false)
    by (destruct (fetchSources exp remotePath); [contradiction | reflexivity]).
  rewrite Hlen. unfold bind.
  set (sources := overridePatternsOf overridePatterns (fetchSources exp remotePath)).
  set (dest := if isEmpty destDir then ArtifactDest exp else destDir) in *.
  set (sinceStart := match sinceStartFlag with
                     | Some v => v
                     | None => ArtifactSinceStart exp
                     end).
  pose proof (sourcesLoop_db w exp sources dest sinceStart dryRun st) as Hdb.
  rewrite <- sourcesLoop_eq in Hdb.
  destruct (fetchArtifactSources w exp sources dest sinceStart dryRun st)
    as [[err |] st1]; cbn [fst snd] in *.
  - unfold recordArtifactSync, execStmt.
    destruct (dbExec w _ _); unfold ret; now rewrite Hdb.
  - destruct dryRun; [reflexivity |].
    unfold timeNow, recordArtifactSync, execStmt.
    destruct (dbExec w _ _); unfold ret; now rewrite Hdb.
Qed.

(** X15.  The checks of [cmdFetch] come before every effect.  Without a
    remote host, with a relative [--remote-path], without a destination
    (neither [--dest] nor a recorded one), or without [--remote-path] for
    an experiment that has no artifact sources, the command fails and has
    run nothing and written nothing; in every other case the request
    passes the checks, so that a [--remote-path] makes up for an experiment
    without recorded sources. *)
Theorem cmdFetch_checks_first :
  forall (w : World) (exp : Experiment) (remotePath destDir : string)
         (overridePatterns : list string) (sinceStartFlag : option bool)
         (dryRun : bool) (st : State),
    let dest := if isEmpty destDir then ArtifactDest exp else destDir in
    let res := cmdFetch w exp remotePath destDir overridePatterns sinceStartFlag
                 dryRun st in
    ((Remote exp = ""
      \/ (remotePath <> "" /\ HasPrefix remotePath "/" = false)
      \/ dest = ""
      \/ (remotePath = "" /\ EffectiveArtifactSources exp = [])) ->
     snd res = st /\ fst res <> None)
    /\ (Remote exp = "" -> fst res = Some FetchEmptyRemoteHost)
    /\ (~ (Remote exp = ""
           \/ (remotePath <> "" /\ HasPrefix remotePath "/" = false)
           \/ dest = ""
           \/ (remotePath = "" /\ EffectiveArtifactSources exp = [])) ->
        fetchRequestOk exp remotePath dest)
    /\ (Remote exp <> "" -> HasPrefix remotePath "/" = true -> dest <> "" ->
        fetchRequestOk exp remotePath dest).
Proof.
  intros w exp remotePath destDir overridePatterns sinceStartFlag dryRun st dest res.
  split.
  { intro Hbad. subst res. unfold cmdFetch.
    destruct (isEmpty (Remote exp)) eqn:Hr; [split; [reflexivity | discriminate] |].
    destruct (negb (isEmpty remotePath) && negb (HasPrefix remotePath "/")) eqn:Hp;
      [split; [reflexivity | discriminate] |].
    cbv zeta. fold dest.
    destruct (isEmpty dest) eqn:Hd; [split; [reflexivity | discriminate] |].
    destruct (List.length (fetchSources exp remotePath) =? 0)%nat eqn:Hs;
      [split; [reflexivity | discriminate] |].
    exfalso. destruct Hbad as [H | [[H1 H2] | [H | [H1 H2]]]].
    - rewrite H in Hr. discriminate.
    - apply isEmpty_false in H1. rewrite H1, H2 in Hp. discriminate.
    - rewrite H in Hd. discriminate.
    - unfold fetchSources in Hs. rewrite H1, H2 in Hs. discriminate. }
  split.
  { intro Hr. subst res. unfold cmdFetch. now rewrite Hr. }
  split.
  { intro Hgood. unfold fetchRequestOk.
    split; [intro H; apply Hgood; now left |].
    split.
    { destruct remotePath as [| c p]; [now left | right].
      destruct (HasPrefix (String c p) "/") eqn:Hp; [reflexivity |].
      exfalso. apply Hgood. right. left. split; [discriminate | reflexivity]. }
    split; [intro H; apply Hgood; right; right; now left |].
    intro Hs. unfold fetchSources in Hs.
    destruct remotePath as [| c p]; [| discriminate].
    apply Hgood. right. right. right. now split. }
  intros Hr Hp Hd. unfold fetchRequestOk.
  split; [exact Hr |]. split; [now right |]. split; [exact Hd |].
  unfold fetchSources. destruct remotePath; [discriminate | discriminate].
Qed.

(** An experiment without recorded destination, and no [--dest]. *)
Lemma cmdFetch_checks_first_witness :
  cmdFetch (Stub.world [] []) Stub.run1 "/data/out" "" [] None false Stub.state0
  = (Some FetchDestRequired, Stub.state0).
Proof.
  destruct (cmdFetch_checks_first (Stub.world [] []) Stub.run1 "/data/out" "" []
              None false Stub.state0) as [H _].
  destruct H as [H1 H2]; [right; right; left; reflexivity |].
  rewrite (surjective_pairing (cmdFetch _ _ _ _ _ _ _ _)), H1.
  reflexivity.
Defined.

Lemma overridePatternsOf_paths (overridePatterns : list string)
    (sources : list ArtifactSource) :
  map Path (overridePatternsOf overridePatterns sources) = map Path sources.
Proof.
  unfold overridePatternsOf. destruct (0 <? _)%nat; [| reflexivity].
  now rewrite map_map.
Qed.

(** X16.  What [cmdFetch] fetches once its checks have passed: the sources
    of one call of [fetchArtifactSources], made first.  Their paths are the
    path of [--remote-path] alone when it is given, and the paths of the
    effective sources of the experiment otherwise; their patterns are the
    ones of [--pattern] for every source when at least one is given, and
    otherwise the recorded ones (for [--remote-path], the legacy pattern
    string of the experiment, split).  The destination is [--dest] or else
    the recorded one, the since-start filter the flag or else the recorded
    preference. *)
Theorem cmdFetch_sources :
  forall (w : World) (exp : Experiment) (remotePath destDir : string)
         (overridePatterns : list string) (sinceStartFlag : option bool)
         (dryRun : bool) (st : State),
    let dest := if isEmpty destDir then ArtifactDest exp else destDir in
    let sinceStart := match sinceStartFlag with
                      | Some v => v
                      | None => ArtifactSinceStart exp
                      end in
    let res := cmdFetch w exp remotePath destDir overridePatterns sinceStartFlag
                 dryRun st in
    fetchRequestOk exp remotePath dest ->
    exists sources,
      let fetch := fetchArtifactSources w exp sources dest sinceStart dryRun st in
      (exists more, log (snd res) = log (snd fetch) ++ more
                    /\ filter isSsh more = []
                    /\ filter isRsyncOrMkdir more = [])
      /\ sources <> []
      /\ (remotePath <> "" -> map Path sources = [remotePath])
      /\ (remotePath = "" ->
          map Path sources = map Path (EffectiveArtifactSources exp))
      /\ (overridePatterns <> [] ->
          Forall (fun s => Patterns s = overridePatterns) sources)
      /\ (overridePatterns = [] -> remotePath = "" ->
          sources = EffectiveArtifactSources exp)
      /\ (overridePatterns = [] -> remotePath <> "" ->
          sources = [mkSource remotePath (splitPatterns (ArtifactPattern exp))]).
Proof.
  intros w exp remotePath destDir overridePatterns sinceStartFlag dryRun st
         dest sinceStart res Hok.
  exists (overridePatternsOf overridePatterns (fetchSources exp remotePath)).
  cbv zeta. split.
  { subst res.
    rewrite (cmdFetch_unfold w exp remotePath destDir overridePatterns
               sinceStartFlag dryRun st Hok). cbv zeta. fold dest sinceStart.
    destruct (fst (fetchArtifactSources _ _ _ _ _ _ _)) as [err |].
    - destruct (dbExec w _ _); cbn [snd log]; eexists; repeat split.
    - destruct dryRun.
      + exists []. now rewrite app_nil_r.
      + destruct (dbExec w _ _); cbn [snd log]; eexists; repeat split. }
  destruct Hok as (_ & _ & _ & Hs).
  assert (Hp := overridePatternsOf_paths overridePatterns (fetchSources exp remotePath)).
  split.
  { intro H0. rewrite H0 in Hp. symmetry in Hp. apply map_eq_nil in Hp.
    contradiction. }
  split.
  { intro Hne. rewrite Hp. unfold fetchSources.
    apply isEmpty_false in Hne. now rewrite Hne. }
  split.
  { intros ->. rewrite Hp. reflexivity. }
  split.
  { intro Hne. unfold overridePatternsOf.
    destruct overridePatterns as [| p ps]; [contradiction |].
    cbn [List.length Nat.ltb Nat.leb]. apply Forall_map.
    apply Forall_forall. reflexivity. }
  split.
  - intros -> ->. reflexivity.
  - intros -> Hne. unfold fetchSources, overridePatternsOf.
    apply isEmpty_false in Hne. now rewrite Hne.
Qed.

(** [--remote-path /data/logs --pattern \.log$] for an experiment whose
    recorded source is [/data/out]. *)
Lemma cmdFetch_sources_witness :
  exists sources,
    map Path sources = ["/data/logs"]
    /\ Forall (fun s => Patterns s = ["\.log$"]) sources.
Proof.
  destruct (cmdFetch_sources (Stub.world [] []) (Stub.run1Fetch "" false)
              "/data/logs" "" ["\.log$"] None true Stub.state0)
    as (sources & _ & _ & H1 & _ & H2 & _).
  - repeat split; try discriminate. now right.
  - exists sources. split; [apply H1 | apply H2]; discriminate.
Defined.

(** X17.  What [cmdFetch] writes once its checks have passed.  The rows of
    the other experiments are never changed.  A dry run transfers nothing
    and, when the listing succeeds, executes no statement; but a fetch that
    fails is recorded even in a dry run: the one statement executed stores
    the error and erases the time of the last sync, and the command fails.
    A command that succeeds without [--dry-run] has stored the time of the
    sync and no error in every row of the experiment. *)
Theorem cmdFetch_records :
  forall (w : World) (exp : Experiment) (remotePath destDir : string)
         (overridePatterns : list string) (sinceStartFlag : option bool)
         (dryRun : bool) (st : State),
    let dest := if isEmpty destDir then ArtifactDest exp else destDir in
    let sinceStart := match sinceStartFlag with
                      | Some v => v
                      | None => ArtifactSinceStart exp
                      end in
    let sources := overridePatternsOf overridePatterns (fetchSources exp remotePath) in
    let fetch := fetchArtifactSources w exp sources dest sinceStart dryRun st in
    let res := cmdFetch w exp remotePath destDir overridePatterns sinceStartFlag
                 dryRun st in
    fetchRequestOk exp remotePath dest ->
    otherRows (ID exp) (db (snd res)) = otherRows (ID exp) (db st)
    /\ (dryRun = true -> transferCalls (log (snd res)) = transferCalls (log st))
    /\ (dryRun = true -> fst fetch = None ->
        res = (None, snd fetch)
        /\ db (snd res) = db st
        /\ stmtsOf (log (snd res)) = stmtsOf (log st))
    /\ (forall err, fst fetch = Some err ->
          fst res <> None
          /\ stmtsOf (log (snd res))
             = stmtsOf (log st) ++ [UpdateArtifactSync (ID exp) None (Some err)]
          /\ (fst res = Some (FetchFailed err) ->
              forall r, In r (db (snd res)) -> row_id r = ID exp ->
                        artifact_last_error r = Some err
                        /\ artifact_last_sync r = None))
    /\ (fst res = None -> fst fetch = None)
    /\ (fst res = None -> dryRun = false ->
        exists now,
          forall r, In r (db (snd res)) -> row_id r = ID exp ->
                    artifact_last_sync r = Some now
                    /\ artifact_last_error r = None).
Proof.
  intros w exp remotePath destDir overridePatterns sinceStartFlag dryRun st
         dest sinceStart sources fetch res Hok.
  assert (Hres : res = _)
    by exact (cmdFetch_unfold w exp remotePath destDir overridePatterns
                sinceStartFlag dryRun st Hok).
  cbv zeta in Hres. fold dest sinceStart sources fetch in Hres.
  assert (Hdb : db (snd fetch) = db st)
    by (subst fetch; rewrite sourcesLoop_eq; apply sourcesLoop_db).
  assert (Hst : stmtsOf (log (snd fetch)) = stmtsOf (log st))
    by (subst fetch; rewrite sourcesLoop_eq; apply sourcesLoop_stmts).
  assert (Hrows : forall ts msg r,
             In r (applyStmt (UpdateArtifactSync (ID exp) ts msg) (db st)) ->
             row_id r = ID exp ->
             artifact_last_sync r = ts /\ artifact_last_error r = msg).
  { intros ts msg r Hin Hid. cbn [applyStmt] in Hin.
    apply whereId_In in Hin; [| reflexivity | exact Hid].
    destruct Hin as (x & _ & ->). split; reflexivity. }
  set (now := UTC (clock w (List.length (log (snd fetch))))) in *.
  pose proof (applyStmt_otherRows (UpdateArtifactSync (ID exp) None (fst fetch))
                (db st)) as [Ho1 _].
  pose proof (applyStmt_otherRows (UpdateArtifactSync (ID exp) (Some now) None)
                (db st)) as [Ho2 _].
  cbn [stmtId] in Ho1, Ho2.
  split.
  { rewrite Hres. destruct (fst fetch) as [err |].
    - destruct (dbExec w _ (UpdateArtifactSync _ _ _)); cbn [snd db]; [exact Ho1 | reflexivity].
    - destruct dryRun; [cbn [snd]; now rewrite Hdb |].
      destruct (dbExec w _ (UpdateArtifactSync _ _ _)); cbn [snd db]; [exact Ho2 | reflexivity]. }
  split.
  { intros ->.
    assert (Ht : transferCalls (log (snd fetch)) = transferCalls (log st))
      by (subst fetch; rewrite sourcesLoop_eq; apply sourcesLoop_dry_run).
    rewrite Hres. destruct (fst fetch) as [err |]; [| exact Ht].
    destruct (dbExec w _ (UpdateArtifactSync _ _ _)); cbn [snd log];
      now rewrite transferCalls_others by reflexivity. }
  split.
  { intros -> Hnone. rewrite Hres, Hnone. cbn [snd]. now repeat split. }
  split.
  { intros err Herr. rewrite Hres, Herr.
    destruct (dbExec w _ (UpdateArtifactSync _ _ _)); cbn [fst snd log db].
    - split; [discriminate |]. split; [rewrite stmtsOf_app, Hst; reflexivity |].
      intros _ r Hin Hid.
      destruct (Hrows None (Some err) r Hin Hid) as [H1 H2]. now split.
    - split; [discriminate |]. split; [rewrite stmtsOf_app, Hst; reflexivity |].
      intro H; discriminate H. }
  split.
  { rewrite Hres. destruct (fst fetch) as [err |]; [| reflexivity].
    destruct (dbExec w _ (UpdateArtifactSync _ _ _)); intro H; discriminate H. }
  intros Hnone ->. exists now. rewrite Hres in Hnone |- *.
  destruct (fst fetch) as [err |].
  - destruct (dbExec w _ (UpdateArtifactSync _ _ _)); discriminate Hnone.
  - destruct (dbExec w _ (UpdateArtifactSync _ _ _)); [| discriminate Hnone]. cbn [snd db].
    intros r Hin Hid. destruct (Hrows (Some now) None r Hin Hid) as [H1 H2].
    now split.
Qed.

(** A dry run against a host that cannot be reached: nothing is transferred,
    yet the row of the experiment ends with the error and without a time. *)
Lemma cmdFetch_records_witness :
  let res := cmdFetch Stub.unreachableWorld (Stub.run1Fetch "" false) "" "" []
               None true Stub.state0 in
  transferCalls (log (snd res)) = 0
  /\ forall r, In r (db (snd res)) -> row_id r = 1%Z -> artifact_last_sync r = None.
Proof.
  cbv zeta.
  destruct (cmdFetch_records Stub.unreachableWorld (Stub.run1Fetch "" false) "" ""
              [] None true Stub.state0) as (_ & Hdry & _ & Herr & _).
  - repeat split; try discriminate. now left.
  - split; [now apply Hdry |].
    intros r Hin Hid.
    edestruct Herr as (_ & _ & H); [vm_compute; reflexivity |].
    apply (H ltac:(vm_compute; reflexivity) r Hin Hid).
Defined.

(** ** The remote git lookup *)










(** ** The settings of a run *)

Lemma ifEmpty_empty (current : string) : ifEmpty current "" = current.
Proof. now destruct current. Qed.

Lemma ifEmpty_firstNonEmpty (values : list string) (fallback : string) :
  ifEmpty (firstNonEmpty values) fallback = firstNonEmpty (values ++ [fallback]).
Proof.
  induction values as [| v values IH]; cbn [firstNonEmpty app].
  - now destruct fallback.
  - destruct v; [exact IH | reflexivity].
Qed.

Lemma ifEmpty_first (current fallback : string) :
  ifEmpty current fallback = firstNonEmpty [current; fallback].
Proof. destruct current; [now destruct fallback | reflexivity]. Qed.

Lemma patternsIfNone_first (current : list string) (single : string)
    (items : list string) :
  patternsIfNone current single items
  = firstNonNil [current; normalizePatternList single items].
Proof.
  unfold patternsIfNone. destruct current; [| reflexivity]. cbn.
  now destruct (normalizePatternList single items).
Qed.

Lemma sourcesIfNone_first (current given : list ArtifactSource) :
  sourcesIfNone current given = firstNonNil [current; copyArtifactSources given].
Proof.
  unfold sourcesIfNone. destruct current; [| reflexivity].
  destruct given; reflexivity.
Qed.

Lemma firstNonNil_flat {A : Type} (lists rest : list (list A)) :
  firstNonNil (firstNonNil lists :: rest) = firstNonNil (lists ++ rest).
Proof.
  induction lists as [| x lists IH]; cbn [firstNonNil app]; [reflexivity |].
  destruct x; [exact IH | reflexivity].
Qed.

(** The variables after a call of [applyProfile] that returned no error. *)
Lemma applyProfile_fields (parseDuration : string -> option Duration)
    (sinceStartSet pollIntervalSet : bool) (source : string)
    (prof : option Profile.RunProfile) (s s' : Run.Settings) :
  applyProfile parseDuration sinceStartSet pollIntervalSet source prof s = (s', None) ->
  s' = Run.mkSettings
         (ifEmpty (Run.remote s) (ofLayer Profile.Remote prof))
         (Run.name s)
         (ifEmpty (Run.logDir s) (ofLayer Profile.LogDir prof))
         (ifEmpty (Run.script s) (ofLayer Profile.Script prof))
         (ifEmpty (Run.buildScript s) (ofLayer Profile.BuildScript prof))
         (Run.scriptLocal s)
         (ifEmpty (Run.artifactRemote s) (ofLayer Profile.ArtifactRemote prof))
         (ifEmpty (Run.artifactDest s) (ofLayer Profile.ArtifactDest prof))
         (firstNonNil [Run.configPatterns s; profilePatterns prof])
         (firstNonNil [Run.artifactSources s;
                       copyArtifactSources (listOfLayer Profile.ArtifactSources prof)])
         (unlessSet sinceStartSet (Run.artifactSinceStart s)
            (optionOfLayer Profile.ArtifactSinceStart prof))
         (unlessSet pollIntervalSet (Run.pollInterval s)
            (intervalOf parseDuration (ofLayer Profile.PollInterval prof)))
         (Run.profileName s).
Proof.
  intro H. destruct prof as [prof |].
  - unfold applyProfile in H. cbn [ofLayer listOfLayer optionOfLayer].
    unfold profilePatterns. cbn [ofLayer listOfLayer].
    rewrite <- patternsIfNone_first, <- sourcesIfNone_first.
    unfold intervalOf.
    destruct pollIntervalSet; cbn [negb andb] in H.
    + injection H as <-. f_equal.
      now destruct (if isEmpty _ then None else _).
    + destruct (isEmpty (Profile.PollInterval prof)); cbn [negb] in H.
      * now injection H as <-.
      * destruct (parseDuration (Profile.PollInterval prof)); [| discriminate].
        now injection H as <-.
  - cbn in H. injection H as <-. cbn [ofLayer listOfLayer optionOfLayer].
    rewrite !ifEmpty_empty. unfold profilePatterns, intervalOf. cbn.
    destruct s as [? ? ? ? ? ? ? ? cp srcs ? ? ?]. cbn.
    f_equal; try (now destruct cp); try (now destruct srcs);
      now destruct pollIntervalSet.
Qed.

(** The variables after a call of [applyRunFile] that returned no error. *)
Lemma applyRunFile_fields (parseDuration : string -> option Duration)
    (sinceStartSet pollIntervalSet : bool) (source : string)
    (cfg : option RunFile.RunConfigFile) (s s' : Run.Settings) :
  applyRunFile parseDuration sinceStartSet pollIntervalSet source cfg s = (s', None) ->
  s' = Run.mkSettings
         (ifEmpty (Run.remote s) (ofLayer RunFile.Remote cfg))
         (ifEmpty (Run.name s) (ofLayer RunFile.Name cfg))
         (ifEmpty (Run.logDir s) (ofLayer RunFile.LogDir cfg))
         (ifEmpty (Run.script s) (ofLayer RunFile.Script cfg))
         (ifEmpty (Run.buildScript s) (ofLayer RunFile.BuildScript cfg))
         (ifEmpty (Run.scriptLocal s) (ofLayer RunFile.ScriptLocal cfg))
         (ifEmpty (Run.artifactRemote s) (ofLayer RunFile.ArtifactRemote cfg))
         (ifEmpty (Run.artifactDest s) (ofLayer RunFile.ArtifactDest cfg))
         (firstNonNil [Run.configPatterns s; runFilePatterns cfg])
         (firstNonNil [Run.artifactSources s;
                       copyArtifactSources (listOfLayer RunFile.ArtifactSources cfg)])
         (unlessSet sinceStartSet (Run.artifactSinceStart s)
            (optionOfLayer RunFile.ArtifactSinceStart cfg))
         (unlessSet pollIntervalSet (Run.pollInterval s)
            (intervalOf parseDuration (ofLayer RunFile.PollInterval cfg)))
         (Run.profileName s).
Proof.
  intro H. destruct cfg as [cfg |].
  - unfold applyRunFile in H. cbn [ofLayer listOfLayer optionOfLayer].
    unfold runFilePatterns. cbn [ofLayer listOfLayer].
    rewrite <- patternsIfNone_first, <- sourcesIfNone_first.
    unfold intervalOf.
    destruct pollIntervalSet; cbn [negb andb] in H.
    + injection H as <-. f_equal.
      now destruct (if isEmpty _ then None else _).
    + destruct (isEmpty (RunFile.PollInterval cfg)); cbn [negb] in H.
      * now injection H as <-.
      * destruct (parseDuration (RunFile.PollInterval cfg)); [| discriminate].
        now injection H as <-.
  - cbn in H. injection H as <-. cbn [ofLayer listOfLayer optionOfLayer].
    rewrite !ifEmpty_empty. unfold runFilePatterns, intervalOf. cbn.
    destruct s as [? ? ? ? ? ? ? ? cp srcs ? ? ?]. cbn.
    f_equal; try (now destruct cp); try (now destruct srcs);
      now destruct pollIntervalSet.
Qed.

Lemma adoptRunFile_fields (runFile : option RunFile.RunConfigFile) (s : Run.Settings) :
  adoptRunFile runFile s
  = Run.mkSettings (Run.remote s)
      (firstNonEmpty [Run.name s; ofLayer RunFile.Name runFile])
      (Run.logDir s) (Run.script s) (Run.buildScript s) (Run.scriptLocal s)
      (Run.artifactRemote s) (Run.artifactDest s) (Run.configPatterns s)
      (Run.artifactSources s) (Run.artifactSinceStart s) (Run.pollInterval s)
      (profileAsked runFile s).
Proof.
  unfold profileAsked. destruct s as [? n ? ? ? ? ? ? ? ? ? ? pn].
  destruct runFile as [rf |]; cbn.
  - f_equal.
    + destruct n; [now destruct (RunFile.Name rf) | reflexivity].
    + destruct pn; [now destruct (RunFile.Profile rf) | reflexivity].
  - f_equal; [now destruct n | now destruct pn].
Qed.

(** A run of [cmdRunSettings] that succeeds, step by step. *)
Lemma cmdRunSettings_steps (parseDuration : string -> option Duration)
    (envRemote : string) (sinceStartSet pollIntervalSet : bool)
    (flagPatterns : list string) (configPath : string)
    (runFile : option RunFile.RunConfigFile) (cfg : option Config)
    (s s' : Run.Settings) (patterns : list string) :
  cmdRunSettings parseDuration envRemote sinceStartSet pollIntervalSet flagPatterns
    configPath runFile cfg s = (Some (s', patterns), None) ->
  let asked := profileAsked runFile s in
  exists s1 s2 s3,
    applyProfile parseDuration sinceStartSet pollIntervalSet "defaults"
      (defaultsLayer cfg) (adoptRunFile runFile s) = (s1, None)
    /\ applyProfile parseDuration sinceStartSet pollIntervalSet asked
         (profileLayer cfg asked) s1 = (s2, None)
    /\ applyRunFile parseDuration sinceStartSet pollIntervalSet configPath runFile s2
       = (s3, None)
    /\ checkSettings flagPatterns (remoteFromEnv envRemote s3)
       = (Some (s', patterns), None).
Proof.
  cbv zeta. unfold cmdRunSettings. cbv zeta.
  assert (Hpn : Run.profileName (adoptRunFile runFile s) = profileAsked runFile s)
    by now rewrite adoptRunFile_fields.
  set (s0 := adoptRunFile runFile s) in *.
  set (asked := profileAsked runFile s) in *.
  destruct cfg as [c |]; cbn [defaultsLayer profileLayer option_map].
  - destruct (applyProfile _ _ _ "defaults" (Some (Defaults c)) s0)
      as [s1 [e |]] eqn:H1; [discriminate |].
    assert (Hpn1 : Run.profileName s1 = asked).
    { apply applyProfile_fields in H1. rewrite H1. exact Hpn. }
    rewrite Hpn1. destruct (isEmpty asked) eqn:Ha; cbn [negb].
    + destruct (applyRunFile _ _ _ configPath runFile s1) as [s3 [e |]] eqn:H3;
        [discriminate |].
      intro H. exists s1, s1, s3. now repeat split.
    + destruct (Profiles c asked) as [prof |]; [| discriminate].
      destruct (applyProfile _ _ _ asked (Some prof) s1) as [s2 [e |]] eqn:H2;
        [discriminate |].
      destruct (applyRunFile _ _ _ configPath runFile s2) as [s3 [e |]] eqn:H3;
        [discriminate |].
      intro H. exists s1, s2, s3. now repeat split.
  - rewrite Hpn. destruct (isEmpty asked); cbn [negb]; [| discriminate].
    destruct (applyRunFile _ _ _ configPath runFile s0) as [s3 [e |]] eqn:H3;
      [discriminate |].
    intro H. exists s0, s0, s3. now repeat split.
Qed.

Lemma checkSettings_ok (flagPatterns : list string) (s s' : Run.Settings)
    (patterns : list string) :
  checkSettings flagPatterns s = (Some (s', patterns), None) ->
  s' = s
  /\ patterns = firstNonNil [flagPatterns; Run.configPatterns s]
  /\ Run.remote s <> EmptyString /\ Run.name s <> EmptyString
  /\ Run.logDir s <> EmptyString /\ Run.script s <> EmptyString
  /\ (Run.artifactRemote s <> EmptyString ->
      HasPrefix (Run.artifactRemote s) "/" = true)
  /\ (Run.artifactSources s = [] ->
      (Run.artifactRemote s = EmptyString <-> Run.artifactDest s = EmptyString)).
Proof.
  unfold checkSettings.
  destruct (isEmpty (Run.remote s)) eqn:H1; [discriminate |].
  destruct (isEmpty (Run.name s)) eqn:H2; [discriminate |].
  destruct (isEmpty (Run.logDir s)) eqn:H3; [discriminate |].
  destruct (isEmpty (Run.script s)) eqn:H4; [discriminate |]. cbn [orb].
  destruct (negb (isEmpty (Run.artifactRemote s))
            && negb (HasPrefix (Run.artifactRemote s) "/")) eqn:H5; [discriminate |].
  destruct ((List.length (Run.artifactSources s) =? 0)%nat && _) eqn:H6;
    [discriminate |].
  cbv zeta. intro H. injection H as <- <-.
  apply isEmpty_false in H1, H2, H3, H4.
  split; [reflexivity |]. split; [destruct flagPatterns; [now destruct (Run.configPatterns s) | reflexivity] |].
  do 4 (split; [assumption |]). split.
  - intro Hne. apply isEmpty_false in Hne. rewrite Hne in H5. cbn in H5.
    now destruct (HasPrefix _ _).
  - intro Hnil. rewrite Hnil in H6. cbn in H6.
    destruct (Run.artifactRemote s), (Run.artifactDest s); cbn in H6;
      try discriminate; split; intro H; try reflexivity; discriminate.
Qed.

Lemma unlessSet_last {A : Type} (flagSet : bool) (current : A) (d p r : option A) :
  unlessSet flagSet (unlessSet flagSet (unlessSet flagSet current d) p) r
  = if flagSet then current else lastDefined current [d; p; r].
Proof. destruct flagSet, d, p, r; reflexivity. Qed.

(** The settled variables in closed form. *)
Lemma cmdRunSettings_settled (parseDuration : string -> option Duration)
    (envRemote : string) (sinceStartSet pollIntervalSet : bool)
    (flagPatterns : list string) (configPath : string)
    (runFile : option RunFile.RunConfigFile) (cfg : option Config)
    (s s' : Run.Settings) (patterns : list string) :
  cmdRunSettings parseDuration envRemote sinceStartSet pollIntervalSet flagPatterns
    configPath runFile cfg s = (Some (s', patterns), None) ->
  let asked := profileAsked runFile s in
  let d := defaultsLayer cfg in
  let p := profileLayer cfg asked in
  s' = Run.mkSettings
         (firstNonEmpty [Run.remote s; ofLayer Profile.Remote d;
                         ofLayer Profile.Remote p; ofLayer RunFile.Remote runFile;
                         envRemote])
         (firstNonEmpty [Run.name s; ofLayer RunFile.Name runFile])
         (firstNonEmpty [Run.logDir s; ofLayer Profile.LogDir d;
                         ofLayer Profile.LogDir p; ofLayer RunFile.LogDir runFile])
         (firstNonEmpty [Run.script s; ofLayer Profile.Script d;
                         ofLayer Profile.Script p; ofLayer RunFile.Script runFile])
         (firstNonEmpty [Run.buildScript s; ofLayer Profile.BuildScript d;
                         ofLayer Profile.BuildScript p;
                         ofLayer RunFile.BuildScript runFile])
         (firstNonEmpty [Run.scriptLocal s; ofLayer RunFile.ScriptLocal runFile])
         (firstNonEmpty [Run.artifactRemote s; ofLayer Profile.ArtifactRemote d;
                         ofLayer Profile.ArtifactRemote p;
                         ofLayer RunFile.ArtifactRemote runFile])
         (firstNonEmpty [Run.artifactDest s; ofLayer Profile.ArtifactDest d;
                         ofLayer Profile.ArtifactDest p;
                         ofLayer RunFile.ArtifactDest runFile])
         (firstNonNil [Run.configPatterns s; profilePatterns d; profilePatterns p;
                       runFilePatterns runFile])
         (firstNonNil
            [Run.artifactSources s;
             copyArtifactSources (listOfLayer Profile.ArtifactSources d);
             copyArtifactSources (listOfLayer Profile.ArtifactSources p);
             copyArtifactSources (listOfLayer RunFile.ArtifactSources runFile)])
         (if sinceStartSet then Run.artifactSinceStart s
          else lastDefined (Run.artifactSinceStart s)
                 [optionOfLayer Profile.ArtifactSinceStart d;
                  optionOfLayer Profile.ArtifactSinceStart p;
                  optionOfLayer RunFile.ArtifactSinceStart runFile])
         (if pollIntervalSet then Run.pollInterval s
          else lastDefined (Run.pollInterval s)
                 [intervalOf parseDuration (ofLayer Profile.PollInterval d);
                  intervalOf parseDuration (ofLayer Profile.PollInterval p);
                  intervalOf parseDuration (ofLayer RunFile.PollInterval runFile)])
         asked
  /\ checkSettings flagPatterns s' = (Some (s', patterns), None).
Proof.
  intro H. cbv zeta.
  destruct (cmdRunSettings_steps _ _ _ _ _ _ _ _ _ _ _ H)
    as (s1 & s2 & s3 & H1 & H2 & H3 & H4).
  apply applyProfile_fields in H1, H2. apply applyRunFile_fields in H3.
  rewrite adoptRunFile_fields in H1. cbn [Run.remote Run.name Run.logDir Run.script
    Run.buildScript Run.scriptLocal Run.artifactRemote Run.artifactDest
    Run.configPatterns Run.artifactSources Run.artifactSinceStart Run.pollInterval
    Run.profileName] in H1.
  subst s1. cbn [Run.remote Run.name Run.logDir Run.script
    Run.buildScript Run.scriptLocal Run.artifactRemote Run.artifactDest
    Run.configPatterns Run.artifactSources Run.artifactSinceStart Run.pollInterval
    Run.profileName] in H2.
  subst s2. cbn [Run.remote Run.name Run.logDir Run.script
    Run.buildScript Run.scriptLocal Run.artifactRemote Run.artifactDest
    Run.configPatterns Run.artifactSources Run.artifactSinceStart Run.pollInterval
    Run.profileName] in H3.
  destruct (checkSettings_ok _ _ _ _ H4) as [Hs' _].
  subst s'. split; [| exact H4].
  clear H4 H. subst s3. unfold remoteFromEnv.
  cbn [Run.remote Run.name Run.logDir Run.script
    Run.buildScript Run.scriptLocal Run.artifactRemote Run.artifactDest
    Run.configPatterns Run.artifactSources Run.artifactSinceStart Run.pollInterval
    Run.profileName].
  rewrite !unlessSet_last.
  rewrite !(ifEmpty_first (Run.remote s)), !(ifEmpty_first (Run.logDir s)),
    !(ifEmpty_first (Run.script s)), !(ifEmpty_first (Run.buildScript s)),
    !(ifEmpty_first (Run.scriptLocal s)), !(ifEmpty_first (Run.artifactRemote s)),
    !(ifEmpty_first (Run.artifactDest s)).
  rewrite !ifEmpty_firstNonEmpty. cbn [app].
  repeat (rewrite firstNonNil_flat; cbn [app]).
  f_equal.
  destruct (Run.name s); [now destruct (ofLayer RunFile.Name runFile) | reflexivity].
Qed.

(** X19.  How [cmdRun] settles its text settings.  In a run that passes the
    checks, each of remote, log directory, script, build script, artifact
    remote and artifact destination is the first non-empty value among the
    flag, the defaults of the configuration, the profile asked for and the
    run file, in this order (the defaults come before the profile, the run
    file last), and the remote falls back to [EXP_REMOTE]; the name and the
    local script come from the flag or else from the run file; the profile
    asked for is the one of [--profile] or else the one the run file names.
    The patterns and the sources of the configuration are taken from the
    first of defaults, profile and run file that has any, and patterns
    given by flags replace those of the configuration. *)
Theorem cmdRunSettings_first_wins :
  forall (parseDuration : string -> option Duration) (envRemote : string)
         (sinceStartSet pollIntervalSet : bool) (flagPatterns : list string)
         (configPath : string) (runFile : option RunFile.RunConfigFile)
         (cfg : option Config) (s s' : Run.Settings) (patterns : list string),
    cmdRunSettings parseDuration envRemote sinceStartSet pollIntervalSet
      flagPatterns configPath runFile cfg s = (Some (s', patterns), None) ->
    let asked := firstNonEmpty [Run.profileName s; ofLayer RunFile.Profile runFile] in
    let d := option_map Defaults cfg in
    let p := match cfg with
             | Some c => if isEmpty asked then None else Profiles c asked
             | None => None
             end in
    Run.profileName s' = asked
    /\ Run.remote s'
       = firstNonEmpty [Run.remote s; ofLayer Profile.Remote d;
                        ofLayer Profile.Remote p; ofLayer RunFile.Remote runFile;
                        envRemote]
    /\ Run.name s' = firstNonEmpty [Run.name s; ofLayer RunFile.Name runFile]
    /\ Run.logDir s'
       = firstNonEmpty [Run.logDir s; ofLayer Profile.LogDir d;
                        ofLayer Profile.LogDir p; ofLayer RunFile.LogDir runFile]
    /\ Run.script s'
       = firstNonEmpty [Run.script s; ofLayer Profile.Script d;
                        ofLayer Profile.Script p; ofLayer RunFile.Script runFile]
    /\ Run.buildScript s'
       = firstNonEmpty [Run.buildScript s; ofLayer Profile.BuildScript d;
                        ofLayer Profile.BuildScript p;
                        ofLayer RunFile.BuildScript runFile]
    /\ Run.scriptLocal s'
       = firstNonEmpty [Run.scriptLocal s; ofLayer RunFile.ScriptLocal runFile]
    /\ Run.artifactRemote s'
       = firstNonEmpty [Run.artifactRemote s; ofLayer Profile.ArtifactRemote d;
                        ofLayer Profile.ArtifactRemote p;
                        ofLayer RunFile.ArtifactRemote runFile]
    /\ Run.artifactDest s'
       = firstNonEmpty [Run.artifactDest s; ofLayer Profile.ArtifactDest d;
                        ofLayer Profile.ArtifactDest p;
                        ofLayer RunFile.ArtifactDest runFile]
    /\ Run.configPatterns s'
       = firstNonNil [Run.configPatterns s; profilePatterns d; profilePatterns p;
                      runFilePatterns runFile]
    /\ Run.artifactSources s'
       = firstNonNil
           [Run.artifactSources s;
            copyArtifactSources (listOfLayer Profile.ArtifactSources d);
            copyArtifactSources (listOfLayer Profile.ArtifactSources p);
            copyArtifactSources (listOfLayer RunFile.ArtifactSources runFile)]
    /\ patterns = firstNonNil [flagPatterns; Run.configPatterns s'].
Proof.
  intros parseDuration envRemote sinceStartSet pollIntervalSet flagPatterns
         configPath runFile cfg s s' patterns H.
  destruct (cmdRunSettings_settled _ _ _ _ _ _ _ _ _ _ _ H) as [Hs Hc].
  cbv zeta in Hs. unfold profileAsked, defaultsLayer, profileLayer in Hs.
  destruct (checkSettings_ok _ _ _ _ Hc) as (_ & Hp & _).
  cbv zeta. split; [now rewrite Hs |].
  do 10 (split; [now rewrite Hs |]). exact Hp.
Qed.

(** The defaults name [d@host], the profile [p@host] and the run file
    [f@host]: the remote is the one of the defaults; the log directory,
    which the defaults leave open, is the one of the profile. *)
Lemma cmdRunSettings_first_wins_witness :
  exists s' patterns,
    cmdRunSettings StubRun.parseDuration "" false false [] "/home/user/run.yaml"
      (Some StubRun.runFile) (Some StubRun.config) StubRun.flags
    = (Some (s', patterns), None)
    /\ Run.remote s' = "d@host"
    /\ Run.logDir s' = "/logs/gpu"
    /\ patterns = ["\.json$"].
Proof.
  destruct (cmdRunSettings StubRun.parseDuration "" false false []
              "/home/user/run.yaml" (Some StubRun.runFile) (Some StubRun.config)
              StubRun.flags) as [[[s' patterns] |] e] eqn:H;
    [| vm_compute in H; discriminate].
  assert (He : e = None) by (vm_compute in H; congruence). subst e.
  exists s', patterns. split; [reflexivity |].
  destruct (cmdRunSettings_first_wins _ _ _ _ _ _ _ _ _ _ _ H)
    as (_ & H1 & _ & H2 & _ & _ & _ & _ & _ & H3 & _ & H4).
  split; [exact H1 |]. split; [exact H2 |]. rewrite H4, H3. reflexivity.
Defined.

(** X20.  The since-start preference and the poll interval are settled the
    other way round: unless the flag is given, which then decides, the last
    of defaults, profile asked for and run file that defines the value
    wins, so the run file overrides the profile and the profile the
    defaults; without any, the built-in value of the flag stays.  A poll
    interval is defined by a non-empty text, which has to parse. *)
Theorem cmdRunSettings_last_wins :
  forall (parseDuration : string -> option Duration) (envRemote : string)
         (sinceStartSet pollIntervalSet : bool) (flagPatterns : list string)
         (configPath : string) (runFile : option RunFile.RunConfigFile)
         (cfg : option Config) (s s' : Run.Settings) (patterns : list string),
    cmdRunSettings parseDuration envRemote sinceStartSet pollIntervalSet
      flagPatterns configPath runFile cfg s = (Some (s', patterns), None) ->
    let asked := firstNonEmpty [Run.profileName s; ofLayer RunFile.Profile runFile] in
    let d := option_map Defaults cfg in
    let p := match cfg with
             | Some c => if isEmpty asked then None else Profiles c asked
             | None => None
             end in
    let interval text := if isEmpty text then None else parseDuration text in
    (sinceStartSet = true -> Run.artifactSinceStart s' = Run.artifactSinceStart s)
    /\ (sinceStartSet = false ->
        Run.artifactSinceStart s'
        = lastDefined (Run.artifactSinceStart s)
            [optionOfLayer Profile.ArtifactSinceStart d;
             optionOfLayer Profile.ArtifactSinceStart p;
             optionOfLayer RunFile.ArtifactSinceStart runFile])
    /\ (pollIntervalSet = true -> Run.pollInterval s' = Run.pollInterval s)
    /\ (pollIntervalSet = false ->
        Run.pollInterval s'
        = lastDefined (Run.pollInterval s)
            [interval (ofLayer Profile.PollInterval d);
             interval (ofLayer Profile.PollInterval p);
             interval (ofLayer RunFile.PollInterval runFile)]
        /\ (forall text,
              In text [ofLayer Profile.PollInterval d;
                       ofLayer Profile.PollInterval p;
                       ofLayer RunFile.PollInterval runFile] ->
              text <> "" -> parseDuration text <> None)).
Proof.
  intros parseDuration envRemote sinceStartSet pollIntervalSet flagPatterns
         configPath runFile cfg s s' patterns H.
  destruct (cmdRunSettings_settled _ _ _ _ _ _ _ _ _ _ _ H) as [Hs _].
  cbv zeta in Hs. unfold profileAsked, defaultsLayer, profileLayer, intervalOf in Hs.
  cbv zeta.
  split; [intros ->; now rewrite Hs |].
  split; [intros ->; now rewrite Hs |].
  split; [intros ->; now rewrite Hs |].
  intros ->. split; [now rewrite Hs |].
  destruct (cmdRunSettings_steps _ _ _ _ _ _ _ _ _ _ _ H)
    as (s1 & s2 & s3 & H1 & H2 & H3 & _).
  unfold profileAsked, defaultsLayer, profileLayer in H1, H2.
  intros text Hin Hne. apply isEmpty_false in Hne.
  destruct Hin as [<- | [<- | [<- | []]]].
  - destruct (option_map Defaults cfg) as [prof |]; [| discriminate].
    clear H2 H3. unfold applyProfile in H1. cbn [ofLayer negb andb] in *.
    rewrite Hne in H1. cbn [negb] in H1.
    now destruct (parseDuration (Profile.PollInterval prof)).
  - destruct (match cfg with Some _ => _ | None => None end) as [prof |];
      [| discriminate].
    clear H1 H3. unfold applyProfile in H2. cbn [ofLayer negb andb] in *.
    rewrite Hne in H2. cbn [negb] in H2.
    now destruct (parseDuration (Profile.PollInterval prof)).
  - destruct runFile as [rf |]; [| discriminate].
    clear H1 H2. unfold applyRunFile in H3. cbn [ofLayer negb andb] in *.
    rewrite Hne in H3. cbn [negb] in H3.
    now destruct (parseDuration (RunFile.PollInterval rf)).
Qed.

(** The defaults say no since-start filter and 45s, the run file says
    since-start and 2m: the run file decides both. *)
Lemma cmdRunSettings_last_wins_witness :
  exists s' patterns,
    cmdRunSettings StubRun.parseDuration "" false false [] "/home/user/run.yaml"
      (Some StubRun.runFile) (Some StubRun.config) StubRun.flags
    = (Some (s', patterns), None)
    /\ Run.artifactSinceStart s' = true
    /\ Run.pollInterval s' = (2 * Minute)%Z.
Proof.
  destruct (cmdRunSettings StubRun.parseDuration "" false false []
              "/home/user/run.yaml" (Some StubRun.runFile) (Some StubRun.config)
              StubRun.flags) as [[[s' patterns] |] e] eqn:H;
    [| vm_compute in H; discriminate].
  assert (He : e = None) by (vm_compute in H; congruence). subst e.
  exists s', patterns. split; [reflexivity |].
  destruct (cmdRunSettings_last_wins _ _ _ _ _ _ _ _ _ _ _ H)
    as (_ & H1 & _ & H2).
  split; [now rewrite H1 | now rewrite (proj1 (H2 eq_refl))].
Defined.

Lemma checkSettings_result (flagPatterns : list string) (s : Run.Settings) :
  fst (checkSettings flagPatterns s) = None <-> snd (checkSettings flagPatterns s) <> None.
Proof.
  unfold checkSettings.
  repeat match goal with
         | |- context [if ?b then _ else _] => destruct b
         end; cbn [fst snd]; split; intro H; try discriminate;
    try reflexivity; now contradiction H.
Qed.

(** X21.  What [cmdRun] refuses and what it guarantees.  A profile asked
    for without any configuration file, or one the configuration does not
    define, makes the run fail.  Every run either fails or yields settings,
    never both; and settings that are yielded have a remote, a name, a log
    directory and a script, an artifact remote that is absolute when there
    is one, and, when no sources are configured, an artifact remote exactly
    when there is an artifact destination. *)
Theorem cmdRunSettings_checks :
  forall (parseDuration : string -> option Duration) (envRemote : string)
         (sinceStartSet pollIntervalSet : bool) (flagPatterns : list string)
         (configPath : string) (runFile : option RunFile.RunConfigFile)
         (cfg : option Config) (s : Run.Settings),
    let res := cmdRunSettings parseDuration envRemote sinceStartSet
                 pollIntervalSet flagPatterns configPath runFile cfg s in
    let asked := firstNonEmpty [Run.profileName s; ofLayer RunFile.Profile runFile] in
    (cfg = None -> asked <> "" -> res = (None, Some (ProfileWithoutConfig asked)))
    /\ (forall c, cfg = Some c -> asked <> "" -> Profiles c asked = None ->
          fst res = None /\ snd res <> None)
    /\ (fst res = None <-> snd res <> None)
    /\ (forall s' patterns, fst res = Some (s', patterns) ->
          Run.remote s' <> "" /\ Run.name s' <> "" /\ Run.logDir s' <> ""
          /\ Run.script s' <> ""
          /\ (Run.artifactRemote s' <> "" ->
              HasPrefix (Run.artifactRemote s') "/" = true)
          /\ (Run.artifactSources s' = [] ->
              (Run.artifactRemote s' = "" <-> Run.artifactDest s' = ""))).
Proof.
  intros parseDuration envRemote sinceStartSet pollIntervalSet flagPatterns
         configPath runFile cfg s res asked.
  assert (Hpn : Run.profileName (adoptRunFile runFile s) = asked)
    by now rewrite adoptRunFile_fields.
  assert (Hboth : fst res = None <-> snd res <> None).
  { subst res. unfold cmdRunSettings. cbv zeta.
    destruct (match cfg with Some _ => _ | None => _ end) as [s2 [e |]].
    - cbn [fst snd]. split; [discriminate | reflexivity].
    - destruct (applyRunFile _ _ _ _ _ _) as [s3 [e |]].
      + cbn [fst snd]. split; [discriminate | reflexivity].
      + apply checkSettings_result. }
  split.
  { intros -> Hne. subst res. unfold cmdRunSettings. cbv zeta. rewrite Hpn.
    apply isEmpty_false in Hne. now rewrite Hne. }
  split.
  { intros c -> Hne Hnone.
    assert (H : snd res <> None); [| split; [now apply Hboth | exact H]].
    subst res. unfold cmdRunSettings. cbv zeta.
    destruct (applyProfile _ _ _ "defaults" (Some (Defaults c)) _)
      as [s1 [e |]] eqn:H1; [discriminate |].
    apply applyProfile_fields in H1.
    assert (Hpn1 : Run.profileName s1 = asked) by (rewrite H1; exact Hpn).
    rewrite Hpn1. apply isEmpty_false in Hne. rewrite Hne, Hnone. discriminate. }
  split; [exact Hboth |].
  intros s' patterns Hres.
  assert (Hnone : snd res = None).
  { destruct (snd res) as [e |] eqn:He; [| reflexivity].
    assert (H : fst res = None) by (apply Hboth; discriminate).
    congruence. }
  assert (H : res = (Some (s', patterns), None))
    by (rewrite (surjective_pairing res), Hres, Hnone; reflexivity).
  destruct (cmdRunSettings_settled _ _ _ _ _ _ _ _ _ _ _ H) as [_ Hc].
  destruct (checkSettings_ok _ _ _ _ Hc) as (_ & _ & Hrest). exact Hrest.
Qed.

(** The run file asks for the profile [gpu], and there is no configuration
    file. *)
Lemma cmdRunSettings_checks_witness :
  cmdRunSettings StubRun.parseDuration "" false false [] "/home/user/run.yaml"
    (Some StubRun.runFile) None StubRun.flags
  = (None, Some (ProfileWithoutConfig "gpu")).
Proof.
  apply (cmdRunSettings_checks StubRun.parseDuration "" false false []
           "/home/user/run.yaml" (Some StubRun.runFile) None StubRun.flags);
    [reflexivity | discriminate].
Defined.

(** ** The lines of a configuration file *)

Lemma allBytes_app (p : ascii -> bool) (a b : string) :
  allBytes p (a ++ b) = allBytes p a && allBytes p b.
Proof.
  induction a as [| c a IH]; [reflexivity |].
  cbn [append allBytes]. now rewrite IH, andb_assoc.
Qed.

Lemma allBytes_strRev (p : ascii -> bool) (s : string) :
  allBytes p (strRev s) = allBytes p s.
Proof.
  induction s as [| c s IH]; [reflexivity |].
  cbn [strRev allBytes]. rewrite allBytes_app, IH. cbn [allBytes].
  rewrite andb_true_r. apply andb_comm.
Qed.

Lemma dropWhileByte_decomp (p : ascii -> bool) (s : string) :
  exists pre,
    s = (pre ++ dropWhileByte p s)%string
    /\ allBytes p pre = true
    /\ firstByteIs p (dropWhileByte p s) = false.
Proof.
  induction s as [| c s (pre & Hs & Hp & Hf)].
  - exists EmptyString. repeat split.
  - cbn [dropWhileByte]. destruct (p c) eqn:Hc.
    + exists (String c pre). cbn [append allBytes]. rewrite Hc, Hp, <- Hs.
      repeat split. exact Hf.
    + exists EmptyString. cbn [append allBytes firstByteIs]. repeat split. exact Hc.
Qed.

Lemma TrimRightSet_decomp (p : ascii -> bool) (s : string) :
  exists suf,
    s = (TrimRightSet p s ++ suf)%string
    /\ allBytes p suf = true
    /\ firstByteIs p (strRev (TrimRightSet p s)) = false.
Proof.
  unfold TrimRightSet.
  destruct (dropWhileByte_decomp p (strRev s)) as (pre & Hs & Hp & Hf).
  exists (strRev pre). split.
  - rewrite <- strRev_app, <- Hs. now rewrite strRev_involutive.
  - split; [now rewrite allBytes_strRev |]. now rewrite strRev_involutive.
Qed.

Lemma commentIndex_app (x y : string) :
  forall (inSingle inDouble : bool) (i : nat),
    commentIndex inSingle inDouble i (x ++ y) =
      match commentIndex inSingle inDouble i x with
      | Some j => Some j
      | None =>
          commentIndex (fst (quoteScan inSingle inDouble x))
            (snd (quoteScan inSingle inDouble x)) (i + String.length x) y
      end.
Proof.
  induction x as [| c x IH]; intros inSingle inDouble i.
  - cbn. now rewrite Nat.add_0_r.
  - cbn [append commentIndex quoteScan String.length].
    replace (i + S (String.length x)) with (S i + String.length x) by lia.
    destruct (Ascii.eqb c "'"); [apply IH |].
    destruct (Ascii.eqb c doubleQuote); [apply IH |].
    destruct (Ascii.eqb c "#"); [| apply IH].
    destruct (negb inSingle && negb inDouble); [reflexivity | apply IH].
Qed.

Lemma commentIndex_none_prefix (x y : string) (inSingle inDouble : bool) (i : nat) :
  commentIndex inSingle inDouble i (x ++ y) = None ->
  commentIndex inSingle inDouble i x = None.
Proof.
  rewrite commentIndex_app. now destruct (commentIndex inSingle inDouble i x).
Qed.

(** The comment sign found is the first one outside quotes. *)
Lemma commentIndex_some (line : string) :
  forall (inSingle inDouble : bool) (i j : nat),
    commentIndex inSingle inDouble i line = Some j ->
    exists pre post,
      line = (pre ++ String "#" post)%string
      /\ j = i + String.length pre
      /\ commentIndex inSingle inDouble i pre = None
      /\ quoteScan inSingle inDouble pre = (false, false).
Proof.
  induction line as [| c line IH]; intros inSingle inDouble i j H; [discriminate |].
  cbn [commentIndex] in H.
  assert (Hrec : forall a b,
             commentIndex a b (S i) line = Some j ->
             (forall r, commentIndex a b (S i) r = None ->
                        commentIndex inSingle inDouble i (String c r) = None) ->
             (forall r, quoteScan inSingle inDouble (String c r) = quoteScan a b r) ->
             exists pre post,
               String c line = (pre ++ String "#" post)%string
               /\ j = i + String.length pre
               /\ commentIndex inSingle inDouble i pre = None
               /\ quoteScan inSingle inDouble pre = (false, false)).
  { intros a b Hab Hnone Hscan.
    destruct (IH a b (S i) j Hab) as (pre & post & -> & Hj & Hp & Hq).
    exists (String c pre), post. cbn [append String.length].
    split; [reflexivity |]. split; [lia |].
    split; [now apply Hnone | now rewrite Hscan]. }
  destruct (Ascii.eqb c "'") eqn:E1.
  { apply (Hrec _ _ H); intro r; cbn [commentIndex quoteScan]; now rewrite E1. }
  destruct (Ascii.eqb c doubleQuote) eqn:E2.
  { apply (Hrec _ _ H); intro r; cbn [commentIndex quoteScan]; now rewrite E1, E2. }
  destruct (Ascii.eqb c "#") eqn:E3.
  - destruct (negb inSingle && negb inDouble) eqn:Hq.
    + injection H as <-. apply Ascii.eqb_eq in E3. subst c.
      exists EmptyString, line. cbn. rewrite Nat.add_0_r.
      repeat split. now destruct inSingle, inDouble.
    + apply (Hrec _ _ H); intro r; cbn [commentIndex quoteScan];
        now rewrite E1, E2, ?E3, ?Hq.
  - apply (Hrec _ _ H); intro r; cbn [commentIndex quoteScan];
      now rewrite E1, E2, ?E3.
Qed.

Lemma takeBytes_app (pre post : string) :
  takeBytes (String.length pre) (pre ++ post) = pre.
Proof.
  induction pre as [| c pre IH]; [now destruct post |].
  cbn [String.length append takeBytes]. now rewrite IH.
Qed.

Lemma commentIndex_lacks (line : string) :
  lacksByte "#" line = true ->
  forall (inSingle inDouble : bool) (i : nat),
    commentIndex inSingle inDouble i line = None.
Proof.
  induction line as [| c line IH]; intros H inSingle inDouble i; [reflexivity |].
  cbn [lacksByte] in H. apply andb_true_iff in H. destruct H as [Hc H].
  apply negb_true_iff in Hc. cbn [commentIndex]. rewrite Hc.
  destruct (Ascii.eqb c "'"); [now apply IH |].
  destruct (Ascii.eqb c doubleQuote); now apply IH.
Qed.

(** Between double quotes nothing is a comment sign, and the quotes stay
    open until the next double quote. *)
Lemma commentIndex_in_double (body : string) :
  lacksByte doubleQuote body = true ->
  forall i, commentIndex false true i body = None
            /\ quoteScan false true body = (false, true).
Proof.
  induction body as [| c body IH]; intros H i; [split; reflexivity |].
  cbn [lacksByte] in H. apply andb_true_iff in H. destruct H as [Hc H].
  apply negb_true_iff in Hc. cbn [commentIndex quoteScan negb andb]. rewrite Hc.
  destruct (Ascii.eqb c "'"); [now apply IH |].
  destruct (Ascii.eqb c "#"); now apply IH.
Qed.

Lemma commentIndex_in_single (body : string) :
  lacksByte "'" body = true ->
  forall i, commentIndex true false i body = None
            /\ quoteScan true false body = (true, false).
Proof.
  induction body as [| c body IH]; intros H i; [split; reflexivity |].
  cbn [lacksByte] in H. apply andb_true_iff in H. destruct H as [Hc H].
  apply negb_true_iff in Hc. cbn [commentIndex quoteScan negb andb]. rewrite Hc.
  destruct (Ascii.eqb c doubleQuote); [now apply IH |].
  destruct (Ascii.eqb c "#"); now apply IH.
Qed.

(** What [stripInlineComment] returns, by cases. *)
Lemma stripInlineComment_cases (line : string) :
  (commentIndex false false 0 line = None /\ stripInlineComment line = line)
  \/ exists pre blanks comment,
       line = (pre ++ String "#" comment)%string
       /\ pre = (stripInlineComment line ++ blanks)%string
       /\ allBytes isSpaceOrTab blanks = true
       /\ firstByteIs isSpaceOrTab (strRev (stripInlineComment line)) = false
       /\ commentIndex false false 0 pre = None
       /\ quoteScan false false pre = (false, false).
Proof.
  unfold stripInlineComment.
  destruct (commentIndex false false 0 line) as [j |] eqn:H; [right | now left].
  destruct (commentIndex_some _ _ _ _ _ H) as (pre & post & -> & -> & Hp & Hq).
  cbn [Nat.add]. rewrite takeBytes_app.
  destruct (TrimRightSet_decomp isSpaceOrTab pre) as (suf & Hs & Ha & Hf).
  exists pre, suf, post. now repeat split.
Qed.

(** No comment sign is found exactly when every [#] of the line is
    inside quotes. *)
Lemma commentIndex_none_iff (line : string) (inSingle inDouble : bool) (i : nat) :
  commentIndex inSingle inDouble i line = None <->
  (forall a b, line = (a ++ String "#" b)%string ->
               quoteScan inSingle inDouble a <> (false, false)).
Proof.
  split.
  - intros H a b -> Hq. rewrite commentIndex_app in H.
    destruct (commentIndex inSingle inDouble i a); [discriminate |].
    rewrite Hq in H. cbn in H. discriminate.
  - intro H.
    destruct (commentIndex inSingle inDouble i line) as [j |] eqn:E; [| reflexivity].
    destruct (commentIndex_some _ _ _ _ _ E) as (pre & post & Hl & _ & _ & Hq).
    exfalso. exact (H pre post Hl Hq).
Qed.

(** A [#] outside quotes, with none outside quotes before it, is where the
    line is cut. *)
Lemma stripInlineComment_cut (pre comment : string) :
  quoteScan false false pre = (false, false) ->
  commentIndex false false 0 pre = None ->
  stripInlineComment (pre ++ String "#" comment) = TrimRightSet isSpaceOrTab pre.
Proof.
  intros Hq Hn. unfold stripInlineComment.
  rewrite commentIndex_app, Hn, Hq. cbn [fst snd commentIndex].
  change (Ascii.eqb "#" "'") with false.
  change (Ascii.eqb "#" doubleQuote) with false.
  change (Ascii.eqb "#" "#") with true. cbn [negb andb Nat.add].
  now rewrite takeBytes_app.
Qed.

(** X22.  [stripInlineComment] cuts a line at the first [#] that is outside
    single and double quotes, together with the spaces and tabs before it:
    when the line is [pre], then a [#] outside quotes, then the rest, and
    every [#] of [pre] is inside quotes, the result is [pre] without the
    spaces and tabs it ends with; the result differs from the line exactly
    when the line has a [#] outside quotes; a line in which every [#] is
    inside quotes is returned as it is, in particular a line without [#]
    and a line whose only [#] signs are between a pair of double or of
    single quotes.  Stripping twice is stripping once. *)
Theorem stripInlineComment_spec :
  forall line : string,
    let out := stripInlineComment line in
    (out = line
     \/ exists blanks comment,
          line = (out ++ blanks ++ String "#" comment)%string
          /\ allBytes isSpaceOrTab blanks = true
          /\ firstByteIs isSpaceOrTab (strRev out) = false)
    /\ stripInlineComment out = out
    /\ (lacksByte "#" line = true -> out = line)
    /\ (forall pre body post,
          line = (pre ++ String doubleQuote body ++ String doubleQuote post)%string ->
          lacksByte "#" pre = true -> quoteScan false false pre = (false, false) ->
          lacksByte doubleQuote body = true -> lacksByte "#" post = true ->
          out = line)
    /\ (forall pre body post,
          line = (pre ++ String "'" body ++ String "'" post)%string ->
          lacksByte "#" pre = true -> quoteScan false false pre = (false, false) ->
          lacksByte "'" body = true -> lacksByte "#" post = true ->
          out = line)
    /\ (forall pre comment,
          line = (pre ++ String "#" comment)%string ->
          quoteScan false false pre = (false, false) ->
          (forall a b, pre = (a ++ String "#" b)%string ->
                       quoteScan false false a <> (false, false)) ->
          out = TrimRightSet isSpaceOrTab pre
          /\ String.length out <= String.length pre
          /\ exists blanks,
               pre = (out ++ blanks)%string
               /\ allBytes isSpaceOrTab blanks = true
               /\ firstByteIs isSpaceOrTab (strRev out) = false)
    /\ (forall pre comment,
          line = (pre ++ String "#" comment)%string ->
          quoteScan false false pre = (false, false) ->
          out <> line /\ String.length out < String.length line)
    /\ ((forall a b, line = (a ++ String "#" b)%string ->
                     quoteScan false false a <> (false, false)) ->
        out = line).
Proof.
  intros line out. subst out. split.
  { destruct (stripInlineComment_cases line)
      as [[_ H] | (pre & blanks & comment & Hl & Hp & Ha & Hf & _)]; [now left |].
    right. exists blanks, comment. rewrite Hl at 1. rewrite Hp.
    rewrite string_app_assoc. now repeat split. }
  split.
  { destruct (stripInlineComment_cases line)
      as [[_ H] | (pre & blanks & comment & Hl & Hp & Ha & Hf & Hn & _)];
      [now rewrite H |].
    rewrite Hp in Hn. apply commentIndex_none_prefix in Hn.
    unfold stripInlineComment at 1. now rewrite Hn. }
  split.
  { intro H. unfold stripInlineComment. now rewrite commentIndex_lacks. }
  split.
  { intros pre body post -> Hpre Hq Hbody Hpost. unfold stripInlineComment.
    rewrite commentIndex_app, (commentIndex_lacks pre Hpre), Hq. cbn [fst snd].
    cbn [append commentIndex].
    change (Ascii.eqb doubleQuote "'") with false.
    change (Ascii.eqb doubleQuote doubleQuote) with true. cbn [negb].
    rewrite commentIndex_app.
    destruct (commentIndex_in_double body Hbody (S (0 + String.length pre)))
      as [Hn Hs].
    rewrite Hn, Hs. cbn [fst snd commentIndex].
    change (Ascii.eqb doubleQuote "'") with false.
    change (Ascii.eqb doubleQuote doubleQuote) with true. cbn [negb].
    now rewrite (commentIndex_lacks post Hpost). }
  split.
  { intros pre body post -> Hpre Hq Hbody Hpost. unfold stripInlineComment.
    rewrite commentIndex_app, (commentIndex_lacks pre Hpre), Hq. cbn [fst snd].
    cbn [append commentIndex].
    change (Ascii.eqb "'" "'") with true. cbn [negb].
    rewrite commentIndex_app.
    destruct (commentIndex_in_single body Hbody (S (0 + String.length pre)))
      as [Hn Hs].
    rewrite Hn, Hs. cbn [fst snd commentIndex].
    change (Ascii.eqb "'" "'") with true. cbn [negb].
    now rewrite (commentIndex_lacks post Hpost). }
  split.
  { intros pre comment -> Hq Hfirst.
    apply (commentIndex_none_iff pre false false 0) in Hfirst.
    rewrite (stripInlineComment_cut pre comment Hq Hfirst).
    destruct (TrimRightSet_decomp isSpaceOrTab pre) as (suf & Hs & Ha & Hf).
    split; [reflexivity |]. split.
    - rewrite Hs at 2. rewrite string_length_app. lia.
    - exists suf. now repeat split. }
  split.
  { intros pre comment Hl Hq.
    assert (Hlt : String.length (stripInlineComment line) < String.length line).
    { destruct (stripInlineComment_cases line)
        as [[Hn _] | (p & blanks & c & Hl' & Hp & _)].
      - exfalso.
        exact (proj1 (commentIndex_none_iff line false false 0) Hn pre comment Hl Hq).
      - rewrite Hl' at 2. rewrite Hp, !string_length_app. cbn [String.length]. lia. }
    split; [| exact Hlt]. intro He. rewrite He in Hlt. lia. }
  intro Hall. apply (commentIndex_none_iff line false false 0) in Hall.
  unfold stripInlineComment. now rewrite Hall.
Qed.

(** A pattern that holds a [#] between double quotes is kept; followed by
    blanks and a comment, the line is cut at the [#] of the comment, not at
    the one between the quotes, and the blanks go with it. *)
Lemma stripInlineComment_spec_witness :
  stripInlineComment ("artifact_pattern: " ++ DQ ++ "run#[0-9]+" ++ DQ)
  = ("artifact_pattern: " ++ DQ ++ "run#[0-9]+" ++ DQ)%string
  /\ stripInlineComment ("artifact_pattern: " ++ DQ ++ "run#[0-9]+" ++ DQ ++ "  # ids")
     = ("artifact_pattern: " ++ DQ ++ "run#[0-9]+" ++ DQ)%string.
Proof.
  split.
  - destruct (stripInlineComment_spec
                ("artifact_pattern: " ++ DQ ++ "run#[0-9]+" ++ DQ))
      as (_ & _ & _ & H & _).
    apply (H "artifact_pattern: "%string "run#[0-9]+"%string EmptyString);
      reflexivity.
  - destruct (stripInlineComment_spec
                ("artifact_pattern: " ++ DQ ++ "run#[0-9]+" ++ DQ ++ "  # ids"))
      as (_ & _ & _ & _ & _ & H & _).
    destruct (H ("artifact_pattern: " ++ DQ ++ "run#[0-9]+" ++ DQ ++ "  ")%string
                " ids"%string eq_refl eq_refl) as (Hout & _).
    + apply (commentIndex_none_iff _ false false 0). reflexivity.
    + etransitivity; [exact Hout | reflexivity].
Defined.

Lemma countLeadingFrom_spec (line : string) :
  forall count : nat,
    exists n rest,
      line = (repeatByte " " n ++ rest)%string
      /\ startsWith " " rest = false
      /\ countLeadingFrom count line
         = if startsWith tab rest then None else Some (count + n).
Proof.
  induction line as [| c line IH]; intro count.
  - exists 0, EmptyString. cbn. rewrite Nat.add_0_r. repeat split.
  - cbn [countLeadingFrom]. destruct (Ascii.eqb c " ") eqn:Hc.
    + destruct (IH (S count)) as (n & rest & Hl & Hs & Hr).
      exists (S n), rest. apply Ascii.eqb_eq in Hc. subst c.
      cbn [repeatByte append]. rewrite <- Hl, Hr.
      replace (S count + n) with (count + S n) by lia. repeat split. exact Hs.
    + exists 0, (String c line). cbn [repeatByte append startsWith].
      rewrite Hc, Nat.add_0_r. repeat split.
Qed.

(** X23.  [countLeadingSpaces] counts the spaces a line starts with and
    fails exactly when the first byte after them is a tab.
    [preprocessYAMLLine] works on the line without trailing carriage
    returns and without its comment: it skips the line exactly when what is
    left is blank or one of the markers [---] and [...], whatever the
    indentation is made of; otherwise it fails exactly when the first byte
    after the leading spaces is a tab, and else returns the text trimmed of
    white space, which is not empty, with the number of leading spaces. *)
Theorem preprocessYAMLLine_spec :
  forall line : string,
    let stripped :=
      stripInlineComment (TrimRightSet (fun c => Ascii.eqb c carriageReturn) line) in
    let text := TrimSpace stripped in
    let skipped := text = "" \/ text = "---" \/ text = "..." in
    (exists n rest,
       line = (repeatByte " " n ++ rest)%string
       /\ startsWith " " rest = false
       /\ countLeadingSpaces line = if startsWith tab rest then None else Some n)
    /\ (preprocessYAMLLine line = LineSkipped <-> skipped)
    /\ (exists n rest,
          stripped = (repeatByte " " n ++ rest)%string
          /\ startsWith " " rest = false
          /\ (~ skipped -> startsWith tab rest = true ->
              preprocessYAMLLine line = LineTabError)
          /\ (~ skipped -> startsWith tab rest = false ->
              preprocessYAMLLine line = LineContent text n))
    /\ (forall trimmed indent,
          preprocessYAMLLine line = LineContent trimmed indent ->
          trimmed <> "" /\ TrimSpace trimmed = trimmed).
Proof.
  intros line stripped text skipped.
  split; [exact (countLeadingFrom_spec line 0) |].
  assert (Hskip : isEmpty text || (text =? "---")%string || (text =? "...")%string
                  = true <-> skipped).
  { unfold skipped. rewrite !orb_true_iff, isEmpty_true, !String.eqb_eq. tauto. }
  assert (Hpre : preprocessYAMLLine line =
                 if isEmpty text || (text =? "---")%string || (text =? "...")%string
                 then LineSkipped
                 else match countLeadingSpaces stripped with
                      | None => LineTabError
                      | Some indent => LineContent text indent
                      end) by reflexivity.
  split.
  { rewrite Hpre. rewrite <- Hskip.
    destruct (isEmpty text || _ || _); [tauto |].
    split; [| discriminate]. now destruct (countLeadingSpaces stripped). }
  split.
  { destruct (countLeadingFrom_spec stripped 0) as (n & rest & Hl & Hs & Hr).
    exists n, rest. split; [exact Hl |]. split; [exact Hs |].
    fold (countLeadingSpaces stripped) in Hr. cbn [Nat.add] in Hr.
    split; intros Hns Ht; rewrite Hpre;
      (destruct (isEmpty text || _ || _) eqn:Hb;
       [exfalso; apply Hns, Hskip; reflexivity |]);
      now rewrite Hr, Ht. }
  intros trimmed indent H. rewrite Hpre in H.
  destruct (isEmpty text || _ || _) eqn:Hb; [discriminate |].
  destruct (countLeadingSpaces stripped); [| discriminate].
  injection H as <- _. split.
  - intro H0. rewrite H0 in Hb. discriminate.
  - apply TrimSpace_idem.
Qed.

(** A comment line indented with a tab is skipped, a key indented with a
    tab is an error, and a key indented with two spaces is read. *)
Lemma preprocessYAMLLine_spec_witness :
  preprocessYAMLLine (TAB ++ "# defaults") = LineSkipped
  /\ preprocessYAMLLine (TAB ++ "remote: u@h") = LineTabError
  /\ preprocessYAMLLine "  remote: u@h  # login node" = LineContent "remote: u@h" 2.
Proof.
  split.
  { apply (preprocessYAMLLine_spec (TAB ++ "# defaults")). now left. }
  split.
  { destruct (preprocessYAMLLine_spec (TAB ++ "remote: u@h"))
      as (_ & _ & (n & rest & Hl & Hs & Ht & _) & _).
    apply Ht.
    - vm_compute. intros [H | [H | H]]; discriminate.
    - destruct n; [| discriminate Hl]. cbn in Hl. now rewrite <- Hl. }
  reflexivity.
Defined.

(** ** The configuration file *)

Lemma Split_sep_not_nil (sep : ascii) (x : string) : Split sep x <> [].
Proof.
  destruct x as [| c x]; cbn [Split]; [discriminate |].
  destruct (Ascii.eqb c sep); [discriminate |].
  destruct (Split sep x); discriminate.
Qed.

Lemma Split_app_sep (sep : ascii) (a b : string) :
  Split sep (a ++ String sep b) = Split sep a ++ Split sep b.
Proof.
  induction a as [| c a IH]; cbn [append Split].
  - now rewrite Ascii.eqb_refl.
  - destruct (Ascii.eqb c sep); [now rewrite IH |].
    rewrite IH. pose proof (Split_sep_not_nil sep a) as Hne.
    destruct (Split sep a); [contradiction | reflexivity].
Qed.

Lemma Join_snoc (l : list string) (x sep : string) :
  GoStrings.Join (l ++ [x]) sep
  = match l with
    | [] => x
    | _ => (GoStrings.Join l sep ++ sep ++ x)%string
    end.
Proof.
  induction l as [| a l IH]; [reflexivity |].
  destruct l as [| b l]; [reflexivity |].
  change (GoStrings.Join ((a :: b :: l) ++ [x]) sep)
    with (a ++ sep ++ GoStrings.Join ((b :: l) ++ [x]) sep)%string.
  rewrite IH.
  change (GoStrings.Join (a :: b :: l) sep)
    with (a ++ sep ++ GoStrings.Join (b :: l) sep)%string.
  now rewrite !string_app_assoc.
Qed.

(** A path cleaned with a plain last component ends in that component,
    after a slash when something comes before it. *)
Lemma Clean_last (front file : string) :
  plainComponent file ->
  exists pre,
    Filepath.Clean (front ++ String "/" file) = (pre ++ file)%string
    /\ (pre = EmptyString \/ exists x, pre = (x ++ "/")%string).
Proof.
  intros Hfile. assert (Hplain := Hfile). destruct Hfile as (Hne & _ & _ & Hl).
  unfold Filepath.Clean.
  assert (He : isEmpty (front ++ String "/" file) = false) by now destruct front.
  rewrite He. cbv zeta.
  rewrite Split_app_sep, (Split_lacks_one _ _ Hl), fold_left_app.
  cbn [fold_left]. rewrite cleanStep_plain by exact Hplain.
  cbn [rev]. rewrite Join_snoc.
  set (stack := fold_left _ (Split "/" front) []).
  destruct (HasPrefix (front ++ String "/" file) "/").
  - destruct (rev stack) as [| a l].
    + exists "/"%string. split; [reflexivity | right; now exists EmptyString].
    + exists ("/" ++ GoStrings.Join (a :: l) "/" ++ "/")%string. split.
      * cbn [append]. now rewrite ?string_app_assoc.
      * right. exists ("/" ++ GoStrings.Join (a :: l) "/")%string.
        cbn [append]. now rewrite ?string_app_assoc.
  - destruct (rev stack) as [| a l].
    + exists EmptyString. apply isEmpty_false in Hne. rewrite Hne.
      split; [reflexivity | now left].
    + assert (Hb : isEmpty (GoStrings.Join (a :: l) "/" ++ "/" ++ file) = false)
        by (destruct (GoStrings.Join (a :: l) "/"); reflexivity).
      rewrite Hb. exists (GoStrings.Join (a :: l) "/" ++ "/")%string. split.
      * now rewrite ?string_app_assoc.
      * right. now exists (GoStrings.Join (a :: l) "/").
Qed.

Lemma extFrom_slash (a b : string) :
  lacksByte "/" a = true ->
  forall acc, extFrom acc (a ++ String "/" b) = extFrom acc a.
Proof.
  induction a as [| c a IH]; intros H acc; [reflexivity |].
  cbn [lacksByte] in H. apply andb_true_iff in H. destruct H as [Hc H].
  apply negb_true_iff in Hc. cbn [append extFrom]. rewrite Hc.
  destruct (Ascii.eqb c "."); [reflexivity | now apply IH].
Qed.

(** The extension of a file in a directory is the extension of the file. *)
Lemma Ext_Join (dir file : string) :
  plainComponent file -> Ext (Filepath.Join [dir; file]) = Ext file.
Proof.
  intro Hfile. assert (Hl : lacksByte "/" file = true) by apply Hfile.
  assert (Hpre : exists pre,
             Filepath.Join [dir; file] = (pre ++ file)%string
             /\ (pre = EmptyString \/ exists x, pre = (x ++ "/")%string)).
  { destruct dir as [| c dir].
    - cbn [Filepath.Join isEmpty].
      destruct file as [| c file]; [now destruct Hfile |]. cbn [isEmpty GoStrings.Join].
      destruct (Clean_last EmptyString (String c file) Hfile) as (pre & Hc & Hp).
      exists EmptyString. split; [| now left]. cbn [append].
      unfold Filepath.Clean. cbn [isEmpty]. cbv zeta.
      rewrite (Split_lacks_one _ _ Hl). cbn [fold_left].
      rewrite cleanStep_plain by exact Hfile. cbn [rev app GoStrings.Join].
      assert (Hr : HasPrefix (String c file) "/" = false).
      { unfold HasPrefix. cbn [String.prefix].
        cbn [lacksByte] in Hl. apply andb_true_iff in Hl. destruct Hl as [Hc' _].
        apply negb_true_iff in Hc'.
        destruct (ascii_dec "/" c) as [<- |]; [discriminate Hc' | reflexivity]. }
      now rewrite Hr.
    - cbn [Filepath.Join isEmpty GoStrings.Join].
      change (String c dir ++ "/" ++ file)%string
        with (String c dir ++ String "/" file)%string.
      now apply Clean_last. }
  destruct Hpre as (pre & -> & [-> | [x ->]]); [reflexivity |].
  unfold Ext. rewrite !strRev_app. cbn [strRev append].
  apply extFrom_slash. now rewrite lacksByte_strRev.
Qed.

Lemma loadConfigFrom_first (readFile : string -> ReadResult)
    (unmarshal : string -> string -> Config -> Config * bool)
    (before : list string) (configPath : string) (after : list string) :
  Forall (fun p => readFile p = ReadNotExist) before ->
  readFile configPath <> ReadNotExist ->
  loadConfigFrom readFile unmarshal (before ++ configPath :: after)
  = (configOutcome readFile unmarshal configPath, before ++ [configPath]).
Proof.
  intros Hb Hp. induction Hb as [| p before Hn _ IH].
  - cbn [app loadConfigFrom]. unfold configOutcome.
    destruct (readFile configPath) as [data | |]; [| contradiction | reflexivity].
    destruct (TrimSpace data); [reflexivity |].
    cbn [String.length Nat.eqb isEmpty].
    now destruct (unmarshal _ _ _) as [cfg [|]].
  - cbn [app loadConfigFrom]. rewrite Hn, IH.
    now destruct (configOutcome readFile unmarshal configPath).
Qed.

Lemma loadConfigFrom_none (readFile : string -> ReadResult)
    (unmarshal : string -> string -> Config -> Config * bool)
    (paths : list string) :
  Forall (fun p => readFile p = ReadNotExist) paths ->
  loadConfigFrom readFile unmarshal paths = (None, None, paths).
Proof.
  induction 1 as [| p paths Hn _ IH]; [reflexivity |].
  cbn [loadConfigFrom]. now rewrite Hn, IH.
Qed.

(** X24.  [loadConfig] looks for [config.yaml], [config.yml] and
    [config.json] in the configuration directory, in this order, and the
    first of them that is there decides: when it cannot be read or parsed
    the load fails, when it is blank the configuration is empty, and no
    later candidate is read; only when none is there does the load return
    no configuration and no error.  Each file is parsed with its own
    extension, and a directory that cannot be set up fails the load before
    any file is read. *)
Theorem loadConfig_precedence :
  forall (w : World) (readFile : string -> ReadResult)
         (unmarshal : string -> string -> Config -> Config * bool),
    let res := loadConfig w readFile unmarshal in
    let outcome := configOutcome readFile unmarshal in
    (forall e, snd (configDir w) = Some e -> res = (None, Some e, []))
    /\ (forall dir,
          configDir w = (dir, None) ->
          let yaml := Filepath.Join [dir; "config.yaml"] in
          let yml := Filepath.Join [dir; "config.yml"] in
          let json := Filepath.Join [dir; "config.json"] in
          (readFile yaml <> ReadNotExist -> res = (outcome yaml, [yaml]))
          /\ (readFile yaml = ReadNotExist -> readFile yml <> ReadNotExist ->
              res = (outcome yml, [yaml; yml]))
          /\ (readFile yaml = ReadNotExist -> readFile yml = ReadNotExist ->
              res = (outcome json, [yaml; yml; json]))
          /\ Ext yaml = ".yaml" /\ Ext yml = ".yml" /\ Ext json = ".json")
    /\ (forall configPath,
          readFile configPath = ReadNotExist -> outcome configPath = (None, None))
    /\ (forall configPath data,
          readFile configPath = ReadData data -> TrimSpace data = "" ->
          outcome configPath = (Some (emptyConfig configPath), None)).
Proof.
  intros w readFile unmarshal res outcome. subst res outcome.
  unfold loadConfig, defaultConfigPaths.
  split.
  { intros e He. destruct (configDir w) as [dir [e' |]]; [| discriminate].
    cbn [snd] in He. now injection He as ->. }
  split.
  { intros dir ->. cbv zeta.
    split.
    { intro H. exact (loadConfigFrom_first readFile unmarshal [] _ _
                        (Forall_nil _) H). }
    split.
    { intros H1 H2.
      exact (loadConfigFrom_first readFile unmarshal [_] _ _
               (Forall_cons _ H1 (Forall_nil _)) H2). }
    split.
    { intros H1 H2.
      destruct (readFile (Filepath.Join [dir; "config.json"])) eqn:H3.
      - apply (loadConfigFrom_first readFile unmarshal [_; _] _ []);
          [repeat constructor; assumption | now rewrite H3].
      - rewrite loadConfigFrom_none by (repeat constructor; assumption).
        unfold configOutcome. now rewrite H3.
      - apply (loadConfigFrom_first readFile unmarshal [_; _] _ []);
          [repeat constructor; assumption | now rewrite H3]. }
    split; [| split]; rewrite Ext_Join; try reflexivity;
      (split; [discriminate |]); (split; [discriminate |]);
      (split; [discriminate | reflexivity]). }
  split.
  - intros configPath H. unfold configOutcome. now rewrite H.
  - intros configPath data H Hblank. unfold configOutcome. now rewrite H, Hblank.
Qed.

(** Only [config.yml] and [config.json] are there, and [config.yml] is
    blank: the configuration is the empty one of [config.yml], and
    [config.json] is not read. *)
Lemma loadConfig_precedence_witness :
  let readFile p :=
    if (p =? "/home/user/.exp/config.yaml")%string then ReadNotExist
    else if (p =? "/home/user/.exp/config.yml")%string then ReadData LF
    else ReadData "{}" in
  snd (loadConfig (Stub.world [] []) readFile (fun _ _ cfg => (cfg, false)))
  = ["/home/user/.exp/config.yaml"; "/home/user/.exp/config.yml"].
Proof.
  cbv zeta.
  destruct (loadConfig_precedence (Stub.world [] [])
              (fun p => if (p =? "/home/user/.exp/config.yaml")%string
                        then ReadNotExist
                        else if (p =? "/home/user/.exp/config.yml")%string
                             then ReadData LF
                             else ReadData "{}")
              (fun _ _ cfg => (cfg, false))) as (_ & H & _).
  destruct (H "/home/user/.exp" eq_refl) as (_ & H2 & _).
  cbv zeta in H2. rewrite H2; [reflexivity | reflexivity | discriminate].
Defined.

(** ** Reading the output of find *)

Lemma spaceWidthRev_after_slash (q r : string) :
  spaceWidthRev q = 0 -> q <> EmptyString ->
  spaceWidthRev (q ++ String "/" (String "." r)) = 0.
Proof.
  intros Hw Hne. destruct q as [| e q1]; [contradiction |].
  cbn [append spaceWidthRev] in *.
  destruct (isAsciiSpace e); [discriminate |].
  destruct q1 as [| d q2]; cbn [append] in *.
  - reflexivity.
  - destruct (isSpace2 (code d) (code e)); [discriminate |].
    destruct q2 as [| c q3]; cbn [append] in *; [reflexivity | exact Hw].
Qed.

Lemma trimmed_widths (p : string) :
  TrimSpace p = p -> spaceWidth p = 0 /\ spaceWidthRev (strRev p) = 0.
Proof.
  intro H. split.
  - rewrite <- H. apply spaceWidth_TrimSpace.
  - rewrite <- H. apply TrimRightSpace_stop.
Qed.

(** A path as find prints it, [./] and a name, is not changed by
    [TrimSpace], whatever comes before it on the left. *)
Lemma TrimRightSpace_find_line (a p : string) :
  TrimSpace p = p -> p <> EmptyString ->
  spaceWidthRev (strRev (a ++ "./" ++ p)) = 0.
Proof.
  intros Ht Hne. destruct (trimmed_widths p Ht) as [_ Hr].
  replace (strRev (a ++ "./" ++ p))
    with (strRev p ++ String "/" (String "." (strRev a)))%string
    by (rewrite strRev_app; cbn [append strRev];
        now rewrite !string_app_assoc).
  apply spaceWidthRev_after_slash; [exact Hr |].
  intro H0. apply Hne. rewrite <- (strRev_involutive p), H0. reflexivity.
Qed.

Lemma TrimSpace_find_line (p : string) :
  TrimSpace p = p -> p <> EmptyString ->
  TrimSpace ("./" ++ p) = ("./" ++ p)%string.
Proof.
  intros Ht Hne. unfold TrimSpace.
  rewrite TrimLeftSpace_fixed by (cbn [append]; now destruct p).
  apply TrimRightSpace_fixed.
  exact (TrimRightSpace_find_line EmptyString p Ht Hne).
Qed.

Lemma findLines_find_output (ps : list string) :
  Forall (fun p => p <> EmptyString /\ TrimSpace p = p) ps ->
  findLines (map (append "./") ps) = ps.
Proof.
  induction 1 as [| p ps [Hne Ht] _ IH]; [reflexivity |].
  cbn [map findLines]. rewrite (TrimSpace_find_line p Ht Hne).
  change ("./" ++ p)%string with (String "." (String "/" p)).
  cbn [isEmpty orb].
  assert (Hdot : (String "." (String "/" p) =? ".")%string = false) by reflexivity.
  rewrite Hdot. unfold TrimPrefix.
  assert (Hp : HasPrefix (String "." (String "/" p)) "./" = true)
    by (unfold HasPrefix; cbn; now destruct p).
  rewrite Hp. cbn [String.length dropBytes]. now rewrite IH.
Qed.

Lemma TrimSpace_find_output (ps : list string) :
  ps <> [] ->
  Forall (fun p => p <> EmptyString /\ TrimSpace p = p) ps ->
  TrimSpace (GoStrings.Join (map (append "./") ps) LF ++ LF)
  = GoStrings.Join (map (append "./") ps) LF.
Proof.
  intros Hne Hall.
  rewrite TrimSpace_app_rune by (apply (SpaceRune1 newline); reflexivity).
  unfold TrimSpace.
  assert (Hleft : spaceWidth (GoStrings.Join (map (append "./") ps) LF) = 0).
  { destruct ps as [| p ps]; [contradiction |]. cbn [map].
    assert (Hj : exists r, GoStrings.Join (("./" ++ p)%string :: map (append "./") ps) LF
                           = String "." (String "/" r)).
    { destruct (map (append "./") ps); cbn; eauto. }
    destruct Hj as [r ->]. now destruct r as [| c [| d r]]. }
  rewrite TrimLeftSpace_fixed by exact Hleft.
  apply TrimRightSpace_fixed.
  destruct (exists_last Hne) as (front & plast & ->).
  apply Forall_app in Hall. destruct Hall as [_ Hlast].
  inversion Hlast as [| ? ? [Hpne Hpt] _]; subst.
  rewrite map_app. cbn [map]. rewrite Join_snoc.
  destruct (map (append "./") front) as [| x l].
  - exact (TrimRightSpace_find_line EmptyString plast Hpt Hpne).
  - rewrite <- string_app_assoc.
    exact (TrimRightSpace_find_line _ plast Hpt Hpne).
Qed.

(** X26.  [listRemoteFiles] reads the output of find back as the files
    find printed: when the remote command succeeds and prints the lines
    [./p] for names [p] that are not empty, hold no line feed and neither
    start nor end in white space, the files returned are exactly these
    names, in order, whatever else they hold (spaces inside, quotes,
    non-ASCII bytes); output that is blank gives no files and no error. *)
Theorem listingResult_find_output :
  forall (cmd : string) (r : ExecResult) (ps : list string),
    exitErr r = false ->
    (TrimSpace (out r) = "" -> listingResult cmd r = ([], cmd, None))
    /\ (ps <> [] ->
        Forall (fun p => p <> "" /\ TrimSpace p = p /\ noNewline p = true) ps ->
        out r = (GoStrings.Join (map (append "./") ps) LF ++ LF)%string ->
        listingResult cmd r = (ps, cmd, None)).
Proof.
  intros cmd r ps Hok. unfold listingResult. rewrite Hok. split.
  - intros ->. reflexivity.
  - intros Hne Hall Hout.
    assert (Htrim : Forall (fun p => p <> EmptyString /\ TrimSpace p = p) ps).
    { eapply Forall_impl; [| exact Hall]. intros p (H1 & H2 & _). now split. }
    rewrite Hout, (TrimSpace_find_output ps Hne Htrim).
    assert (Hj : isEmpty (GoStrings.Join (map (append "./") ps) LF) = false).
    { destruct ps as [| p ps]; [contradiction |]. cbn [map].
      destruct (map (append "./") ps); reflexivity. }
    rewrite Hj, Split_Join.
    + now rewrite findLines_find_output.
    + intro H0. apply map_eq_nil in H0. contradiction.
    + apply Forall_map. eapply Forall_impl; [| exact Hall].
      intros p (_ & _ & Hn). exact Hn.
Qed.

(** Two files, one of them with a space in its name. *)
Lemma listingResult_find_output_witness :
  listingResult "find"
    (Stub.okExec ("./results/run 1.json" ++ LF ++ "./log.txt" ++ LF))
  = (["results/run 1.json"; "log.txt"], "find", None).
Proof.
  apply (listingResult_find_output "find"
           (Stub.okExec ("./results/run 1.json" ++ LF ++ "./log.txt" ++ LF))
           ["results/run 1.json"; "log.txt"]%string).
  - reflexivity.
  - discriminate.
  - repeat constructor; discriminate.
  - reflexivity.
Defined.

(** ** From the settings of a run to its sources *)

Lemma copyArtifactSources_nil (src : list ArtifactSource) :
  copyArtifactSources src = [] -> src = [].
Proof. destruct src; [reflexivity | discriminate]. Qed.

(** X27.  The checks of [cmdRun] fit together.  For settings that passed
    the checks and a destination that was set up, the part that settles the
    artifact sources never fails for want of sources: its error for a
    destination without sources cannot occur.  Without configured sources
    it does not fail at all: the run has the one source of the artifact
    remote, with the cleaned patterns, when a destination is given, and no
    source when none is given.  An error can only come from a configured
    source whose path is empty or relative. *)
Theorem cmdRunSources_after_checks :
  forall (w : World) (flagPatterns : list string) (s s' : Run.Settings)
         (patterns : list string) (artifactDestAbs : string),
    checkSettings flagPatterns s = (Some (s', patterns), None) ->
    cmdRunDest w (Run.artifactDest s') = (artifactDestAbs, None) ->
    let res := cmdRunSources (Run.artifactSources s') (Run.artifactRemote s')
                 artifactDestAbs patterns in
    snd res <> Some RunSourcesRequired
    /\ (Run.artifactSources s' = [] ->
        exists r,
          res = (Some r, None)
          /\ (Run.artifactDest s' <> "" ->
              runSources r = [mkSource (Run.artifactRemote s') (ensurePatterns patterns)]
              /\ runPrimaryRemote r = Run.artifactRemote s')
          /\ (Run.artifactDest s' = "" -> runSources r = []))
    /\ (forall e, snd res = Some e ->
          exists src, In src (Run.artifactSources s')
                      /\ (Path src = "" \/ HasPrefix (Path src) "/" = false)).
Proof.
  intros w flagPatterns s s' patterns artifactDestAbs Hc Hd res.
  destruct (checkSettings_ok _ _ _ _ Hc) as (-> & _ & _ & _ & _ & _ & Habs & Hpair).
  assert (Hdest : Run.artifactDest s = EmptyString -> artifactDestAbs = EmptyString).
  { intro H0. unfold cmdRunDest in Hd. rewrite H0 in Hd. cbn in Hd. congruence. }
  assert (Hnil : Run.artifactSources s = [] ->
            exists r,
              res = (Some r, None)
              /\ (Run.artifactDest s <> EmptyString ->
                  runSources r = [mkSource (Run.artifactRemote s) (ensurePatterns patterns)]
                  /\ runPrimaryRemote r = Run.artifactRemote s)
              /\ (Run.artifactDest s = EmptyString -> runSources r = [])).
  { intro Hs. specialize (Hpair Hs). subst res. unfold cmdRunSources.
    rewrite Hs. cbn [copyArtifactSources List.length Nat.eqb andb].
    destruct (Run.artifactRemote s) as [| c remote] eqn:Hr.
    - assert (Hd0 : Run.artifactDest s = EmptyString) by now apply Hpair.
      rewrite (Hdest Hd0). cbn.
      eexists. split; [reflexivity |]. split; [now intro | reflexivity].
    - cbn [isEmpty negb List.length Nat.eqb andb].
      rewrite andb_false_r. cbn [checkSources Path Patterns isEmpty].
      assert (Ha : HasPrefix (String c remote) "/" = true) by (apply Habs; discriminate).
      rewrite Ha. cbn [negb].
      eexists. split; [reflexivity |]. cbn [runSources runPrimaryRemote].
      split.
      { intros _. split; [| reflexivity].
        rewrite !ensurePatterns_trimmedNonEmpty.
        now rewrite (trimmedNonEmpty_fixed _ (trimmedNonEmpty_allTrimmed _)). }
      intro Hd0. apply Hpair in Hd0. discriminate Hd0. }
  assert (Hin : forall i sources e,
             snd (checkSources i sources) = Some e ->
             exists src, In src sources
                         /\ (Path src = EmptyString \/ HasPrefix (Path src) "/" = false)).
  { intros i sources. revert i.
    induction sources as [| src sources IH]; intros i e H; [discriminate |].
    cbn [checkSources] in H.
    destruct (isEmpty (Path src)) eqn:H1.
    { exists src. split; [now left |]. left. now apply isEmpty_true. }
    destruct (HasPrefix (Path src) "/") eqn:H2; cbn [negb] in H.
    2:{ exists src. split; [now left | now right]. }
    destruct (checkSources (S i) sources) as [rest [e' |]] eqn:H3; [| discriminate].
    destruct (IH (S i) e') as (x & Hx & Hbad); [now rewrite H3 |].
    exists x. split; [now right | exact Hbad]. }
  split; [| split; [exact Hnil |]].
  - destruct (Run.artifactSources s) as [| src0 srcs] eqn:Hs.
    + destruct (Hnil eq_refl) as (r & Hres & _). rewrite Hres. discriminate.
    + subst res. unfold cmdRunSources. rewrite ?Hs.
      cbn [copyArtifactSources List.length Nat.eqb andb map].
      rewrite andb_false_r.
      destruct (checkSources 0 _) as [rest [e |]] eqn:Hcs; [| discriminate].
      cbn [snd]. intro H. injection H as ->.
      cbn [checkSources Path Patterns] in Hcs.
      destruct (isEmpty (Path src0)); [discriminate |].
      destruct (negb (HasPrefix (Path src0) "/")); [discriminate |].
      assert (Hno : forall i l, snd (checkSources i l) <> Some RunSourcesRequired).
      { intros i l. revert i. induction l as [| x l IHl]; intro i; [discriminate |].
        cbn [checkSources]. destruct (isEmpty (Path x)); [discriminate |].
        destruct (negb (HasPrefix (Path x) "/")); [discriminate |].
        specialize (IHl (S i)).
        destruct (checkSources (S i) l) as [r' [e' |]]; [| discriminate].
        cbn [snd] in *. exact IHl. }
      match type of Hcs with
      | context [checkSources 1 ?l] =>
          specialize (Hno 1 l); destruct (checkSources 1 l) as [r' [e' |]]
      end; [| discriminate].
      cbn [snd] in Hno. injection Hcs as _ ->. now contradiction Hno.
  - intros e He.
    destruct (Run.artifactSources s) as [| src0 srcs] eqn:Hs.
    { destruct (Hnil eq_refl) as (r & Hres & _). rewrite Hres in He. discriminate. }
    subst res. unfold cmdRunSources in He. rewrite ?Hs in He.
    cbn [copyArtifactSources List.length Nat.eqb andb] in He.
    rewrite andb_false_r in He.
    destruct (checkSources 0 _) as [rest [e' |]] eqn:Hcs; [| discriminate].
    destruct (Hin 0 _ e' ltac:(now rewrite Hcs)) as (x & Hx & Hbad).
    apply in_map_iff in Hx. destruct Hx as (y & <- & Hy).
    exists y. split; [exact Hy | exact Hbad].
Qed.

(** A run with [--artifact-remote] and [--artifact-dest] and no configured
    sources. *)
Lemma cmdRunSources_after_checks_witness :
  let s := Run.mkSettings "user@host" "run1" "/logs" "/jobs/run.sbatch" "" ""
             "/data/out" "~/results" [" \.json$ "] [] true defaultPollInterval "" in
  exists r,
    cmdRunSources [] "/data/out" "/home/user/results" [" \.json$ "] = (Some r, None)
    /\ runSources r = [mkSource "/data/out" ["\.json$"]].
Proof.
  cbv zeta.
  destruct (cmdRunSources_after_checks (Stub.world [] []) []
              (Run.mkSettings "user@host" "run1" "/logs" "/jobs/run.sbatch" "" ""
                 "/data/out" "~/results" [" \.json$ "] [] true defaultPollInterval "")
              (Run.mkSettings "user@host" "run1" "/logs" "/jobs/run.sbatch" "" ""
                 "/data/out" "~/results" [" \.json$ "] [] true defaultPollInterval "")
              [" \.json$ "] "/home/user/results" eq_refl eq_refl)
    as (_ & H & _).
  destruct (H eq_refl) as (r & Hr & Hs & _).
  exists r. split; [exact Hr |].
  destruct Hs as [Hs _]; [discriminate |]. rewrite Hs. reflexivity.
Defined.
